(** * f-jira: text extraction, relational store, exporters and API client

    A shallow embedding of the Python sources [db.py], [export.py],
    [api.py] and [confluence_api.py].  Python values decoded from JSON are
    the inductive [json]; a Python [dict] is an association list in
    insertion order; functions that can raise return [result]; strings are
    [string], one [ascii] per character (the code points below 256). *)

From Stdlib Require Import List String Ascii ZArith Lia Bool Arith SpecFloat.
From Stdlib Require Import DecimalString.
From Stdlib Require Import Permutation Sorted.
Import ListNotations.
Open Scope string_scope.

(** ** Python values and exceptions *)

Module Py.

Inductive exn :=
| AttributeError
| TypeError
| KeyError
| ValueError
| OverflowError
| RecursionError
| AssertionError
| JSONDecodeError
| ProgrammingError
| IntegrityError
| UnboundLocalError
| TransportError.

Inductive result (A : Type) :=
| Ok (a : A)
| Raise (e : exn).
Arguments Ok {A} a.
Arguments Raise {A} e.

Definition bind {A B} (r : result A) (k : A -> result B) : result B :=
  match r with
  | Ok a => k a
  | Raise e => Raise e
  end.

Definition fmap {A B} (f : A -> B) (r : result A) : result B :=
  bind r (fun a => Ok (f a)).

Declare Scope py_scope.
Delimit Scope py_scope with py.
Notation "x <- e ;; k" := (bind e (fun x => k))
  (at level 61, e at next level, right associativity) : py_scope.
Open Scope py_scope.

(** [for x in xs: ...] collecting one value per iteration; the first
    exception ends the loop. *)
Fixpoint mapM {A B} (f : A -> result B) (xs : list A) : result (list B) :=
  match xs with
  | [] => Ok []
  | x :: xs' => y <- f x ;; ys <- mapM f xs' ;; Ok (y :: ys)
  end.

(** [for x in xs: ...] threading an accumulator. *)
Fixpoint foldM {A S} (f : S -> A -> result S) (xs : list A) (s : S) : result S :=
  match xs with
  | [] => Ok s
  | x :: xs' => s' <- f s x ;; foldM f xs' s'
  end.

(** A value as [json.loads] and the HTTP client's [.json()] build it. *)
#[warnings="-register-all"]
Inductive json :=
| JNull
| JBool (b : bool)
| JInt (z : Z)
| JFloat (f : spec_float)
| JStr (s : string)
| JArr (l : list json)
| JObj (kv : list (string * json)).

Definition nl : string := String "010"%char "".

(** *** Characters and strings *)

(** [str.isspace] and the regular expression class [\s] on one character:
    code points 9-13, 28-32, 133 and 160. *)
Definition isspace (c : ascii) : bool :=
  let n := nat_of_ascii c in
  (((9 <=? n) && (n <=? 13)) || ((28 <=? n) && (n <=? 32))
   || (n =? 133) || (n =? 160))%nat.

Fixpoint lstrip (s : string) : string :=
  match s with
  | String c s' => if isspace c then lstrip s' else s
  | EmptyString => EmptyString
  end.

Fixpoint rstrip (s : string) : string :=
  match s with
  | String c s' =>
      match rstrip s' with
      | EmptyString => if isspace c then EmptyString else String c EmptyString
      | r => String c r
      end
  | EmptyString => EmptyString
  end.

(** [s.strip()] *)
Definition strip (s : string) : string := rstrip (lstrip s).

(** [s.split(sep)] for a one-character separator. *)
Fixpoint split_char (sep : ascii) (s : string) : list string :=
  match s with
  | EmptyString => [EmptyString]
  | String c s' =>
      if Ascii.eqb c sep then EmptyString :: split_char sep s'
      else match split_char sep s' with
           | w :: ws => String c w :: ws
           | [] => [String c EmptyString]
           end
  end.

(** [sep.join(parts)] on strings. *)
Definition join (sep : string) (parts : list string) : string :=
  String.concat sep parts.

Fixpoint contains_char (c : ascii) (s : string) : bool :=
  match s with
  | EmptyString => false
  | String c' s' => Ascii.eqb c c' || contains_char c s'
  end.

(** [c * n] for a one-character string. *)
Fixpoint repeat_char (c : ascii) (n : nat) : string :=
  match n with
  | O => EmptyString
  | S n' => String c (repeat_char c n')
  end.

Definition str_of_nat (n : nat) : string :=
  NilZero.string_of_uint (Nat.to_uint n).

(** [str(z)] on an int. *)
Definition str_of_Z (z : Z) : string :=
  match z with
  | Z0 => "0"
  | Zpos p => str_of_nat (Pos.to_nat p)
  | Zneg p => "-" ++ str_of_nat (Pos.to_nat p)
  end.

(** [s.rsplit(sep, 1)[0]]: the text before the last [sep], the whole of
    [s] when [sep] does not occur. *)
Fixpoint before_last (sep : ascii) (s : string) : string :=
  match s with
  | EmptyString => EmptyString
  | String c s' =>
      if contains_char sep s' then String c (before_last sep s')
      else if Ascii.eqb c sep then EmptyString
      else s
  end.

(** [f == 0] on a float: both zeros, and no other value. *)
Definition float_is_zero (f : spec_float) : bool :=
  match f with S754_zero _ => true | _ => false end.

(** [n >= f] between an int and a float, compared exactly. *)
Definition Z_ge_float (n : Z) (f : spec_float) : bool :=
  match f with
  | S754_nan => false
  | S754_infinity s => s
  | S754_zero _ => (0 <=? n)%Z
  | S754_finite s m e =>
      let v := if s then Zneg m else Zpos m in
      (if (0 <=? e)%Z then (v * 2 ^ e <=? n) else (v <=? n * 2 ^ (- e)))%Z
  end.

(** *** Dictionaries *)

Fixpoint lookup {V} (k : string) (kv : list (string * V)) : option V :=
  match kv with
  | [] => None
  | (k', v) :: kv' => if String.eqb k k' then Some v else lookup k kv'
  end.

(** [d[k] = v]: an existing key keeps its place. *)
Fixpoint dict_set {V} (k : string) (v : V) (kv : list (string * V)) : list (string * V) :=
  match kv with
  | [] => [(k, v)]
  | (k', v') :: kv' =>
      if String.eqb k k' then (k, v) :: kv' else (k', v') :: dict_set k v kv'
  end.

(** [o.get(k, d)]: only a dict has [get]. *)
Definition get_d (o : json) (k : string) (d : json) : result json :=
  match o with
  | JObj kv => Ok (match lookup k kv with Some v => v | None => d end)
  | _ => Raise AttributeError
  end.

(** [o.get(k)] *)
Definition get (o : json) (k : string) : result json := get_d o k JNull.

(** [o[k]] for a string key. *)
Definition getitem (o : json) (k : string) : result json :=
  match o with
  | JObj kv => match lookup k kv with Some v => Ok v | None => Raise KeyError end
  | _ => Raise TypeError
  end.

(** [k in o] where [o] is known to be a dict. *)
Definition has_key (k : string) (kv : list (string * json)) : bool :=
  match lookup k kv with Some _ => true | None => false end.

(** Truth value of [v] in a condition. *)
Definition truthy (v : json) : bool :=
  match v with
  | JNull => false
  | JBool b => b
  | JInt z => negb (z =? 0)%Z
  | JFloat f => negb (float_is_zero f)
  | JStr s => negb (String.eqb s "")
  | JArr l => match l with [] => false | _ => true end
  | JObj kv => match kv with [] => false | _ => true end
  end.

Definition is_dict (v : json) : bool :=
  match v with JObj _ => true | _ => false end.

(** [v == s] for a string literal [s]. *)
Definition eq_str (v : json) (s : string) : bool :=
  match v with JStr t => String.eqb t s | _ => false end.

Fixpoint chars (s : string) : list json :=
  match s with
  | EmptyString => []
  | String c s' => JStr (String c EmptyString) :: chars s'
  end.

(** The elements a [for] loop sees: list items, the characters of a str,
    the keys of a dict; anything else is not iterable. *)
Definition iter (v : json) : result (list json) :=
  match v with
  | JArr l => Ok l
  | JStr s => Ok (chars s)
  | JObj kv => Ok (map (fun p => JStr (fst p)) kv)
  | _ => Raise TypeError
  end.

(** [sep.join(parts)] where [parts] may hold any value: a non-str item
    is a TypeError. *)
Definition join_values (sep : string) (parts : list json) : result string :=
  ws <- mapM (fun v => match v with JStr s => Ok s | _ => Raise TypeError end) parts ;;
  Ok (join sep ws).

(** An int that fits the index type of the interpreter (64 bits). *)
Definition index_sized (z : Z) : bool := ((- 2 ^ 63 <=? z) && (z <? 2 ^ 63))%Z.

(** [c * n] where [n] came from JSON: a count that does not fit an index
    is an OverflowError, a count below one gives the empty string.  The
    memory a long result takes is not modelled. *)
Definition str_times (c : ascii) (n : json) : result string :=
  match n with
  | JInt z => if index_sized z then Ok (repeat_char c (Z.to_nat z))
              else Raise OverflowError
  | JBool b => Ok (repeat_char c (if b then 1 else 0))
  | _ => Raise TypeError
  end.

Definition is_str (v : json) : Prop := exists s, v = JStr s.

(** [l.append(x)] and [l.extend(xs)], as the new list. *)
Definition append {A} (l : list A) (x : A) : list A := (l ++ [x])%list.
Definition extend {A} (l xs : list A) : list A := (l ++ xs)%list.

Fixpoint json_depth (v : json) : nat :=
  match v with
  | JArr l => S (list_max (map json_depth l))
  | JObj kv => S (list_max (map (fun p => json_depth (snd p)) kv))
  | _ => 0
  end.

End Py.
Import Py.

(** ** db.py: Atlassian Document Format to plain text *)

Module Adf.

(** [_collect_inline_text(node)].  [fuel] bounds the depth of the Python
    recursion; [extract_text_from_adf] below supplies more than the depth
    of the tree, so it is never exhausted there. *)
Fixpoint _collect_inline_text (fuel : nat) (node : json) : result string :=
  match fuel with
  | O => Raise RecursionError
  | S fuel' =>
      content <- get_d node "content" (JArr []) ;;
      children <- iter content ;;
      texts <- mapM (fun child =>
        ty <- get child "type" ;;
        if eq_str ty "text" then get_d child "text" (JStr "")
        else if eq_str ty "hardBreak" then Ok (JStr nl)
        else if eq_str ty "mention" then
          attrs <- get_d child "attrs" (JObj []) ;; get_d attrs "text" (JStr "")
        else if eq_str ty "emoji" then
          attrs <- get_d child "attrs" (JObj []) ;; get_d attrs "shortName" (JStr "")
        else if eq_str ty "inlineCard" then
          attrs <- get_d child "attrs" (JObj []) ;; get_d attrs "url" (JStr "")
        else fmap JStr (_collect_inline_text fuel' child)) children ;;
      join_values "" texts
  end.

(** The body of the list loop of [_walk_adf]:
    [for i, item in enumerate(content, 1)], appending one part per item. *)
Fixpoint list_items (fuel : nat) (bullet : bool) (i : nat) (items : list json)
    (parts : list json) : result (list json) :=
  match items with
  | [] => Ok parts
  | item :: rest =>
      let marker := if bullet then "- " else str_of_nat i ++ ". " in
      item_text <- _collect_inline_text fuel item ;;
      list_items fuel bullet (S i) rest (append parts (JStr (marker ++ item_text)))
  end.

(** The body of the table loop: one part per row, the cells joined. *)
Definition table_row (fuel : nat) (parts : list json) (row : json) : result (list json) :=
  content <- get_d row "content" (JArr []) ;;
  row_cells <- iter content ;;
  cells <- mapM (_collect_inline_text fuel) row_cells ;;
  Ok (append parts (JStr (join " | " cells))).

(** [_walk_adf(node, parts)]: [parts] is the list the Python code appends
    to; the result is that list after the call. *)
Fixpoint _walk_adf (fuel : nat) (node : json) (parts : list json) : result (list json) :=
  match fuel with
  | O => Raise RecursionError
  | S fuel' =>
      node_type <- get_d node "type" (JStr "") ;;
      if eq_str node_type "text" then
        t <- get_d node "text" (JStr "") ;; Ok (append parts t)
      else if eq_str node_type "hardBreak" then Ok (append parts (JStr nl))
      else if eq_str node_type "heading" then
        attrs <- get_d node "attrs" (JObj []) ;;
        level <- get_d attrs "level" (JInt 1) ;;
        hashes <- str_times "#" level ;;
        child_text <- _collect_inline_text fuel' node ;;
        Ok (append parts (JStr (nl ++ (hashes ++ " ") ++ child_text ++ nl)))
      else if eq_str node_type "codeBlock" then
        child_text <- _collect_inline_text fuel' node ;;
        Ok (append parts (JStr (nl ++ "```" ++ nl ++ child_text ++ nl ++ "```" ++ nl)))
      else if eq_str node_type "blockquote" then
        child_text <- _collect_inline_text fuel' node ;;
        Ok (extend parts (map (fun line => JStr ("> " ++ line)) (split_char "010" child_text)))
      else if eq_str node_type "bulletList" || eq_str node_type "orderedList" then
        content <- get_d node "content" (JArr []) ;;
        items <- iter content ;;
        parts' <- list_items fuel' (eq_str node_type "bulletList") 1 items parts ;;
        Ok (append parts' (JStr ""))
      else if eq_str node_type "table" then
        content <- get_d node "content" (JArr []) ;;
        rows <- iter content ;;
        parts' <- foldM (table_row fuel') rows parts ;;
        Ok (append parts' (JStr ""))
      else if eq_str node_type "paragraph" then
        child_text <- _collect_inline_text fuel' node ;;
        Ok (append parts (JStr child_text))
      else
        content <- get_d node "content" (JArr []) ;;
        children <- iter content ;;
        foldM (fun ps child => _walk_adf fuel' child ps) children parts
  end.

(** [extract_text_from_adf(adf)]; [None] is [JNull]. *)
Definition extract_text_from_adf (adf : json) : result string :=
  if negb (truthy adf) then Ok ""
  else
    parts <- _walk_adf (S (json_depth adf)) adf [] ;;
    text <- join_values nl parts ;;
    Ok (strip text).

End Adf.

(** ** db.py: Confluence storage format (XHTML) to plain text *)

Module Storage.

(** The callbacks [HTMLParser] makes on the extractor.  Comments,
    declarations and processing instructions reach handlers the class does
    not override; a self-closing tag arrives as a start and an end. *)
Inductive event :=
| StartTag (tag : string)
| EndTag (tag : string)
| Data (data : string).

(** What the model takes from the standard library unopened: the
    substitution [html.unescape] performs on a text that holds an
    ampersand (it raises ValueError on a numeric reference with more
    digits than [int] converts), and [HTMLParser.feed] on a text that
    holds a [<]. *)
Class HtmlLib := {
  replace_charrefs : string -> result string;
  feed_markup : string -> result (list event)
}.

Definition _BLOCK_TAGS : list string :=
  ["p"; "div"; "br"; "h1"; "h2"; "h3"; "h4"; "h5"; "h6";
   "li"; "ol"; "ul"; "table"; "tr"; "td"; "th"; "blockquote";
   "pre"; "hr"; "section"; "article"; "header"; "footer"].

Definition lower_char (c : ascii) : ascii :=
  let n := nat_of_ascii c in
  if (((65 <=? n) && (n <=? 90))
      || ((192 <=? n) && (n <=? 222) && negb (n =? 215)))%nat
  then ascii_of_nat (n + 32) else c.

(** [s.lower()] *)
Fixpoint lower (s : string) : string :=
  match s with
  | EmptyString => EmptyString
  | String c s' => String (lower_char c) (lower s')
  end.

Definition is_block_tag (tag : string) : bool :=
  existsb (String.eqb (lower tag)) _BLOCK_TAGS.

(** [handle_starttag], [handle_endtag] and [handle_data] on [_parts]. *)
Definition handle (_parts : list string) (e : event) : list string :=
  match e with
  | StartTag tag => if is_block_tag tag then append _parts " " else _parts
  | EndTag tag => if is_block_tag tag then append _parts " " else _parts
  | Data data => append _parts data
  end.

(** [re.sub(r"\s+", " ", s)]; [in_run] tells that the previous character
    was whitespace already replaced. *)
Fixpoint sub_ws (in_run : bool) (s : string) : string :=
  match s with
  | EmptyString => EmptyString
  | String c s' =>
      if isspace c then
        if in_run then sub_ws true s' else String " " (sub_ws true s')
      else String c (sub_ws false s')
  end.

(** [get_text] *)
Definition get_text (_parts : list string) : string :=
  strip (sub_ws false (join "" _parts)).

(** [html.unescape(s)]: a text without ampersand is returned as it is. *)
Definition unescape `{HtmlLib} (s : string) : result string :=
  if contains_char "&" s then replace_charrefs s else Ok s.

(** [s[n:]] *)
Fixpoint drop (n : nat) (s : string) : string :=
  match n, s with
  | S n', String _ s' => drop n' s'
  | _, _ => s
  end.

(** The text after the last ampersand of [s], if there is one. *)
Fixpoint after_last_amp (s : string) : option string :=
  match s with
  | EmptyString => None
  | String c s' =>
      match after_last_amp s' with
      | Some r => Some r
      | None => if Ascii.eqb c "&" then Some s' else None
      end
  end.

Fixpoint has_space_or_semicolon (s : string) : bool :=
  match s with
  | EmptyString => false
  | String c s' => isspace c || Ascii.eqb c ";" || has_space_or_semicolon s'
  end.

(** [goahead] on a buffer without [<]: an ampersand among the last 34
    characters with neither whitespace nor [;] after it may be a character
    reference cut in half, and the parser keeps the whole text back for
    the next [feed] or for [close]. *)
Definition amp_pending (rawdata : string) : bool :=
  match after_last_amp (drop (String.length rawdata - 34) rawdata) with
  | Some rest => negb (has_space_or_semicolon rest)
  | None => false
  end.

(** [parser.feed(rawdata)] on a fresh parser, as the events delivered. *)
Definition feed `{HtmlLib} (rawdata : string) : result (list event) :=
  if contains_char "<" rawdata then feed_markup rawdata
  else if amp_pending rawdata then Ok []
  else if String.eqb rawdata "" then Ok []
  else data <- unescape rawdata ;; Ok [Data data].

(** [extract_text_from_storage(html_str)]; the parser is fed once and
    never closed. *)
Definition extract_text_from_storage `{HtmlLib} (html_str : option string) : result string :=
  match html_str with
  | None => Ok ""
  | Some s =>
      if String.eqb s "" then Ok ""
      else
        events <- feed s ;;
        Ok (get_text (fold_left handle events []))
  end.

(** Words of a text: its maximal runs of characters that are not
    whitespace.  The claim's normal form is the words joined by single
    spaces. *)
Fixpoint words (s : string) : list string :=
  match s with
  | EmptyString => []
  | String c s' =>
      if isspace c then words s'
      else match s' with
           | EmptyString => [String c EmptyString]
           | String c' _ =>
               if isspace c' then String c EmptyString :: words s'
               else match words s' with
                    | w :: ws => String c w :: ws
                    | [] => [String c EmptyString]
                    end
           end
  end.

Definition normal_form (s : string) : string := join " " (words s).

End Storage.

(** ** db.py: the relational store *)

Module Db.

(** A value SQLite stores or binds. *)
Inductive sqlval :=
| SNull
| SInt (z : Z)
| SReal (f : spec_float)
| SText (s : string).

(** Declared column types of [SCHEMA]. *)
Inductive coltype := TEXT | INTEGER | REAL.

(** What the model takes from the runtime unopened: [json.dumps], and the
    conversions SQLite's column affinity makes between numbers and text. *)
Class Runtime := {
  json_dumps : json -> string;
  real_text : spec_float -> string;
  numeric : coltype -> sqlval -> sqlval
}.

(** A row, column name to value in schema order; [dict(row)] in Python. *)
Definition row := list (string * sqlval).

Definition col (c : string) (r : row) : sqlval :=
  match lookup c r with Some v => v | None => SNull end.

(** The value a column of type [ty] keeps for [v]. *)
Definition store_as `{Runtime} (ty : coltype) (v : sqlval) : sqlval :=
  match ty, v with
  | _, SNull => SNull
  | TEXT, SText s => SText s
  | TEXT, SInt z => SText (str_of_Z z)
  | TEXT, SReal f => SText (real_text f)
  | INTEGER, SInt z => SInt z
  | REAL, SReal f => SReal f
  | _, _ => numeric ty v
  end.

(** [a = b] between a text column and a value: NULL equals nothing. *)
Definition text_eq (a b : sqlval) : bool :=
  match a, b with
  | SText x, SText y => String.eqb x y
  | _, _ => false
  end.

Definition is_null (v : sqlval) : bool :=
  match v with SNull => true | _ => false end.

Definition issues_schema : list (string * coltype) :=
  [("id", TEXT); ("key", TEXT); ("project_key", TEXT); ("summary", TEXT);
   ("description", TEXT); ("description_raw", TEXT); ("issue_type", TEXT);
   ("status", TEXT); ("status_category", TEXT); ("priority", TEXT);
   ("assignee_name", TEXT); ("assignee_email", TEXT);
   ("reporter_name", TEXT); ("reporter_email", TEXT);
   ("creator_name", TEXT); ("creator_email", TEXT);
   ("labels", TEXT); ("components", TEXT); ("fix_versions", TEXT);
   ("affects_versions", TEXT); ("resolution", TEXT);
   ("resolution_date", TEXT); ("created", TEXT); ("updated", TEXT);
   ("due_date", TEXT); ("parent_key", TEXT);
   ("time_original_estimate", INTEGER); ("time_spent", INTEGER);
   ("time_remaining", INTEGER); ("story_points", REAL); ("sprint", TEXT);
   ("custom_fields", TEXT); ("raw_json", TEXT)].

(** The column list of the INSERT of [upsert_issue]. *)
Definition issues_insert_cols : list string :=
  ["id"; "key"; "project_key"; "summary"; "description"; "description_raw";
   "issue_type"; "status"; "status_category"; "priority";
   "assignee_name"; "assignee_email"; "reporter_name"; "reporter_email";
   "creator_name"; "creator_email";
   "labels"; "components"; "fix_versions"; "affects_versions";
   "resolution"; "resolution_date"; "created"; "updated"; "due_date";
   "parent_key"; "time_original_estimate"; "time_spent"; "time_remaining";
   "story_points"; "sprint"; "custom_fields"; "raw_json"].

(** The columns assigned from [excluded] by ON CONFLICT(id) DO UPDATE SET. *)
Definition issues_update_cols : list string :=
  ["key"; "project_key"; "summary"; "description"; "description_raw";
   "issue_type"; "status"; "status_category"; "priority";
   "assignee_name"; "assignee_email"; "reporter_name"; "reporter_email";
   "creator_name"; "creator_email";
   "labels"; "components"; "fix_versions"; "affects_versions";
   "resolution"; "resolution_date"; "created"; "updated"; "due_date";
   "parent_key"; "time_original_estimate"; "time_spent"; "time_remaining";
   "story_points"; "sprint"; "custom_fields"; "raw_json"].

Definition issue_links_schema : list (string * coltype) :=
  [("id", INTEGER); ("issue_key", TEXT); ("link_type", TEXT);
   ("direction", TEXT); ("linked_issue_key", TEXT)].

(** The connection's view of the tables the modelled statements touch;
    [issue_links_seq] is the AUTOINCREMENT counter of [issue_links]. *)
Record db := mkDb {
  projects : list row;
  issues : list row;
  comments : list row;
  issue_links : list row;
  issue_links_seq : Z
}.

Definition set_issues (d : db) (rs : list row) : db :=
  mkDb (projects d) rs (comments d) (issue_links d) (issue_links_seq d).

Definition set_issue_links (d : db) (rs : list row) (seq : Z) : db :=
  mkDb (projects d) (issues d) (comments d) rs seq.

(** A method of [Database]: it may raise, and what it did to the
    connection before raising stays done. *)
Definition Store (A : Type) := db -> result A * db.

Definition ret {A} (a : A) : Store A := fun d => (Ok a, d).
Definition raise {A} (e : exn) : Store A := fun d => (Raise e, d).
Definition lift {A} (r : result A) : Store A := fun d => (r, d).
Definition sbind {A B} (m : Store A) (k : A -> Store B) : Store B :=
  fun d => match m d with
           | (Ok a, d') => k a d'
           | (Raise e, d') => (Raise e, d')
           end.

Declare Scope store_scope.
Delimit Scope store_scope with store.
Notation "x <~ e ;; k" := (sbind e (fun x => k))
  (at level 61, e at next level, right associativity) : store_scope.

(** *** Binding Python values to statement parameters *)

Definition int64 (z : Z) : bool := ((- 2 ^ 63 <=? z) && (z <? 2 ^ 63))%Z.

(** The sqlite3 module's adaptation of one parameter. *)
Definition bind_param (v : json) : result sqlval :=
  match v with
  | JNull => Ok SNull
  | JBool b => Ok (SInt (if b then 1 else 0))
  | JInt z => if int64 z then Ok (SInt z) else Raise OverflowError
  | JFloat f => Ok (SReal f)
  | JStr s => Ok (SText s)
  | JArr _ | JObj _ => Raise ProgrammingError
  end.

(** The row an INSERT builds: each schema column takes its value from the
    statement's column list, NULL when not listed, under its affinity. *)
Definition insert_row `{Runtime} (schema : list (string * coltype))
    (cols : list string) (vals : list sqlval) : row :=
  map (fun ct => (fst ct, store_as (snd ct) (col (fst ct) (combine cols vals)))) schema.

(** The row DO UPDATE SET leaves: the listed columns from [excluded], the
    others from the row in place. *)
Definition update_row (set_cols : list string) (excluded old : row) : row :=
  map (fun cv => (fst cv,
                  if existsb (String.eqb (fst cv)) set_cols
                  then col (fst cv) excluded else snd cv)) old.

(** The first row that satisfies [p] replaced by [r]. *)
Fixpoint replace_first (p : row -> bool) (r : row) (rs : list row) : list row :=
  match rs with
  | [] => []
  | x :: rs' => if p x then r :: rs' else x :: replace_first p r rs'
  end.

Definition same_id (a b : row) : bool := text_eq (col "id" a) (col "id" b).
Definition same_key (a b : row) : bool := text_eq (col "key" a) (col "key" b).

(** Some project has the key this issue row names (FOREIGN KEY
    (project_key) REFERENCES projects(key), with foreign_keys=ON). *)
Definition project_exists (d : db) (r : row) : bool :=
  existsb (fun p => text_eq (col "key" p) (col "project_key" r)) (projects d).

(** Some comment or link row names the key of this issue row. *)
Definition referenced (d : db) (r : row) : bool :=
  existsb (fun c => text_eq (col "issue_key" c) (col "key" r)) (comments d)
  || existsb (fun l => text_eq (col "issue_key" l) (col "key" r)) (issue_links d).

Definition not_null_ok (r : row) : bool :=
  negb (is_null (col "key" r)) && negb (is_null (col "project_key" r))
  && negb (is_null (col "summary" r)).

(** INSERT INTO issues (...) VALUES (...) ON CONFLICT(id) DO UPDATE SET ...
    with the constraints of the schema: NOT NULL, UNIQUE(key), the foreign
    key to [projects], and the foreign keys of [comments] and
    [issue_links] to [issues(key)] when a key changes.  A statement that
    raises changes nothing. *)
Definition exec_upsert_issue `{Runtime} (vals : list sqlval) : Store unit :=
  fun d =>
    let excluded := insert_row issues_schema issues_insert_cols vals in
    if negb (List.length vals =? List.length issues_insert_cols)%nat then (Raise ProgrammingError, d)
    else if negb (not_null_ok excluded) then (Raise IntegrityError, d)
    else
      match find (same_id excluded) (issues d) with
      | None =>
          if existsb (same_key excluded) (issues d) then (Raise IntegrityError, d)
          else if negb (project_exists d excluded) then (Raise IntegrityError, d)
          else (Ok tt, set_issues d (issues d ++ [excluded])%list)
      | Some old =>
          let new := update_row issues_update_cols excluded old in
          if existsb (fun r => negb (same_id excluded r) && same_key new r) (issues d)
          then (Raise IntegrityError, d)
          else if negb (project_exists d new) then (Raise IntegrityError, d)
          else if negb (same_key new old) && referenced d old
          then (Raise IntegrityError, d)
          else (Ok tt, set_issues d (replace_first (same_id excluded) new (issues d)))
      end.

(** DELETE FROM issue_links WHERE issue_key = ? *)
Definition exec_delete_links (issue_key : string) : Store unit :=
  fun d =>
    (Ok tt,
     set_issue_links d
       (filter (fun l => negb (text_eq (col "issue_key" l) (SText issue_key)))
               (issue_links d))
       (issue_links_seq d)).

(** INSERT INTO issue_links (issue_key, link_type, direction,
    linked_issue_key) VALUES (?, ?, ?, ?): the id is the counter's next
    value, and the issue must exist (FOREIGN KEY (issue_key) REFERENCES
    issues(key)). *)
Definition exec_insert_link `{Runtime} (vals : list sqlval) : Store unit :=
  fun d =>
    let id := (issue_links_seq d + 1)%Z in
    let r := insert_row issue_links_schema
               ["id"; "issue_key"; "link_type"; "direction"; "linked_issue_key"]
               (SInt id :: vals) in
    if negb (List.length vals =? 4)%nat then (Raise ProgrammingError, d)
    else if is_null (col "issue_key" r) then (Raise IntegrityError, d)
    else if negb (existsb (fun i => text_eq (col "key" i) (col "issue_key" r)) (issues d))
    then (Raise IntegrityError, d)
    else (Ok tt, set_issue_links d (issue_links d ++ [r])%list id).

(** [self.conn.execute(sql, params)]: adapt the parameters, then run. *)
Definition execute (stmt : list sqlval -> Store unit) (params : list json) : Store unit :=
  (vals <~ lift (mapM bind_param params) ;; stmt vals)%store.

(** *** Queries *)

Fixpoint str_leb (a b : string) : bool :=
  match a, b with
  | EmptyString, _ => true
  | String _ _, EmptyString => false
  | String x a', String y b' =>
      if (nat_of_ascii x <? nat_of_ascii y)%nat then true
      else if (nat_of_ascii y <? nat_of_ascii x)%nat then false
      else str_leb a' b'
  end.

(** The order of ORDER BY on one column: NULL first, then numbers, then
    text byte by byte.  (The ordered columns are text columns and the
    integer id; a real never meets an integer there.) *)
Definition sql_leb (a b : sqlval) : bool :=
  match a, b with
  | SNull, _ => true
  | _, SNull => false
  | SInt x, SInt y => (x <=? y)%Z
  | SReal x, SReal y => SFleb x y
  | (SInt _ | SReal _), _ => true
  | SText _, (SInt _ | SReal _) => false
  | SText x, SText y => str_leb x y
  end.

Fixpoint insert_by (leb : row -> row -> bool) (r : row) (rs : list row) : list row :=
  match rs with
  | [] => [r]
  | x :: rs' => if leb r x then r :: rs else x :: insert_by leb r rs'
  end.

(** ORDER BY, keeping rows that compare equal in table order. *)
Definition order_by (leb : row -> row -> bool) (rs : list row) : list row :=
  fold_right (insert_by leb) [] rs.

Definition by_col (c : string) (a b : row) : bool := sql_leb (col c a) (col c b).

Definition by_cols (c1 c2 : string) (a b : row) : bool :=
  if sql_leb (col c1 a) (col c1 b) then
    if sql_leb (col c1 b) (col c1 a) then sql_leb (col c2 a) (col c2 b) else true
  else false.

Definition sql_truthy (v : sqlval) : bool :=
  match v with
  | SNull => false
  | SInt z => negb (z =? 0)%Z
  | SReal f => negb (float_is_zero f)
  | SText s => negb (String.eqb s "")
  end.

(** [get_issues(project_key)] *)
Definition get_issues (project_key : option string) (d : db) : list row :=
  match project_key with
  | Some k =>
      if String.eqb k "" then order_by (by_col "key") (issues d)
      else order_by (by_col "key")
             (filter (fun r => text_eq (col "project_key" r) (SText k)) (issues d))
  | None => order_by (by_col "key") (issues d)
  end.

(** [get_comments(issue_key)], called by the exporter with a column value. *)
Definition get_comments `{Runtime} (issue_key : sqlval) (d : db) : list row :=
  if sql_truthy issue_key then
    order_by (by_col "created")
      (filter (fun c => text_eq (col "issue_key" c) (store_as TEXT issue_key)) (comments d))
  else order_by (by_cols "issue_key" "created") (comments d).

(** [get_issue_links(issue_key)] *)
Definition get_issue_links (issue_key : option string) (d : db) : list row :=
  match issue_key with
  | Some k =>
      if String.eqb k "" then order_by (by_cols "issue_key" "id") (issue_links d)
      else order_by (by_col "id")
             (filter (fun l => text_eq (col "issue_key" l) (SText k)) (issue_links d))
  | None => order_by (by_cols "issue_key" "id") (issue_links d)
  end.

(** *** Upserting an issue *)

(** [_safe_json(value)] *)
Definition _safe_json `{Runtime} (value : json) : json :=
  match value with
  | JNull => JNull
  | _ => JStr (json_dumps value)
  end.

(** [_safe_name(user)] *)
Definition _safe_name (user : json) : result json :=
  if negb (truthy user) then Ok JNull else get user "displayName".

(** [_safe_email(user)] *)
Definition _safe_email (user : json) : result json :=
  if negb (truthy user) then Ok JNull else get user "emailAddress".

(** [fields.get(k, {}).get("name") if fields.get(k) else None] *)
Definition name_of (fields : json) (k : string) : result json :=
  v <- get fields k ;;
  if truthy v then o <- get_d fields k (JObj []) ;; get o "name" else Ok JNull.

(** [[c.get("name") for c in fields.get(k, [])]] *)
Definition names_of (fields : json) (k : string) : result json :=
  v <- get_d fields k (JArr []) ;;
  items <- iter v ;;
  names <- mapM (fun c => get c "name") items ;;
  Ok (JArr names).

(** [k in fields], [fields] being a dict at that point. *)
Definition key_in (k : string) (fields : json) : bool :=
  match fields with JObj kv => has_key k kv | _ => false end.

(** The loop that collects the custom fields named by [field_map]. *)
Definition collect_custom_fields (field_map : list (string * string)) (fields : json)
    : result (list (string * json)) :=
  foldM (fun custom_fields entry =>
           let '(field_id, field_name) := entry in
           if prefix "customfield_" field_id && key_in field_id fields then
             val <- getitem fields field_id ;;
             match val with
             | JNull => Ok custom_fields
             | _ => Ok (dict_set field_name val custom_fields)
             end
           else Ok custom_fields)
        field_map [].

(** [issue["key"].rsplit("-", 1)[0]] *)
Definition key_prefix (key : json) : result json :=
  match key with
  | JStr k => Ok (JStr (before_last "-" k))
  | _ => Raise AttributeError
  end.

(** The parameter tuple [upsert_issue] passes to its statement, in the
    order the source evaluates it. *)
Definition issue_params `{Runtime} (issue : json) (field_map : option (list (string * string)))
    : result (list json) :=
  fields <- get_d issue "fields" (JObj []) ;;
  desc_raw <- get fields "description" ;;
  desc_text <- (if is_dict desc_raw then fmap JStr (Adf.extract_text_from_adf desc_raw)
                else Ok desc_raw) ;;
  custom_fields <- match field_map with
                   | Some ((_ :: _) as fm) => collect_custom_fields fm fields
                   | _ => Ok []
                   end ;;
  sprint <- get fields "sprint" ;;
  sp1 <- get fields "story_points" ;;
  sp2 <- (if truthy sp1 then Ok sp1 else get fields "customfield_10016") ;;
  let story_points := sp2 in
  parent <- get_d fields "parent" (JObj []) ;;
  parent_key <- (if truthy parent then get parent "key" else Ok JNull) ;;
  p_id <- getitem issue "id" ;;
  p_key <- getitem issue "key" ;;
  project <- get_d fields "project" (JObj []) ;;
  _ <- get project "key" ;;
  key0 <- getitem issue "key" ;;
  fallback <- key_prefix key0 ;;
  p_project_key <- get_d project "key" fallback ;;
  p_summary <- get_d fields "summary" (JStr "") ;;
  p_issue_type <- name_of fields "issuetype" ;;
  p_status <- name_of fields "status" ;;
  st <- get fields "status" ;;
  p_status_category <-
    (if truthy st then
       so <- get_d fields "status" (JObj []) ;;
       sc <- get_d so "statusCategory" (JObj []) ;;
       get sc "name"
     else Ok JNull) ;;
  p_priority <- name_of fields "priority" ;;
  assignee <- get fields "assignee" ;;
  p_assignee_name <- _safe_name assignee ;;
  p_assignee_email <- _safe_email assignee ;;
  reporter <- get fields "reporter" ;;
  p_reporter_name <- _safe_name reporter ;;
  p_reporter_email <- _safe_email reporter ;;
  creator <- get fields "creator" ;;
  p_creator_name <- _safe_name creator ;;
  p_creator_email <- _safe_email creator ;;
  labels <- get fields "labels" ;;
  components <- names_of fields "components" ;;
  fix_versions <- names_of fields "fixVersions" ;;
  versions <- names_of fields "versions" ;;
  p_resolution <- name_of fields "resolution" ;;
  p_resolution_date <- get fields "resolutiondate" ;;
  p_created <- get fields "created" ;;
  p_updated <- get fields "updated" ;;
  p_due_date <- get fields "duedate" ;;
  p_toe <- get fields "timeoriginalestimate" ;;
  p_ts <- get fields "timespent" ;;
  p_te <- get fields "timeestimate" ;;
  Ok [p_id; p_key; p_project_key; p_summary; desc_text; _safe_json desc_raw;
      p_issue_type; p_status; p_status_category; p_priority;
      p_assignee_name; p_assignee_email; p_reporter_name; p_reporter_email;
      p_creator_name; p_creator_email;
      _safe_json labels; _safe_json components; _safe_json fix_versions;
      _safe_json versions;
      p_resolution; p_resolution_date; p_created; p_updated; p_due_date;
      parent_key; p_toe; p_ts; p_te; story_points; _safe_json sprint;
      match custom_fields with [] => JNull | _ => _safe_json (JObj custom_fields) end;
      _safe_json issue].

(** [upsert_issue(issue, field_map)] *)
Definition upsert_issue `{Runtime} (issue : json) (field_map : option (list (string * string)))
    : Store unit :=
  (params <~ lift (issue_params issue field_map) ;;
   execute exec_upsert_issue params)%store.

(** *** Replacing the links of an issue *)

(** The rows one link of the API contributes: [(link_type, direction,
    linked issue key)], inward first. *)
Definition link_params (issue_key : string) (link : json) : result (list (list json)) :=
  ty <- get_d link "type" (JObj []) ;;
  link_type <- get_d ty "name" (JStr "") ;;
  inward <-
    (if key_in "inwardIssue" link then
       i <- getitem link "inwardIssue" ;;
       k <- getitem i "key" ;;
       Ok [[JStr issue_key; link_type; JStr "inward"; k]]
     else Ok []) ;;
  outward <-
    (if key_in "outwardIssue" link then
       o <- getitem link "outwardIssue" ;;
       k <- getitem o "key" ;;
       Ok [[JStr issue_key; link_type; JStr "outward"; k]]
     else Ok []) ;;
  Ok (inward ++ outward)%list.

(** The body of [for link in links]. *)
Definition insert_link `{Runtime} (issue_key : string) (link : json) : Store unit :=
  (ty <~ lift (get_d link "type" (JObj [])) ;;
   link_type <~ lift (get_d ty "name" (JStr "")) ;;
   _ <~ (if key_in "inwardIssue" link then
           i <~ lift (getitem link "inwardIssue") ;;
           k <~ lift (getitem i "key") ;;
           execute exec_insert_link [JStr issue_key; link_type; JStr "inward"; k]
         else ret tt) ;;
   if key_in "outwardIssue" link then
     o <~ lift (getitem link "outwardIssue") ;;
     k <~ lift (getitem o "key") ;;
     execute exec_insert_link [JStr issue_key; link_type; JStr "outward"; k]
   else ret tt)%store.

Fixpoint for_each {A} (body : A -> Store unit) (xs : list A) : Store unit :=
  match xs with
  | [] => ret tt
  | x :: xs' => (_ <~ body x ;; for_each body xs')%store
  end.

(** [insert_issue_links(issue_key, links)] *)
Definition insert_issue_links `{Runtime} (issue_key : string) (links : list json) : Store unit :=
  (_ <~ exec_delete_links issue_key ;;
   for_each (insert_link issue_key) links)%store.

End Db.

(** ** export.py: the JIRA-importable CSV *)

Module Exporter.
Import Db.

(** What the exporter takes from the runtime unopened: [json.loads] on a
    text ([None] when it raises JSONDecodeError), and [str] on values that
    are neither text, integer, bool nor None. *)
Class JsonLib := {
  json_loads : string -> option json;
  repr_other : json -> string;
  float_str : spec_float -> string
}.

Definition JIRA_FIELD_MAP : list (string * string) :=
  [("key", "Issue Key"); ("summary", "Summary"); ("issue_type", "Issue Type");
   ("status", "Status"); ("priority", "Priority"); ("assignee_name", "Assignee");
   ("reporter_name", "Reporter"); ("resolution", "Resolution");
   ("created", "Created"); ("updated", "Updated"); ("due_date", "Due Date");
   ("description", "Description"); ("parent_key", "Parent");
   ("time_original_estimate", "Original Estimate"); ("time_spent", "Time Spent")].

(** [str(v)] on a decoded JSON value. *)
Definition py_str `{JsonLib} (v : json) : string :=
  match v with
  | JStr s => s
  | JNull => "None"
  | JBool true => "True"
  | JBool false => "False"
  | JInt z => str_of_Z z
  | _ => repr_other v
  end.

(** [str(v)] and [f"{v}"] on a column value. *)
Definition sql_str `{JsonLib} (v : sqlval) : string :=
  match v with
  | SNull => "None"
  | SInt z => str_of_Z z
  | SReal f => float_str f
  | SText s => s
  end.

(** [_parse_json_field(value)] *)
Definition _parse_json_field `{JsonLib} (value : sqlval) : list string :=
  if negb (sql_truthy value) then []
  else match value with
       | SText s =>
           match json_loads s with
           | Some (JArr parsed) => map py_str parsed
           | _ => []
           end
       | _ => []
       end.

(** [[cells[i] if i < len(cells) else "" for i in range(n)]] *)
Fixpoint padded (n : nat) (cells : list string) : list string :=
  match n with
  | O => []
  | S n' =>
      match cells with
      | c :: cells' => c :: padded n' cells'
      | [] => "" :: padded n' []
      end
  end.

(** The maxima the first loop of [export_jira_csv] leaves. *)
Record maxima := mkMax {
  max_labels : nat;
  max_components : nat;
  max_fix_versions : nat;
  max_comments : nat
}.

(** Keys of the [issue_comments] dict: values of the [key] column, the
    same key when equal or the very same value. *)
Definition float_key_eqb (x y : spec_float) : bool :=
  match x, y with
  | S754_nan, S754_nan => true
  | _, _ => SFeqb x y
  end.

Definition key_eqb (a b : sqlval) : bool :=
  match a, b with
  | SNull, SNull => true
  | SInt x, SInt y => (x =? y)%Z
  | SReal x, SReal y => float_key_eqb x y
  | SText x, SText y => String.eqb x y
  | _, _ => false
  end.

Fixpoint comments_get (k : sqlval) (m : list (sqlval * list row)) : list row :=
  match m with
  | [] => []
  | (k', v) :: m' => if key_eqb k k' then v else comments_get k m'
  end.

Fixpoint comments_set (k : sqlval) (v : list row) (m : list (sqlval * list row))
    : list (sqlval * list row) :=
  match m with
  | [] => [(k, v)]
  | (k', v') :: m' =>
      if key_eqb k k' then (k, v) :: m' else (k', v') :: comments_set k v m'
  end.

(** One round of the first loop. *)
Definition scan_issue `{Runtime} `{JsonLib} (d : db)
    (acc : maxima * list (sqlval * list row)) (issue : row)
    : maxima * list (sqlval * list row) :=
  let '(m, issue_comments) := acc in
  let labels := _parse_json_field (col "labels" issue) in
  let components := _parse_json_field (col "components" issue) in
  let fix_versions := _parse_json_field (col "fix_versions" issue) in
  let comments := get_comments (col "key" issue) d in
  (mkMax (Nat.max (max_labels m) (List.length labels))
         (Nat.max (max_components m) (List.length components))
         (Nat.max (max_fix_versions m) (List.length fix_versions))
         (Nat.max (max_comments m) (List.length comments)),
   comments_set (col "key" issue) comments issue_comments).

(** [headers] *)
Definition headers_of (m : maxima) : list string :=
  (map snd JIRA_FIELD_MAP
   ++ repeat "Labels" (Nat.max (max_labels m) 1)
   ++ repeat "Component" (Nat.max (max_components m) 1)
   ++ repeat "Fix Version" (Nat.max (max_fix_versions m) 1)
   ++ repeat "Comment" (Nat.max (max_comments m) 1))%list.

(** [c.get(k, "")] inside the f-string of a comment cell. *)
Definition fmt_get `{JsonLib} (c : row) (k : string) : string :=
  match lookup k c with
  | Some v => sql_str v
  | None => ""
  end.

Definition comment_cell `{JsonLib} (c : row) : string :=
  fmt_get c "created" ++ ";" ++ fmt_get c "author_name" ++ ";" ++ fmt_get c "body".

(** The fixed cells of a row: [str(val) if val else ""] per mapped field. *)
Definition core_cells `{JsonLib} (issue : row) : list string :=
  map (fun f => let val := col (fst f) issue in
                if sql_truthy val then sql_str val else "") JIRA_FIELD_MAP.

(** One round of the second loop: the row written for an issue. *)
Definition row_of `{JsonLib} (m : maxima) (issue_comments : list (sqlval * list row))
    (issue : row) : list string :=
  (core_cells issue
   ++ padded (Nat.max (max_labels m) 1) (_parse_json_field (col "labels" issue))
   ++ padded (Nat.max (max_components m) 1) (_parse_json_field (col "components" issue))
   ++ padded (Nat.max (max_fix_versions m) 1)
        (_parse_json_field (col "fix_versions" issue))
   ++ padded (Nat.max (max_comments m) 1)
        (map comment_cell (comments_get (col "key" issue) issue_comments)))%list.

(** The file [export_jira_csv] writes: its name, the header row and one
    row per issue, as handed to [csv.writer]. *)
Record csv_file := mkCsv {
  csv_name : string;
  csv_header : list string;
  csv_rows : list (list string)
}.

(** [export_jira_csv(db, output_dir, project_key)]: [None] when there is
    no issue to export. *)
Definition export_jira_csv `{Runtime} `{JsonLib} (d : db) (project_key : option string)
    : option csv_file :=
  match get_issues project_key d with
  | [] => None
  | issues =>
      let '(m, issue_comments) :=
        fold_left (scan_issue d) issues (mkMax 0 0 0 0, []) in
      let suffix := match project_key with
                    | Some k => if String.eqb k "" then "" else "_" ++ k
                    | None => ""
                    end in
      Some (mkCsv ("jira_import" ++ suffix ++ ".csv")
                  (headers_of m)
                  (map (row_of m issue_comments) issues))
  end.

(** The number of header cells that carry the name [group]. *)
Definition group_width (group : string) (header : list string) : nat :=
  count_occ string_dec header group.

(** The largest number of values any issue of the export set has, per the
    function [values] that reads them off an issue. *)
Definition max_multiplicity {A} (values : row -> list A) (issues : list row) : nat :=
  list_max (map (fun i => List.length (values i)) issues).

End Exporter.

(** ** api.py and confluence_api.py: the retrying, paginating client *)

Module Api.

(** An HTTP response as the client reads it: the status, the Retry-After
    header if the server sent one, and what [.json()] gives. *)
Record response := mkResponse {
  status_code : Z;
  retry_after : option string;
  json_body : result json
}.

Record request := mkRequest {
  method : string;
  path : string;
  params : list (string * json)
}.

(** Which [raise] built an [httpx.HTTPStatusError]. *)
Inductive status_message :=
| FromRaiseForStatus
| MaxRetriesExceeded.

Inductive error :=
| HTTPStatusError (message : status_message) (resp : response)
| PyError (e : exn).

(** How a call ends: with a value, with an exception, or cut short
    because the scripted server had no reply left. *)
Inductive outcome (A : Type) :=
| Returned (a : A)
| Raised (e : error)
| Starved.
Arguments Returned {A} a.
Arguments Raised {A} e.
Arguments Starved {A}.

(** What the model takes from the libraries unopened: [int] on a header
    text ([None] when it raises ValueError), and the statuses for which
    httpx's [raise_for_status] raises. *)
Class HttpLib := {
  py_int : string -> option Z;
  raises_for_status : Z -> bool
}.

(** What one call of [_request] did: how it ended, the sleeps it took in
    order, the requests it sent in order, and the replies it left. *)
Record run := mkRun {
  ended : outcome response;
  sleeps : list Z;
  sent : list request;
  unread : list (result response)
}.

(** [int(response.headers.get("Retry-After", 2 ** attempt))] *)
Definition retry_wait `{HttpLib} (attempt : nat) (r : response) : result Z :=
  match retry_after r with
  | Some v => match py_int v with Some n => Ok n | None => Raise ValueError end
  | None => Ok (2 ^ Z.of_nat attempt)%Z
  end.

(** The [for attempt in range(self._max_retries)] loop of [_request] and
    the [raise] after it; [left] counts the attempts still to make,
    [last] is the variable [response], and [unbound] is what reading it
    raises when no attempt was made.  The server's replies are scripted:
    each request takes the next one, an exception of the transport
    included. *)
Fixpoint request_loop `{HttpLib} (unbound : exn) (left attempt : nat)
    (last : option response) (req : request) (script : list (result response))
    (slept : list Z) (reqs : list request) : run :=
  match left with
  | O =>
      match last with
      | Some r => mkRun (Raised (HTTPStatusError MaxRetriesExceeded r)) slept reqs script
      | None => mkRun (Raised (PyError unbound)) slept reqs script
      end
  | S left' =>
      match script with
      | [] => mkRun Starved slept reqs []
      | Raise e :: script' => mkRun (Raised (PyError e)) slept (append reqs req) script'
      | Ok r :: script' =>
          if (status_code r =? 429)%Z then
            match retry_wait attempt r with
            | Ok w =>
                request_loop unbound left' (S attempt) (Some r) req script'
                  (append slept w) (append reqs req)
            | Raise e => mkRun (Raised (PyError e)) slept (append reqs req) script'
            end
          else if raises_for_status (status_code r) then
            mkRun (Raised (HTTPStatusError FromRaiseForStatus r)) slept
                  (append reqs req) script'
          else mkRun (Returned r) slept (append reqs req) script'
      end
  end.

Definition _max_retries : nat := 5.

(** [JiraClient._request] *)
Definition JiraClient_request `{HttpLib} (req : request) (script : list (result response)) : run :=
  request_loop UnboundLocalError _max_retries 0 None req script [] [].

(** [ConfluenceClient._request] *)
Definition ConfluenceClient_request `{HttpLib} (req : request)
    (script : list (result response)) : run :=
  request_loop AssertionError _max_retries 0 None req script [] [].

(** *** search_issues *)

Definition PAGE_SIZE : Z := 100.

(** [total == 0] *)
Definition is_zero (v : json) : bool :=
  match v with
  | JInt z => (z =? 0)%Z
  | JBool b => negb b
  | JFloat f => float_is_zero f
  | _ => false
  end.

(** [start_at >= total] *)
Definition int_ge (n : Z) (v : json) : result bool :=
  match v with
  | JInt z => Ok (z <=? n)%Z
  | JBool b => Ok ((if b then 1 else 0) <=? n)%Z
  | JFloat f => Ok (Z_ge_float n f)
  | _ => Raise TypeError
  end.

(** [len(v)] *)
Definition py_len (v : json) : result Z :=
  match v with
  | JArr l => Ok (Z.of_nat (List.length l))
  | JStr s => Ok (Z.of_nat (String.length s))
  | JObj kv => Ok (Z.of_nat (List.length kv))
  | _ => Raise TypeError
  end.

(** How [_request] ends for [search_issues]: a response, or an exception. *)
Definition reply := (response + error)%type.

Definition of_result {A} (r : result A) : outcome A :=
  match r with
  | Ok a => Returned a
  | Raise e => Raised (PyError e)
  end.

(** What the body of a loop does with a page once [_request] returned:
    [data = resp.json()], the total, the issues. *)
Definition read_page (resp : response) (total : json) : result (json * json * json) :=
  data <- json_body resp ;;
  total' <- (if is_zero total then get_d data "total" (JInt 0) else Ok total) ;;
  issues <- get_d data "issues" (JArr []) ;;
  Ok (data, total', issues).

Definition jql_of (project_key : string) : string :=
  "project = " ++ project_key ++ " ORDER BY key ASC".

Definition jql_request (jql fields : string) (next_page_token : json) : request :=
  mkRequest "GET" "/search/jql"
    ([("jql", JStr jql); ("fields", JStr fields); ("maxResults", JInt PAGE_SIZE)]
     ++ (if truthy next_page_token then [("nextPageToken", next_page_token)] else []))%list.

Definition search_request (jql fields expand : string) (start_at : Z) : request :=
  mkRequest "GET" "/search"
    [("jql", JStr jql); ("fields", JStr fields); ("expand", JStr expand);
     ("startAt", JInt start_at); ("maxResults", JInt PAGE_SIZE)].

(** The fallback loop on the classic endpoint. *)
Fixpoint classic_loop (jql fields expand : string) (script : list reply)
    (start_at : Z) (total : json) (all_issues : list json) (log : list request)
    : outcome (json * list json) * list request :=
  match script with
  | [] => (Starved, log)
  | r :: script' =>
      let log' := append log (search_request jql fields expand start_at) in
      match r with
      | inr e => (Raised e, log')
      | inl resp =>
          match read_page resp total with
          | Raise e => (Raised (PyError e), log')
          | Ok (_, total', issues) =>
              if negb (truthy issues) then (Returned (total', all_issues), log')
              else
                match (items <- iter issues ;; n <- py_len issues ;;
                       stop <- int_ge (start_at + n) total' ;; Ok (items, n, stop)) with
                | Raise e => (Raised (PyError e), log')
                | Ok (items, n, stop) =>
                    if stop then (Returned (total', extend all_issues items), log')
                    else classic_loop jql fields expand script' (start_at + n) total'
                           (extend all_issues items) log'
                end
          end
      end
  end.

(** The loop on the newer endpoint inside the [try], and what follows it:
    a 404 raised by [_request] hands over to the classic loop with the
    total and the issues gathered so far; any other exception leaves
    [search_issues]. *)
Fixpoint jql_loop (jql fields expand : string) (script : list reply)
    (next_page_token : json) (total : json) (all_issues : list json)
    (log : list request) : outcome (json * list json) * list request :=
  match script with
  | [] => (Starved, log)
  | r :: script' =>
      let log' := append log (jql_request jql fields next_page_token) in
      match r with
      | inr (HTTPStatusError m resp) =>
          if (status_code resp =? 404)%Z
          then classic_loop jql fields expand script' 0 total all_issues log'
          else (Raised (HTTPStatusError m resp), log')
      | inr e => (Raised e, log')
      | inl resp =>
          match (p <- read_page resp total ;;
                 let '(data, total', issues) := p in
                 items <- iter issues ;;
                 token <- get data "nextPageToken" ;;
                 Ok (total', items, token)) with
          | Raise e => (Raised (PyError e), log')
          | Ok (total', items, token) =>
              if truthy token
              then jql_loop jql fields expand script' token total'
                     (extend all_issues items) log'
              else (Returned (total', extend all_issues items), log')
          end
      end
  end.

(** [search_issues(project_key, fields=..., expand=...)] against the
    scripted replies of [_request]: how it ends, and the requests it made
    in order. *)
Definition search_issues (project_key fields expand : string) (script : list reply)
    : outcome (json * list json) * list request :=
  jql_loop (jql_of project_key) fields expand script JNull (JInt 0) [] [].

End Api.

(** ** Statements about the extractors *)

Module AdfSpec.
Import Adf.

(** A node tree on which extraction cannot raise: every node is an
    object; its [content], when present, is an array of such nodes; its
    [text], when present, is a string; its [attrs], when present, is an
    object whose [level] is an integer from 1 to 6 and whose [text],
    [shortName] and [url] are strings. *)
Definition str_if_present (k : string) (kv : list (string * json)) : Prop :=
  forall v, lookup k kv = Some v -> is_str v.

Definition wf_attrs (a : json) : Prop :=
  exists akv, a = JObj akv
    /\ (forall v, lookup "level" akv = Some v -> exists z, v = JInt z /\ (1 <= z <= 6)%Z)
    /\ str_if_present "text" akv
    /\ str_if_present "shortName" akv
    /\ str_if_present "url" akv.

#[warnings="-register-all"]
Inductive wf_node : json -> Prop :=
| wf_node_obj (kv : list (string * json)) :
    (forall c, lookup "content" kv = Some c ->
               exists l, c = JArr l /\ Forall wf_node l) ->
    str_if_present "text" kv ->
    (forall a, lookup "attrs" kv = Some a -> wf_attrs a) ->
    wf_node (JObj kv).

(** The lines a list contributes, from the inline texts of its items:
    [- text] for a bullet list, [i. text] with [i] counted from [start]
    for an ordered one. *)
Definition lines_from (bullet : bool) (start : nat) (texts : list string) : list string :=
  map (fun it => (if bullet then "- " else str_of_nat (fst it) ++ ". ") ++ snd it)
      (combine (seq start (List.length texts)) texts).

Definition item_lines (bullet : bool) (texts : list string) : list string :=
  lines_from bullet 1 texts.

Definition list_type (bullet : bool) : string :=
  if bullet then "bulletList" else "orderedList".

End AdfSpec.

Module StorageSpec.
Import Storage.

(** What [rstrip (sub_ws false s)] is, in terms of the words of [s]. *)
Definition after_word (s : string) : string :=
  match s with
  | EmptyString => EmptyString
  | String d _ =>
      if isspace d then
        match words s with
        | [] => EmptyString
        | ws => String " " (join " " ws)
        end
      else join " " (words s)
  end.

(** A word proper: not empty, and without whitespace. *)
Fixpoint nospace (w : string) : bool :=
  match w with
  | EmptyString => true
  | String c w' => negb (isspace c) && nospace w'
  end.

Definition proper (w : string) : Prop := w <> "" /\ nospace w = true.

End StorageSpec.

(** ** Statements about the store *)

Module DbSpec.
Import Db.

(** The rows of [issues] have the columns of the schema, and no two of
    them share an id that is not NULL: what the table's declaration and
    its primary key maintain. *)
Definition shaped (r : row) : bool :=
  if list_eq_dec string_dec (map fst r) (map fst issues_schema) then true else false.

Fixpoint unique_ids (rs : list row) : bool :=
  match rs with
  | [] => true
  | r :: rs' => negb (existsb (same_id r) rs') && unique_ids rs'
  end.

Definition issues_ok (d : db) : bool :=
  forallb shaped (issues d) && unique_ids (issues d).

(** The row [upsert_issue] computes from a payload alone. *)
Definition stored_issue `{Runtime} (issue : json) (field_map : option (list (string * string)))
    : result row :=
  params <- issue_params issue field_map ;;
  vals <- mapM bind_param params ;;
  Ok (insert_row issues_schema issues_insert_cols vals).

Definition row_has_id (i : string) (r : row) : bool := text_eq (col "id" r) (SText i).
Definition row_has_key (k : string) (r : row) : bool := text_eq (col "key" r) (SText k).

Definition issues_with_id (i : string) (d : db) : list row :=
  filter (row_has_id i) (issues d).

(** A link row without its id: link type, direction, linked issue. *)
Definition link_view (r : row) : sqlval * sqlval * sqlval :=
  (col "link_type" r, col "direction" r, col "linked_issue_key" r).

Definition links_of (issue_key : string) (d : db) : list (sqlval * sqlval * sqlval) :=
  map link_view
      (filter (fun l => text_eq (col "issue_key" l) (SText issue_key)) (issue_links d)).

Definition stored_link `{Runtime} (id : Z) (vals : list sqlval) : row :=
  insert_row issue_links_schema
    ["id"; "issue_key"; "link_type"; "direction"; "linked_issue_key"] (SInt id :: vals).

(** The link rows the list [links] of the API stands for, without ids:
    for each link in order, its inward row if it has an inward issue, then
    its outward row if it has an outward issue. *)
Definition derived_links `{Runtime} (issue_key : string) (links : list json)
    : result (list (sqlval * sqlval * sqlval)) :=
  tuples <- mapM (link_params issue_key) links ;;
  vals <- mapM (mapM bind_param) (List.concat tuples) ;;
  Ok (map (fun v => link_view (stored_link 0 v)) vals).

Definition issue_exists (issue_key : string) (d : db) : bool :=
  existsb (row_has_key issue_key) (issues d).

Definition excluded_of `{Runtime} (vals : list sqlval) : row :=
  insert_row issues_schema issues_insert_cols vals.

Definition has_issue_key (k : string) (l : row) : bool :=
  text_eq (col "issue_key" l) (SText k).

(** The fields of a payload name no project key: there is no [project]
    entry, or it is an object without [key]. *)
Definition no_project_key (fkv : list (string * json)) : Prop :=
  lookup "project" fkv = None
  \/ exists pkv, lookup "project" fkv = Some (JObj pkv) /\ lookup "key" pkv = None.

(** The summary of a payload is not null. *)
Definition has_summary (fkv : list (string * json)) : bool :=
  match lookup "summary" fkv with
  | Some JNull => false
  | _ => true
  end.

(** The store takes a row of id [i] and key [k] whose project is the
    text before the last hyphen of [k]: a project with that key is
    stored, no issue of another id has the key [k], and an issue stored
    under the id with another key has no comment and no link. *)
Definition accepted (i k : string) (d : db) : bool :=
  existsb (row_has_key (before_last "-" k)) (projects d)
  && negb (existsb (fun r => negb (row_has_id i r) && row_has_key k r) (issues d))
  && match find (row_has_id i) (issues d) with
     | Some old => row_has_key k old || negb (referenced d old)
     | None => true
     end.

End DbSpec.

(** ** Statements about the exporter *)

Module ExporterSpec.
Import Db Exporter.

Definition labels_of `{JsonLib} (i : row) : list string :=
  _parse_json_field (col "labels" i).
Definition components_of `{JsonLib} (i : row) : list string :=
  _parse_json_field (col "components" i).
Definition fix_versions_of `{JsonLib} (i : row) : list string :=
  _parse_json_field (col "fix_versions" i).
Definition comments_of `{Runtime} `{JsonLib} (d : db) (i : row) : list string :=
  map comment_cell (get_comments (col "key" i) d).

(** The cells of a group of width [w] for an issue with the values
    [cells]: the values, then blanks. *)
Definition fill (w : nat) (cells : list string) : list string :=
  (cells ++ repeat "" (w - List.length cells))%list.

(** The row of an issue under the group widths [wl], [wc], [wf], [wm]. *)
Definition expected_row `{Runtime} `{JsonLib} (d : db) (wl wc wf wm : nat) (i : row)
    : list string :=
  (core_cells i ++ fill wl (labels_of i) ++ fill wc (components_of i)
   ++ fill wf (fix_versions_of i) ++ fill wm (comments_of d i))%list.

(** A key up to the equality of dictionary keys: the two float zeros
    are one key. *)
Definition canon (k : sqlval) : sqlval :=
  match k with
  | SReal (S754_zero _) => SReal (S754_zero false)
  | _ => k
  end.

Definition keys (m : list (sqlval * list row)) : list sqlval :=
  map (fun e => canon (fst e)) m.

(** Every entry of [issue_comments] holds the comments the store returns
    for its key. *)
Definition faithful `{Runtime} (d : db) (m : list (sqlval * list row)) : Prop :=
  forall k v, In (k, v) m -> v = get_comments k d.

End ExporterSpec.

(** ** Statements about the client *)

Module ApiSpec.
Import Api.

(** The wait the retry policy prescribes after a 429 at [attempt]: the
    Retry-After header read as an integer when the response has one,
    [2 ^ attempt] seconds otherwise. *)
Definition wait_given `{HttpLib} (attempt : nat) (r : response) (w : Z) : Prop :=
  match retry_after r with
  | Some v => py_int v = Some w
  | None => w = (2 ^ Z.of_nat attempt)%Z
  end.

(** [waits] are the prescribed waits for the responses [rs], received at
    attempts [attempt], [attempt + 1], ... *)
Fixpoint waits_from `{HttpLib} (attempt : nat) (rs : list response) (waits : list Z) : Prop :=
  match rs, waits with
  | [], [] => True
  | r :: rs', w :: waits' => wait_given attempt r w /\ waits_from (S attempt) rs' waits'
  | _, _ => False
  end.

(** How [_request] ends on a response that is not a 429. *)
Definition settle `{HttpLib} (r : response) : outcome response :=
  if raises_for_status (status_code r)
  then Raised (HTTPStatusError FromRaiseForStatus r)
  else Returned r.

Definition is_404 (e : error) : bool :=
  match e with
  | HTTPStatusError _ resp => (status_code resp =? 404)%Z
  | PyError _ => false
  end.

(** What a run of [search_issues] over the replies [script] must satisfy:
    it sent [n] requests to the newer endpoint and then [m] to the
    classic one, each taking one reply; the newer endpoint comes first;
    the classic one is used only after the last request to the newer one
    was answered by a 404, and then it is used for every further request;
    any other exception from the newer endpoint ends the call. *)
Definition endpoint_policy (script : list reply)
    (out : outcome (json * list json)) (paths : list string) : Prop :=
  exists n m,
    paths = (repeat "/search/jql" n ++ repeat "/search" m)%list
    /\ n + m <= List.length script
    /\ (0 < List.length script -> 0 < n)
    /\ (0 < m -> exists msg resp,
          nth_error script (n - 1) = Some (inr (HTTPStatusError msg resp))
          /\ status_code resp = 404%Z)
    /\ (forall e, 0 < n -> nth_error script (n - 1) = Some (inr e) ->
          (is_404 e = false -> out = Raised e /\ m = 0)
          /\ (is_404 e = true -> n < List.length script -> 0 < m)).

End ApiSpec.

(** ** Instances and data for the examples *)

Module Examples.
Import Db Exporter Storage Api.

Definition text_node (s : string) : json :=
  JObj [("type", JStr "text"); ("text", JStr s)].
Definition para (s : string) : json :=
  JObj [("type", JStr "paragraph"); ("content", JArr [text_node s])].
Definition list_item (s : string) : json :=
  JObj [("type", JStr "listItem"); ("content", JArr [para s])].
Definition bullet_list (items : list json) : json :=
  JObj [("type", JStr "bulletList"); ("content", JArr items)].
Definition ordered_list (items : list json) : json :=
  JObj [("type", JStr "orderedList"); ("content", JArr items)].
Definition doc (blocks : list json) : json :=
  JObj [("type", JStr "doc"); ("version", JInt 1); ("content", JArr blocks)].
Definition heading (level : Z) (s : string) : json :=
  JObj [("type", JStr "heading"); ("attrs", JObj [("level", JInt level)]);
        ("content", JArr [text_node s])].

(** [html.unescape] on a text whose only character reference is [&amp;]. *)
Fixpoint replace_amp (s : string) : string :=
  match s with
  | String "&" (String "a" (String "m" (String "p" (String ";" rest)))) =>
      String "&" (replace_amp rest)
  | String c s' => String c (replace_amp s')
  | EmptyString => EmptyString
  end.

(** Library functions for the storage examples, none of which holds a
    [<]. *)
Definition text_lib : HtmlLib :=
  {| replace_charrefs := fun s => Ok (replace_amp s); feed_markup := fun _ => Ok [] |}.

Definition dq : string := String "034" "".

(** [json.dumps] on values built from null, booleans, integers, strings
    that need no escaping, arrays and objects (a float is not rendered). *)
Fixpoint simple_dumps (v : json) : string :=
  match v with
  | JNull => "null"
  | JBool true => "true"
  | JBool false => "false"
  | JInt z => str_of_Z z
  | JFloat _ => "0.0"
  | JStr s => dq ++ s ++ dq
  | JArr l => "[" ++ join ", " (map simple_dumps l) ++ "]"
  | JObj kv =>
      "{" ++ join ", " (map (fun p => dq ++ fst p ++ dq ++ ": " ++ simple_dumps (snd p)) kv)
      ++ "}"
  end.

Definition example_runtime : Runtime :=
  {| json_dumps := simple_dumps;
     real_text := fun _ => "0.0";
     numeric := fun _ v => v |}.

(** The items of an array of strings as [simple_dumps] writes it, read
    from behind the opening bracket. *)
Fixpoint string_items (s : string) (in_str : bool) (cur : string) (acc : list json)
    : option (list json) :=
  match s with
  | EmptyString => None
  | String c s' =>
      if in_str then
        if Ascii.eqb c "034" then string_items s' false "" (acc ++ [JStr cur])%list
        else string_items s' true (cur ++ String c "") acc
      else if Ascii.eqb c "034" then string_items s' true "" acc
      else if Ascii.eqb c "]" then
        match s' with EmptyString => Some acc | _ => None end
      else if Ascii.eqb c "," || Ascii.eqb c " " then string_items s' false cur acc
      else None
  end.

(** [json.loads] on the arrays of strings that [simple_dumps] writes. *)
Definition loads_string_array (s : string) : option json :=
  match s with
  | String "[" s' => option_map JArr (string_items s' false "" [])
  | _ => None
  end.

Definition example_json : JsonLib :=
  {| json_loads := loads_string_array;
     repr_other := simple_dumps;
     float_str := fun _ => "0.0" |}.

Definition project_row (key name : string) : row :=
  [("id", SText ("1" ++ key)); ("key", SText key); ("name", SText name);
   ("type", SNull); ("lead_name", SNull); ("description", SNull);
   ("exported_at", SNull)].

Definition comment_row (id issue_key author body created : string) : row :=
  [("id", SText id); ("issue_key", SText issue_key); ("author_name", SText author);
   ("author_email", SNull); ("body", SText body); ("body_raw", SNull);
   ("created", SText created); ("updated", SNull)].

(** A store that holds the project ABC and nothing else. *)
Definition store0 : db := mkDb [project_row "ABC" "Alphabet"] [] [] [] 0.

Definition issue_payload (id key summary : string) (more : list (string * json)) : json :=
  JObj [("id", JStr id); ("key", JStr key);
        ("fields", JObj (("summary", JStr summary) :: more))].

Definition abc1 : json :=
  issue_payload "10001" "ABC-1" "First"
    [("labels", JArr [JStr "ui"; JStr "bug"]);
     ("project", JObj [("key", JStr "ABC")])].

(** An issue whose fields name no project and carry no labels. *)
Definition abc12 : json := issue_payload "10012" "ABC-12" "Twelfth" [].

(** The store a method leaves. *)
Definition after {A} (m : Store A) (d : db) : db := snd (m d).

Definition store1 : db := after (@upsert_issue example_runtime abc12 None) store0.
Definition store2 : db := after (@upsert_issue example_runtime abc1 None) store1.
Definition store3 : db :=
  mkDb (projects store2) (issues store2)
       [comment_row "c1" "ABC-1" "Ann" "Looks fine" "2024-01-02"]
       (issue_links store2) (issue_links_seq store2).

(** The payload of ABC-12 again, renamed. *)
Definition abc12_renamed : json :=
  issue_payload "10012" "ABC-12" "Renamed" [("labels", JArr [JStr "later"])].

Definition store1_renamed : db :=
  after (@upsert_issue example_runtime abc12_renamed None) store1.

(** A payload whose [project] is null. *)
Definition abc12_null_project : json :=
  issue_payload "10012" "ABC-12" "Twelfth" [("project", JNull)].

Definition link_to (direction key type_name : string) : json :=
  JObj [("type", JObj [("name", JStr type_name)]);
        (direction, JObj [("key", JStr key)])].

(** The issue ABC-12 under a new key, and a store in which ABC-12 has a
    link of its own. *)
Definition abc12_moved : json := issue_payload "10012" "ABC-13" "Moved" [].

Definition store_linked_12 : db :=
  after (@insert_issue_links example_runtime "ABC-12"
         [link_to "outwardIssue" "ABC-1" "Relates"]) store2.

Definition store_linked : db :=
  after (@insert_issue_links example_runtime "ABC-1"
         [link_to "inwardIssue" "ABC-12" "Blocks";
          link_to "outwardIssue" "ABC-12" "Relates"]) store2.

(** [int] on a run of ASCII decimal digits, for the examples. *)
Fixpoint digits_value (acc : Z) (s : string) : option Z :=
  match s with
  | EmptyString => Some acc
  | String c s' =>
      let n := nat_of_ascii c in
      if ((48 <=? n) && (n <=? 57))%nat
      then digits_value (acc * 10 + Z.of_nat (n - 48)) s'
      else None
  end.

Definition decimal_int (s : string) : option Z :=
  match s with
  | EmptyString => None
  | _ => digits_value 0 s
  end.

(** An instance for the examples: [raise_for_status] raises outside 2xx. *)
Definition example_http : HttpLib :=
  {| py_int := decimal_int;
     raises_for_status := fun s => negb ((200 <=? s) && (s <? 300))%Z |}.

Definition too_many : response := mkResponse 429 (Some "1") (Ok JNull).
Definition backoff : response := mkResponse 429 None (Ok JNull).
Definition success : response := mkResponse 200 None (Ok (JObj [])).
Definition ping : request := mkRequest "GET" "/myself" [].

Definition issue_stub (key : string) : json := JObj [("key", JStr key)].

Definition page (issues : list json) (total : Z) (more : list (string * json)) : reply :=
  inl (mkResponse 200 None
         (Ok (JObj (("issues", JArr issues) :: ("total", JInt total) :: more)))).

Definition failed (status : Z) : reply :=
  inr (HTTPStatusError FromRaiseForStatus (mkResponse status None (Ok JNull))).

End Examples.

(** ** Statements about the block nodes of a document *)

Module AdfBlocks.
Import Adf.

(** The node types [_walk_adf] renders itself; a node of any other type,
    or of none, is walked child by child. *)
Definition rendered_types : list string :=
  ["text"; "hardBreak"; "heading"; "codeBlock"; "blockquote";
   "bulletList"; "orderedList"; "table"; "paragraph"].

Definition passes_through (node_type : json) : bool :=
  negb (existsb (eq_str node_type) rendered_types).

(** The inline texts of the cells of one table row. *)
Definition row_cells (fuel : nat) (row : json) : result (list string) :=
  content <- get_d row "content" (JArr []) ;;
  cells <- iter content ;;
  mapM (_collect_inline_text fuel) cells.

Definition row_line (cells : list string) : string := join " | " cells.

Definition quoted (line : string) : string := "> " ++ line.

Fixpoint count_char (c : ascii) (s : string) : nat :=
  match s with
  | EmptyString => 0
  | String c' s' => (if Ascii.eqb c' c then 1 else 0) + count_char c s'
  end.

(** A step that only appends: its result is the parts it was given
    followed by a contribution that does not depend on them. *)
Definition appends (step : list json -> result (list json)) : Prop :=
  forall parts out, step parts = Ok out ->
    exists ps, out = (parts ++ ps)%list
               /\ forall parts', step parts' = Ok (parts' ++ ps)%list.

End AdfBlocks.

(** ** Statements about the text of parser events *)

Module StorageEvents.
Import Storage.

(** What an event adds to the text: a block-level tag a space, any other
    tag nothing, character data itself. *)
Definition piece (e : event) : string :=
  match e with
  | StartTag tag | EndTag tag => if is_block_tag tag then " " else ""
  | Data data => data
  end.

Definition text_of (events : list event) : string :=
  join "" (map piece events).

End StorageEvents.

(** ** Instances and data for the markup examples *)

Module MarkupExamples.
Import Storage Examples.

Definition tag_event (name : string) : event :=
  match name with
  | String "/" rest => EndTag (lower rest)
  | _ => StartTag (lower name)
  end.

Definition flush (cur : string) (acc : list event) : list event :=
  match cur with
  | EmptyString => acc
  | _ => (acc ++ [Data cur])%list
  end.

(** [HTMLParser.feed] on markup made of text without ampersand and of
    start and end tags without attributes: the tag names arrive in lower
    case. *)
Fixpoint plain_tags (s : string) (in_tag : bool) (cur : string) (acc : list event)
    : list event :=
  match s with
  | EmptyString => if in_tag then acc else flush cur acc
  | String c s' =>
      if in_tag then
        if Ascii.eqb c ">" then plain_tags s' false "" (acc ++ [tag_event cur])%list
        else plain_tags s' true (cur ++ String c "") acc
      else if Ascii.eqb c "<" then plain_tags s' true "" (flush cur acc)
      else plain_tags s' false (cur ++ String c "") acc
  end.

Definition markup_lib : HtmlLib :=
  {| replace_charrefs := fun s => Ok (replace_amp s);
     feed_markup := fun s => Ok (plain_tags s false "" []) |}.

End MarkupExamples.

(** ** db.py: projects, comments and field definitions *)

Module Tables.
Import Db.

Definition projects_schema : list (string * coltype) :=
  [("id", TEXT); ("key", TEXT); ("name", TEXT); ("type", TEXT);
   ("lead_name", TEXT); ("description", TEXT); ("exported_at", TEXT)].

(** The column list of the INSERT of [upsert_project]. *)
Definition projects_insert_cols : list string :=
  ["id"; "key"; "name"; "type"; "lead_name"; "description"; "exported_at"].

Definition projects_update_cols : list string :=
  ["key"; "name"; "type"; "lead_name"; "description"; "exported_at"].

Definition comments_schema : list (string * coltype) :=
  [("id", TEXT); ("issue_key", TEXT); ("author_name", TEXT);
   ("author_email", TEXT); ("body", TEXT); ("body_raw", TEXT);
   ("created", TEXT); ("updated", TEXT)].

(** The column list of the INSERT of [upsert_comment]. *)
Definition comments_insert_cols : list string :=
  ["id"; "issue_key"; "author_name"; "author_email"; "body"; "body_raw";
   "created"; "updated"].

Definition comments_update_cols : list string :=
  ["issue_key"; "author_name"; "author_email"; "body"; "body_raw";
   "created"; "updated"].

Definition set_projects (d : db) (rs : list row) : db :=
  mkDb rs (issues d) (comments d) (issue_links d) (issue_links_seq d).

Definition set_comments (d : db) (rs : list row) : db :=
  mkDb (projects d) (issues d) rs (issue_links d) (issue_links_seq d).

(** Some issue names the key of this project row. *)
Definition has_issues (d : db) (p : row) : bool :=
  existsb (fun i => text_eq (col "project_key" i) (col "key" p)) (issues d).

(** Some issue has the key this comment row names (FOREIGN KEY
    (issue_key) REFERENCES issues(key)). *)
Definition issue_of_comment_exists (d : db) (c : row) : bool :=
  existsb (fun i => text_eq (col "key" i) (col "issue_key" c)) (issues d).

(** INSERT INTO projects (...) VALUES (?, ?, ?, ?, ?, ?, datetime('now'))
    ON CONFLICT(id) DO UPDATE SET ..., with the constraints of the
    schema: NOT NULL on [key] and [name], UNIQUE(key), and the foreign key
    of [issues] to [projects(key)] when a key changes.  [now] is the text
    [datetime('now')] yields when the statement runs. *)
Definition exec_upsert_project `{Runtime} (now : string) (vals : list sqlval) : Store unit :=
  fun d =>
    let excluded := insert_row projects_schema projects_insert_cols
                      (vals ++ [SText now])%list in
    if negb (List.length vals =? 6)%nat then (Raise ProgrammingError, d)
    else if is_null (col "key" excluded) || is_null (col "name" excluded)
    then (Raise IntegrityError, d)
    else
      match find (same_id excluded) (projects d) with
      | None =>
          if existsb (same_key excluded) (projects d) then (Raise IntegrityError, d)
          else (Ok tt, set_projects d (projects d ++ [excluded])%list)
      | Some old =>
          let new := update_row projects_update_cols excluded old in
          if existsb (fun r => negb (same_id excluded r) && same_key new r) (projects d)
          then (Raise IntegrityError, d)
          else if negb (same_key new old) && has_issues d old
          then (Raise IntegrityError, d)
          else (Ok tt, set_projects d (replace_first (same_id excluded) new (projects d)))
      end.

(** The parameter tuple of [upsert_project], in the order the source
    evaluates it. *)
Definition project_params (project : json) : result (list json) :=
  lead <- get_d project "lead" (JObj []) ;;
  desc <- get project "description" ;;
  desc' <- (if is_dict desc then fmap JStr (Adf.extract_text_from_adf desc)
            else Ok desc) ;;
  p_id <- getitem project "id" ;;
  p_key <- getitem project "key" ;;
  p_name <- getitem project "name" ;;
  p_type <- get project "projectTypeKey" ;;
  p_lead <- _safe_name lead ;;
  Ok [p_id; p_key; p_name; p_type; p_lead; desc'].

(** [upsert_project(project)] *)
Definition upsert_project `{Runtime} (now : string) (project : json) : Store unit :=
  (params <~ lift (project_params project) ;;
   execute (exec_upsert_project now) params)%store.

(** INSERT INTO comments (...) VALUES (?, ?, ?, ?, ?, ?, ?, ?)
    ON CONFLICT(id) DO UPDATE SET ..., with NOT NULL on [issue_key] and
    the foreign key to [issues(key)]. *)
Definition exec_upsert_comment `{Runtime} (vals : list sqlval) : Store unit :=
  fun d =>
    let excluded := insert_row comments_schema comments_insert_cols vals in
    if negb (List.length vals =? 8)%nat then (Raise ProgrammingError, d)
    else if is_null (col "issue_key" excluded) then (Raise IntegrityError, d)
    else
      match find (same_id excluded) (comments d) with
      | None =>
          if negb (issue_of_comment_exists d excluded) then (Raise IntegrityError, d)
          else (Ok tt, set_comments d (comments d ++ [excluded])%list)
      | Some old =>
          let new := update_row comments_update_cols excluded old in
          if negb (issue_of_comment_exists d new) then (Raise IntegrityError, d)
          else (Ok tt, set_comments d (replace_first (same_id excluded) new (comments d)))
      end.

(** The parameter tuple of [upsert_comment]. *)
Definition comment_params `{Runtime} (issue_key : string) (comment : json)
    : result (list json) :=
  body_raw <- get comment "body" ;;
  body_text <- (if is_dict body_raw then fmap JStr (Adf.extract_text_from_adf body_raw)
                else Ok body_raw) ;;
  author <- get_d comment "author" (JObj []) ;;
  p_id <- getitem comment "id" ;;
  p_author_name <- _safe_name author ;;
  p_author_email <- _safe_email author ;;
  p_created <- get comment "created" ;;
  p_updated <- get comment "updated" ;;
  Ok [p_id; JStr issue_key; p_author_name; p_author_email; body_text;
      _safe_json body_raw; p_created; p_updated].

(** [upsert_comment(issue_key, comment)] *)
Definition upsert_comment `{Runtime} (issue_key : string) (comment : json) : Store unit :=
  (params <~ lift (comment_params issue_key comment) ;;
   execute exec_upsert_comment params)%store.

(** *** Field definitions *)

(** What the model takes from SQLite unopened for the BOOLEAN column
    [custom]: the value NUMERIC affinity keeps for a real or a text, and
    the comparison of a stored real with an integer. *)
Class Numeric := {
  numeric_affinity : sqlval -> sqlval;
  real_eq_int : spec_float -> Z -> bool
}.

(** The value the column [custom] keeps for [v]. *)
Definition store_boolean `{Numeric} (v : sqlval) : sqlval :=
  match v with
  | SNull => SNull
  | SInt z => SInt z
  | _ => numeric_affinity v
  end.

(** The row an INSERT INTO field_definitions (id, name, custom,
    schema_type) builds. *)
Definition field_row `{Runtime} `{Numeric} (vals : list sqlval) : row :=
  let given := combine ["id"; "name"; "custom"; "schema_type"] vals in
  [("id", store_as TEXT (col "id" given));
   ("name", store_as TEXT (col "name" given));
   ("custom", store_boolean (col "custom" given));
   ("schema_type", store_as TEXT (col "schema_type" given))].

(** INSERT INTO field_definitions (...) VALUES (?, ?, ?, ?)
    ON CONFLICT(id) DO UPDATE SET name=..., custom=..., schema_type=...
    on the table [field_definitions]; no other table refers to it. *)
Definition exec_upsert_field `{Runtime} `{Numeric} (vals : list sqlval)
    (table : list row) : result unit * list row :=
  let excluded := field_row vals in
  if negb (List.length vals =? 4)%nat then (Raise ProgrammingError, table)
  else if is_null (col "name" excluded) then (Raise IntegrityError, table)
  else
    match find (same_id excluded) table with
    | None => (Ok tt, (table ++ [excluded])%list)
    | Some old =>
        (Ok tt, replace_first (same_id excluded)
                  (update_row ["name"; "custom"; "schema_type"] excluded old) table)
    end.

(** The parameter tuple of one round of [upsert_field_definitions]. *)
Definition field_params (field : json) : result (list json) :=
  schema <- get_d field "schema" (JObj []) ;;
  p_id <- getitem field "id" ;;
  p_name <- getitem field "name" ;;
  p_custom <- get_d field "custom" (JBool false) ;;
  p_type <- get schema "type" ;;
  Ok [p_id; p_name; p_custom; p_type].

(** [upsert_field_definitions(fields)] on the table: the rounds before a
    round that raises stay done. *)
Fixpoint upsert_field_definitions `{Runtime} `{Numeric} (fields : list json)
    (table : list row) : result unit * list row :=
  match fields with
  | [] => (Ok tt, table)
  | field :: rest =>
      match (params <- field_params field ;; mapM bind_param params) with
      | Raise e => (Raise e, table)
      | Ok vals =>
          match exec_upsert_field vals table with
          | (Ok _, table') => upsert_field_definitions rest table'
          | (Raise e, table') => (Raise e, table')
          end
      end
  end.

(** [custom = 1] *)
Definition is_one `{Numeric} (v : sqlval) : bool :=
  match v with
  | SInt z => (z =? 1)%Z
  | SReal f => real_eq_int f 1
  | _ => false
  end.

(** Keys of the dict [get_custom_field_map] builds: values of the [id]
    column. *)
Fixpoint field_map_set (k v : sqlval) (m : list (sqlval * sqlval))
    : list (sqlval * sqlval) :=
  match m with
  | [] => [(k, v)]
  | (k', v') :: m' =>
      if Exporter.key_eqb k k' then (k', v) :: m' else (k', v') :: field_map_set k v m'
  end.

(** [get_custom_field_map()]: the rows come in table order. *)
Definition get_custom_field_map `{Numeric} (table : list row) : list (sqlval * sqlval) :=
  fold_left (fun m r => field_map_set (col "id" r) (col "name" r) m)
            (filter (fun r => is_one (col "custom" r)) table) [].

End Tables.

(** ** Statements about projects, comments and field definitions *)

Module TablesSpec.
Import Db DbSpec Tables.

(** The row [upsert_project] computes from a payload and the clock. *)
Definition stored_project `{Runtime} (now : string) (project : json) : result row :=
  params <- project_params project ;;
  vals <- mapM bind_param params ;;
  Ok (insert_row projects_schema projects_insert_cols (vals ++ [SText now])%list).

(** The row [upsert_comment] computes from a payload. *)
Definition stored_comment `{Runtime} (issue_key : string) (comment : json) : result row :=
  params <- comment_params issue_key comment ;;
  vals <- mapM bind_param params ;;
  Ok (insert_row comments_schema comments_insert_cols vals).

Definition projects_shaped (r : row) : bool :=
  if list_eq_dec string_dec (map fst r) (map fst projects_schema) then true else false.

Definition comments_shaped (r : row) : bool :=
  if list_eq_dec string_dec (map fst r) (map fst comments_schema) then true else false.

(** The [projects] table is well formed: schema columns, distinct ids. *)
Definition projects_ok (d : db) : bool :=
  forallb projects_shaped (projects d) && unique_ids (projects d).

Definition comments_ok (d : db) : bool :=
  forallb comments_shaped (comments d) && unique_ids (comments d).

Definition projects_with_id (i : string) (d : db) : list row :=
  filter (row_has_id i) (projects d).

Definition comments_with_id (i : string) (d : db) : list row :=
  filter (row_has_id i) (comments d).

(** A field definition as the API sends it: id, name, whether custom
    (absent when [None]), and the schema type if there is a schema. *)
Record field_def := mkField {
  field_id : string;
  field_name : string;
  field_custom : option bool;
  field_schema_type : option string
}.

Definition field_payload (f : field_def) : json :=
  JObj ([("id", JStr (field_id f)); ("name", JStr (field_name f))]
        ++ match field_custom f with
           | Some b => [("custom", JBool b)]
           | None => []
           end
        ++ match field_schema_type f with
           | Some t => [("schema", JObj [("type", JStr t)])]
           | None => []
           end)%list.

Definition is_custom (f : field_def) : bool :=
  match field_custom f with Some b => b | None => false end.

(** The three upserts of the JIRA export, as calls. *)
Inductive upsert_call :=
| UpsertProject (now : string) (project : json)
| UpsertIssue (issue : json) (field_map : option (list (string * string)))
| UpsertComment (issue_key : string) (comment : json).

Definition run_upsert `{Runtime} (c : upsert_call) : Store unit :=
  match c with
  | UpsertProject now project => upsert_project now project
  | UpsertIssue issue field_map => upsert_issue issue field_map
  | UpsertComment issue_key comment => upsert_comment issue_key comment
  end.

(** The key column is a text in every row. *)
Definition text_keys (rs : list row) : Prop :=
  Forall (fun r => exists s, col "key" r = SText s) rs.

End TablesSpec.

(** ** Data for the examples of projects and comments *)

Module TableExamples.
Import Db Tables Examples.

Definition empty_store : db := mkDb [] [] [] [] 0.

Definition project_xyz (key : string) : json :=
  JObj [("id", JStr "10100"); ("key", JStr key); ("name", JStr "Last letters");
        ("projectTypeKey", JStr "software");
        ("lead", JObj [("displayName", JStr "Ann")])].

Definition noon : string := "2024-01-02 12:00:00".

Definition store_xyz : db :=
  after (@upsert_project example_runtime noon (project_xyz "XYZ")) empty_store.

Definition xyz1 : json := issue_payload "20001" "XYZ-1" "First of the last" [].

Definition store_xyz1 : db := after (@upsert_issue example_runtime xyz1 None) store_xyz.

Definition comment_payload (id text created : string) : json :=
  JObj [("id", JStr id);
        ("author", JObj [("displayName", JStr "Ann")]);
        ("body", doc [para text]);
        ("created", JStr created)].

Definition store_commented : db :=
  after (@upsert_comment example_runtime "XYZ-1"
           (comment_payload "c7" "Looks fine" "2024-01-03")) store_xyz1.

End TableExamples.

(** ** Statements about field definitions and custom fields *)

Module FieldsSpec.
Import Db Tables TablesSpec.

(** The row the table holds for a field definition. *)
Definition def_row (f : field_def) : row :=
  [("id", SText (field_id f)); ("name", SText (field_name f));
   ("custom", SInt (if is_custom f then 1 else 0));
   ("schema_type", match field_schema_type f with
                   | Some t => SText t
                   | None => SNull
                   end)].

Definition map_entry (f : field_def) : sqlval * sqlval :=
  (SText (field_id f), SText (field_name f)).

(** A custom field of a payload that the field map names: the id has the
    prefix [customfield_], the payload has it, and its value is not
    null. *)
Definition qualifies (field_map : list (string * string)) (fkv : list (string * json))
    (name : string) (v : json) : Prop :=
  v <> JNull
  /\ exists id, In (id, name) field_map
                /\ prefix "customfield_" id = true
                /\ lookup id fkv = Some v.

(** The value the loop of [collect_custom_fields] picks for an entry of
    the field map, if any. *)
Definition picked (fkv : list (string * json)) (id : string) : option json :=
  if prefix "customfield_" id then
    match lookup id fkv with
    | Some JNull => None
    | found => found
    end
  else None.

Definition example_numeric : Numeric :=
  {| numeric_affinity := fun v => v; real_eq_int := fun _ _ => false |}.

Definition story_points_field : field_def :=
  mkField "customfield_10016" "Story Points" (Some true) (Some "number").
Definition summary_field : field_def :=
  mkField "summary" "Summary" (Some false) (Some "string").
Definition rank_field : field_def :=
  mkField "customfield_10019" "Rank" None None.

End FieldsSpec.

(** ** Statements about the queries *)

Module QuerySpec.
Import Db DbSpec Tables.

(** The issues a call of [get_issues] selects: all of them without a
    project key or with the empty one, those of the project otherwise. *)
Definition selected (project_key : option string) (d : db) : list row :=
  match project_key with
  | Some k =>
      if String.eqb k "" then issues d
      else filter (fun r => text_eq (col "project_key" r) (SText k)) (issues d)
  | None => issues d
  end.

Definition key_leb (a b : row) : Prop := by_col "key" a b = true.

(** The ids of link rows, when they are integers. *)
Definition link_id (r : row) : Z :=
  match col "id" r with SInt z => z | _ => 0 end.

(** [rows] carry the ids [first], [first + 1], ... *)
Fixpoint numbered (first : Z) (rows : list row) : Prop :=
  match rows with
  | [] => True
  | r :: rows' => col "id" r = SInt first /\ numbered (first + 1) rows'
  end.

(** What a run on the links table did: it added [rows] behind the rows
    in place, numbered from the counter on, and advanced the counter by
    their number; the issues are as they were. *)
Definition added (d d' : db) (rows : list row) : Prop :=
  issue_links d' = (issue_links d ++ rows)%list
  /\ numbered (issue_links_seq d + 1) rows
  /\ issue_links_seq d' = (issue_links_seq d + Z.of_nat (List.length rows))%Z
  /\ issues d' = issues d.

(** A method that only adds link rows, whether it returns or raises. *)
Definition adds {A} (m : Store A) : Prop :=
  forall d res d', m d = (res, d') -> exists rows, added d d' rows.

End QuerySpec.

(** ** Statements about the exported files *)

Module ExportSpec.
Import Db DbSpec Exporter ExporterSpec.

(** The number of cells of the mapped fields of a JIRA CSV row. *)
Definition core_width : nat := List.length JIRA_FIELD_MAP.

(** The values [upsert_issue] stores for a list of named objects
    (components, versions): the [name] of each, null when it has none. *)
Definition name_or_null (c : list (string * json)) : json :=
  match lookup "name" c with Some v => v | None => JNull end.

End ExportSpec.

(** ** Instances and data for the examples of exported files *)

Module ExportExamples.
Import Db Exporter Examples.

(** The items of an array of strings and nulls as [simple_dumps] writes
    it, read from behind the opening bracket. *)
Fixpoint name_items (s : string) (in_str : bool) (cur : string) (acc : list json)
    : option (list json) :=
  match s with
  | EmptyString => None
  | String c s' =>
      if in_str then
        if Ascii.eqb c "034" then name_items s' false "" (acc ++ [JStr cur])%list
        else name_items s' true (cur ++ String c "") acc
      else
        match s with
        | String "n" (String "u" (String "l" (String "l" rest))) =>
            name_items rest false "" (acc ++ [JNull])%list
        | _ =>
            if Ascii.eqb c "034" then name_items s' true "" acc
            else if Ascii.eqb c "]" then
              match s' with EmptyString => Some acc | _ => None end
            else if Ascii.eqb c "," || Ascii.eqb c " " then name_items s' false cur acc
            else None
        end
  end.

(** [json.loads] on the arrays of strings and nulls that [simple_dumps]
    writes, and on nothing else. *)
Definition loads_names (s : string) : option json :=
  match s with
  | String "[" s' => option_map JArr (name_items s' false "" [])
  | _ => None
  end.

Definition names_json : JsonLib :=
  {| json_loads := loads_names;
     repr_other := simple_dumps;
     float_str := fun _ => "0.0" |}.

(** An issue with two labels and two components, one of them without a
    name. *)
Definition abc7 : json :=
  issue_payload "10007" "ABC-7" "Seventh"
    [("labels", JArr [JStr "ui"; JStr "bug"]);
     ("components", JArr [JObj [("name", JStr "Core")]; JObj [("id", JStr "3")]])].

Definition store7 : db := after (@upsert_issue example_runtime abc7 None) store0.

End ExportExamples.

(** ** export.py: the JSON export *)

Module JsonExport.
Import Db Exporter.

(** An element of [full_issues]: the decoded [raw_json] of an issue, or
    the row itself as a dict when there is none or it does not decode. *)
Inductive exported_issue :=
| Parsed (v : json)
| AsRow (r : row).

(** One round of the loop of [export_json]. *)
Definition export_entry `{JsonLib} (issue : row) : exported_issue :=
  let raw := col "raw_json" issue in
  if sql_truthy raw then
    match raw with
    | SText s =>
        match json_loads s with
        | Some v => Parsed v
        | None => AsRow issue
        end
    | _ => AsRow issue
    end
  else AsRow issue.

(** The file [export_json] writes: its name and the list handed to
    [json.dump]. *)
Record json_file := mkJsonFile {
  json_name : string;
  json_entries : list exported_issue
}.

(** [export_json(db, output_dir, project_key)]: [None] when there is no
    issue to export. *)
Definition export_json `{JsonLib} (d : db) (project_key : option string)
    : option json_file :=
  match get_issues project_key d with
  | [] => None
  | issues =>
      let suffix := match project_key with
                    | Some k => if String.eqb k "" then "" else "_" ++ k
                    | None => ""
                    end in
      Some (mkJsonFile ("issues" ++ suffix ++ ".json") (map export_entry issues))
  end.

End JsonExport.

Module JsonExportExamples.
Import Db Exporter Examples.

(** [json.loads] that knows the one text it is asked about. *)
Definition loads_only (text : string) (v : json) : JsonLib :=
  {| json_loads := fun s => if String.eqb s text then Some v else None;
     repr_other := simple_dumps;
     float_str := fun _ => "0.0" |}.

End JsonExportExamples.

(** ** api.py: the paginated reads *)

Module Paging.
Import Api.

Definition projects_request (start_at : Z) : request :=
  mkRequest "GET" "/project/search"
    [("startAt", JInt start_at); ("maxResults", JInt PAGE_SIZE)].

(** The [while True] loop of [get_projects], against the scripted
    replies of [_request]: how it ends, and the requests it made. *)
Fixpoint projects_loop (script : list reply) (start_at : Z) (projects : list json)
    (log : list request) : outcome (list json) * list request :=
  match script with
  | [] => (Starved, log)
  | r :: script' =>
      let log' := append log (projects_request start_at) in
      match r with
      | inr e => (Raised e, log')
      | inl resp =>
          match (data <- json_body resp ;;
                 values <- get_d data "values" (JArr []) ;;
                 items <- iter values ;;
                 is_last <- get_d data "isLast" (JBool true) ;;
                 Ok (items, is_last)) with
          | Raise e => (Raised (PyError e), log')
          | Ok (items, is_last) =>
              if truthy is_last then (Returned (extend projects items), log')
              else projects_loop script' (start_at + PAGE_SIZE) (extend projects items) log'
          end
      end
  end.

(** [get_projects()] *)
Definition get_projects (script : list reply) : outcome (list json) * list request :=
  projects_loop script 0 [] [].

Definition comments_request (issue_key : string) (start_at : Z) : request :=
  mkRequest "GET" ("/issue/" ++ issue_key ++ "/comment")
    [("startAt", JInt start_at); ("maxResults", JInt PAGE_SIZE)].

(** The [while True] loop of [get_issue_comments]. *)
Fixpoint comments_loop (issue_key : string) (script : list reply) (start_at : Z)
    (comments : list json) (log : list request) : outcome (list json) * list request :=
  match script with
  | [] => (Starved, log)
  | r :: script' =>
      let log' := append log (comments_request issue_key start_at) in
      match r with
      | inr e => (Raised e, log')
      | inl resp =>
          match (data <- json_body resp ;;
                 page <- get_d data "comments" (JArr []) ;;
                 items <- iter page ;;
                 total <- get_d data "total" (JInt 0) ;;
                 stop <- int_ge (start_at + PAGE_SIZE) total ;;
                 Ok (items, stop)) with
          | Raise e => (Raised (PyError e), log')
          | Ok (items, stop) =>
              if stop then (Returned (extend comments items), log')
              else comments_loop issue_key script' (start_at + PAGE_SIZE)
                     (extend comments items) log'
          end
      end
  end.

(** [get_issue_comments(issue_key)] *)
Definition get_issue_comments (issue_key : string) (script : list reply)
    : outcome (list json) * list request :=
  comments_loop issue_key script 0 [] [].

End Paging.

(** ** Statements about the paginated reads *)

Module PagingSpec.
Import Api Paging.

(** The offsets [0], [PAGE_SIZE], [2 * PAGE_SIZE], ... of [n] requests,
    the first at [start]. *)
Fixpoint offsets (start : Z) (n : nat) : list Z :=
  match n with
  | O => []
  | S n' => start :: offsets (start + PAGE_SIZE) n'
  end.

(** The list the body has under [k]; the empty list when it has no such
    entry. *)
Definition listed (k : string) (kv : list (string * json)) : option (list json) :=
  match lookup k kv with
  | Some (JArr l) => Some l
  | Some _ => None
  | None => Some []
  end.

(** A page of projects: its values, and whether the server says that
    more follow ([isLast] present and false). *)
Definition project_page (more : bool) (resp : response) (values : list json) : Prop :=
  exists kv,
    json_body resp = Ok (JObj kv)
    /\ listed "values" kv = Some values
    /\ truthy (match lookup "isLast" kv with Some v => v | None => JBool true end)
       = negb more.

(** A page of comments of an issue that has [total] comments in all. *)
Definition comment_page (total : Z) (resp : response) (comments : list json) : Prop :=
  exists kv,
    json_body resp = Ok (JObj kv)
    /\ listed "comments" kv = Some comments
    /\ lookup "total" kv = Some (JInt total).

(** The total a page of search results reports, [0] when it reports
    none. *)
Definition page_total (kv : list (string * json)) : json :=
  match lookup "total" kv with Some v => v | None => JInt 0 end.

(** A page of the newer search endpoint: its issues and the token of the
    next page, null when the body has none. *)
Definition jql_page (total : json) (resp : response) (page : list json * json) : Prop :=
  exists kv,
    json_body resp = Ok (JObj kv)
    /\ listed "issues" kv = Some (fst page)
    /\ page_total kv = total
    /\ match lookup "nextPageToken" kv with Some v => v | None => JNull end = snd page.

(** The total [search_issues] holds after a page that reports
    [reported]: the first total that is not zero. *)
Definition settle_total (so_far reported : json) : json :=
  if is_zero so_far then reported else so_far.

(** The total after the pages [pages], each of which reports [total]. *)
Definition total_after {A} (so_far total : json) (pages : list A) : json :=
  match pages with
  | [] => so_far
  | _ => settle_total so_far total
  end.

(** The tokens of the requests that read [pages], the first request
    carrying [token], and the token the request after them carries. *)
Fixpoint sent_tokens {A} (token : json) (pages : list (A * json)) : list json :=
  match pages with
  | [] => []
  | p :: pages' => token :: sent_tokens (snd p) pages'
  end.

Fixpoint next_token {A} (token : json) (pages : list (A * json)) : json :=
  match pages with
  | [] => token
  | p :: pages' => next_token (snd p) pages'
  end.

(** A page of the newer endpoint as it comes: its issues, the token of
    the next page, and the total it reports. *)
Definition reported_page (resp : response) (page : list json * json * json) : Prop :=
  jql_page (snd page) resp (fst page).

(** The total [search_issues] holds after pages that reported [totals],
    having held [so_far] before them. *)
Fixpoint held_total (so_far : json) (totals : list json) : json :=
  match totals with
  | [] => so_far
  | t :: totals' => held_total (settle_total so_far t) totals'
  end.

(** The first of [totals] that is not zero; the last of them when all
    are zero, and [0] when there is none. *)
Definition first_total (totals : list json) : json :=
  match find (fun t => negb (is_zero t)) totals with
  | Some t => t
  | None => last totals (JInt 0)
  end.

(** A page of the classic search endpoint with its issues. *)
Definition classic_page (reported : json) (resp : response) (issues : list json) : Prop :=
  exists kv,
    json_body resp = Ok (JObj kv)
    /\ lookup "issues" kv = Some (JArr issues)
    /\ page_total kv = reported.

Definition not_found (msg : status_message) (resp : response) : reply :=
  inr (HTTPStatusError msg resp).

(** The reply a successful request gives to a loop: a response with
    this JSON object as its body. *)
Definition body (kv : list (string * json)) : reply :=
  inl (mkResponse 200 None (Ok (JObj kv))).

End PagingSpec.

(** ** app.py: the login form *)

Module Login.

(** [s.replace(old, "")] for a pattern [old] that is not empty: the
    occurrences are found from the left and do not overlap.  [skip]
    counts the characters of an occurrence still to pass. *)
Fixpoint remove_from (old : string) (skip : nat) (s : string) : string :=
  match s with
  | EmptyString => EmptyString
  | String c s' =>
      match skip with
      | S k => remove_from old k s'
      | O =>
          if prefix old s then remove_from old (String.length old - 1) s'
          else String c (remove_from old 0 s')
      end
  end.

Definition remove_all (old s : string) : string := remove_from old 0 s.

(** [s.lstrip(c)], [s.rstrip(c)] and [s.strip(c)] for one character. *)
Fixpoint lstrip_char (c : ascii) (s : string) : string :=
  match s with
  | String c' s' => if Ascii.eqb c' c then lstrip_char c s' else s
  | EmptyString => EmptyString
  end.

Fixpoint rstrip_char (c : ascii) (s : string) : string :=
  match s with
  | String c' s' =>
      match rstrip_char c s' with
      | EmptyString => if Ascii.eqb c' c then EmptyString else String c' EmptyString
      | r => String c' r
      end
  | EmptyString => EmptyString
  end.

Definition strip_char (c : ascii) (s : string) : string :=
  rstrip_char c (lstrip_char c s).

(** [domain.replace(".atlassian.net", "").replace("https://", "").strip("/")] *)
Definition site_of (domain : string) : string :=
  strip_char "/" (remove_all "https://" (remove_all ".atlassian.net" domain)).

(** [JiraClient.__init__]: the base URL of a site. *)
Definition base_url (domain : string) : string :=
  "https://" ++ domain ++ ".atlassian.net" ++ "/rest/api/3".

End Login.

Module LoginSpec.
Import Login.

(** A site name as Atlassian gives them: no dot, no slash, no colon. *)
Definition site_name (s : string) : Prop :=
  contains_char "." s = false /\ contains_char "/" s = false
  /\ contains_char ":" s = false.

(** The ways of writing a site: the bare name, the host, the URL, with
    or without a slash at the end. *)
Definition spellings (name : string) : list string :=
  [name; name ++ ".atlassian.net"; name ++ ".atlassian.net/";
   "https://" ++ name; "https://" ++ name ++ "/";
   "https://" ++ name ++ ".atlassian.net";
   "https://" ++ name ++ ".atlassian.net/"].

End LoginSpec.

(** ** app.py: storing an issue during the export *)

Module ExportRun.
Import Db Tables.

(** [issue.get("fields", {}).get("issuelinks", [])] *)
Definition payload_links (issue : json) : result json :=
  fields <- get_d issue "fields" (JObj []) ;;
  get_d fields "issuelinks" (JArr []).

(** The comments that came with the issue:
    [comments_data.get("comments", []) if isinstance(comments_data, dict) else []] *)
Definition payload_comments (issue : json) : result json :=
  fields <- get_d issue "fields" (JObj []) ;;
  comments_data <- get_d fields "comment" (JObj []) ;;
  if is_dict comments_data then get_d comments_data "comments" (JArr [])
  else Ok (JArr []).

(** [db.insert_issue_links(issue_key, links)] for whatever the payload
    holds under [issuelinks]: the DELETE has run when the loop finds out
    whether [links] can be iterated. *)
Definition insert_links `{Runtime} (issue_key : string) (links : json) : Store unit :=
  match iter links with
  | Ok items => insert_issue_links issue_key items
  | Raise e => (_ <~ exec_delete_links issue_key ;; raise e)%store
  end.

(** The body of the [try] of the loop over the issues of a project in
    [_run_export], for an issue whose key is the str [issue_key].
    [fetch] is what [client.get_issue_comments] returns for a key,
    [None] when the call raises.  The counters and the progress display
    are left out. *)
Definition store_issue `{Runtime} (fetch : string -> option (list json))
    (field_map : option (list (string * string))) (issue_key : string) (issue : json)
    : Store unit :=
  (_ <~ upsert_issue issue field_map ;;
   links <~ lift (payload_links issue) ;;
   _ <~ (if truthy links then insert_links issue_key links else ret tt) ;;
   comments <~ lift (payload_comments issue) ;;
   let comments :=
     if truthy comments then comments
     else match fetch issue_key with
          | Some fetched => JArr fetched
          | None => comments
          end in
   items <~ lift (iter comments) ;;
   for_each (upsert_comment issue_key) items)%store.

(** [try: ... except Exception as exc:] with a handler that only writes
    to the log: the result is the exception logged, if any. *)
Definition logged (body : Store unit) : Store (option exn) :=
  fun d =>
    match body d with
    | (Ok _, d') => (Ok None, d')
    | (Raise e, d') => (Ok (Some e), d')
    end.

(** One round of the loop over the issues, in a run that is not
    cancelled.  [upsert_issue] raises for a key that is not a str (it
    splits the key), so the rest of the body runs with a str key only. *)
Definition process_issue `{Runtime} (fetch : string -> option (list json))
    (field_map : option (list (string * string))) (issue : json)
    : Store (option exn) :=
  fun d =>
    match get_d issue "key" (JStr "?") with
    | Ok (JStr issue_key) => logged (store_issue fetch field_map issue_key issue) d
    | Ok _ => logged (upsert_issue issue field_map) d
    | Raise e => (Raise e, d)
    end.

End ExportRun.

Module ExportRunSpec.
Import Db Tables.

(** A method that leaves a part of the store as it found it, whether it
    returns or raises. *)
Definition keeps {A B} (part : db -> A) (m : Store B) : Prop :=
  forall d, part (snd (m d)) = part d.

(** The link table with its counter. *)
Definition link_table (d : db) : list row * Z := (issue_links d, issue_links_seq d).

(** The projects and the issues. *)
Definition issue_tables (d : db) : list row * list row := (projects d, issues d).

End ExportRunSpec.

Module ExportRunExamples.
Import Db Tables Examples.

(** The client has no comments for any issue. *)
Definition no_comments (issue_key : string) : option (list json) := Some [].

(** The client fails. *)
Definition offline (issue_key : string) : option (list json) := None.

(** An issue that comes with a comment without id. *)
Definition xyz2 : json :=
  issue_payload "20002" "XYZ-2" "Second of the last"
    [("comment", JObj [("comments", JArr [JObj [("body", JStr "No id")]])])].

End ExportRunExamples.

(** ** export.py: the standard CSV export *)

Module CsvExport.
Import Db Exporter.

Definition CORE_FIELDS : list string :=
  ["key"; "project_key"; "summary"; "description"; "issue_type"; "status";
   "status_category"; "priority"; "assignee_name"; "assignee_email";
   "reporter_name"; "reporter_email"; "labels"; "components";
   "fix_versions"; "affects_versions"; "resolution"; "resolution_date";
   "created"; "updated"; "due_date"; "parent_key";
   "time_original_estimate"; "time_spent"; "time_remaining"; "story_points"].

(** [names.add(n)] on a set of strs, held as the list of its elements. *)
Definition set_add (names : list string) (n : string) : list string :=
  if existsb (String.eqb n) names then names else (names ++ [n])%list.

(** [sorted(names)] *)
Fixpoint insert_name (n : string) (names : list string) : list string :=
  match names with
  | [] => [n]
  | m :: names' => if str_leb n m then n :: names else m :: insert_name n names'
  end.

Definition sorted (names : list string) : list string :=
  fold_right insert_name [] names.

(** One round of the first loop: the keys of the custom fields of an
    issue join the set.  [json.loads] raises TypeError on a value that is
    not a str; a decoded value that is not a dict has no [keys]. *)
Definition collect_names `{JsonLib} (names : list string) (issue : row)
    : result (list string) :=
  let value := col "custom_fields" issue in
  if sql_truthy value then
    match value with
    | SText s =>
        match json_loads s with
        | Some (JObj cf) => Ok (fold_left set_add (map fst cf) names)
        | Some _ => Raise AttributeError
        | None => Ok names
        end
    | _ => Ok names
    end
  else Ok names.

Definition list_fields : list string :=
  ["labels"; "components"; "fix_versions"; "affects_versions"].

(** The cell of a core field: [row[field] = val or ""], as the writer
    renders it. *)
Definition core_cell `{JsonLib} (issue : row) (field : string) : string :=
  let val := col field issue in
  if existsb (String.eqb field) list_fields then join ", " (_parse_json_field val)
  else if sql_truthy val then sql_str val else "".

(** The cell of a custom field of an issue whose custom fields are
    [cf]. *)
Definition custom_cell `{Runtime} `{JsonLib} (cf : list (string * json)) (name : string)
    : string :=
  let val := match lookup name cf with Some v => v | None => JNull end in
  let val := match val with
             | JObj _ | JArr _ => JStr (json_dumps val)
             | _ => val
             end in
  if truthy val then py_str val else "".

(** The cells of the custom columns of an issue: the writer fills the
    columns the row dict lacks with the empty string. *)
Definition custom_cells `{Runtime} `{JsonLib} (sorted_custom : list string) (issue : row)
    : result (list string) :=
  let blank := map (fun _ => "") sorted_custom in
  let value := col "custom_fields" issue in
  if sql_truthy value then
    match value with
    | SText s =>
        match json_loads s with
        | Some (JObj cf) => Ok (map (custom_cell cf) sorted_custom)
        | Some _ =>
            match sorted_custom with
            | [] => Ok []
            | _ => Raise AttributeError
            end
        | None => Ok blank
        end
    | _ => Ok blank
    end
  else Ok blank.

(** The row written for an issue. *)
Definition issue_cells `{Runtime} `{JsonLib} (sorted_custom : list string) (issue : row)
    : result (list string) :=
  custom <- custom_cells sorted_custom issue ;;
  Ok (map (core_cell issue) CORE_FIELDS ++ custom)%list.

(** [f == z] between a float and an int, compared exactly. *)
Definition float_eq_int (f : spec_float) (z : Z) : bool :=
  match f with
  | S754_zero _ => (z =? 0)%Z
  | S754_finite s m e =>
      let v := if s then Zneg m else Zpos m in
      (if (0 <=? e)%Z then (z =? v * 2 ^ e) else (z * 2 ^ (- e) =? v))%Z
  | _ => false
  end.

(** [a == b] between two column values, as [in] on a set applies it to
    values of different rows. *)
Definition py_eq (a b : sqlval) : bool :=
  match a, b with
  | SNull, SNull => true
  | SInt x, SInt y => (x =? y)%Z
  | SReal x, SReal y => SFeqb x y
  | SInt x, SReal y => float_eq_int y x
  | SReal x, SInt y => float_eq_int x y
  | SText x, SText y => String.eqb x y
  | _, _ => false
  end.

Definition comment_headers : list string :=
  ["issue_key"; "author_name"; "author_email"; "body"; "created"; "updated"].

(** [comment.get(h, "")] as the writer renders it: nothing for None. *)
Definition comment_value `{JsonLib} (comment : row) (h : string) : string :=
  match lookup h comment with
  | Some SNull => ""
  | Some v => sql_str v
  | None => ""
  end.

(** [c["issue_key"] in issue_keys] *)
Definition of_exported_issue (issues : list row) (c : row) : bool :=
  existsb (fun i => py_eq (col "issue_key" c) (col "key" i)) issues.

(** [export_csv(db, output_dir, project_key)]: the files written, each
    with its name, header and rows as handed to [csv.DictWriter]. *)
Definition export_csv `{Runtime} `{JsonLib} (d : db) (project_key : option string)
    : result (list csv_file) :=
  match get_issues project_key d with
  | [] => Ok []
  | issues =>
      custom_field_names <- foldM collect_names issues [] ;;
      let sorted_custom := sorted custom_field_names in
      let all_headers := (CORE_FIELDS ++ map (String.append "custom:") sorted_custom)%list in
      let given := match project_key with
                   | Some k => negb (String.eqb k "")
                   | None => false
                   end in
      let suffix := match project_key with
                    | Some k => if String.eqb k "" then "" else "_" ++ k
                    | None => ""
                    end in
      rows <- mapM (issue_cells sorted_custom) issues ;;
      let created_files := [mkCsv ("issues" ++ suffix ++ ".csv") all_headers rows] in
      let comments := get_comments SNull d in
      let comments := if given then filter (of_exported_issue issues) comments
                      else comments in
      match comments with
      | [] => Ok created_files
      | _ =>
          Ok (created_files
              ++ [mkCsv ("comments" ++ suffix ++ ".csv") comment_headers
                    (map (fun c => map (comment_value c) comment_headers) comments)])%list
      end
  end.

End CsvExport.

(** ** Statements about the standard CSV export *)

Module CsvExportSpec.
Import Db Exporter CsvExport.

(** What [json.loads] makes of the custom fields of an issue, when the
    column holds a text it can decode. *)
Definition custom_json `{JsonLib} (issue : row) : option json :=
  match col "custom_fields" issue with
  | SText s => if String.eqb s "" then None else json_loads s
  | _ => None
  end.

(** The custom fields of an issue, when they decode to an object. *)
Definition custom_object `{JsonLib} (issue : row) : option (list (string * json)) :=
  match custom_json issue with
  | Some (JObj cf) => Some cf
  | _ => None
  end.

(** The custom fields decode, but not to an object. *)
Definition not_an_object `{JsonLib} (issue : row) : bool :=
  match custom_json issue with
  | Some (JObj _) => false
  | Some _ => true
  | None => false
  end.

Definition ascending (a b : string) : Prop := str_leb a b = true /\ a <> b.

(** A comment on one of the issues of a project. *)
Definition of_project (d : db) (k : string) (c : row) : Prop :=
  exists i, In i (issues d)
            /\ text_eq (col "project_key" i) (SText k) = true
            /\ py_eq (col "issue_key" c) (col "key" i) = true.

(** The comments file of an export, if one is written. *)
Definition comments_file `{JsonLib} (suffix : string) (comments : list row)
    : list csv_file :=
  match comments with
  | [] => []
  | _ => [mkCsv ("comments" ++ suffix ++ ".csv") comment_headers
            (map (fun c => map (comment_value c) comment_headers) comments)]
  end.

End CsvExportSpec.

(** ** Data for the examples of the standard CSV export *)

Module CsvExportExamples.
Import Db Exporter Examples JsonExportExamples.

(** An issue with an estimate in a custom field. *)
Definition abc21 : json :=
  issue_payload "10021" "ABC-21" "Estimated" [("customfield_10016", JInt 5)].

Definition points_map : option (list (string * string)) :=
  Some [("customfield_10016", "Story Points")].

Definition store21 : db := after (@upsert_issue example_runtime abc21 points_map) store0.

Definition points : json := JObj [("Story Points", JInt 5)].

(** [json.loads] that knows the custom fields of ABC-21. *)
Definition loads_points : JsonLib := loads_only (simple_dumps points) points.

End CsvExportExamples.

(** * Proofs *)

(** ** The result monad and the Python helpers *)

Module PyFacts.

Lemma bind_Ok {A B} (r : result A) (k : A -> result B) (b : B) :
  bind r k = Ok b -> exists a, r = Ok a /\ k a = Ok b.
Proof. destruct r as [a|e]; simpl; intros E; [eauto | discriminate]. Qed.

Lemma mapM_Ok_Forall {A B} (f : A -> result B) (P : B -> Prop) (xs : list A) :
  (forall x, In x xs -> exists y, f x = Ok y /\ P y) ->
  exists ys, mapM f xs = Ok ys /\ Forall P ys.
Proof.
  induction xs as [|x xs IH]; intros Hf; simpl.
  - exists []; auto.
  - destruct (Hf x (or_introl eq_refl)) as (y & Ey & Py).
    destruct IH as (ys & Eys & Pys); [intros z Hz; apply Hf; now right|].
    rewrite Ey, Eys. simpl. exists (y :: ys); auto.
Qed.

Lemma mapM_map {A B C} (f : B -> result C) (g : A -> B) (xs : list A) :
  mapM f (map g xs) = mapM (fun x => f (g x)) xs.
Proof. induction xs as [|x xs IH]; simpl; [reflexivity | now rewrite IH]. Qed.

Lemma mapM_pure {A B} (g : A -> B) (xs : list A) :
  mapM (fun x => Ok (g x)) xs = Ok (map g xs).
Proof. induction xs as [|x xs IH]; simpl; [reflexivity | now rewrite IH]. Qed.

Lemma mapM_length {A B} (f : A -> result B) (xs : list A) (ys : list B) :
  mapM f xs = Ok ys -> List.length ys = List.length xs.
Proof.
  revert ys; induction xs as [|x xs IH]; simpl; intros ys E.
  - now inversion E.
  - destruct (f x); simpl in E; [|discriminate].
    destruct (mapM f xs) eqn:E'; simpl in E; [|discriminate].
    inversion E; subst; simpl. now rewrite (IH _ eq_refl).
Qed.

Lemma mapM_cons_Ok {A B} (f : A -> result B) (x : A) (xs : list A) (ys : list B) :
  mapM f (x :: xs) = Ok ys ->
  exists y ys', ys = y :: ys' /\ f x = Ok y /\ mapM f xs = Ok ys'.
Proof.
  simpl. destruct (f x) as [y|]; [|discriminate].
  destruct (mapM f xs) as [ys'|]; [|discriminate].
  simpl. intros E. inversion E. eauto.
Qed.

Lemma join_values_strs (sep : string) (ws : list string) :
  join_values sep (map JStr ws) = Ok (join sep ws).
Proof.
  unfold join_values. rewrite mapM_map.
  rewrite (mapM_pure (fun s => s)), map_id. reflexivity.
Qed.

Lemma Forall_is_str (parts : list json) :
  Forall is_str parts -> exists ws, parts = map JStr ws.
Proof.
  induction 1 as [|v parts (s & ->) _ (ws & ->)].
  - now exists [].
  - now exists (s :: ws).
Qed.

Lemma join_values_Ok (sep : string) (parts : list json) :
  Forall is_str parts -> exists s, join_values sep parts = Ok s.
Proof.
  intros H. destruct (Forall_is_str _ H) as (ws & ->).
  rewrite join_values_strs. eauto.
Qed.

Lemma depth_lookup (k : string) (kv : list (string * json)) (v : json) :
  lookup k kv = Some v -> json_depth v < json_depth (JObj kv).
Proof.
  simpl. induction kv as [|[k' v'] kv IH]; simpl; [discriminate|].
  destruct (String.eqb k k').
  - intros E; inversion E; subst. lia.
  - intros E. specialize (IH E). lia.
Qed.

Lemma depth_In (l : list json) (v : json) :
  In v l -> json_depth v < json_depth (JArr l).
Proof.
  simpl. induction l as [|x l IH]; simpl; [tauto|].
  intros [-> | H]; [lia | specialize (IH H); lia].
Qed.

End PyFacts.

(** ** extract_text_from_adf *)

Module AdfFacts.
Import Adf AdfSpec PyFacts.

Lemma wf_children (kv : list (string * json)) :
  wf_node (JObj kv) ->
  exists l, get_d (JObj kv) "content" (JArr []) = Ok (JArr l)
            /\ Forall wf_node l
            /\ (forall c, In c l -> S (json_depth c) < json_depth (JObj kv)).
Proof.
  intros H. inversion H as [kv' Hc Ht Ha]; subst. unfold get_d.
  destruct (lookup "content" kv) as [c|] eqn:E.
  - destruct (Hc c eq_refl) as (l & -> & Hl). exists l. repeat split; auto.
    intros c Hin. pose proof (depth_lookup _ _ _ E). pose proof (depth_In _ _ Hin). lia.
  - exists []. repeat split; auto. intros c [].
Qed.

Lemma wf_text (kv : list (string * json)) :
  wf_node (JObj kv) -> exists s, get_d (JObj kv) "text" (JStr "") = Ok (JStr s).
Proof.
  intros H. inversion H as [kv' Hc Ht Ha]; subst. unfold get_d.
  destruct (lookup "text" kv) as [t|] eqn:E; [|eauto].
  destruct (Ht t E) as (s & ->). eauto.
Qed.

Lemma wf_attr (kv : list (string * json)) (k : string) :
  wf_node (JObj kv) -> k = "text" \/ k = "shortName" \/ k = "url" ->
  exists s, (attrs <- get_d (JObj kv) "attrs" (JObj []) ;; get_d attrs k (JStr ""))
            = Ok (JStr s).
Proof.
  intros H Hk. inversion H as [kv' Hc Ht Ha]; subst. unfold get_d at 1.
  destruct (lookup "attrs" kv) as [a|] eqn:E; simpl; [|eauto].
  destruct (Ha a eq_refl) as (akv & -> & _ & H1 & H2 & H3). simpl.
  destruct (lookup k akv) as [v|] eqn:Ev; [|eauto].
  destruct Hk as [-> | [-> | ->]];
    [destruct (H1 v Ev) as (s & ->) | destruct (H2 v Ev) as (s & ->)
     | destruct (H3 v Ev) as (s & ->)]; eauto.
Qed.

Lemma wf_level (kv : list (string * json)) :
  wf_node (JObj kv) ->
  exists a lv h, get_d (JObj kv) "attrs" (JObj []) = Ok a
                 /\ get_d a "level" (JInt 1) = Ok lv
                 /\ str_times "#" lv = Ok h.
Proof.
  intros H. inversion H as [kv' Hc Ht Ha]; subst. unfold get_d at 1.
  destruct (lookup "attrs" kv) as [a|] eqn:E.
  - destruct (Ha a eq_refl) as (akv & -> & Hl & _).
    destruct (lookup "level" akv) as [v|] eqn:Ev.
    + destruct (Hl v eq_refl) as (z & -> & Hz).
      exists (JObj akv), (JInt z), (repeat_char "#" (Z.to_nat z)).
      unfold get_d. rewrite Ev. repeat split. unfold str_times, index_sized.
      destruct (Z.leb_spec (- 2 ^ 63) z); [|lia].
      destruct (Z.ltb_spec z (2 ^ 63)); [reflexivity | lia].
    + exists (JObj akv), (JInt 1), "#". unfold get_d. now rewrite Ev.
  - exists (JObj []), (JInt 1), "#". auto.
Qed.

Lemma collect_Ok (fuel : nat) : forall node,
  wf_node node -> json_depth node <= fuel ->
  exists s, _collect_inline_text fuel node = Ok s.
Proof.
  induction fuel as [|fuel IH]; intros node Hwf Hd;
    destruct Hwf as [kv Hc Ht Ha]; [simpl in Hd; lia|].
  assert (Hwf : wf_node (JObj kv)) by (constructor; assumption).
  destruct (wf_children kv Hwf) as (l & El & Hl & Hdl).
  cbn [_collect_inline_text]. rewrite El. cbn [bind iter].
  match goal with |- context [mapM ?f l] =>
    destruct (mapM_Ok_Forall f is_str l) as (texts & Et & Ps) end.
  - intros child Hin. rewrite Forall_forall in Hl. pose proof (Hl _ Hin) as Hw.
    destruct Hw as [ckv Hcc Hct Hca].
    assert (Hw : wf_node (JObj ckv)) by (constructor; assumption).
    unfold get at 1. unfold get_d at 1. cbn [bind].
    destruct (eq_str _ "text"); [destruct (wf_text ckv Hw) as (s & ->); exists (JStr s); split; [reflexivity | now exists s]|].
    destruct (eq_str _ "hardBreak"); [exists (JStr nl); split; [reflexivity | now exists nl]|].
    destruct (eq_str _ "mention"); [destruct (wf_attr ckv "text" Hw) as (s & ->); auto; exists (JStr s); split; [reflexivity | now exists s]|].
    destruct (eq_str _ "emoji"); [destruct (wf_attr ckv "shortName" Hw) as (s & ->); auto; exists (JStr s); split; [reflexivity | now exists s]|].
    destruct (eq_str _ "inlineCard"); [destruct (wf_attr ckv "url" Hw) as (s & ->); auto; exists (JStr s); split; [reflexivity | now exists s]|].
    destruct (IH (JObj ckv) Hw) as (s & ->); [specialize (Hdl _ Hin); lia|].
    exists (JStr s); split; [reflexivity | now exists s].
  - rewrite Et. cbn [bind]. apply join_values_Ok, Ps.
Qed.

Lemma list_items_Ok (fuel : nat) (bullet : bool) : forall items i parts,
  Forall wf_node items ->
  (forall c, In c items -> json_depth c <= fuel) ->
  Forall is_str parts ->
  exists parts', list_items fuel bullet i items parts = Ok parts'
                 /\ Forall is_str parts'.
Proof.
  induction items as [|item items IH]; intros i parts Hw Hd Hp; simpl; [eauto|].
  inversion Hw; subst.
  destruct (collect_Ok fuel item) as (s & ->); auto; [apply Hd; now left|].
  cbn [bind]. apply IH; auto.
  - intros c Hc. apply Hd. now right.
  - unfold append. apply Forall_app. split; auto. constructor; [eexists; reflexivity | constructor].
Qed.

Lemma table_rows_Ok (fuel : nat) : forall rows parts,
  Forall wf_node rows ->
  (forall r, In r rows -> S (json_depth r) <= fuel) ->
  Forall is_str parts ->
  exists parts', foldM (table_row fuel) rows parts = Ok parts'
                 /\ Forall is_str parts'.
Proof.
  induction rows as [|r rows IH]; intros parts Hw Hd Hp; simpl; [eauto|].
  inversion Hw as [|r' rows' Hr Hrows]; subst.
  destruct Hr as [kv Hc Ht Ha].
  assert (Hr : wf_node (JObj kv)) by (constructor; assumption).
  destruct (wf_children kv Hr) as (cells & Ec & Hcells & Hdc).
  unfold table_row at 1. rewrite Ec. cbn [bind iter].
  destruct (mapM_Ok_Forall (_collect_inline_text fuel) (fun _ => True) cells)
    as (texts & -> & _).
  { intros c Hin. rewrite Forall_forall in Hcells.
    destruct (collect_Ok fuel c) as (s & ->); auto.
    - specialize (Hdc _ Hin). specialize (Hd _ (or_introl eq_refl)). lia.
    - eauto. }
  cbn [bind]. apply IH; auto.
  - intros r Hr'. apply Hd. now right.
  - unfold append. apply Forall_app. split; auto. constructor; [eexists; reflexivity | constructor].
Qed.

Lemma walk_Ok (fuel : nat) : forall node parts,
  wf_node node -> json_depth node < fuel -> Forall is_str parts ->
  exists parts', _walk_adf fuel node parts = Ok parts' /\ Forall is_str parts'.
Proof.
  induction fuel as [|fuel IH]; intros node parts Hwf Hd Hp; [lia|].
  destruct Hwf as [kv Hc Ht Ha].
  assert (Hwf : wf_node (JObj kv)) by (constructor; assumption).
  assert (Hsnoc : forall s, Forall is_str (append parts (JStr s))).
  { intros s. unfold append. apply Forall_app. split; auto.
    constructor; [eexists; reflexivity | constructor]. }
  destruct (collect_Ok fuel (JObj kv) Hwf) as (ct & Ect); [lia|].
  destruct (wf_children kv Hwf) as (l & El & Hl & Hdl).
  cbn [_walk_adf]. unfold get_d at 1. cbn [bind].
  destruct (eq_str _ "text").
  { destruct (wf_text kv Hwf) as (s & ->). cbn [bind]. eauto. }
  destruct (eq_str _ "hardBreak"); [eauto|].
  destruct (eq_str _ "heading").
  { destruct (wf_level kv Hwf) as (a & lv & h & -> & E2 & E3).
    cbn [bind]. rewrite E2. cbn [bind]. rewrite E3. cbn [bind].
    rewrite Ect. cbn [bind]. eauto. }
  destruct (eq_str _ "codeBlock"); [rewrite Ect; cbn [bind]; eauto|].
  destruct (eq_str _ "blockquote").
  { rewrite Ect. cbn [bind]. eexists; split; [reflexivity|].
    unfold extend. apply Forall_app. split; auto.
    apply Forall_forall. intros v Hv. apply in_map_iff in Hv.
    destruct Hv as (line & <- & _). eexists; reflexivity. }
  destruct (eq_str _ "bulletList" || eq_str _ "orderedList") eqn:Elist.
  { rewrite El. cbn [bind iter].
    match goal with |- context [list_items fuel ?b 1 l parts] =>
      destruct (list_items_Ok fuel b l 1 parts) as (parts' & -> & Hp'); auto end.
    - intros c Hin. specialize (Hdl _ Hin). lia.
    - cbn [bind]. eexists; split; [reflexivity|].
      unfold append. apply Forall_app. split; auto.
      constructor; [eexists; reflexivity | constructor]. }
  destruct (eq_str _ "table").
  { rewrite El. cbn [bind iter].
    destruct (table_rows_Ok fuel l parts) as (parts' & -> & Hp'); auto.
    - intros c Hin. specialize (Hdl _ Hin). lia.
    - cbn [bind]. eexists; split; [reflexivity|].
      unfold append. apply Forall_app. split; auto.
      constructor; [eexists; reflexivity | constructor]. }
  destruct (eq_str _ "paragraph"); [rewrite Ect; cbn [bind]; eauto|].
  rewrite El. cbn [bind iter].
  clear El Ect. revert parts Hp Hsnoc.
  induction l as [|c l IHl]; intros parts Hp _; simpl; [eauto|].
  inversion Hl; subst.
  destruct (IH c parts) as (parts1 & -> & Hp1); auto.
  { specialize (Hdl c (or_introl eq_refl)). lia. }
  cbn [bind]. apply IHl; auto.
  - intros c' Hc'. apply Hdl. now right.
  - intros s. unfold append. apply Forall_app. split; auto.
    constructor; [eexists; reflexivity | constructor].
Qed.

Lemma extract_falsy (adf : json) :
  truthy adf = false -> extract_text_from_adf adf = Ok "".
Proof. intros H. unfold extract_text_from_adf. now rewrite H. Qed.

Lemma extract_wf (adf : json) :
  wf_node adf -> exists s, extract_text_from_adf adf = Ok s.
Proof.
  intros H. unfold extract_text_from_adf.
  destruct (negb (truthy adf)); [eauto|].
  destruct (walk_Ok (S (json_depth adf)) adf [] H) as (parts & -> & Hp); auto.
  cbn [bind]. destruct (join_values_Ok nl parts Hp) as (s & ->). cbn [bind]. eauto.
Qed.

End AdfFacts.

Module AdfExamples.
Import Adf Examples.

Example ex_paragraphs :
  extract_text_from_adf (doc [para "one"; para "two"]) = Ok ("one" ++ nl ++ "two").
Proof. reflexivity. Qed.

Example ex_bullets_then_paragraph :
  extract_text_from_adf (doc [bullet_list [list_item "a"; list_item "b"]; para "x"])
  = Ok ("- a" ++ nl ++ "- b" ++ nl ++ nl ++ "x").
Proof. reflexivity. Qed.

Example ex_ordered :
  extract_text_from_adf (doc [ordered_list [list_item "a"; list_item "b"]; para "x"])
  = Ok ("1. a" ++ nl ++ "2. b" ++ nl ++ nl ++ "x").
Proof. reflexivity. Qed.

Example ex_heading :
  extract_text_from_adf
    (JObj [("type", JStr "heading"); ("attrs", JObj [("level", JInt 3)]);
           ("content", JArr [text_node "T"])]) = Ok "### T".
Proof. reflexivity. Qed.

End AdfExamples.

Module AdfListFacts.
Import Adf AdfSpec PyFacts AdfFacts Examples.

Lemma list_items_lines (fuel : nat) (bullet : bool) : forall items i parts texts,
  mapM (_collect_inline_text fuel) items = Ok texts ->
  list_items fuel bullet i items parts
  = Ok (parts ++ map JStr (lines_from bullet i texts))%list.
Proof.
  induction items as [|item items IH]; intros i parts texts E; simpl in E.
  - inversion E; subst. simpl. now rewrite app_nil_r.
  - destruct (_collect_inline_text fuel item) as [t|] eqn:Et; simpl in E; [|discriminate].
    destruct (mapM (_collect_inline_text fuel) items) as [ts|] eqn:Ets; simpl in E; [|discriminate].
    inversion E; subst. simpl. rewrite Et. cbn [bind].
    rewrite (IH (S i) _ ts eq_refl). unfold append, lines_from. simpl.
    now rewrite <- app_assoc.
Qed.

Lemma lines_from_length (bullet : bool) (start : nat) (texts : list string) :
  List.length (lines_from bullet start texts) = List.length texts.
Proof.
  unfold lines_from. rewrite length_map, length_combine, length_seq. lia.
Qed.

Lemma eq_str_list_type (bullet : bool) :
  eq_str (JStr (list_type bullet)) "text" = false
  /\ eq_str (JStr (list_type bullet)) "hardBreak" = false
  /\ eq_str (JStr (list_type bullet)) "heading" = false
  /\ eq_str (JStr (list_type bullet)) "codeBlock" = false
  /\ eq_str (JStr (list_type bullet)) "blockquote" = false
  /\ (eq_str (JStr (list_type bullet)) "bulletList"
      || eq_str (JStr (list_type bullet)) "orderedList") = true
  /\ eq_str (JStr (list_type bullet)) "bulletList" = bullet.
Proof. destruct bullet; repeat split; reflexivity. Qed.

Lemma walk_list (fuel : nat) (bullet : bool) (kv : list (string * json))
    (items : list json) (texts : list string) (parts : list json) :
  lookup "type" kv = Some (JStr (list_type bullet)) ->
  lookup "content" kv = Some (JArr items) ->
  mapM (_collect_inline_text fuel) items = Ok texts ->
  _walk_adf (S fuel) (JObj kv) parts
  = Ok (parts ++ map JStr (item_lines bullet texts) ++ [JStr ""])%list.
Proof.
  intros Ety Ec Et. cbn [_walk_adf]. unfold get_d. rewrite Ety, Ec. cbn [bind iter].
  destruct (eq_str_list_type bullet) as (-> & -> & -> & -> & -> & -> & ->).
  rewrite (list_items_lines fuel bullet items 1 parts texts Et). cbn [bind].
  unfold append, item_lines. now rewrite <- app_assoc.
Qed.

(** C2, as amended: for a bulletList or orderedList node whose N items
    have the inline texts [texts], [_walk_adf] appends exactly N parts,
    one per item in order, prefixed [- ] (bullet) or by the 1-based index
    and [. ] (ordered), and then one empty part.  The extraction result
    is these parts joined by newlines and then stripped, so the blank
    line after the list is kept only when other text follows it. *)
Theorem adf_list_contributes_item_lines (fuel : nat) (bullet : bool)
    (kv : list (string * json)) (items : list json) (texts : list string)
    (parts : list json) :
  lookup "type" kv = Some (JStr (list_type bullet)) ->
  lookup "content" kv = Some (JArr items) ->
  mapM (_collect_inline_text fuel) items = Ok texts ->
  _walk_adf (S fuel) (JObj kv) parts
  = Ok (parts ++ map JStr (item_lines bullet texts) ++ [JStr ""])%list
  /\ List.length (item_lines bullet texts) = List.length items
  /\ (fuel = json_depth (JObj kv) ->
      extract_text_from_adf (JObj kv)
      = Ok (strip (join nl (item_lines bullet texts ++ [""])%list))).
Proof.
  intros Ety Ec Et. split; [|split].
  - now apply (walk_list fuel bullet kv items).
  - unfold item_lines. rewrite lines_from_length. now apply mapM_length in Et.
  - intros ->. unfold extract_text_from_adf.
    assert (truthy (JObj kv) = true) as -> by (destruct kv; [discriminate | reflexivity]).
    cbn [negb]. rewrite (walk_list _ bullet kv items texts [] Ety Ec Et). cbn [bind app].
    change [JStr ""] with (map JStr [""]). rewrite <- map_app.
    rewrite join_values_strs. reflexivity.
Qed.

Lemma adf_list_contributes_item_lines_witness :
  _walk_adf 8 (ordered_list [list_item "a"; list_item "b"]) [JStr "x"]
  = Ok [JStr "x"; JStr "1. a"; JStr "2. b"; JStr ""]
  /\ extract_text_from_adf (ordered_list [list_item "a"; list_item "b"])
     = Ok ("1. a" ++ nl ++ "2. b").
Proof.
  destruct (adf_list_contributes_item_lines 7 false
              [("type", JStr "orderedList");
               ("content", JArr [list_item "a"; list_item "b"])]
              [list_item "a"; list_item "b"] ["a"; "b"] [JStr "x"]
              eq_refl eq_refl eq_refl) as (Hw & _ & He).
  split; [exact Hw | exact (He eq_refl)].
Defined.

(** C2, as stated, fails: extraction of a bullet list of two items gives
    two lines and no blank line after them, the trailing empty part being
    stripped. *)
Lemma adf_bullet_list_trailing_blank_stripped :
  extract_text_from_adf (bullet_list [list_item "a"; list_item "b"])
  = Ok ("- a" ++ nl ++ "- b")
  /\ split_char "010" ("- a" ++ nl ++ "- b") = ["- a"; "- b"].
Proof. split; reflexivity. Qed.

End AdfListFacts.

(** ** extract_text_from_storage *)

Module StorageFacts.
Import Storage StorageSpec.

Lemma rstrip_cons_nonspace (c : ascii) (s : string) :
  isspace c = false -> rstrip (String c s) = String c (rstrip s).
Proof. intros Hc. simpl. rewrite Hc. now destruct (rstrip s). Qed.

Lemma rstrip_cons_space (c : ascii) (s : string) :
  isspace c = true ->
  rstrip (String c s) = match rstrip s with
                        | EmptyString => EmptyString
                        | r => String c r
                        end.
Proof. intros Hc. simpl. now rewrite Hc. Qed.

Lemma lstrip_sub_ws_true (s : string) :
  lstrip (sub_ws true s) = sub_ws true s.
Proof.
  induction s as [|c s IH]; simpl; [reflexivity|].
  destruct (isspace c) eqn:Hc; [assumption|]. simpl. now rewrite Hc.
Qed.

Lemma lstrip_sub_ws_false (s : string) :
  lstrip (sub_ws false s) = sub_ws true s.
Proof.
  destruct s as [|c s]; simpl; [reflexivity|].
  destruct (isspace c) eqn:Hc; simpl.
  - apply lstrip_sub_ws_true.
  - now rewrite Hc.
Qed.

Lemma join_cons_char (c : ascii) (w : string) (ws : list string) :
  join " " (String c w :: ws) = String c (join " " (w :: ws)).
Proof. unfold join. simpl. now destruct ws. Qed.

Lemma words_head_nonempty (s : string) (w : string) (ws : list string) :
  words s = w :: ws -> exists c w', w = String c w'.
Proof.
  revert w ws. induction s as [|c s IH]; simpl; intros w ws E; [discriminate|].
  destruct (isspace c); [eauto|].
  destruct s as [|c' s']; [inversion E; eauto|].
  destruct (isspace c'); [inversion E; eauto|].
  destruct (words (String c' s')); inversion E; eauto.
Qed.

Lemma words_nonspace_head (c : ascii) (s : string) :
  isspace c = false -> exists w ws, words (String c s) = w :: ws.
Proof.
  intros Hc. simpl. rewrite Hc. destruct s as [|c' s']; [eauto|].
  destruct (isspace c'); [eauto|]. destruct (words (String c' s')); eauto.
Qed.

Lemma rstrip_sub_ws (s : string) :
  rstrip (sub_ws true s) = join " " (words s)
  /\ rstrip (sub_ws false s) = after_word s.
Proof.
  induction s as [|c s [IHt IHf]]; [split; reflexivity|].
  destruct (isspace c) eqn:Hc.
  - assert (Ew : words (String c s) = words s) by (simpl; now rewrite Hc).
    split.
    + simpl sub_ws. rewrite Hc, Ew. exact IHt.
    + simpl sub_ws. rewrite Hc. rewrite rstrip_cons_space by reflexivity.
      rewrite IHt. unfold after_word. rewrite Hc, Ew.
      destruct (words s) as [|w ws] eqn:E; [reflexivity|].
      destruct (words_head_nonempty _ _ _ E) as (c0 & w' & ->).
      now rewrite join_cons_char.
  - assert (E : rstrip (String c (sub_ws false s)) = join " " (words (String c s))).
    { rewrite rstrip_cons_nonspace by assumption. rewrite IHf.
      destruct s as [|d s']; [simpl; now rewrite Hc|].
      unfold after_word. simpl words. rewrite Hc.
      destruct (isspace d) eqn:Hd.
      - destruct (words s') as [|w ws]; reflexivity.
      - destruct (words_nonspace_head d s' Hd) as (w & ws & Ew).
        simpl in Ew. rewrite Hd in Ew. rewrite Ew.
        now rewrite join_cons_char. }
    split.
    + simpl sub_ws. rewrite Hc. exact E.
    + simpl sub_ws. rewrite Hc. rewrite E. unfold after_word. now rewrite Hc.
Qed.

(** Collapsing the runs of whitespace and trimming leaves the words
    joined by single spaces. *)
Lemma strip_sub_ws (s : string) : strip (sub_ws false s) = normal_form s.
Proof.
  unfold strip. rewrite lstrip_sub_ws_false. apply (proj1 (rstrip_sub_ws s)).
Qed.

Lemma words_proper (s : string) : Forall proper (words s).
Proof.
  induction s as [|c s IH]; simpl; [constructor|].
  destruct (isspace c) eqn:Hc; [assumption|].
  assert (Hp : proper (String c "")) by (split; [discriminate | simpl; now rewrite Hc]).
  destruct s as [|c' s']; [repeat constructor; apply Hp|].
  destruct (isspace c') eqn:Hc'; [constructor; [apply Hp | assumption]|].
  destruct (words (String c' s')) as [|w ws]; [repeat constructor; apply Hp|].
  inversion IH as [|? ? (Hw1 & Hw2) Hws]; subst. constructor; [|assumption].
  split; [discriminate | simpl; now rewrite Hc, Hw2].
Qed.

Lemma words_cons2 (c d : ascii) (s : string) :
  isspace c = false -> isspace d = false ->
  words (String c (String d s))
  = match words (String d s) with
    | w :: ws => String c w :: ws
    | [] => [String c EmptyString]
    end.
Proof. intros Hc Hd. cbn [words]. now rewrite Hc, Hd. Qed.

Lemma words_single (w : string) : proper w -> words w = [w].
Proof.
  intros (Hne & Hns). induction w as [|c w IH]; [congruence|].
  simpl in Hns. apply andb_prop in Hns as (Hc & Hw). apply negb_true_iff in Hc.
  destruct w as [|d w']; [simpl; now rewrite Hc|].
  specialize (IH ltac:(discriminate) Hw).
  simpl in Hw. apply andb_prop in Hw as (Hd & _). apply negb_true_iff in Hd.
  rewrite words_cons2 by assumption. now rewrite IH.
Qed.

Lemma words_app_space (w r : string) :
  proper w -> words (w ++ String " " r) = w :: words r.
Proof.
  intros (Hne & Hns). induction w as [|c w IH]; [congruence|].
  simpl in Hns. apply andb_prop in Hns as (Hc & Hw). apply negb_true_iff in Hc.
  destruct w as [|d w'].
  - simpl. now rewrite Hc.
  - specialize (IH ltac:(discriminate) Hw).
    simpl in Hw. apply andb_prop in Hw as (Hd & _). apply negb_true_iff in Hd.
    change (String c (String d w') ++ String " " r)
      with (String c (String d (w' ++ String " " r))).
    change (String d w' ++ String " " r) with (String d (w' ++ String " " r)) in IH.
    rewrite words_cons2 by assumption. now rewrite IH.
Qed.

Lemma words_join (ws : list string) :
  Forall proper ws -> words (join " " ws) = ws.
Proof.
  induction 1 as [|w ws Hw Hws IH]; [reflexivity|].
  unfold join in *. simpl. destruct ws as [|w' ws'].
  - now apply words_single.
  - change (w ++ " " ++ concat " " (w' :: ws'))
      with (w ++ String " " (concat " " (w' :: ws'))).
    rewrite words_app_space by assumption. now rewrite IH.
Qed.

Lemma normal_form_idempotent (s : string) :
  normal_form (normal_form s) = normal_form s.
Proof.
  unfold normal_form. now rewrite (words_join _ (words_proper s)).
Qed.

(** Characters of the normal form come from the text, the space apart. *)
Lemma contains_lstrip (x : ascii) (s : string) :
  contains_char x (lstrip s) = true -> contains_char x s = true.
Proof.
  induction s as [|c s IH]; simpl; [auto|].
  destruct (isspace c); [|auto]. intros H. rewrite (IH H). apply orb_true_r.
Qed.

Lemma contains_rstrip (x : ascii) (s : string) :
  contains_char x (rstrip s) = true -> contains_char x s = true.
Proof.
  induction s as [|c s IH]; simpl; [auto|].
  destruct (rstrip s) as [|d r] eqn:E.
  - destruct (isspace c); simpl; [discriminate|].
    rewrite orb_false_r. intros ->. reflexivity.
  - simpl. simpl in IH. intros H. apply orb_prop in H as [->|H]; [reflexivity|].
    rewrite (IH H). apply orb_true_r.
Qed.

Lemma contains_sub_ws (x : ascii) (b : bool) (s : string) :
  Ascii.eqb x " " = false ->
  contains_char x (sub_ws b s) = true -> contains_char x s = true.
Proof.
  intros Hx. revert b. induction s as [|c s IH]; intros b; simpl; [auto|].
  destruct (isspace c).
  - destruct b; simpl; [|rewrite Hx; simpl]; intros H; rewrite (IH _ H); apply orb_true_r.
  - simpl. intros H. apply orb_prop in H as [->|H]; [reflexivity|].
    rewrite (IH _ H). apply orb_true_r.
Qed.

Lemma normal_form_chars (x : ascii) (s : string) :
  Ascii.eqb x " " = false ->
  contains_char x s = false -> contains_char x (normal_form s) = false.
Proof.
  intros Hx Hs. rewrite <- strip_sub_ws. unfold strip.
  destruct (contains_char x (rstrip (lstrip (sub_ws false s)))) eqn:E; [|reflexivity].
  apply contains_rstrip, contains_lstrip, contains_sub_ws in E; congruence.
Qed.

Lemma contains_drop (x : ascii) (n : nat) (s : string) :
  contains_char x s = false -> contains_char x (drop n s) = false.
Proof.
  revert s. induction n as [|n IH]; intros s; [destruct s; auto|].
  destruct s as [|c s]; simpl; [auto|]. intros H.
  apply orb_false_elim in H as (_ & H). auto.
Qed.

Lemma after_last_amp_none (s : string) :
  contains_char "&" s = false -> after_last_amp s = None.
Proof.
  induction s as [|c s IH]; cbn [contains_char after_last_amp]; [auto|]. intros H.
  apply orb_false_elim in H as (Hc & Hs). rewrite (IH Hs).
  rewrite Ascii.eqb_sym. now rewrite Hc.
Qed.

Lemma amp_pending_plain (s : string) :
  contains_char "&" s = false -> amp_pending s = false.
Proof.
  intros H. unfold amp_pending.
  now rewrite (after_last_amp_none _ (contains_drop _ _ _ H)).
Qed.

Section WithLib.
Context {lib : HtmlLib}.

Lemma feed_plain (s : string) :
  contains_char "<" s = false -> contains_char "&" s = false -> s <> "" ->
  feed s = Ok [Data s].
Proof.
  intros Hlt Hamp Hne. unfold feed, unescape.
  rewrite Hlt, (amp_pending_plain _ Hamp), Hamp.
  destruct (String.eqb_spec s ""); [contradiction | reflexivity].
Qed.

Lemma extract_plain (s : string) :
  contains_char "<" s = false -> contains_char "&" s = false ->
  extract_text_from_storage (Some s) = Ok (normal_form s).
Proof.
  intros Hlt Hamp. unfold extract_text_from_storage.
  destruct (String.eqb_spec s "") as [->|Hne]; [reflexivity|].
  rewrite (feed_plain s Hlt Hamp Hne). cbn [bind fold_left handle].
  unfold get_text, append, join. simpl concat. now rewrite strip_sub_ws.
Qed.

(** A buffer without [<] whose last ampersand has no whitespace or
    semicolon after it is kept back by the parser, and the extractor,
    which never closes the parser, returns the empty text. *)
Lemma extract_amp_pending (s : string) :
  contains_char "<" s = false -> amp_pending s = true -> s <> "" ->
  extract_text_from_storage (Some s) = Ok "".
Proof.
  intros Hlt Hp Hne. unfold extract_text_from_storage, feed.
  destruct (String.eqb_spec s ""); [contradiction|]. now rewrite Hlt, Hp.
Qed.

End WithLib.

(** C8, as amended: for every text that holds neither [<] nor [&],
    storage-format extraction returns the words of the text joined by
    single spaces, which is the text with every run of whitespace
    collapsed to one space and the ends trimmed; applied to its own output
    it returns that output unchanged. *)
Theorem storage_plain_text_normal_form `{HtmlLib} (s : string) :
  contains_char "<" s = false -> contains_char "&" s = false ->
  extract_text_from_storage (Some s) = Ok (normal_form s)
  /\ normal_form s = strip (sub_ws false s)
  /\ extract_text_from_storage (Some (normal_form s)) = Ok (normal_form s).
Proof.
  intros Hlt Hamp. split; [|split].
  - now apply extract_plain.
  - symmetry. apply strip_sub_ws.
  - rewrite extract_plain.
    + now rewrite normal_form_idempotent.
    + now apply normal_form_chars.
    + now apply normal_form_chars.
Qed.

End StorageFacts.

Module ExtractorFacts.
Import Adf AdfSpec Storage StorageSpec AdfFacts StorageFacts Examples.

Lemma storage_plain_text_normal_form_witness :
  @extract_text_from_storage text_lib (Some ("  two" ++ nl ++ "   words "))
  = Ok "two words"
  /\ @extract_text_from_storage text_lib (Some "two words") = Ok "two words".
Proof.
  destruct (@storage_plain_text_normal_form text_lib
              ("  two" ++ nl ++ "   words ") eq_refl eq_refl) as (H1 & _ & H2).
  split; [exact H1 | exact H2].
Defined.

(** C8, as stated, fails on texts without tags that hold an ampersand:
    a character reference is replaced by its character, so [a &amp; b]
    gives [a & b]; and the parser keeps [AT&T] back as a possibly
    unfinished reference, the extractor never closes it, and the result is
    empty. *)
Lemma storage_plain_text_ampersand_lost :
  contains_char "<" "AT&T" = false
  /\ @extract_text_from_storage text_lib (Some "AT&T") = Ok ""
  /\ normal_form "AT&T" = "AT&T"
  /\ contains_char "<" "a &amp; b" = false
  /\ @extract_text_from_storage text_lib (Some "a &amp; b") = Ok "a & b"
  /\ normal_form "a &amp; b" = "a &amp; b".
Proof. repeat split. Qed.

(** C5, as amended: the ADF extractor returns the empty string on absent
    or empty input and returns a text, without raising, on every
    well-formed node tree, and so does the walker with any recursion
    budget above the nesting depth of the tree.  The storage-format
    extractor returns the empty string on absent or empty input and a
    text on every input without [<] and without [&]; when it raises, the
    exception is the one [html.unescape] raised on an input without [<],
    or the one [HTMLParser.feed] raised on an input with [<]. *)
Theorem extractors_total_on_well_formed_input `{HtmlLib} :
  (forall adf, truthy adf = false -> extract_text_from_adf adf = Ok "")
  /\ (forall adf, wf_node adf -> exists s, extract_text_from_adf adf = Ok s)
  /\ (forall fuel adf, wf_node adf -> json_depth adf < fuel ->
        exists parts, _walk_adf fuel adf [] = Ok parts)
  /\ extract_text_from_storage None = Ok ""
  /\ extract_text_from_storage (Some "") = Ok ""
  /\ (forall s, contains_char "<" s = false -> contains_char "&" s = false ->
                exists t, extract_text_from_storage (Some s) = Ok t)
  /\ (forall s events, contains_char "<" s = true -> feed_markup s = Ok events ->
                       exists t, extract_text_from_storage (Some s) = Ok t)
  /\ (forall s e, extract_text_from_storage (Some s) = Raise e ->
        (contains_char "<" s = true /\ feed_markup s = Raise e)
        \/ (contains_char "<" s = false /\ contains_char "&" s = true
            /\ replace_charrefs s = Raise e)).
Proof.
  split; [exact extract_falsy|]. split; [exact extract_wf|]. split.
  { intros fuel adf Hwf Hd.
    destruct (walk_Ok fuel adf [] Hwf Hd (Forall_nil _)) as (parts & E & _). eauto. }
  split; [reflexivity|]. split; [reflexivity|]. split; [|split].
  - intros s Hlt Hamp. unfold extract_text_from_storage, feed, unescape.
    rewrite Hlt, Hamp.
    destruct (String.eqb s ""); [eauto|].
    destruct (amp_pending s); cbn [bind]; eauto.
  - intros s events Hlt E. unfold extract_text_from_storage, feed.
    destruct (String.eqb s "") eqn:Es; [eauto|].
    rewrite Hlt, E. cbn [bind]. eauto.
  - intros s e. unfold extract_text_from_storage, feed, unescape.
    destruct (String.eqb s ""); [discriminate|].
    destruct (contains_char "<" s).
    + destruct (feed_markup s) as [events|e0]; cbn [bind]; [discriminate|].
      intros E. injection E as <-. now left.
    + destruct (amp_pending s); [discriminate|].
      destruct (contains_char "&" s); [|discriminate].
      destruct (replace_charrefs s) as [u|e0]; cbn [bind]; [discriminate|].
      intros E. injection E as <-. right. auto.
Qed.

Ltac wf_tree :=
  repeat match goal with
         | |- wf_node _ => constructor
         | |- Forall _ _ => constructor
         | |- str_if_present _ _ => unfold str_if_present
         | E : lookup _ _ = Some _ |- _ =>
             cbn in E; first [discriminate E | injection E as <-]
         | |- exists l, _ = JArr l /\ _ => eexists; split; [reflexivity|]
         | |- wf_attrs _ => eexists; split; [reflexivity|]; repeat split
         | |- is_str _ => eexists; reflexivity
         | |- exists z, _ = JInt z /\ _ => eexists; split; [reflexivity | lia]
         | |- _ => progress intros
         end.

Lemma extractors_total_on_well_formed_input_witness :
  (exists s, extract_text_from_adf (doc [heading 2 "Plan"; para "First step"]) = Ok s)
  /\ (exists t, @extract_text_from_storage text_lib (Some "two  words") = Ok t)
  /\ extract_text_from_adf (doc [heading (2 ^ 63) "Plan"]) = Raise OverflowError.
Proof.
  destruct (@extractors_total_on_well_formed_input text_lib)
    as (_ & Hadf & _ & _ & _ & Hplain & _).
  split; [|split; [apply Hplain; reflexivity | reflexivity]].
  apply Hadf. unfold doc, heading, para, text_node. wf_tree.
Defined.

(** C5, as stated, fails: a paragraph whose [content] is null is a
    document tree the ADF extractor raises TypeError on. *)
Lemma adf_null_content_raises :
  extract_text_from_adf (JObj [("type", JStr "paragraph"); ("content", JNull)])
  = Raise TypeError.
Proof. reflexivity. Qed.

End ExtractorFacts.

(** ** The API client *)

Module ApiFacts.
Import Api ApiSpec Examples.

Section Retry.
Context {http : HttpLib}.

Lemma retry_wait_given (attempt : nat) (r : response) (w : Z) :
  wait_given attempt r w -> retry_wait attempt r = Ok w.
Proof.
  unfold wait_given, retry_wait. destruct (retry_after r) as [v|].
  - now intros ->.
  - now intros ->.
Qed.

Lemma request_loop_429s (unbound : exn) (req : request) :
  forall (pre : list response) (left attempt : nat) (last : option response)
         (rest : list (result response)) (waits slept : list Z) (reqs : list request),
  Forall (fun r => status_code r = 429%Z) pre ->
  waits_from attempt pre waits ->
  List.length pre <= left ->
  request_loop unbound left attempt last req (map Ok pre ++ rest)%list slept reqs
  = request_loop unbound (left - List.length pre) (attempt + List.length pre)
      (match rev pre with r :: _ => Some r | [] => last end) req rest
      (slept ++ waits)%list (reqs ++ repeat req (List.length pre))%list.
Proof.
  induction pre as [|r pre IH]; intros left attempt last rest waits slept reqs H429 Hw Hlen.
  - destruct waits; [|contradiction]. simpl.
    now rewrite Nat.sub_0_r, Nat.add_0_r, !app_nil_r.
  - destruct waits as [|w waits]; [contradiction|]. destruct Hw as (Hw & Hws).
    inversion H429 as [|? ? Hr Hpre]; subst.
    destruct left as [|left]; [simpl in Hlen; lia|].
    cbn [map app request_loop]. rewrite Hr. cbn [Z.eqb Pos.eqb].
    rewrite (retry_wait_given _ _ _ Hw).
    rewrite (IH left (S attempt) (Some r) rest waits) by (auto; simpl in Hlen; lia).
    unfold append. cbn [List.length Nat.sub]. rewrite <- !app_assoc. cbn [app repeat].
    replace (S attempt + List.length pre) with (attempt + S (List.length pre)) by lia.
    f_equal. cbn [rev]. destruct (rev pre) as [|x xs]; reflexivity.
Qed.

Lemma request_answered (unbound : exn) (req : request) (pre : list response)
    (r : response) (rest : list (result response)) (waits : list Z) :
  Forall (fun r => status_code r = 429%Z) pre ->
  waits_from 0 pre waits ->
  List.length pre < _max_retries ->
  status_code r <> 429%Z ->
  request_loop unbound _max_retries 0 None req (map Ok pre ++ Ok r :: rest)%list [] []
  = mkRun (settle r) waits (repeat req (S (List.length pre))) rest.
Proof.
  intros H429 Hw Hlen Hr.
  rewrite (request_loop_429s unbound req pre _ _ _ _ waits) by (auto; lia).
  destruct (_max_retries - List.length pre) as [|left] eqn:E; [lia|].
  cbn [request_loop app]. apply Z.eqb_neq in Hr. rewrite Hr.
  unfold settle, append.
  replace (repeat req (List.length pre) ++ [req])%list with (repeat req (S (List.length pre)))
    by (rewrite <- repeat_cons; reflexivity).
  now destruct (raises_for_status (status_code r)).
Qed.

Lemma request_exhausted (unbound : exn) (req : request) (pre : list response)
    (last : response) (rest : list (result response)) (waits : list Z) :
  Forall (fun r => status_code r = 429%Z) (pre ++ [last]) ->
  waits_from 0 (pre ++ [last]) waits ->
  List.length (pre ++ [last]) = _max_retries ->
  request_loop unbound _max_retries 0 None req (map Ok (pre ++ [last]) ++ rest)%list [] []
  = mkRun (Raised (HTTPStatusError MaxRetriesExceeded last)) waits
          (repeat req _max_retries) rest.
Proof.
  intros H429 Hw Hlen.
  rewrite (request_loop_429s unbound req (pre ++ [last]) _ _ _ _ waits) by (auto; lia).
  rewrite Hlen, Nat.sub_diag, rev_app_distr. reflexivity.
Qed.

End Retry.

(** C4: on each 429 the client sleeps the number of seconds the
    Retry-After header gives, or [2 ^ attempt] when there is none, and
    sends the same request again; a response that is not a 429 ends the
    call at once, raised if it is an error and returned otherwise, however
    many 429s came before it; after five 429s in a row the call raises the
    rate-limit error that carries the fifth response, having sent five
    requests.  JiraClient and ConfluenceClient behave alike. *)
Theorem request_retries_on_429 `{HttpLib} (req : request) (pre : list response)
    (waits : list Z) (rest : list (result response)) :
  Forall (fun r => status_code r = 429%Z) pre ->
  waits_from 0 pre waits ->
  (forall r, List.length pre < 5 -> status_code r <> 429%Z ->
     JiraClient_request req (map Ok pre ++ Ok r :: rest)%list
     = mkRun (settle r) waits (repeat req (S (List.length pre))) rest
     /\ ConfluenceClient_request req (map Ok pre ++ Ok r :: rest)%list
        = mkRun (settle r) waits (repeat req (S (List.length pre))) rest)
  /\ (forall r, List.length pre = 5 -> last pre r = r ->
     JiraClient_request req (map Ok pre ++ rest)%list
     = mkRun (Raised (HTTPStatusError MaxRetriesExceeded r)) waits (repeat req 5) rest
     /\ ConfluenceClient_request req (map Ok pre ++ rest)%list
        = mkRun (Raised (HTTPStatusError MaxRetriesExceeded r)) waits (repeat req 5) rest).
Proof.
  intros H429 Hw. split.
  - intros r Hlen Hr. split; now apply request_answered.
  - intros r Hlen Hlast.
    destruct (exists_last (l := pre)) as (pre' & x & ->);
      [intros ->; discriminate|].
    rewrite last_last in Hlast. subst x.
    split; now apply request_exhausted.
Qed.

Lemma request_retries_on_429_witness :
  @JiraClient_request example_http ping [Ok too_many; Ok backoff; Ok success]
  = mkRun (Returned success) [1; 2]%Z [ping; ping; ping] []
  /\ @ConfluenceClient_request example_http ping
       [Ok backoff; Ok backoff; Ok backoff; Ok backoff; Ok too_many; Ok success]
     = mkRun (Raised (HTTPStatusError MaxRetriesExceeded too_many))
             [1; 2; 4; 8; 1]%Z [ping; ping; ping; ping; ping] [Ok success].
Proof.
  split.
  - apply (@request_retries_on_429 example_http ping [too_many; backoff] [1; 2]%Z []).
    + repeat constructor.
    + simpl. unfold wait_given. simpl. auto.
    + simpl. lia.
    + simpl. lia.
  - apply (@request_retries_on_429 example_http ping
             [backoff; backoff; backoff; backoff; too_many] [1; 2; 4; 8; 1]%Z
             [Ok success]).
    + repeat constructor.
    + simpl. unfold wait_given. simpl. auto 10.
    + reflexivity.
    + reflexivity.
Defined.

End ApiFacts.

Module SearchFacts.
Import Api ApiSpec.

Lemma classic_loop_paths (jql fields expand : string) :
  forall (script : list reply) (start_at : Z) (total : json)
         (all_issues : list json) (log : list request),
  exists m,
    map path (snd (classic_loop jql fields expand script start_at total all_issues log))
    = (map path log ++ repeat "/search" m)%list
    /\ m <= List.length script
    /\ (0 < List.length script -> 0 < m).
Proof.
  induction script as [|r script IH]; intros start_at total all_issues log.
  - exists 0. simpl. rewrite app_nil_r. repeat split; auto; lia.
  - assert (Hone : map path (append log (search_request jql fields expand start_at))
                   = (map path log ++ repeat "/search" 1)%list).
    { unfold append. now rewrite map_app. }
    cbn [classic_loop].
    destruct r as [resp|e]; [|exists 1; simpl; repeat split; auto; lia].
    destruct (read_page resp total) as [[[data total'] issues]|e];
      [|exists 1; simpl; repeat split; auto; lia].
    destruct (negb (truthy issues)); [exists 1; simpl; repeat split; auto; lia|].
    match goal with |- context [match ?x with Ok _ => _ | Raise _ => _ end] =>
      destruct x as [[[items n] stop]|e] end;
      [|exists 1; simpl; repeat split; auto; lia].
    destruct stop; [exists 1; simpl; repeat split; auto; lia|].
    destruct (IH (start_at + n)%Z total' (extend all_issues items)
                 (append log (search_request jql fields expand start_at)))
      as (m & E & Hm & _).
    exists (S m). rewrite E, Hone, <- app_assoc. simpl. repeat split; auto; lia.
Qed.

Lemma policy_single (r : reply) (script : list reply) (out : outcome (json * list json)) :
  (forall e, r = inr e -> is_404 e = false /\ out = Raised e) ->
  endpoint_policy (r :: script) out ["/search/jql"].
Proof.
  intros Hout. exists 1, 0. simpl.
  split; [reflexivity|]. split; [lia|]. split; [lia|]. split; [lia|].
  intros e _ E. injection E as ->. destruct (Hout e eq_refl) as (H404 & ->).
  split; [auto | congruence].
Qed.

Lemma policy_fallback (msg : status_message) (resp : response) (script : list reply)
    (out : outcome (json * list json)) (m : nat) :
  status_code resp = 404%Z -> m <= List.length script ->
  (0 < List.length script -> 0 < m) ->
  endpoint_policy (inr (HTTPStatusError msg resp) :: script) out
    ("/search/jql" :: repeat "/search" m).
Proof.
  intros H404 Hm Hpos. exists 1, m. simpl.
  split; [reflexivity|]. split; [lia|]. split; [lia|]. split; [eauto|].
  intros e _ E. injection E as <-. simpl. apply Z.eqb_eq in H404. rewrite H404.
  split; [discriminate | intros _ Hlen; apply Hpos; lia].
Qed.

Lemma policy_next (resp : response) (script : list reply)
    (out : outcome (json * list json)) (paths : list string) :
  endpoint_policy script out paths ->
  0 < List.length script ->
  endpoint_policy (inl resp :: script) out ("/search/jql" :: paths).
Proof.
  intros (n & m & -> & Hlen & Hfirst & Hfb & Herr) Hne.
  specialize (Hfirst Hne). destruct n as [|n]; [lia|].
  exists (S (S n)), m. cbn [repeat app List.length Nat.sub nth_error] in *.
  rewrite Nat.sub_0_r in *.
  split; [reflexivity|]. split; [lia|]. split; [lia|]. split; [exact Hfb|].
  intros e _ E. destruct (Herr e ltac:(lia) E) as (H1 & H2).
  split; [exact H1 | intros H404 Hl; apply H2; [assumption | lia]].
Qed.

Lemma policy_starved_next (resp : response) (out : outcome (json * list json)) :
  endpoint_policy [inl resp] out ["/search/jql"].
Proof. apply policy_single. discriminate. Qed.

Lemma jql_loop_policy (jql fields expand : string) :
  forall (script : list reply) (next_page_token total : json)
         (all_issues : list json) (log : list request),
  exists paths,
    map path (snd (jql_loop jql fields expand script next_page_token total all_issues log))
    = (map path log ++ paths)%list
    /\ endpoint_policy script
         (fst (jql_loop jql fields expand script next_page_token total all_issues log))
         paths.
Proof.
  induction script as [|r script IH]; intros token total all_issues log.
  - exists []. simpl. rewrite app_nil_r. split; [reflexivity|].
    exists 0, 0. simpl.
    split; [reflexivity|]. split; [lia|]. split; [lia|]. split; [lia|].
    intros e He. lia.
  - assert (Hone : map path (append log (jql_request jql fields token))
                   = (map path log ++ ["/search/jql"])%list).
    { unfold append. now rewrite map_app. }
    cbn [jql_loop].
    destruct r as [resp|e].
    + match goal with |- context [match ?x with Ok _ => _ | Raise _ => _ end] =>
        destruct x as [[[total' items] tok]|e] end.
      2:{ exists ["/search/jql"]. split; [exact Hone|]. apply policy_single. discriminate. }
      destruct (truthy tok).
      2:{ exists ["/search/jql"]. split; [exact Hone|]. apply policy_single. discriminate. }
      destruct (IH tok total' (extend all_issues items)
                   (append log (jql_request jql fields token)))
        as (paths & E & Hp).
      destruct script as [|r' script'].
      * exists ["/search/jql"]. simpl. split; [exact Hone|]. apply policy_starved_next.
      * exists ("/search/jql" :: paths). rewrite E, Hone, <- app_assoc.
        split; [reflexivity|]. apply policy_next; [exact Hp | simpl; lia].
    + destruct e as [msg resp|e].
      2:{ exists ["/search/jql"]. split; [exact Hone|]. apply policy_single.
          intros e' E. injection E as <-. auto. }
      destruct (status_code resp =? 404)%Z eqn:E404.
      2:{ exists ["/search/jql"]. split; [exact Hone|]. apply policy_single.
          intros e' E. injection E as <-. simpl. auto. }
      destruct (classic_loop_paths jql fields expand script 0%Z total all_issues
                  (append log (jql_request jql fields token)))
        as (m & E & Hm & Hpos).
      exists ("/search/jql" :: repeat "/search" m). rewrite E, Hone, <- app_assoc.
      split; [reflexivity|]. apply policy_fallback; auto. now apply Z.eqb_eq.
Qed.

(** C3: [search_issues] sends its first request to the newer
    [/search/jql] endpoint; it turns to the classic [/search] endpoint
    only when a request to the newer one is answered by a 404, and from
    then on every request of the call goes to the classic one; any other
    exception from the newer endpoint leaves the call as it is, with no
    request to the classic endpoint. *)
Theorem search_issues_falls_back_once (project_key fields expand : string)
    (script : list reply) :
  endpoint_policy script
    (fst (search_issues project_key fields expand script))
    (map path (snd (search_issues project_key fields expand script))).
Proof.
  unfold search_issues.
  destruct (jql_loop_policy (jql_of project_key) fields expand script JNull (JInt 0) [] [])
    as (paths & E & Hp).
  simpl in E. now rewrite E.
Qed.

End SearchFacts.

Module SearchExamples.
Import Api ApiSpec Examples.

Example search_falls_back_on_first_page :
  search_issues "ABC" "*all" "names"
    [failed 404; page [issue_stub "ABC-1"; issue_stub "ABC-2"] 2 []]
  = (Returned (JInt 2, [issue_stub "ABC-1"; issue_stub "ABC-2"]),
     [jql_request (jql_of "ABC") "*all" JNull;
      search_request (jql_of "ABC") "*all" "names" 0]).
Proof. reflexivity. Qed.

Example search_falls_back_on_later_page :
  map path (snd (search_issues "ABC" "*all" "names"
    [page [issue_stub "ABC-1"] 2 [("nextPageToken", JStr "t1")];
     failed 404;
     page [issue_stub "ABC-1"] 2 [];
     page [issue_stub "ABC-2"] 2 []]))
  = ["/search/jql"; "/search/jql"; "/search"; "/search"].
Proof. reflexivity. Qed.

Example search_propagates_server_error :
  search_issues "ABC" "*all" "names" [failed 500; page [issue_stub "ABC-1"] 1 []]
  = (Raised (HTTPStatusError FromRaiseForStatus (mkResponse 500 None (Ok JNull))),
     [jql_request (jql_of "ABC") "*all" JNull]).
Proof. reflexivity. Qed.

End SearchExamples.

(** ** export_jira_csv *)

Module ExporterFacts.
Import Db Exporter ExporterSpec.

Lemma padded_fill (n : nat) : forall cells,
  List.length cells <= n -> padded n cells = fill n cells.
Proof.
  unfold fill. induction n as [|n IH]; intros cells Hlen.
  - destruct cells; [reflexivity | simpl in Hlen; lia].
  - destruct cells as [|c cells]; simpl.
    + f_equal. rewrite (IH []) by (simpl; lia). simpl. now rewrite Nat.sub_0_r.
    + f_equal. apply IH. simpl in Hlen. lia.
Qed.

Lemma max_multiplicity_In {A} (values : row -> list A) (issues : list row) (i : row) :
  In i issues -> List.length (values i) <= max_multiplicity values issues.
Proof.
  unfold max_multiplicity. induction issues as [|x issues IH]; simpl; [tauto|].
  intros [->|Hin]; [lia | specialize (IH Hin); lia].
Qed.

Lemma key_eqb_canon (a b : sqlval) : key_eqb a b = true -> canon a = canon b.
Proof.
  destruct a as [|x|x|x], b as [|y|y|y]; simpl; try discriminate; auto.
  - intros E. apply Z.eqb_eq in E. now subst.
  - unfold float_key_eqb, SFeqb, SFcompare.
    destruct x as [sx|sx| |sx mx ex], y as [sy|sy| |sy my ey]; simpl;
      try discriminate; auto;
      try (destruct sx; discriminate); try (destruct sy; discriminate).
    + destruct sx, sy; try discriminate; auto.
    + change (Pos.compare_cont Eq mx my) with (Pos.compare mx my).
      destruct sx, sy; try discriminate;
        destruct (Z.compare_spec ex ey); try discriminate; subst;
        destruct (Pos.compare_spec mx my); simpl; try discriminate; now subst.
  - intros E. apply String.eqb_eq in E. now subst.
Qed.

Lemma canon_key_eqb (a b : sqlval) : canon a = canon b -> key_eqb a b = true.
Proof.
  destruct a as [|x|x|x], b as [|y|y|y]; simpl; try discriminate; auto;
    try (destruct x; discriminate); try (destruct y; discriminate).
  - intros E. inversion E. apply Z.eqb_refl.
  - unfold float_key_eqb, SFeqb, SFcompare.
    destruct x as [sx|sx| |sx mx ex], y as [sy|sy| |sy my ey]; simpl;
      try discriminate; auto; intros E; inversion E; subst.
    + now destruct sy.
    + change (Pos.compare_cont Eq my my) with (Pos.compare my my).
      rewrite Z.compare_refl, Pos.compare_refl. now destruct sy.
  - intros E. inversion E. apply String.eqb_refl.
Qed.

Section WithLibs.
Context {rt : Runtime} {jl : JsonLib}.

Lemma get_comments_canon (a b : sqlval) (d : db) :
  canon a = canon b -> get_comments a d = get_comments b d.
Proof.
  destruct a as [|x|x|x], b as [|y|y|y]; simpl; try discriminate; auto;
    try (intros E; now inversion E);
    try (destruct x; discriminate); try (destruct y; discriminate).
  destruct x, y; simpl; intros E; inversion E; subst; reflexivity.
Qed.

Lemma comments_get_present (d : db) (m : list (sqlval * list row)) (k : sqlval) :
  faithful d m -> In (canon k) (keys m) ->
  comments_get k m = get_comments k d.
Proof.
  induction m as [|[k' v] m IH]; intros Hf Hin; [destruct Hin|]. simpl.
  destruct (key_eqb k k') eqn:E.
  - rewrite (Hf k' v (or_introl eq_refl)). symmetry.
    apply get_comments_canon. now apply key_eqb_canon.
  - apply IH.
    + intros k0 v0 H0. apply Hf. now right.
    + destruct Hin as [Hin|Hin]; [|assumption]. simpl in Hin.
      symmetry in Hin. apply canon_key_eqb in Hin. congruence.
Qed.

Lemma comments_set_faithful (d : db) (m : list (sqlval * list row)) (k : sqlval) :
  faithful d m -> faithful d (comments_set k (get_comments k d) m).
Proof.
  induction m as [|[k' v] m IH]; intros Hf k0 v0; simpl.
  - intros [E|[]]. now inversion E.
  - destruct (key_eqb k k').
    + intros [E|Hin]; [now inversion E | apply Hf; now right].
    + intros [E|Hin]; [apply Hf; now left|].
      apply IH; [|assumption]. intros k1 v1 H1. apply Hf. now right.
Qed.

Lemma comments_set_keys (m : list (sqlval * list row)) (k : sqlval) (v : list row) :
  In (canon k) (keys (comments_set k v m))
  /\ (forall x, In x (keys m) -> In x (keys (comments_set k v m))).
Proof.
  induction m as [|[k' v'] m (IH1 & IH2)]; simpl.
  - split; [now left | tauto].
  - destruct (key_eqb k k') eqn:E; simpl.
    + split; [now left|]. intros x [<-|Hx]; [|now right].
      left. now apply key_eqb_canon.
    + split; [now right|]. intros x [<-|Hx]; [now left | right; auto].
Qed.

(** After the first loop: each maximum is the largest multiplicity seen,
    and the dictionary has, for every issue scanned, the comments the
    store returns for its key. *)
Lemma scan_issues (d : db) : forall exported m0 c0 m c,
  fold_left (scan_issue d) exported (m0, c0) = (m, c) ->
  faithful d c0 ->
  max_labels m = Nat.max (max_labels m0) (max_multiplicity labels_of exported)
  /\ max_components m = Nat.max (max_components m0) (max_multiplicity components_of exported)
  /\ max_fix_versions m
     = Nat.max (max_fix_versions m0) (max_multiplicity fix_versions_of exported)
  /\ max_comments m = Nat.max (max_comments m0) (max_multiplicity (comments_of d) exported)
  /\ faithful d c
  /\ (forall x, In x (keys c0) -> In x (keys c))
  /\ (forall i, In i exported -> In (canon (col "key" i)) (keys c)).
Proof.
  induction exported as [|i exported IH]; intros m0 c0 m c E Hf.
  - simpl in E. inversion E; subst. unfold max_multiplicity. simpl.
    rewrite !Nat.max_0_r.
    split; [reflexivity|]. split; [reflexivity|]. split; [reflexivity|].
    split; [reflexivity|]. split; [assumption|]. split; [auto|]. intros i [].
  - cbn [fold_left] in E. unfold scan_issue at 2 in E.
    apply IH in E; [|now apply comments_set_faithful].
    destruct E as (E1 & E2 & E3 & E4 & E5 & E6 & E7).
    cbn [max_labels max_components max_fix_versions max_comments] in *.
    destruct (comments_set_keys c0 (col "key" i) (get_comments (col "key" i) d))
      as (K1 & K2).
    unfold max_multiplicity, list_max in *. cbn [map fold_right].
    fold (labels_of i) in E1. fold (components_of i) in E2.
    fold (fix_versions_of i) in E3.
    assert (Ec : List.length (comments_of d i)
                 = List.length (get_comments (col "key" i) d))
      by (unfold comments_of; apply length_map).
    rewrite Ec.
    split; [lia|]. split; [lia|]. split; [lia|]. split; [lia|].
    split; [assumption|]. split; [auto|].
    intros i' [<-|Hin]; auto.
Qed.

Lemma group_width_headers (m : maxima) :
  group_width "Labels" (headers_of m) = Nat.max (max_labels m) 1
  /\ group_width "Component" (headers_of m) = Nat.max (max_components m) 1
  /\ group_width "Fix Version" (headers_of m) = Nat.max (max_fix_versions m) 1
  /\ group_width "Comment" (headers_of m) = Nat.max (max_comments m) 1.
Proof.
  assert (Hcore : forall g, In g ["Labels"; "Component"; "Fix Version"; "Comment"] ->
            count_occ string_dec (map snd JIRA_FIELD_MAP) g = 0).
  { intros g [<-|[<-|[<-|[<-|[]]]]]; reflexivity. }
  unfold group_width, headers_of. rewrite !count_occ_app.
  rewrite !Hcore by (simpl; tauto).
  repeat split;
    rewrite (count_occ_repeat_eq string_dec _ eq_refl);
    rewrite !count_occ_repeat_neq by discriminate; lia.
Qed.

(** What [export_jira_csv] writes, in terms of the export set: the width
    of each group is the largest multiplicity or 1, and each row is the
    fixed cells followed by the values of each group filled with blanks. *)
Lemma export_shape (d : db) (project_key : option string) (f : csv_file) :
  export_jira_csv d project_key = Some f ->
  let exported := get_issues project_key d in
  let wl := Nat.max (max_multiplicity labels_of exported) 1 in
  let wc := Nat.max (max_multiplicity components_of exported) 1 in
  let wf := Nat.max (max_multiplicity fix_versions_of exported) 1 in
  let wm := Nat.max (max_multiplicity (comments_of d) exported) 1 in
  List.length exported <> 0
  /\ group_width "Labels" (csv_header f) = wl
  /\ group_width "Component" (csv_header f) = wc
  /\ group_width "Fix Version" (csv_header f) = wf
  /\ group_width "Comment" (csv_header f) = wm
  /\ csv_rows f = map (expected_row d wl wc wf wm) exported.
Proof.
  unfold export_jira_csv. intros E. cbv zeta.
  destruct (get_issues project_key d) as [|i0 rest] eqn:Ei; [discriminate|].
  set (exported := i0 :: rest) in *.
  destruct (fold_left (scan_issue d) exported (mkMax 0 0 0 0, [])) as [m c] eqn:Es.
  apply scan_issues in Es; [|intros k v []].
  destruct Es as (E1 & E2 & E3 & E4 & Hf & _ & Hk).
  cbn [max_labels max_components max_fix_versions max_comments Nat.max] in *.
  inversion E; subst f; clear E. cbn [csv_header csv_rows].
  destruct (group_width_headers m) as (G1 & G2 & G3 & G4).
  rewrite G1, G2, G3, G4, E1, E2, E3, E4.
  split; [discriminate|]. repeat split.
  change (row_of m c i0 :: map (row_of m c) rest) with (map (row_of m c) exported).
  apply map_ext_in. intros i Hin. unfold row_of, expected_row.
  rewrite (comments_get_present d c (col "key" i) Hf (Hk i Hin)).
  rewrite E1, E2, E3, E4.
  pose proof (max_multiplicity_In labels_of exported i Hin).
  pose proof (max_multiplicity_In components_of exported i Hin).
  pose proof (max_multiplicity_In fix_versions_of exported i Hin).
  pose proof (max_multiplicity_In (comments_of d) exported i Hin).
  fold (labels_of i). fold (components_of i). fold (fix_versions_of i).
  fold (comments_of d i).
  rewrite !padded_fill by lia.
  reflexivity.
Qed.

End WithLibs.
End ExporterFacts.

Module ExporterTheorems.
Import Db Exporter ExporterSpec ExporterFacts Examples.

(** C9: whenever [export_jira_csv] writes a file, each of the groups
    Labels, Component, Fix Version and Comment has as many header columns
    as the largest number of values any exported issue has in it, and one
    column when no issue has any; every row holds the issue's values of
    the group followed by blank cells up to that width, so an issue with
    no values has only blank cells there. *)
Theorem jira_csv_groups_have_at_least_one_column {rt : Runtime} {jl : JsonLib}
    (d : db) (project_key : option string) (f : csv_file) :
  export_jira_csv d project_key = Some f ->
  let exported := get_issues project_key d in
  let wl := Nat.max (max_multiplicity labels_of exported) 1 in
  let wc := Nat.max (max_multiplicity components_of exported) 1 in
  let wf := Nat.max (max_multiplicity fix_versions_of exported) 1 in
  let wm := Nat.max (max_multiplicity (comments_of d) exported) 1 in
  group_width "Labels" (csv_header f) = wl
  /\ group_width "Component" (csv_header f) = wc
  /\ group_width "Fix Version" (csv_header f) = wf
  /\ group_width "Comment" (csv_header f) = wm
  /\ csv_rows f = map (expected_row d wl wc wf wm) exported
  /\ (forall w, fill w [] = repeat "" w).
Proof.
  intros E. destruct (export_shape d project_key f E) as (_ & H1 & H2 & H3 & H4 & H5).
  cbv zeta. repeat split; try assumption.
  intros w. unfold fill. simpl. now rewrite Nat.sub_0_r.
Qed.

Lemma jira_csv_groups_have_at_least_one_column_witness :
  exists f,
    @export_jira_csv example_runtime example_json store1 None = Some f
    /\ group_width "Labels" (csv_header f) = 1
    /\ group_width "Comment" (csv_header f) = 1
    /\ csv_rows f
       = [["ABC-12"; "Twelfth"; ""; ""; ""; ""; ""; ""; ""; ""; ""; ""; ""; ""; "";
           ""; ""; ""; ""]].
Proof.
  eexists. split; [reflexivity|].
  destruct (@jira_csv_groups_have_at_least_one_column example_runtime example_json
              store1 None _ eq_refl) as (H1 & _ & _ & H4 & H5 & _).
  split; [exact H1|]. split; [exact H4 | exact H5].
Defined.

(** C1, as amended: whenever [export_jira_csv] writes a file and some
    exported issue has at least one value in a group, the group has as
    many header columns as the largest number of values any exported
    issue has in it; every row holds the issue's values of each group
    followed by blank cells up to the width of the group. *)
Theorem jira_csv_group_width_is_largest_multiplicity {rt : Runtime} {jl : JsonLib}
    (d : db) (project_key : option string) (f : csv_file) :
  export_jira_csv d project_key = Some f ->
  let exported := get_issues project_key d in
  (0 < max_multiplicity labels_of exported ->
   group_width "Labels" (csv_header f) = max_multiplicity labels_of exported)
  /\ (0 < max_multiplicity components_of exported ->
      group_width "Component" (csv_header f) = max_multiplicity components_of exported)
  /\ (0 < max_multiplicity fix_versions_of exported ->
      group_width "Fix Version" (csv_header f)
      = max_multiplicity fix_versions_of exported)
  /\ (0 < max_multiplicity (comments_of d) exported ->
      group_width "Comment" (csv_header f) = max_multiplicity (comments_of d) exported)
  /\ csv_rows f
     = map (expected_row d (group_width "Labels" (csv_header f))
              (group_width "Component" (csv_header f))
              (group_width "Fix Version" (csv_header f))
              (group_width "Comment" (csv_header f))) exported.
Proof.
  intros E. destruct (export_shape d project_key f E) as (_ & H1 & H2 & H3 & H4 & H5).
  cbv zeta. rewrite H1, H2, H3, H4.
  split; [lia|]. split; [lia|]. split; [lia|]. split; [lia | exact H5].
Qed.

Lemma jira_csv_group_width_is_largest_multiplicity_witness :
  exists f,
    @export_jira_csv example_runtime example_json store3 None = Some f
    /\ group_width "Labels" (csv_header f) = 2
    /\ csv_rows f
       = [["ABC-1"; "First"; ""; ""; ""; ""; ""; ""; ""; ""; ""; ""; ""; ""; "";
           "ui"; "bug"; ""; ""; "2024-01-02;Ann;Looks fine"];
          ["ABC-12"; "Twelfth"; ""; ""; ""; ""; ""; ""; ""; ""; ""; ""; ""; ""; "";
           ""; ""; ""; ""; ""]].
Proof.
  eexists. split; [reflexivity|].
  destruct (@jira_csv_group_width_is_largest_multiplicity example_runtime example_json
              store3 None _ eq_refl) as (H1 & _ & _ & _ & H5).
  split; [exact (H1 ltac:(vm_compute; lia)) | exact H5].
Defined.

(** C1, as stated, fails: when no exported issue has a label the header
    still has one Labels column, while the largest number of labels on an
    issue is zero. *)
Lemma jira_csv_labels_column_without_labels :
  exists f,
    @export_jira_csv example_runtime example_json store1 None = Some f
    /\ group_width "Labels" (csv_header f) = 1
    /\ max_multiplicity (@labels_of example_json)
         (get_issues None store1) = 0.
Proof. eexists. repeat split. Qed.

End ExporterTheorems.

(** ** The relational store *)

Module DbFacts.
Import Db DbSpec PyFacts.

Lemma text_eq_sym (a b : sqlval) : text_eq a b = text_eq b a.
Proof. destruct a, b; simpl; auto. apply String.eqb_sym. Qed.

Lemma text_eq_true (a b : sqlval) :
  text_eq a b = true -> exists s, a = SText s /\ b = SText s.
Proof.
  destruct a, b; simpl; try discriminate. intros E.
  apply String.eqb_eq in E. subst. eauto.
Qed.

Lemma text_eq_refl (s : string) : text_eq (SText s) (SText s) = true.
Proof. apply String.eqb_refl. Qed.

Section WithRuntime.
Context {rt : Runtime}.

Lemma store_as_text (v : sqlval) :
  store_as TEXT v = SNull \/ exists s, store_as TEXT v = SText s.
Proof. destruct v; simpl; eauto. Qed.

Lemma store_as_text_null (v : sqlval) : store_as TEXT v = SNull -> v = SNull.
Proof. destruct v; simpl; auto; discriminate. Qed.

Lemma col_map_schema (f : string * coltype -> sqlval) (c : string) :
  forall schema ty,
  lookup c schema = Some ty ->
  exists ct, col c (map (fun ct => (fst ct, f ct)) schema) = f ct
             /\ fst ct = c /\ snd ct = ty /\ In ct schema.
Proof.
  induction schema as [|[k t] schema IH]; intros ty E; [discriminate|].
  unfold col in *. simpl in *. destruct (String.eqb_spec c k) as [->|Hne].
  - inversion E; subst. exists (k, ty). auto.
  - destruct (IH ty E) as (ct & E1 & E2 & E3 & E4). exists ct. auto.
Qed.

Lemma col_insert_row (schema : list (string * coltype)) (cols : list string)
    (vals : list sqlval) (c : string) (ty : coltype) :
  lookup c schema = Some ty ->
  col c (insert_row schema cols vals) = store_as ty (col c (combine cols vals)).
Proof.
  intros E. unfold insert_row.
  destruct (col_map_schema
              (fun ct => store_as (snd ct) (col (fst ct) (combine cols vals)))
              c schema ty E) as ([k t] & -> & Ek & Et & _).
  simpl in *. now subst.
Qed.

Lemma names_insert_row (schema : list (string * coltype)) (cols : list string)
    (vals : list sqlval) :
  map fst (insert_row schema cols vals) = map fst schema.
Proof. unfold insert_row. rewrite map_map. reflexivity. Qed.

Lemma shaped_insert_row (vals : list sqlval) :
  shaped (insert_row issues_schema issues_insert_cols vals) = true.
Proof.
  unfold shaped. rewrite names_insert_row.
  now destruct (list_eq_dec string_dec _ _).
Qed.

(** A row keyed by distinct names is determined by its columns. *)
Lemma row_ext (names : list string) : forall r1 r2 : row,
  NoDup names -> map fst r1 = names -> map fst r2 = names ->
  (forall c, In c names -> col c r1 = col c r2) -> r1 = r2.
Proof.
  induction names as [|n names IH]; intros r1 r2 Hnd E1 E2 Hc.
  - destruct r1; [|discriminate]. destruct r2; [reflexivity | discriminate].
  - destruct r1 as [|[k1 v1] r1]; [discriminate|].
    destruct r2 as [|[k2 v2] r2]; [discriminate|].
    simpl in E1, E2. injection E1 as Ek1 Er1. injection E2 as Ek2 Er2.
    rewrite Ek1, Ek2 in *. clear Ek1 Ek2 k1 k2.
    inversion Hnd as [|n' names' Hn Hnd']. clear H H0 n' names'.
    assert (Ev : v1 = v2).
    { specialize (Hc n (or_introl eq_refl)). unfold col in Hc. simpl in Hc.
      now rewrite String.eqb_refl in Hc. }
    rewrite Ev. f_equal. apply (IH r1 r2 Hnd' Er1 Er2). intros c Hin.
    specialize (Hc c (or_intror Hin)). unfold col in *. simpl in Hc.
    destruct (String.eqb c n) eqn:Ecn; [|assumption].
    apply String.eqb_eq in Ecn. rewrite Ecn in Hin. contradiction.
Qed.

Lemma col_update_row (set_cols : list string) (excluded old : row) (c : string) :
  In c (map fst old) ->
  col c (update_row set_cols excluded old)
  = if existsb (String.eqb c) set_cols then col c excluded else col c old.
Proof.
  unfold update_row, col. induction old as [|[k v] old IH]; intros Hin; [destruct Hin|].
  simpl. destruct (String.eqb_spec c k) as [->|Hne].
  - now destruct (existsb (String.eqb k) set_cols).
  - destruct Hin as [E|Hin]; [simpl in E; congruence|]. now apply IH.
Qed.

Lemma names_update_row (set_cols : list string) (excluded old : row) :
  map fst (update_row set_cols excluded old) = map fst old.
Proof. unfold update_row. rewrite map_map. reflexivity. Qed.

Lemma schema_names_NoDup : NoDup (map fst issues_schema).
Proof.
  apply (NoDup_count_occ' string_dec). intros c Hin. simpl in Hin.
  repeat (destruct Hin as [<-|Hin]; [reflexivity|]). destruct Hin.
Qed.

Lemma shaped_names (r : row) : shaped r = true -> map fst r = map fst issues_schema.
Proof. unfold shaped. destruct (list_eq_dec string_dec _ _); [auto | discriminate]. Qed.

(** ON CONFLICT(id) DO UPDATE SET assigns every column but [id]: on a row
    with the id of the excluded one it leaves the excluded row. *)
Lemma update_row_all (e old : row) :
  shaped old = true -> shaped e = true -> same_id e old = true ->
  update_row issues_update_cols e old = e.
Proof.
  intros Hs He Hid. apply shaped_names in Hs. apply shaped_names in He.
  apply (row_ext (map fst issues_schema)).
  - apply schema_names_NoDup.
  - now rewrite names_update_row.
  - assumption.
  - intros c Hin. rewrite col_update_row by now rewrite Hs.
    destruct (existsb (String.eqb c) issues_update_cols) eqn:E; [reflexivity|].
    simpl in Hin.
    repeat (destruct Hin as [<-|Hin]; [try discriminate E|]); [|destruct Hin].
    unfold same_id in Hid. apply text_eq_true in Hid as (s & E1 & E2). congruence.
Qed.

Lemma replace_first_found (p : row -> bool) (x : row) (rs : list row) :
  find p rs = Some x -> replace_first p x rs = rs.
Proof.
  induction rs as [|r rs IH]; simpl; [discriminate|].
  destruct (p r); [intros E; now inversion E | intros E; now rewrite IH].
Qed.

Lemma replace_first_ids (p : row -> bool) (new old : row) (rs : list row) :
  find p rs = Some old -> col "id" new = col "id" old ->
  map (col "id") (replace_first p new rs) = map (col "id") rs.
Proof.
  intros E Hid. induction rs as [|r rs IH]; simpl in *; [discriminate|].
  destruct (p r); [inversion E; subst; simpl; now rewrite Hid|].
  simpl. now rewrite IH.
Qed.

Lemma existsb_same_id (r1 r2 : row) (rs1 rs2 : list row) :
  col "id" r1 = col "id" r2 -> map (col "id") rs1 = map (col "id") rs2 ->
  existsb (same_id r1) rs1 = existsb (same_id r2) rs2.
Proof.
  intros E. revert rs2. induction rs1 as [|x rs1 IH]; intros [|y rs2] Em;
    try discriminate; [reflexivity|].
  simpl in *. injection Em as Ex Em. unfold same_id at 1 3.
  rewrite E, Ex. f_equal. now apply IH.
Qed.

Lemma unique_ids_ids (rs1 : list row) : forall rs2,
  map (col "id") rs1 = map (col "id") rs2 -> unique_ids rs1 = unique_ids rs2.
Proof.
  induction rs1 as [|x rs1 IH]; intros [|y rs2] Em; try discriminate; [reflexivity|].
  simpl in *. injection Em as Ex Em.
  rewrite (existsb_same_id x y rs1 rs2 Ex Em). f_equal. now apply IH.
Qed.

Lemma unique_ids_app (rs : list row) (new : row) :
  unique_ids rs = true -> existsb (same_id new) rs = false ->
  unique_ids (rs ++ [new]) = true.
Proof.
  induction rs as [|r rs IH]; simpl; [auto|]. intros Hu Hn.
  apply andb_prop in Hu as (H1 & H2). apply orb_false_elim in Hn as (N1 & N2).
  rewrite IH by assumption. rewrite existsb_app. simpl.
  apply negb_true_iff in H1. rewrite H1. unfold same_id in *.
  rewrite text_eq_sym, N1. reflexivity.
Qed.

Lemma forallb_replace_first (q p : row -> bool) (new : row) (rs : list row) :
  forallb q rs = true -> q new = true -> forallb q (replace_first p new rs) = true.
Proof.
  induction rs as [|r rs IH]; simpl; [auto|]. intros H Hn.
  apply andb_prop in H as (H1 & H2).
  destruct (p r); simpl; [now rewrite Hn, H2 | now rewrite H1, IH].
Qed.

Lemma filter_id_replace_first (i : string) (new : row) (rs : list row) (old : row) :
  unique_ids rs = true -> col "id" new = SText i ->
  find (same_id new) rs = Some old ->
  filter (row_has_id i) (replace_first (same_id new) new rs) = [new].
Proof.
  intros Hu Hid. assert (Hq : row_has_id i new = true)
    by (unfold row_has_id; rewrite Hid; apply text_eq_refl).
  assert (Hpq : forall r, same_id new r = row_has_id i r)
    by (intros r; unfold same_id, row_has_id; rewrite Hid; apply text_eq_sym).
  induction rs as [|r rs IH]; simpl; [discriminate|].
  simpl in Hu. apply andb_prop in Hu as (H1 & H2). apply negb_true_iff in H1.
  destruct (same_id new r) eqn:E; intros Ef.
  - simpl. rewrite Hq. f_equal. 
    rewrite Hpq in E. unfold row_has_id in E. apply text_eq_true in E as (s & Es & Ei).
    inversion Ei; subst s.
    clear IH H2 Ef. induction rs as [|x rs IH]; [reflexivity|]. simpl in *.
    apply orb_false_elim in H1 as (N1 & N2). unfold same_id in N1. rewrite Es in N1.
    unfold row_has_id at 1. rewrite text_eq_sym, N1. auto.
  - simpl. rewrite <- Hpq, E. auto.
Qed.

Lemma filter_id_app (i : string) (new : row) (rs : list row) :
  col "id" new = SText i -> find (same_id new) rs = None ->
  filter (row_has_id i) (rs ++ [new])%list = [new].
Proof.
  intros Hid Hf. rewrite filter_app. simpl.
  unfold row_has_id at 2. rewrite Hid, text_eq_refl.
  replace (filter (row_has_id i) rs) with (@nil row); [reflexivity|].
  symmetry. induction rs as [|r rs IH]; [reflexivity|]. simpl in *.
  destruct (same_id new r) eqn:E; [discriminate|].
  unfold same_id in E. rewrite Hid in E. unfold row_has_id at 1.
  rewrite text_eq_sym, E. auto.
Qed.

Lemma find_app_new (new : row) (rs : list row) :
  find (same_id new) rs = None -> same_id new new = true ->
  find (same_id new) (rs ++ [new])%list = Some new.
Proof.
  intros Hf Hn. induction rs as [|r rs IH]; simpl in *; [now rewrite Hn|].
  destruct (same_id new r); [discriminate | auto].
Qed.

Lemma find_replace_first (new : row) (rs : list row) (old : row) :
  find (same_id new) rs = Some old -> same_id new new = true ->
  find (same_id new) (replace_first (same_id new) new rs) = Some new.
Proof.
  intros Hf Hn. induction rs as [|r rs IH]; simpl in *; [discriminate|].
  destruct (same_id new r) eqn:E; simpl; [now rewrite Hn | now rewrite E, IH].
Qed.

Lemma existsb_other_replace_first (new : row) (rs : list row) :
  same_id new new = true ->
  existsb (fun r => negb (same_id new r) && same_key new r) rs = false ->
  existsb (fun r => negb (same_id new r) && same_key new r)
          (replace_first (same_id new) new rs) = false.
Proof.
  intros Hn. induction rs as [|r rs IH]; simpl; [auto|]. intros H.
  apply orb_false_elim in H as (H1 & H2).
  destruct (same_id new r) eqn:E; simpl.
  - now rewrite Hn, H2.
  - rewrite E. simpl. simpl in H1. now rewrite H1, IH.
Qed.

Lemma key_not_null_same (r : row) :
  shaped r = true -> (exists vals, r = excluded_of vals) ->
  not_null_ok r = true -> same_key r r = true.
Proof.
  intros _ (vals & ->) Hn. unfold not_null_ok in Hn.
  apply andb_prop in Hn as (Hn & _). apply andb_prop in Hn as (Hn & _).
  unfold same_key. unfold excluded_of in *.
  rewrite (col_insert_row issues_schema issues_insert_cols vals "key" TEXT eq_refl) in *.
  destruct (store_as_text (col "key" (combine issues_insert_cols vals))) as [E|(s & E)];
    rewrite E in *; [discriminate | apply text_eq_refl].
Qed.

(** What a successful upsert statement leaves: the excluded row is the
    one row of its id, the table keeps its shape, and running the same
    statement again changes nothing. *)
Lemma exec_upsert_issue_Ok (vals : list sqlval) (i : string) (d d' : db) :
  issues_ok d = true ->
  col "id" (excluded_of vals) = SText i ->
  exec_upsert_issue vals d = (Ok tt, d') ->
  issues_with_id i d' = [excluded_of vals]
  /\ issues_ok d' = true
  /\ exec_upsert_issue vals d' = (Ok tt, d')
  /\ projects d' = projects d.
Proof.
  intros Hok Hid. unfold issues_ok in Hok. apply andb_prop in Hok as (Hsh & Hu).
  unfold exec_upsert_issue. fold (excluded_of vals). set (e := excluded_of vals) in *.
  destruct (negb (List.length vals =? List.length issues_insert_cols)%nat) eqn:El;
    [discriminate|].
  destruct (negb (not_null_ok e)) eqn:En; [discriminate|].
  apply negb_false_iff in En.
  assert (Hee : same_id e e = true) by (unfold same_id; rewrite Hid; apply text_eq_refl).
  assert (Hkk : same_key e e = true).
  { apply key_not_null_same; [apply shaped_insert_row | now exists vals | assumption]. }
  assert (Hshe : shaped e = true) by apply shaped_insert_row.
  destruct (find (same_id e) (issues d)) as [old|] eqn:Ef.
  - assert (Hold : In old (issues d) /\ same_id e old = true) by (now apply find_some in Ef).
    destruct Hold as (Hin & Hso).
    assert (Hshold : shaped old = true)
      by (rewrite forallb_forall in Hsh; now apply Hsh).
    rewrite (update_row_all e old Hshold Hshe Hso).
    destruct (existsb (fun r => negb (same_id e r) && same_key e r) (issues d)) eqn:Eo;
      [discriminate|].
    destruct (negb (project_exists d e)) eqn:Ep; [discriminate|].
    destruct (negb (same_key e old) && referenced d old) eqn:Er; [discriminate|].
    intros E. inversion E; subst d'; clear E. cbn [issues set_issues projects].
    assert (Hide : col "id" e = col "id" old).
    { unfold same_id in Hso. apply text_eq_true in Hso as (s & E1 & E2). congruence. }
    split; [now apply (filter_id_replace_first i e (issues d) old)|].
    split.
    { unfold issues_ok. cbn [issues set_issues].
      rewrite forallb_replace_first by assumption.
      rewrite (unique_ids_ids _ (issues d)); [now rewrite Hu|].
      now apply (replace_first_ids _ e old). }
    split; [|reflexivity].
    cbn [issues set_issues].
    rewrite (find_replace_first e (issues d) old Ef Hee).
    rewrite (update_row_all e e Hshe Hshe Hee).
    rewrite (existsb_other_replace_first e (issues d) Hee Eo).
    unfold project_exists in *. cbn [projects set_issues]. rewrite Ep.
    rewrite Hkk. cbn [negb andb].
    unfold set_issues. cbn [projects issues comments issue_links issue_links_seq].
    rewrite (replace_first_found (same_id e) e); [reflexivity|].
    now apply (find_replace_first e (issues d) old).
  - destruct (existsb (same_key e) (issues d)) eqn:Ek; [discriminate|].
    destruct (negb (project_exists d e)) eqn:Ep; [discriminate|].
    intros E. inversion E; subst d'; clear E. cbn [issues set_issues projects].
    split; [now apply filter_id_app|].
    split.
    { unfold issues_ok. cbn [issues set_issues]. rewrite forallb_app. cbn [forallb].
      rewrite Hsh, Hshe. cbn [andb]. apply unique_ids_app; [assumption|].
      clear -Ef. induction (issues d) as [|r rs IH]; [reflexivity|]. simpl in *.
      destruct (same_id e r); [discriminate | auto]. }
    split; [|reflexivity].
    cbn [issues set_issues].
    rewrite (find_app_new e (issues d) Ef Hee).
    rewrite (update_row_all e e Hshe Hshe Hee).
    assert (Eo : existsb (fun r => negb (same_id e r) && same_key e r)
                   (issues d ++ [e])%list = false).
    { rewrite existsb_app. simpl. rewrite Hee. simpl. rewrite orb_false_r.
      clear -Ek. induction (issues d) as [|r rs IH]; [reflexivity|]. simpl in *.
      apply orb_false_elim in Ek as (K1 & K2). rewrite K1, andb_false_r. auto. }
    rewrite Eo. unfold project_exists in *. cbn [projects set_issues]. rewrite Ep.
    rewrite Hkk. cbn [negb andb].
    unfold set_issues. cbn [projects issues comments issue_links issue_links_seq].
    rewrite (replace_first_found (same_id e) e); [reflexivity|].
    now apply find_app_new.
Qed.

End WithRuntime.
End DbFacts.

Module UpsertFacts.
Import Db DbSpec PyFacts DbFacts.

Section WithRuntime.
Context {rt : Runtime}.

Ltac peel H :=
  repeat match type of H with
         | bind ?X _ = Ok _ =>
             let E := fresh "E" in
             destruct X eqn:E; [cbn [bind] in H | discriminate H]
         end.

(** The first four parameters of the statement, as [upsert_issue]
    computes them. *)
Lemma issue_params_head (issue : json) (field_map : option (list (string * string)))
    (params : list json) :
  issue_params issue field_map = Ok params ->
  exists fields project fallback p_id p_key p_project_key p_summary rest,
    params = p_id :: p_key :: p_project_key :: p_summary :: rest
    /\ List.length rest = 29
    /\ get_d issue "fields" (JObj []) = Ok fields
    /\ getitem issue "id" = Ok p_id
    /\ getitem issue "key" = Ok p_key
    /\ get_d fields "project" (JObj []) = Ok project
    /\ key_prefix p_key = Ok fallback
    /\ get_d project "key" fallback = Ok p_project_key
    /\ get_d fields "summary" (JStr "") = Ok p_summary.
Proof.
  unfold issue_params. intros H. peel H.
  injection H as <-.
  do 8 eexists. repeat split; eassumption.
Qed.

Lemma upsert_issue_Ok (issue : json) (field_map : option (list (string * string)))
    (d d' : db) :
  upsert_issue issue field_map d = (Ok tt, d') ->
  exists params vals,
    issue_params issue field_map = Ok params
    /\ mapM bind_param params = Ok vals
    /\ exec_upsert_issue vals d = (Ok tt, d').
Proof.
  unfold upsert_issue, execute, sbind, lift.
  destruct (issue_params issue field_map) as [params|e] eqn:Ep; [|discriminate].
  destruct (mapM bind_param params) as [vals|e] eqn:Eb; [|discriminate].
  intros E. exists params, vals. repeat split; auto.
Qed.

Lemma upsert_issue_exec (issue : json) (field_map : option (list (string * string)))
    (params : list json) (vals : list sqlval) (d : db) :
  issue_params issue field_map = Ok params ->
  mapM bind_param params = Ok vals ->
  upsert_issue issue field_map d = exec_upsert_issue vals d.
Proof.
  intros E1 E2. unfold upsert_issue, execute, sbind, lift. now rewrite E1, E2.
Qed.

(** The id, key, project key and summary columns of the row computed
    from a payload whose id and key are strings. *)
Lemma stored_columns (issue : json) (field_map : option (list (string * string)))
    (params : list json) (vals : list sqlval) :
  issue_params issue field_map = Ok params ->
  mapM bind_param params = Ok vals ->
  List.length vals = 33
  /\ exists fields project fallback p_id p_key p_project_key p_summary
            v_id v_key v_project_key v_summary,
       get_d issue "fields" (JObj []) = Ok fields
       /\ getitem issue "id" = Ok p_id
       /\ getitem issue "key" = Ok p_key
       /\ get_d fields "project" (JObj []) = Ok project
       /\ key_prefix p_key = Ok fallback
       /\ get_d project "key" fallback = Ok p_project_key
       /\ get_d fields "summary" (JStr "") = Ok p_summary
       /\ bind_param p_id = Ok v_id /\ bind_param p_key = Ok v_key
       /\ bind_param p_project_key = Ok v_project_key
       /\ bind_param p_summary = Ok v_summary
       /\ col "id" (excluded_of vals) = store_as TEXT v_id
       /\ col "key" (excluded_of vals) = store_as TEXT v_key
       /\ col "project_key" (excluded_of vals) = store_as TEXT v_project_key
       /\ col "summary" (excluded_of vals) = store_as TEXT v_summary.
Proof.
  intros Ep Eb.
  destruct (issue_params_head issue field_map params Ep)
    as (fields & project & fallback & p_id & p_key & p_pk & p_sum & rest
        & -> & Hlen & H1 & H2 & H3 & H4 & H5 & H6 & H7).
  pose proof (mapM_length _ _ _ Eb) as Hl. simpl in Hl. rewrite Hlen in Hl.
  split; [exact Hl|].
  apply mapM_cons_Ok in Eb as (v_id & vs1 & -> & B1 & Eb).
  apply mapM_cons_Ok in Eb as (v_key & vs2 & -> & B2 & Eb).
  apply mapM_cons_Ok in Eb as (v_pk & vs3 & -> & B3 & Eb).
  apply mapM_cons_Ok in Eb as (v_sum & vs4 & -> & B4 & Eb).
  exists fields, project, fallback, p_id, p_key, p_pk, p_sum, v_id, v_key, v_pk, v_sum.
  unfold excluded_of.
  rewrite !(col_insert_row issues_schema issues_insert_cols _ _ TEXT) by reflexivity.
  repeat split; auto.
Qed.

Lemma bind_str (s : string) : bind_param (JStr s) = Ok (SText s).
Proof. reflexivity. Qed.

Lemma stored_id (issue : json) (field_map : option (list (string * string)))
    (params : list json) (vals : list sqlval) (i : string) :
  issue_params issue field_map = Ok params ->
  mapM bind_param params = Ok vals ->
  getitem issue "id" = Ok (JStr i) ->
  col "id" (excluded_of vals) = SText i.
Proof.
  intros Ep Eb Ei.
  destruct (stored_columns issue field_map params vals Ep Eb)
    as (_ & fields & project & fallback & p_id & p_key & p_pk & p_sum
        & v_id & v_key & v_pk & v_sum & _ & H2 & _ & _ & _ & _ & _ & B1 & _ & _ & _
        & C1 & _).
  rewrite Ei in H2. inversion H2; subst p_id. simpl in B1. inversion B1; subst.
  exact C1.
Qed.

End WithRuntime.

(** C7: when two payloads with the same id are upserted one after the
    other into a store whose [issues] table is well formed, the store
    holds exactly one row of that id, and it is the row computed from the
    second payload alone, every column included; upserting the second
    payload once more leaves the store as it is. *)
Theorem upsert_issue_latest_payload_wins {rt : Runtime} (p1 p2 : json)
    (fm1 fm2 : option (list (string * string))) (i : string) (d d1 d2 : db) :
  issues_ok d = true ->
  getitem p1 "id" = Ok (JStr i) ->
  getitem p2 "id" = Ok (JStr i) ->
  upsert_issue p1 fm1 d = (Ok tt, d1) ->
  upsert_issue p2 fm2 d1 = (Ok tt, d2) ->
  exists r2,
    stored_issue p2 fm2 = Ok r2
    /\ issues_with_id i d2 = [r2]
    /\ upsert_issue p1 fm1 d1 = (Ok tt, d1)
    /\ upsert_issue p2 fm2 d2 = (Ok tt, d2).
Proof.
  intros Hok I1 I2 U1 U2.
  apply upsert_issue_Ok in U1 as (params1 & vals1 & P1 & B1 & X1).
  pose proof U2 as U2'.
  apply upsert_issue_Ok in U2 as (params2 & vals2 & P2 & B2 & X2).
  pose proof (stored_id p1 fm1 params1 vals1 i P1 B1 I1) as Id1.
  pose proof (stored_id p2 fm2 params2 vals2 i P2 B2 I2) as Id2.
  destruct (exec_upsert_issue_Ok vals1 i d d1 Hok Id1 X1) as (_ & Hok1 & Again1 & _).
  destruct (exec_upsert_issue_Ok vals2 i d1 d2 Hok1 Id2 X2) as (F2 & _ & Again2 & _).
  exists (excluded_of vals2). split; [|split; [|split]].
  - unfold stored_issue. rewrite P2. cbn [bind]. rewrite B2. reflexivity.
  - exact F2.
  - now rewrite (upsert_issue_exec p1 fm1 params1 vals1 d1 P1 B1).
  - now rewrite (upsert_issue_exec p2 fm2 params2 vals2 d2 P2 B2).
Qed.

End UpsertFacts.

Module ProjectKeyFacts.
Import Db DbSpec PyFacts DbFacts UpsertFacts.

Lemma contains_app_sep (sep : ascii) (p s : string) :
  contains_char sep (p ++ String sep s) = true.
Proof.
  induction p as [|c p IH]; simpl.
  - now rewrite Ascii.eqb_refl.
  - rewrite IH. apply orb_true_r.
Qed.

(** [before_last sep] is the text before the last separator. *)
Lemma before_last_app (sep : ascii) (p s : string) :
  contains_char sep s = false -> before_last sep (p ++ String sep s) = p.
Proof.
  intros Hs. induction p as [|c p IH]; simpl.
  - now rewrite Hs, Ascii.eqb_refl.
  - now rewrite contains_app_sep, IH.
Qed.

Lemma before_last_none (sep : ascii) (s : string) :
  contains_char sep s = false -> before_last sep s = s.
Proof.
  destruct s as [|c s]; simpl; [reflexivity|]. intros H.
  apply orb_false_elim in H as (Hc & Hs). rewrite Hs.
  rewrite Ascii.eqb_sym in Hc. now rewrite Hc.
Qed.

Section WithRuntime.
Context {rt : Runtime}.

Lemma derived_columns (ikv fkv : list (string * json)) (i k : string)
    (fm : option (list (string * string))) (params : list json) (vals : list sqlval) :
  lookup "id" ikv = Some (JStr i) ->
  lookup "key" ikv = Some (JStr k) ->
  get_d (JObj ikv) "fields" (JObj []) = Ok (JObj fkv) ->
  no_project_key fkv ->
  issue_params (JObj ikv) fm = Ok params ->
  mapM bind_param params = Ok vals ->
  List.length vals = 33
  /\ col "id" (excluded_of vals) = SText i
  /\ col "key" (excluded_of vals) = SText k
  /\ col "project_key" (excluded_of vals) = SText (before_last "-" k)
  /\ (lookup "summary" fkv <> Some JNull ->
      is_null (col "summary" (excluded_of vals)) = false).
Proof.
  intros Hi Hk Hf Hnp Ep Eb.
  destruct (stored_columns (JObj ikv) fm params vals Ep Eb)
    as (Hlen & fields & project & fallback & p_id & p_key & p_pk & p_sum
        & v_id & v_key & v_pk & v_sum & H1 & H2 & H3 & H4 & H5 & H6 & H7
        & B1 & B2 & B3 & B4 & C1 & C2 & C3 & C4).
  rewrite Hf in H1. injection H1 as <-.
  unfold getitem in H2, H3. rewrite Hi in H2. rewrite Hk in H3.
  injection H2 as <-. injection H3 as <-.
  simpl in H5. injection H5 as <-.
  assert (p_pk = JStr (before_last "-" k)) as ->.
  { unfold get_d in H4. destruct Hnp as [Hn|(pkv & Hp & Hpk)].
    - rewrite Hn in H4. injection H4 as <-. simpl in H6. now injection H6 as <-.
    - rewrite Hp in H4. injection H4 as <-. unfold get_d in H6. rewrite Hpk in H6.
      now injection H6 as <-. }
  simpl in B1, B2, B3. injection B1 as <-. injection B2 as <-. injection B3 as <-.
  rewrite C1, C2, C3, C4. repeat split; auto.
  intros Hs. unfold get_d in H7. injection H7 as <-.
  destruct (store_as_text v_sum) as [E|(s & E)]; rewrite E; [|reflexivity].
  apply store_as_text_null in E. subst v_sum.
  destruct (lookup "summary" fkv) as [[]|]; simpl in B4; try discriminate;
    try (destruct (int64 z); discriminate); congruence.
Qed.

Lemma existsb_agree (p q : row -> bool) (rs : list row) :
  (forall r, p r = q r) -> existsb p rs = existsb q rs.
Proof.
  intros Hpq. induction rs as [|r rs IH]; simpl; [reflexivity|]. now rewrite Hpq, IH.
Qed.

Lemma existsb_find_none (p q : row -> bool) (rs : list row) :
  (forall r, p r = q r) -> existsb q rs = false -> find p rs = None.
Proof.
  intros Hpq. induction rs as [|r rs IH]; simpl; [auto|]. intros H.
  apply orb_false_elim in H as (H1 & H2). rewrite Hpq, H1. auto.
Qed.

End WithRuntime.

Section Acceptance.
Context {rt : Runtime}.

Lemma summary_column (ikv fkv : list (string * json))
    (fm : option (list (string * string))) (params : list json) (vals : list sqlval) :
  get_d (JObj ikv) "fields" (JObj []) = Ok (JObj fkv) ->
  issue_params (JObj ikv) fm = Ok params ->
  mapM bind_param params = Ok vals ->
  is_null (col "summary" (excluded_of vals)) = negb (has_summary fkv).
Proof.
  intros Hf Ep Eb.
  destruct (stored_columns (JObj ikv) fm params vals Ep Eb)
    as (_ & fields & project & fallback & p_id & p_key & p_pk & p_sum
        & v_id & v_key & v_pk & v_sum & H1 & _ & _ & _ & _ & _ & H7
        & _ & _ & _ & B4 & _ & _ & _ & C4).
  rewrite Hf in H1. injection H1 as <-. rewrite C4. unfold has_summary.
  unfold get_d in H7. injection H7 as <-.
  destruct (lookup "summary" fkv) as [[]|]; simpl in B4; try discriminate;
    try (destruct (int64 z); try discriminate); injection B4 as <-; reflexivity.
Qed.

Lemma find_pointwise (p q : row -> bool) (rs : list row) :
  (forall r, p r = q r) -> find p rs = find q rs.
Proof.
  intros Hpq. induction rs as [|r rs IH]; simpl; [reflexivity|]. now rewrite Hpq, IH.
Qed.

Lemma existsb_others_none (p q : row -> bool) (rs : list row) :
  find p rs = None -> existsb (fun r => negb (p r) && q r) rs = existsb q rs.
Proof.
  induction rs as [|r rs IH]; simpl; [reflexivity|].
  destruct (p r); [discriminate|]. intros H. now rewrite (IH H).
Qed.

Lemma find_shaped (p : row -> bool) (rs : list row) (old : row) :
  forallb shaped rs = true -> find p rs = Some old -> shaped old = true /\ p old = true.
Proof.
  intros Hs Hf. apply find_some in Hf as (Hin & Hp). split; [|exact Hp].
  rewrite forallb_forall in Hs. now apply Hs.
Qed.

(** What the statement of [upsert_issue] does with a row of id [i] and
    key [k] whose project key is derived from [k] and whose summary is
    not null. *)
Lemma exec_accepts (vals : list sqlval) (i k : string) (d : db) :
  issues_ok d = true ->
  List.length vals = 33 ->
  col "id" (excluded_of vals) = SText i ->
  col "key" (excluded_of vals) = SText k ->
  col "project_key" (excluded_of vals) = SText (before_last "-" k) ->
  is_null (col "summary" (excluded_of vals)) = false ->
  exec_upsert_issue vals d
  = if accepted i k d
    then (Ok tt,
          set_issues d
            match find (row_has_id i) (issues d) with
            | Some _ => replace_first (same_id (excluded_of vals)) (excluded_of vals)
                          (issues d)
            | None => (issues d ++ [excluded_of vals])%list
            end)
    else (Raise IntegrityError, d).
Proof.
  intros Hok Hlen C1 C2 C3 C4. unfold exec_upsert_issue. fold (excluded_of vals).
  set (e := excluded_of vals) in *.
  rewrite Hlen. cbn [List.length issues_insert_cols Nat.eqb negb].
  unfold not_null_ok. rewrite C2, C3, C4. cbn [is_null negb andb].
  assert (Hid : forall r, same_id e r = row_has_id i r).
  { intros r. unfold same_id, row_has_id. rewrite C1. apply text_eq_sym. }
  assert (Hkey : forall r, same_key e r = row_has_key k r).
  { intros r. unfold same_key, row_has_key. rewrite C2. apply text_eq_sym. }
  assert (Hproj : project_exists d e
                  = existsb (row_has_key (before_last "-" k)) (projects d)).
  { unfold project_exists. rewrite C3. reflexivity. }
  assert (Hothers : existsb (fun r => negb (same_id e r) && same_key e r) (issues d)
                    = existsb (fun r => negb (row_has_id i r) && row_has_key k r)
                        (issues d)).
  { apply existsb_agree. intros r. now rewrite Hid, Hkey. }
  unfold accepted. rewrite (find_pointwise (same_id e) (row_has_id i) (issues d) Hid).
  destruct (find (row_has_id i) (issues d)) as [old|] eqn:Ef.
  - unfold issues_ok in Hok. apply andb_prop in Hok as (Hsh & _).
    destruct (find_shaped _ _ _ Hsh Ef) as (Hso & Hio).
    assert (Hnew : update_row issues_update_cols e old = e).
    { apply update_row_all; [exact Hso | apply shaped_insert_row | now rewrite Hid]. }
    rewrite Hnew, Hothers, Hproj, Hkey.
    destruct (existsb (fun r => negb (row_has_id i r) && row_has_key k r) (issues d));
      [now rewrite andb_false_r|].
    destruct (existsb (row_has_key (before_last "-" k)) (projects d)); [|reflexivity].
    cbn [negb andb].
    destruct (row_has_key k old); [reflexivity|]. cbn [negb andb orb].
    now destruct (referenced d old).
  - rewrite (existsb_agree (same_key e) (row_has_key k) (issues d) Hkey).
    rewrite (existsb_others_none (row_has_id i) (row_has_key k) (issues d) Ef).
    rewrite Hproj.
    destruct (existsb (row_has_key k) (issues d)); [now rewrite andb_false_r|].
    destruct (existsb (row_has_key (before_last "-" k)) (projects d)); reflexivity.
Qed.

End Acceptance.

(** C10, as amended: take a payload whose id and key are strings and
    whose fields have no [project] entry, or one that is an object
    without [key].  Whenever [upsert_issue] completes on it, the one row
    of that id has the payload's key and, as project key, the text before
    the last hyphen of the key.  When the rest of the payload evaluates
    and binds, it completes, leaving that row as the one row of the id,
    exactly when the store takes the row: the summary is not null, a
    project with the derived key is stored, no issue of another id has
    the key, and an issue already stored under the id with another key
    has no comment and no link; otherwise it raises IntegrityError and
    the store is as it was. *)
Theorem upsert_issue_derives_project_key {rt : Runtime}
    (ikv fkv : list (string * json)) (i k : string)
    (fm : option (list (string * string))) (d : db) :
  issues_ok d = true ->
  lookup "id" ikv = Some (JStr i) ->
  lookup "key" ikv = Some (JStr k) ->
  get_d (JObj ikv) "fields" (JObj []) = Ok (JObj fkv) ->
  no_project_key fkv ->
  (forall d', upsert_issue (JObj ikv) fm d = (Ok tt, d') ->
     exists r, issues_with_id i d' = [r]
               /\ col "key" r = SText k
               /\ col "project_key" r = SText (before_last "-" k))
  /\ (forall params vals,
        issue_params (JObj ikv) fm = Ok params ->
        mapM bind_param params = Ok vals ->
        (has_summary fkv && accepted i k d = true ->
           exists d', upsert_issue (JObj ikv) fm d = (Ok tt, d')
                      /\ issues_with_id i d' = [excluded_of vals]
                      /\ col "project_key" (excluded_of vals)
                         = SText (before_last "-" k))
        /\ (has_summary fkv && accepted i k d = false ->
              upsert_issue (JObj ikv) fm d = (Raise IntegrityError, d)))
  /\ (forall p s, contains_char "-" s = false ->
                  before_last "-" (p ++ String "-" s) = p).
Proof.
  intros Hok Hi Hk Hf Hnp. split; [|split].
  - intros d' U. apply upsert_issue_Ok in U as (params & vals & Ep & Eb & X).
    destruct (derived_columns ikv fkv i k fm params vals Hi Hk Hf Hnp Ep Eb)
      as (_ & C1 & C2 & C3 & _).
    destruct (exec_upsert_issue_Ok vals i d d' Hok C1 X) as (F & _).
    exists (excluded_of vals). auto.
  - intros params vals Ep Eb.
    destruct (derived_columns ikv fkv i k fm params vals Hi Hk Hf Hnp Ep Eb)
      as (Hlen & C1 & C2 & C3 & _).
    pose proof (summary_column ikv fkv fm params vals Hf Ep Eb) as C4.
    rewrite (upsert_issue_exec (JObj ikv) fm params vals d Ep Eb).
    destruct (has_summary fkv); cbn [negb andb] in *.
    + pose proof (exec_accepts vals i k d Hok Hlen C1 C2 C3 C4) as X.
      destruct (accepted i k d); split; try discriminate; intros _; [|exact X].
      eexists. split; [exact X|]. split; [|exact C3].
      now destruct (exec_upsert_issue_Ok vals i d _ Hok C1 X) as (F & _).
    + split; [discriminate|]. intros _. unfold exec_upsert_issue.
      fold (excluded_of vals).
      rewrite Hlen. cbn [List.length issues_insert_cols Nat.eqb negb].
      unfold not_null_ok. rewrite C4. now rewrite !andb_false_r.
  - intros p s. apply before_last_app.
Qed.

End ProjectKeyFacts.

Module LinkFacts.
Import Db DbSpec PyFacts DbFacts.

Lemma mapM_app_Ok {A B} (f : A -> result B) (xs1 xs2 : list A) (ys : list B) :
  mapM f (xs1 ++ xs2)%list = Ok ys ->
  exists ys1 ys2, ys = (ys1 ++ ys2)%list /\ mapM f xs1 = Ok ys1 /\ mapM f xs2 = Ok ys2.
Proof.
  revert ys. induction xs1 as [|x xs1 IH]; intros ys; simpl.
  - intros E. exists [], ys. auto.
  - destruct (f x) as [y|]; [|discriminate]. simpl.
    destruct (mapM f (xs1 ++ xs2)%list) as [ys'|] eqn:E; [|discriminate].
    simpl. intros E'. inversion E'; subst.
    destruct (IH ys' eq_refl) as (ys1 & ys2 & -> & E1 & E2).
    rewrite E1. simpl. exists (y :: ys1), ys2. auto.
Qed.

Section WithRuntime.
Context {rt : Runtime}.

Lemma stored_link_view (id : Z) (vals : list sqlval) :
  link_view (stored_link id vals) = link_view (stored_link 0 vals).
Proof.
  unfold link_view, stored_link.
  rewrite !(col_insert_row issue_links_schema _ _ _ TEXT) by reflexivity.
  reflexivity.
Qed.

Lemma stored_link_key (id : Z) (k : string) (rest : list sqlval) :
  col "issue_key" (stored_link id (SText k :: rest)) = SText k.
Proof.
  unfold stored_link.
  rewrite (col_insert_row issue_links_schema _ _ _ TEXT) by reflexivity.
  reflexivity.
Qed.

(** One INSERT of [insert_issue_links] on parameters that bind, for an
    issue the store has. *)
Lemma execute_insert_link (k : string) (lt : json) (dir : string) (kj : json)
    (vals : list sqlval) (d : db) :
  mapM bind_param [JStr k; lt; JStr dir; kj] = Ok vals ->
  issue_exists k d = true ->
  execute exec_insert_link [JStr k; lt; JStr dir; kj] d
  = (Ok tt, set_issue_links d
              (issue_links d ++ [stored_link (issue_links_seq d + 1) vals])%list
              (issue_links_seq d + 1)%Z)
  /\ exists rest, vals = SText k :: rest.
Proof.
  intros Eb Hex. unfold execute, sbind, lift. rewrite Eb.
  pose proof (mapM_length _ _ _ Eb) as Hlen.
  simpl in Eb. destruct (bind_param lt) as [vlt|]; [|discriminate].
  destruct (bind_param kj) as [vkj|]; [|discriminate]. simpl in Eb.
  injection Eb as <-. split; [|eauto].
  unfold exec_insert_link. fold (stored_link (issue_links_seq d + 1)
                                   [SText k; vlt; SText dir; vkj]).
  rewrite stored_link_key. cbn [List.length Nat.eqb negb is_null].
  unfold issue_exists, row_has_key in Hex. rewrite Hex. reflexivity.
Qed.

(** What the body of the loop does for a link that the derivation
    accepts: it appends the rows of the link, in order. *)
Lemma insert_link_Ok (k : string) (link : json) (tuples : list (list json))
    (valss : list (list sqlval)) (d : db) :
  link_params k link = Ok tuples ->
  mapM (mapM bind_param) tuples = Ok valss ->
  valss = [] \/ issue_exists k d = true ->
  exists d' rows,
    insert_link k link d = (Ok tt, d')
    /\ issues d' = issues d
    /\ issue_links d' = (issue_links d ++ rows)%list
    /\ map link_view rows = map (fun v => link_view (stored_link 0 v)) valss
    /\ forallb (has_issue_key k) rows = true.
Proof.
  unfold link_params, insert_link, sbind, lift.
  destruct (get_d link "type" (JObj [])) as [ty|]; [|discriminate]. cbn [bind].
  destruct (get_d ty "name" (JStr "")) as [lt|]; [|discriminate]. cbn [bind].
  destruct (key_in "inwardIssue" link).
  - destruct (getitem link "inwardIssue") as [inw|]; [|discriminate]. cbn [bind].
    destruct (getitem inw "key") as [ki|]; [|discriminate]. cbn [bind].
    destruct (key_in "outwardIssue" link).
    + destruct (getitem link "outwardIssue") as [outw|]; [|discriminate]. cbn [bind].
      destruct (getitem outw "key") as [ko|]; [|discriminate]. cbn [bind app].
      intros E. injection E as <-. intros Eb Hex.
      apply mapM_cons_Ok in Eb as (v1 & vs & -> & B1 & Eb).
      apply mapM_cons_Ok in Eb as (v2 & vs' & -> & B2 & Eb).
      simpl in Eb. injection Eb as <-.
      destruct Hex as [|Hex]; [discriminate|].
      destruct (execute_insert_link k lt "inward" ki v1 d B1 Hex) as (-> & r1 & ->).
      match goal with |- context [execute _ _ ?d1] =>
        destruct (execute_insert_link k lt "outward" ko v2 d1 B2 Hex) as (-> & r2 & ->) end.
      do 2 eexists. split; [reflexivity|]. cbn [issues issue_links set_issue_links].
      split; [reflexivity|]. split; [now rewrite <- app_assoc|].
      cbn [map app forallb]. unfold has_issue_key.
      rewrite !stored_link_key, !text_eq_refl.
      now rewrite (stored_link_view _ (SText k :: r1)), (stored_link_view _ (SText k :: r2)).
    + cbn [bind app]. intros E. injection E as <-. intros Eb Hex.
      apply mapM_cons_Ok in Eb as (v1 & vs & -> & B1 & Eb).
      simpl in Eb. injection Eb as <-.
      destruct Hex as [|Hex]; [discriminate|].
      destruct (execute_insert_link k lt "inward" ki v1 d B1 Hex) as (-> & r1 & ->).
      do 2 eexists. split; [reflexivity|]. cbn [issues issue_links set_issue_links].
      split; [reflexivity|]. split; [reflexivity|].
      cbn [map app forallb]. unfold has_issue_key.
      rewrite !stored_link_key, !text_eq_refl.
      now rewrite (stored_link_view _ (SText k :: r1)).
  - cbn [bind]. destruct (key_in "outwardIssue" link).
    + destruct (getitem link "outwardIssue") as [outw|]; [|discriminate]. cbn [bind].
      destruct (getitem outw "key") as [ko|]; [|discriminate]. cbn [bind app].
      intros E. injection E as <-. intros Eb Hex.
      apply mapM_cons_Ok in Eb as (v2 & vs & -> & B2 & Eb).
      simpl in Eb. injection Eb as <-.
      destruct Hex as [|Hex]; [discriminate|]. unfold ret.
      destruct (execute_insert_link k lt "outward" ko v2 d B2 Hex) as (-> & r2 & ->).
      do 2 eexists. split; [reflexivity|]. cbn [issues issue_links set_issue_links].
      split; [reflexivity|]. split; [reflexivity|].
      cbn [map app forallb]. unfold has_issue_key.
      rewrite !stored_link_key, !text_eq_refl.
      now rewrite (stored_link_view _ (SText k :: r2)).
    + cbn [bind app]. intros E. injection E as <-. intros Eb _.
      simpl in Eb. injection Eb as <-. unfold ret.
      exists d, []. rewrite app_nil_r. auto.
Qed.

Lemma for_each_links_Ok (k : string) : forall (links : list json)
    (tuples : list (list (list json))) (valss : list (list sqlval)) (d : db),
  mapM (link_params k) links = Ok tuples ->
  mapM (mapM bind_param) (List.concat tuples) = Ok valss ->
  valss = [] \/ issue_exists k d = true ->
  exists d' rows,
    for_each (insert_link k) links d = (Ok tt, d')
    /\ issues d' = issues d
    /\ issue_links d' = (issue_links d ++ rows)%list
    /\ map link_view rows = map (fun v => link_view (stored_link 0 v)) valss
    /\ forallb (has_issue_key k) rows = true.
Proof.
  induction links as [|link links IH]; intros tuples valss d Et Eb Hex.
  - simpl in Et. injection Et as <-. simpl in Eb. injection Eb as <-.
    exists d, []. rewrite app_nil_r. auto.
  - apply mapM_cons_Ok in Et as (t & ts & -> & Et1 & Ets).
    simpl in Eb. apply mapM_app_Ok in Eb as (vs1 & vs2 & -> & Eb1 & Eb2).
    destruct (insert_link_Ok k link t vs1 d Et1 Eb1) as (d1 & rows1 & X1 & I1 & L1 & V1 & K1).
    { destruct Hex as [Hnil|Hex]; [|now right].
      left. now apply app_eq_nil in Hnil as (-> & _). }
    destruct (IH ts vs2 d1 Ets Eb2) as (d2 & rows2 & X2 & I2 & L2 & V2 & K2).
    { destruct Hex as [Hnil|Hex].
      - left. now apply app_eq_nil in Hnil as (_ & ->).
      - right. unfold issue_exists in *. now rewrite I1. }
    exists d2, (rows1 ++ rows2)%list. cbn [for_each]. unfold sbind. rewrite X1, X2.
    split; [reflexivity|]. split; [congruence|].
    split; [rewrite L2, L1; now rewrite app_assoc|].
    split; [now rewrite !map_app, V1, V2|].
    rewrite forallb_app. now rewrite K1, K2.
Qed.

Lemma filter_all (p : row -> bool) (rs : list row) :
  forallb p rs = true -> filter p rs = rs.
Proof.
  induction rs as [|r rs IH]; simpl; [auto|]. intros H.
  apply andb_prop in H as (H1 & H2). now rewrite H1, IH.
Qed.

Lemma filter_none (p q : row -> bool) (rs : list row) :
  forallb p rs = true -> (forall r, p r = true -> q r = false) -> filter q rs = [].
Proof.
  induction rs as [|r rs IH]; simpl; [auto|]. intros H Hpq.
  apply andb_prop in H as (H1 & H2). now rewrite (Hpq r H1), IH.
Qed.

Lemma filter_filter_neg (p : row -> bool) (rs : list row) :
  filter p (filter (fun r => negb (p r)) rs) = [].
Proof.
  induction rs as [|r rs IH]; simpl; [reflexivity|].
  destruct (p r) eqn:E; simpl; [assumption | now rewrite E].
Qed.

Lemma filter_filter_other (p q : row -> bool) (rs : list row) :
  (forall r, q r = true -> p r = false) ->
  filter q (filter (fun r => negb (p r)) rs) = filter q rs.
Proof.
  intros Hqp. induction rs as [|r rs IH]; simpl; [reflexivity|].
  destruct (p r) eqn:E; simpl.
  - destruct (q r) eqn:Eq; [rewrite (Hqp r Eq) in E; discriminate | assumption].
  - now rewrite IH.
Qed.

Lemma has_issue_key_other (k k' : string) (r : row) :
  k' <> k -> has_issue_key k' r = true -> has_issue_key k r = false.
Proof.
  unfold has_issue_key. intros Hne H. apply text_eq_true in H as (s & E1 & E2).
  inversion E2; subst. rewrite E1. simpl. now apply String.eqb_neq.
Qed.

End WithRuntime.

(** C6: when the link list is one the derivation accepts and the issue
    exists in the store (or the list yields no row), [insert_issue_links]
    completes, and afterwards the link rows stored for the issue are
    exactly the rows derived from the list, in order, whatever rows were
    stored for it before; the rows of other issues and the issues
    themselves are untouched. *)
Theorem insert_issue_links_replaces_link_set {rt : Runtime} (issue_key : string)
    (links : list json) (expected : list (sqlval * sqlval * sqlval)) (d : db) :
  derived_links issue_key links = Ok expected ->
  expected = [] \/ issue_exists issue_key d = true ->
  exists d',
    insert_issue_links issue_key links d = (Ok tt, d')
    /\ links_of issue_key d' = expected
    /\ (forall other, other <> issue_key -> links_of other d' = links_of other d)
    /\ issues d' = issues d.
Proof.
  unfold derived_links. intros Hd Hex.
  destruct (mapM (link_params issue_key) links) as [tuples|] eqn:Et; [|discriminate].
  cbn [bind] in Hd.
  destruct (mapM (mapM bind_param) (List.concat tuples)) as [valss|] eqn:Eb;
    [|discriminate].
  cbn [bind] in Hd. injection Hd as <-.
  unfold insert_issue_links, sbind, exec_delete_links.
  match goal with |- context [for_each _ links ?d0] => set (d0' := d0) end.
  destruct (for_each_links_Ok issue_key links tuples valss d0' Et Eb)
    as (d' & rows & X & I & L & V & K).
  { destruct Hex as [Hnil|Hex]; [|now right].
    left. now destruct valss. }
  exists d'. rewrite X. split; [reflexivity|].
  unfold links_of. rewrite L. subst d0'. cbn [issue_links set_issue_links issues] in *.
  fold (has_issue_key issue_key). split; [|split; [|exact I]].
  - rewrite filter_app, (filter_filter_neg (has_issue_key issue_key)).
    rewrite (filter_all _ rows K). exact V.
  - intros other Hne. fold (has_issue_key other).
    rewrite filter_app.
    rewrite (filter_filter_other (has_issue_key issue_key) (has_issue_key other)).
    + rewrite (filter_none (has_issue_key issue_key) (has_issue_key other) rows K).
      * now rewrite app_nil_r.
      * intros r Hr. apply (has_issue_key_other other issue_key); auto.
    + intros r Hr. now apply (has_issue_key_other issue_key other).
Qed.

End LinkFacts.

Module StoreExamples.
Import Db DbSpec DbFacts UpsertFacts ProjectKeyFacts LinkFacts Examples.

Lemma insert_issue_links_replaces_link_set_witness :
  links_of "ABC-1" store_linked
  = [(SText "Blocks", SText "inward", SText "ABC-12");
     (SText "Relates", SText "outward", SText "ABC-12")]
  /\ exists d',
       @insert_issue_links example_runtime "ABC-1"
         [link_to "outwardIssue" "ABC-12" "Relates"] store_linked = (Ok tt, d')
       /\ links_of "ABC-1" d' = [(SText "Relates", SText "outward", SText "ABC-12")].
Proof.
  split; [reflexivity|].
  destruct (@insert_issue_links_replaces_link_set example_runtime "ABC-1"
              [link_to "outwardIssue" "ABC-12" "Relates"]
              [(SText "Relates", SText "outward", SText "ABC-12")] store_linked
              eq_refl (or_intror eq_refl)) as (d' & H1 & H2 & _).
  exists d'. split; [exact H1 | exact H2].
Defined.

Lemma upsert_issue_latest_payload_wins_witness :
  exists r2,
    @stored_issue example_runtime abc12_renamed None = Ok r2
    /\ issues_with_id "10012" store1_renamed = [r2]
    /\ @upsert_issue example_runtime abc12_renamed None store1_renamed
       = (Ok tt, store1_renamed).
Proof.
  destruct (@upsert_issue_latest_payload_wins example_runtime abc12 abc12_renamed
              None None "10012" store0 store1 store1_renamed
              eq_refl eq_refl eq_refl eq_refl eq_refl) as (r2 & H1 & H2 & _ & H4).
  exists r2. split; [exact H1|]. split; [exact H2 | exact H4].
Defined.

Lemma upsert_issue_derives_project_key_witness :
  (exists r,
     issues_with_id "10012" store1 = [r]
     /\ col "key" r = SText "ABC-12"
     /\ col "project_key" r = SText "ABC")
  /\ (exists d', @upsert_issue example_runtime abc12_renamed None store1 = (Ok tt, d'))
  /\ @upsert_issue example_runtime abc12_moved None store_linked_12
     = (Raise IntegrityError, store_linked_12).
Proof.
  destruct (@upsert_issue_derives_project_key example_runtime
              [("id", JStr "10012"); ("key", JStr "ABC-12");
               ("fields", JObj [("summary", JStr "Twelfth")])]
              [("summary", JStr "Twelfth")] "10012" "ABC-12" None store0
              eq_refl eq_refl eq_refl eq_refl (or_introl eq_refl)) as (HA & _ & _).
  split; [exact (HA store1 eq_refl)|].
  destruct (@upsert_issue_derives_project_key example_runtime
              [("id", JStr "10012"); ("key", JStr "ABC-12");
               ("fields", JObj [("summary", JStr "Renamed");
                                ("labels", JArr [JStr "later"])])]
              [("summary", JStr "Renamed"); ("labels", JArr [JStr "later"])]
              "10012" "ABC-12" None store1
              eq_refl eq_refl eq_refl eq_refl (or_introl eq_refl)) as (_ & HB & _).
  destruct (@upsert_issue_derives_project_key example_runtime
              [("id", JStr "10012"); ("key", JStr "ABC-13");
               ("fields", JObj [("summary", JStr "Moved")])]
              [("summary", JStr "Moved")]
              "10012" "ABC-13" None store_linked_12
              eq_refl eq_refl eq_refl eq_refl (or_introl eq_refl)) as (_ & HC & _).
  split.
  - destruct (@issue_params example_runtime abc12_renamed None) as [params|] eqn:Ep;
      [|discriminate].
    destruct (mapM bind_param params) as [vals|] eqn:Eb;
      [|vm_compute in Ep; injection Ep as <-; discriminate].
    destruct (HB params vals Ep Eb) as (Hyes & _).
    destruct (Hyes eq_refl) as (d' & U & _). exists d'. exact U.
  - destruct (@issue_params example_runtime abc12_moved None) as [params|] eqn:Ep;
      [|discriminate].
    destruct (mapM bind_param params) as [vals|] eqn:Eb;
      [|vm_compute in Ep; injection Ep as <-; discriminate].
    destruct (HC params vals Ep Eb) as (_ & Hno). exact (Hno eq_refl).
Defined.

(** C10, as stated, fails: a payload without project whose key is
    [ZZZ-1] has its project key derived, [ZZZ], but the store holds no
    such project, so [upsert_issue] raises IntegrityError and stores
    nothing. *)
Lemma upsert_issue_unknown_project_raises :
  @upsert_issue example_runtime (issue_payload "30001" "ZZZ-1" "Orphan" []) None store0
  = (Raise IntegrityError, store0)
  /\ issues store0 = [].
Proof. split; reflexivity. Qed.

(** A payload whose [project] is null has no project key either:
    [upsert_issue] raises AttributeError on it and stores nothing. *)
Lemma upsert_issue_null_project_raises :
  @upsert_issue example_runtime abc12_null_project None store0
  = (Raise AttributeError, store0).
Proof. reflexivity. Qed.

End StoreExamples.

(** ** Strings *)

Module StrFacts.

Lemma append_nil_r (s : string) : s ++ "" = s.
Proof. induction s as [|c s IH]; simpl; [reflexivity | now rewrite IH]. Qed.

Lemma append_assoc (a b c : string) : (a ++ b) ++ c = a ++ b ++ c.
Proof. induction a as [|x a IH]; simpl; [reflexivity | now rewrite IH]. Qed.

Lemma length_append (a b : string) :
  String.length (a ++ b) = String.length a + String.length b.
Proof. induction a as [|x a IH]; simpl; [reflexivity | now rewrite IH]. Qed.

Lemma contains_append (c : ascii) (a b : string) :
  contains_char c (a ++ b) = contains_char c a || contains_char c b.
Proof.
  induction a as [|x a IH]; simpl; [reflexivity|]. rewrite IH. now rewrite orb_assoc.
Qed.

Lemma concat_empty_app (l : list string) (x : string) :
  String.concat "" (l ++ [x]) = String.concat "" l ++ x.
Proof.
  induction l as [|y l IH]; [reflexivity|].
  destruct l as [|z l].
  - reflexivity.
  - change (String.concat "" ((y :: z :: l) ++ [x]))
      with (y ++ "" ++ String.concat "" ((z :: l) ++ [x])).
    rewrite IH.
    change (String.concat "" (y :: z :: l)) with (y ++ "" ++ String.concat "" (z :: l)).
    simpl. now rewrite append_assoc.
Qed.

End StrFacts.
(** ** The block nodes of a document *)

Module AdfBlockFacts.
Import Adf AdfSpec AdfBlocks PyFacts Examples.

Lemma appends_snoc (v : result json) :
  appends (fun parts => x <- v ;; Ok (append parts x)).
Proof.
  intros parts out E. destruct v as [x|e]; simpl in E; [|discriminate].
  inversion E; subst. exists [x]. split; [reflexivity|]. intros parts'. reflexivity.
Qed.

Lemma list_items_appends (fuel : nat) (bullet : bool) : forall items i,
  appends (list_items fuel bullet i items).
Proof.
  induction items as [|item items IH]; intros i parts out E; simpl in E.
  - inversion E; subst. exists []. split; [now rewrite app_nil_r|].
    intros parts'. simpl. now rewrite app_nil_r.
  - destruct (_collect_inline_text fuel item) as [t|] eqn:Et; simpl in E; [|discriminate].
    destruct (IH (S i) _ _ E) as (ps & -> & Hps).
    eexists (_ :: ps). split.
    + unfold append. rewrite <- app_assoc. reflexivity.
    + intros parts'. simpl. rewrite Et. cbn [bind]. rewrite Hps.
      unfold append. now rewrite <- app_assoc.
Qed.

Lemma foldM_appends {A} (f : list json -> A -> result (list json)) : forall xs : list A,
  (forall x, In x xs -> appends (fun parts => f parts x)) ->
  appends (foldM f xs).
Proof.
  induction xs as [|x xs IH]; intros Hf parts out E; simpl in E.
  - inversion E; subst. exists []. split; [now rewrite app_nil_r|].
    intros parts'. simpl. now rewrite app_nil_r.
  - destruct (f parts x) as [mid|] eqn:Ex; simpl in E; [|discriminate].
    destruct (Hf x (or_introl eq_refl) _ _ Ex) as (ps1 & -> & H1).
    destruct (IH (fun y Hy => Hf y (or_intror Hy)) _ _ E) as (ps2 & -> & H2).
    exists (ps1 ++ ps2)%list. split; [now rewrite app_assoc|].
    intros parts'. simpl. rewrite H1. cbn [bind]. rewrite H2. now rewrite app_assoc.
Qed.

Lemma table_row_appends (fuel : nat) (row : json) :
  appends (fun parts => table_row fuel parts row).
Proof.
  intros parts out E. unfold table_row in *.
  destruct (get_d row "content" (JArr [])) as [c|]; simpl in *; [|discriminate].
  destruct (iter c) as [cs|]; simpl in *; [|discriminate].
  destruct (mapM (_collect_inline_text fuel) cs) as [ts|]; simpl in *; [|discriminate].
  inversion E; subst. eexists [_]. split; [reflexivity|]. intros parts'. reflexivity.
Qed.

Lemma appends_then_snoc (step : list json -> result (list json)) (v : json) :
  appends step -> appends (fun parts => parts' <- step parts ;; Ok (append parts' v)).
Proof.
  intros Hs parts out E. destruct (step parts) as [mid|] eqn:Em; simpl in E; [|discriminate].
  inversion E; subst. destruct (Hs _ _ Em) as (ps & -> & Hps).
  exists (ps ++ [v])%list. split; [unfold append; now rewrite app_assoc|].
  intros parts'. rewrite Hps. cbn [bind]. unfold append. now rewrite app_assoc.
Qed.

Lemma walk_appends (fuel : nat) : forall node, appends (_walk_adf fuel node).
Proof.
  induction fuel as [|fuel IH]; intros node; [intros parts out E; discriminate|].
  cbn [_walk_adf].
  destruct (get_d node "type" (JStr "")) as [ty|]; [|intros parts out E; discriminate].
  cbn [bind].
  destruct (eq_str ty "text"); [apply appends_snoc|].
  destruct (eq_str ty "hardBreak"); [apply (appends_snoc (Ok (JStr nl)))|].
  destruct (eq_str ty "heading").
  { destruct (get_d node "attrs" (JObj [])) as [a|]; [|intros parts out E; discriminate].
    cbn [bind]. destruct (get_d a "level" (JInt 1)) as [lv|]; [|intros parts out E; discriminate].
    cbn [bind]. destruct (str_times "#" lv) as [h|]; [|intros parts out E; discriminate].
    cbn [bind]. destruct (_collect_inline_text fuel node) as [t|]; [|intros parts out E; discriminate].
    cbn [bind]. apply (appends_snoc (Ok _)). }
  destruct (eq_str ty "codeBlock").
  { destruct (_collect_inline_text fuel node) as [t|]; [|intros parts out E; discriminate].
    cbn [bind]. apply (appends_snoc (Ok _)). }
  destruct (eq_str ty "blockquote").
  { destruct (_collect_inline_text fuel node) as [t|]; [|intros parts out E; discriminate].
    cbn [bind]. intros parts out E. inversion E; subst.
    eexists. split; [reflexivity|]. intros parts'. reflexivity. }
  destruct (eq_str ty "bulletList" || eq_str ty "orderedList").
  { destruct (get_d node "content" (JArr [])) as [c|]; [|intros parts out E; discriminate].
    cbn [bind]. destruct (iter c) as [items|]; [|intros parts out E; discriminate].
    cbn [bind]. apply appends_then_snoc, list_items_appends. }
  destruct (eq_str ty "table").
  { destruct (get_d node "content" (JArr [])) as [c|]; [|intros parts out E; discriminate].
    cbn [bind]. destruct (iter c) as [rows|]; [|intros parts out E; discriminate].
    cbn [bind]. apply appends_then_snoc, foldM_appends.
    intros row _. apply table_row_appends. }
  destruct (eq_str ty "paragraph").
  { destruct (_collect_inline_text fuel node) as [t|]; [|intros parts out E; discriminate].
    cbn [bind]. apply (appends_snoc (Ok _)). }
  destruct (get_d node "content" (JArr [])) as [c|]; [|intros parts out E; discriminate].
  cbn [bind]. destruct (iter c) as [children|]; [|intros parts out E; discriminate].
  cbn [bind]. apply foldM_appends. intros child _. apply IH.
Qed.

(** [_walk_adf] only ever appends to [parts]: when it returns, the parts
    collected before the call are still there, unchanged and in front, and
    what the node added is the same whatever had been collected before. *)
Theorem walk_adf_only_appends (fuel : nat) (node : json) (parts out : list json) :
  _walk_adf fuel node parts = Ok out ->
  exists added,
    out = (parts ++ added)%list
    /\ _walk_adf fuel node [] = Ok added
    /\ forall parts', _walk_adf fuel node parts' = Ok (parts' ++ added)%list.
Proof.
  intros E. destruct (walk_appends fuel node parts out E) as (ps & -> & Hps).
  exists ps. split; [reflexivity|]. split; [apply (Hps [])|exact Hps].
Qed.

Lemma walk_adf_only_appends_witness :
  exists added,
    [JStr "x"; JStr "one"; JStr "two"] = ([JStr "x"] ++ added)%list
    /\ _walk_adf 6 (doc [para "one"; para "two"]) [] = Ok added
    /\ forall parts',
         _walk_adf 6 (doc [para "one"; para "two"]) parts' = Ok (parts' ++ added)%list.
Proof.
  apply (walk_adf_only_appends 6 (doc [para "one"; para "two"]) [JStr "x"]).
  reflexivity.
Defined.

Lemma foldM_walk_concat (fuel : nat) : forall children contribs parts,
  mapM (fun c => _walk_adf fuel c []) children = Ok contribs ->
  foldM (fun ps c => _walk_adf fuel c ps) children parts
  = Ok (parts ++ List.concat contribs)%list.
Proof.
  induction children as [|c children IH]; intros contribs parts E; simpl in E.
  - inversion E; subst. simpl. now rewrite app_nil_r.
  - destruct (_walk_adf fuel c []) as [ps|] eqn:Ec; simpl in E; [|discriminate].
    destruct (mapM _ children) as [rest|] eqn:Er; simpl in E; [|discriminate].
    inversion E; subst. simpl.
    destruct (walk_appends fuel c [] ps Ec) as (ps' & Eps & Hps). simpl in Eps. subst ps'.
    rewrite Hps. cbn [bind]. rewrite (IH rest _ eq_refl). now rewrite app_assoc.
Qed.

Lemma passes_through_tests (ty : json) :
  passes_through ty = true ->
  eq_str ty "text" = false /\ eq_str ty "hardBreak" = false
  /\ eq_str ty "heading" = false /\ eq_str ty "codeBlock" = false
  /\ eq_str ty "blockquote" = false
  /\ (eq_str ty "bulletList" || eq_str ty "orderedList") = false
  /\ eq_str ty "table" = false /\ eq_str ty "paragraph" = false.
Proof.
  unfold passes_through, rendered_types. cbn [existsb]. intros H.
  apply negb_true_iff in H.
  repeat match type of H with
         | (_ || _) = false => apply orb_false_iff in H; destruct H as [? H]
         end.
  repeat split; try assumption. apply orb_false_iff. split; assumption.
Qed.

(** A node of a type [_walk_adf] does not render itself (a [doc], a
    panel, a list item, a node without type) adds what its children add,
    child after child; so the text of a document is the text of its
    blocks in order, joined by newlines and stripped. *)
Theorem adf_unrendered_node_adds_its_children (fuel : nat)
    (kv : list (string * json)) (ty : json) (children : list json)
    (contribs : list (list json)) :
  get_d (JObj kv) "type" (JStr "") = Ok ty ->
  passes_through ty = true ->
  lookup "content" kv = Some (JArr children) ->
  mapM (fun c => _walk_adf fuel c []) children = Ok contribs ->
  (forall parts,
     _walk_adf (S fuel) (JObj kv) parts = Ok (parts ++ List.concat contribs)%list)
  /\ (forall lines, fuel = json_depth (JObj kv) ->
        List.concat contribs = map JStr lines ->
        extract_text_from_adf (JObj kv) = Ok (strip (join nl lines))).
Proof.
  intros Ety Hty Ec Em.
  assert (Hw : forall parts,
             _walk_adf (S fuel) (JObj kv) parts = Ok (parts ++ List.concat contribs)%list).
  { intros parts. cbn [_walk_adf]. rewrite Ety. cbn [bind].
    destruct (passes_through_tests ty Hty) as (-> & -> & -> & -> & -> & -> & -> & ->).
    unfold get_d. rewrite Ec. cbn [bind iter].
    now apply foldM_walk_concat. }
  split; [exact Hw|].
  intros lines -> El. unfold extract_text_from_adf.
  assert (truthy (JObj kv) = true) as -> by (destruct kv; [discriminate | reflexivity]).
  cbn [negb]. rewrite Hw. cbn [bind app]. rewrite El, join_values_strs. reflexivity.
Qed.

Lemma adf_unrendered_node_adds_its_children_witness :
  (forall parts,
     _walk_adf 10 (doc [para "one"; bullet_list [list_item "a"]]) parts
     = Ok (parts ++ [JStr "one"; JStr "- a"; JStr ""])%list)
  /\ extract_text_from_adf (doc [para "one"; bullet_list [list_item "a"]])
     = Ok ("one" ++ nl ++ "- a").
Proof.
  destruct (adf_unrendered_node_adds_its_children 9
              [("type", JStr "doc"); ("version", JInt 1);
               ("content", JArr [para "one"; bullet_list [list_item "a"]])]
              (JStr "doc") [para "one"; bullet_list [list_item "a"]]
              [[JStr "one"]; [JStr "- a"; JStr ""]]
              eq_refl eq_refl eq_refl eq_refl) as (Hw & He).
  split; [exact Hw | exact (He ["one"; "- a"; ""] eq_refl eq_refl)].
Defined.

Lemma split_char_length (c : ascii) (s : string) :
  List.length (split_char c s) = S (count_char c s).
Proof.
  induction s as [|d s IH]; [reflexivity|]. cbn [split_char count_char].
  destruct (Ascii.eqb d c).
  - cbn [List.length]. rewrite IH. reflexivity.
  - destruct (split_char c s) as [|w ws]; simpl in *; [discriminate | lia].
Qed.

Lemma concat_cons_char (sep : string) (d : ascii) (w : string) (ws : list string) :
  String.concat sep (String d w :: ws) = String d (String.concat sep (w :: ws)).
Proof. destruct ws; reflexivity. Qed.

Lemma join_split_char (c : ascii) (s : string) :
  join (String c "") (split_char c s) = s.
Proof.
  unfold join. induction s as [|d s IH]; [reflexivity|]. cbn [split_char].
  pose proof (split_char_length c s) as Hl.
  destruct (split_char c s) as [|w ws]; [discriminate|].
  destruct (Ascii.eqb d c) eqn:Edc.
  - apply Ascii.eqb_eq in Edc. subst d.
    change (String.concat (String c "") ("" :: w :: ws))
      with ("" ++ String c "" ++ String.concat (String c "") (w :: ws)).
    rewrite IH. reflexivity.
  - rewrite concat_cons_char, IH. reflexivity.
Qed.

(** A blockquote adds one part per line of its inline text, each with
    [> ] in front; the lines are the text cut at its newlines, one more
    than it has newlines, so a blockquote without text still adds the one
    part [> ]. *)
Theorem adf_blockquote_quotes_each_line (fuel : nat) (kv : list (string * json))
    (text : string) (parts : list json) :
  lookup "type" kv = Some (JStr "blockquote") ->
  _collect_inline_text fuel (JObj kv) = Ok text ->
  _walk_adf (S fuel) (JObj kv) parts
  = Ok (parts ++ map (fun line => JStr (quoted line)) (split_char "010" text))%list
  /\ List.length (split_char "010" text) = S (count_char "010" text)
  /\ join nl (split_char "010" text) = text.
Proof.
  intros Ety Et. split; [|split].
  - cbn [_walk_adf]. unfold get_d at 1. rewrite Ety. cbn [bind eq_str String.eqb Ascii.eqb Bool.eqb].
    rewrite Et. reflexivity.
  - apply split_char_length.
  - apply join_split_char.
Qed.

Lemma adf_blockquote_quotes_each_line_witness :
  _walk_adf 3 (JObj [("type", JStr "blockquote");
                     ("content", JArr [text_node "a";
                                       JObj [("type", JStr "hardBreak")];
                                       text_node "b"])]) []
  = Ok [JStr "> a"; JStr "> b"]
  /\ _walk_adf 3 (JObj [("type", JStr "blockquote")]) [] = Ok [JStr "> "].
Proof.
  split.
  - apply (adf_blockquote_quotes_each_line 2
             [("type", JStr "blockquote");
              ("content", JArr [text_node "a"; JObj [("type", JStr "hardBreak")];
                                text_node "b"])]
             ("a" ++ nl ++ "b") [] eq_refl eq_refl).
  - apply (adf_blockquote_quotes_each_line 2 [("type", JStr "blockquote")] "" []
             eq_refl eq_refl).
Defined.

Lemma table_rows_lines (fuel : nat) : forall rows cells parts,
  mapM (row_cells fuel) rows = Ok cells ->
  foldM (table_row fuel) rows parts
  = Ok (parts ++ map (fun cs => JStr (row_line cs)) cells)%list.
Proof.
  induction rows as [|row rows IH]; intros cells parts E; simpl in E.
  - inversion E; subst. simpl. now rewrite app_nil_r.
  - destruct (row_cells fuel row) as [cs|] eqn:Er; simpl in E; [|discriminate].
    destruct (mapM (row_cells fuel) rows) as [rest|] eqn:Erest; simpl in E; [|discriminate].
    inversion E; subst. cbn [foldM]. unfold table_row at 1. unfold row_cells in Er.
    destruct (get_d row "content" (JArr [])) as [c|]; simpl in *; [|discriminate].
    destruct (iter c) as [cl|]; simpl in *; [|discriminate].
    rewrite Er. cbn [bind]. rewrite (IH rest _ eq_refl).
    unfold append. rewrite <- app_assoc. reflexivity.
Qed.

(** A table adds one part per row, in order, the inline texts of the
    row's cells joined by [ | ], and then one empty part; a row without
    cells adds an empty part of its own. *)
Theorem adf_table_adds_a_line_per_row (fuel : nat) (kv : list (string * json))
    (rows : list json) (cells : list (list string)) (parts : list json) :
  lookup "type" kv = Some (JStr "table") ->
  lookup "content" kv = Some (JArr rows) ->
  mapM (row_cells fuel) rows = Ok cells ->
  _walk_adf (S fuel) (JObj kv) parts
  = Ok (parts ++ map (fun cs => JStr (row_line cs)) cells ++ [JStr ""])%list
  /\ List.length cells = List.length rows
  /\ row_line [] = "".
Proof.
  intros Ety Ec Em. split; [|split].
  - cbn [_walk_adf]. unfold get_d. rewrite Ety, Ec.
    cbn [bind iter eq_str String.eqb Ascii.eqb Bool.eqb orb].
    rewrite (table_rows_lines fuel rows cells parts Em). cbn [bind].
    unfold append. now rewrite <- app_assoc.
  - now apply mapM_length in Em.
  - reflexivity.
Qed.

Lemma adf_table_adds_a_line_per_row_witness :
  _walk_adf 6
    (JObj [("type", JStr "table");
           ("content",
            JArr [JObj [("type", JStr "tableRow");
                        ("content", JArr [para "k"; para "v"])];
                  JObj [("type", JStr "tableRow")]])]) [JStr "x"]
  = Ok [JStr "x"; JStr "k | v"; JStr ""; JStr ""].
Proof.
  apply (adf_table_adds_a_line_per_row 5
           [("type", JStr "table");
            ("content",
             JArr [JObj [("type", JStr "tableRow");
                         ("content", JArr [para "k"; para "v"])];
                   JObj [("type", JStr "tableRow")]])]
           [JObj [("type", JStr "tableRow"); ("content", JArr [para "k"; para "v"])];
            JObj [("type", JStr "tableRow")]]
           [["k"; "v"]; []] [JStr "x"] eq_refl eq_refl eq_refl).
Defined.

End AdfBlockFacts.
(** ** The text of parser events *)

Module StorageEventFacts.
Import Storage StorageSpec StorageEvents StorageFacts StrFacts Examples MarkupExamples.

Lemma lstrip_head (s : string) :
  lstrip s = "" \/ exists c r, lstrip s = String c r /\ isspace c = false.
Proof.
  induction s as [|c s IH]; [now left|]. simpl.
  destruct (isspace c) eqn:Ec; [exact IH|]. right. eauto.
Qed.

Lemma rstrip_idempotent (s : string) : rstrip (rstrip s) = rstrip s.
Proof.
  induction s as [|c s IH]; [reflexivity|]. cbn [rstrip].
  destruct (rstrip s) as [|d r] eqn:Er.
  - destruct (isspace c) eqn:Ec; [reflexivity|]. cbn [rstrip]. now rewrite Ec.
  - cbn [rstrip] in *. now rewrite IH.
Qed.

Lemma strip_fixed (s : string) :
  lstrip (strip s) = strip s /\ rstrip (strip s) = strip s.
Proof.
  unfold strip. split; [|apply rstrip_idempotent].
  destruct (lstrip_head s) as [-> | (c & r & -> & Hc)]; [reflexivity|].
  rewrite (rstrip_cons_nonspace c r Hc). simpl. now rewrite Hc.
Qed.

Lemma parts_text (events : list event) : forall _parts,
  join "" (fold_left handle events _parts) = join "" _parts ++ text_of events.
Proof.
  unfold join, text_of, join.
  induction events as [|e events IH]; intros _parts; simpl.
  - now rewrite append_nil_r.
  - rewrite IH.
    assert (E : String.concat "" (handle _parts e) = String.concat "" _parts ++ piece e).
    { destruct e as [tag|tag|data]; simpl;
        try destruct (is_block_tag tag); unfold append;
        rewrite ?concat_empty_app, ?append_nil_r; reflexivity. }
    rewrite E, append_assoc. f_equal.
    destruct events; simpl; [now rewrite append_nil_r | reflexivity].
Qed.

Lemma nospace_contains (c : ascii) (w : string) :
  nospace w = true -> isspace c = true -> contains_char c w = false.
Proof.
  induction w as [|d w IH]; [reflexivity|]. simpl. intros Hw Hc.
  apply andb_true_iff in Hw. destruct Hw as [Hd Hw].
  rewrite (IH Hw Hc), orb_false_r.
  destruct (Ascii.eqb c d) eqn:E; [|reflexivity].
  apply Ascii.eqb_eq in E. subst d. now rewrite Hc in Hd.
Qed.

Lemma join_words_chars (c : ascii) (ws : list string) :
  Forall proper ws -> isspace c = true -> Ascii.eqb c " " = false ->
  contains_char c (join " " ws) = false.
Proof.
  unfold join. intros Hws Hc Hsp. induction Hws as [|w ws [_ Hw] Hws IH]; [reflexivity|].
  destruct ws as [|w' ws'].
  - simpl. now apply nospace_contains.
  - change (String.concat " " (w :: w' :: ws'))
      with (w ++ " " ++ String.concat " " (w' :: ws')).
    rewrite !contains_append, IH, (nospace_contains c w Hw Hc). simpl. now rewrite Hsp.
Qed.

Section WithLib.
Context {lib : HtmlLib}.

Lemma extract_events (s : string) (events : list event) :
  s <> "" -> feed s = Ok events ->
  extract_text_from_storage (Some s) = Ok (normal_form (text_of events)).
Proof.
  intros Hs Ef. unfold extract_text_from_storage.
  destruct (String.eqb s "") eqn:E; [apply String.eqb_eq in E; contradiction|].
  rewrite Ef. cbn [bind]. unfold get_text. rewrite parts_text. simpl.
  now rewrite strip_sub_ws.
Qed.

Lemma extract_normal (html_str : option string) (t : string) :
  extract_text_from_storage html_str = Ok t -> exists x, t = normal_form x.
Proof.
  unfold extract_text_from_storage. destruct html_str as [s|]; [|intros E; inversion E; now exists ""].
  destruct (String.eqb s ""); [intros E; inversion E; now exists ""|].
  destruct (feed s) as [events|]; simpl; [|discriminate].
  intros E. inversion E. unfold get_text. rewrite strip_sub_ws. eauto.
Qed.

End WithLib.

(** Whatever the parser delivers, the text [extract_text_from_storage]
    returns is whitespace-normalised: it is its own normal form (words
    separated by single spaces), it has no whitespace at either end, and
    the only whitespace character in it is the space. *)
Theorem storage_text_is_whitespace_normalised `{HtmlLib}
    (html_str : option string) (t : string) :
  extract_text_from_storage html_str = Ok t ->
  normal_form t = t
  /\ lstrip t = t /\ rstrip t = t
  /\ (forall c, isspace c = true -> c <> " "%char -> contains_char c t = false).
Proof.
  intros E. destruct (extract_normal html_str t E) as (x & ->).
  split; [apply normal_form_idempotent|].
  rewrite <- (strip_sub_ws x). destruct (strip_fixed (sub_ws false x)) as [Hl Hr].
  split; [exact Hl|]. split; [exact Hr|].
  intros c Hc Hsp. rewrite strip_sub_ws. apply join_words_chars; auto.
  - apply words_proper.
  - destruct (Ascii.eqb c " ") eqn:Ec; [apply Ascii.eqb_eq in Ec; contradiction | reflexivity].
Qed.

Lemma storage_text_is_whitespace_normalised_witness :
  normal_form "two words" = "two words"
  /\ lstrip "two words" = "two words" /\ rstrip "two words" = "two words"
  /\ (forall c, isspace c = true -> c <> " "%char -> contains_char c "two words" = false).
Proof.
  apply (@storage_text_is_whitespace_normalised text_lib
           (Some ("  two" ++ nl ++ "   words ")) "two words").
  reflexivity.
Defined.

(** Tags add no text of their own.  A start or end tag of a block-level
    element stands for a space, so it separates the words around it; any
    other tag stands for nothing, so the text on its two sides runs
    together.  The result is the normal form of the character data with
    the tags so replaced. *)
Theorem storage_block_tags_separate_words `{HtmlLib} (s : string) (events : list event) :
  s <> "" -> feed s = Ok events ->
  extract_text_from_storage (Some s) = Ok (normal_form (text_of events))
  /\ (forall a tag b, events = [Data a; StartTag tag; Data b] ->
        text_of events = a ++ (if is_block_tag tag then " " else "") ++ b).
Proof.
  intros Hs Ef. split; [now apply extract_events|].
  intros a tag b ->. unfold text_of, join. simpl.
  destruct (is_block_tag tag); simpl; now rewrite ?append_nil_r.
Qed.

Lemma storage_block_tags_separate_words_witness :
  @extract_text_from_storage markup_lib (Some "<p>one</p><P>two <b>w</b>ords</P>")
  = Ok "one two words".
Proof.
  destruct (@storage_block_tags_separate_words markup_lib
              "<p>one</p><P>two <b>w</b>ords</P>"
              [StartTag "p"; Data "one"; EndTag "p"; StartTag "p"; Data "two ";
               StartTag "b"; Data "w"; EndTag "b"; Data "ords"; EndTag "p"])
    as [He _]; [discriminate | reflexivity | exact He].
Defined.

End StorageEventFacts.
(** ** Projects and comments *)

Module TableFacts.
Import Db DbSpec Tables TablesSpec PyFacts DbFacts UpsertFacts ProjectKeyFacts Examples TableExamples.

Lemma col_update_row_absent (set_cols : list string) (excluded old : row) (c : string) :
  ~ In c (map fst old) -> col c (update_row set_cols excluded old) = SNull.
Proof.
  unfold update_row, col. induction old as [|[k v] old IH]; intros Hn; [reflexivity|].
  simpl in *. destruct (String.eqb_spec c k) as [->|Hne]; [tauto|]. apply IH. tauto.
Qed.

(** DO UPDATE SET that assigns every column but [id], on a row with the
    id of the excluded one, leaves the excluded row. *)
Lemma update_row_but_id (names set_cols : list string) (e old : row) :
  NoDup names -> map fst old = names -> map fst e = names ->
  same_id e old = true ->
  (forall c, In c names -> c = "id" \/ existsb (String.eqb c) set_cols = true) ->
  update_row set_cols e old = e.
Proof.
  intros Hnd Ho He Hid Hcols. apply (row_ext names); auto.
  - now rewrite names_update_row.
  - intros c Hin. rewrite col_update_row by now rewrite Ho.
    destruct (Hcols c Hin) as [-> | ->]; [|reflexivity].
    destruct (existsb _ set_cols); [reflexivity|].
    unfold same_id in Hid. apply text_eq_true in Hid as (s & E1 & E2). congruence.
Qed.

Lemma find_agree (p q : row -> bool) (rs : list row) :
  (forall r, p r = q r) -> find p rs = find q rs.
Proof.
  intros Hpq. induction rs as [|r rs IH]; simpl; [reflexivity|]. now rewrite Hpq, IH.
Qed.

Lemma find_none_existsb (p : row -> bool) (rs : list row) :
  find p rs = None -> existsb p rs = false.
Proof.
  induction rs as [|r rs IH]; simpl; [auto|]. destruct (p r); [discriminate | auto].
Qed.

Lemma existsb_replace_first (q p : row -> bool) (new : row) (rs : list row) :
  q new = true -> existsb p rs = true -> existsb q (replace_first p new rs) = true.
Proof.
  intros Hq. induction rs as [|r rs IH]; simpl; [discriminate|].
  destruct (p r) eqn:E; simpl; [now rewrite Hq|].
  intros H. rewrite (IH H). apply orb_true_r.
Qed.

Lemma projects_names_NoDup : NoDup (map fst projects_schema).
Proof.
  apply (NoDup_count_occ' string_dec). intros c Hin. simpl in Hin.
  repeat (destruct Hin as [<-|Hin]; [reflexivity|]). destruct Hin.
Qed.

Lemma comments_names_NoDup : NoDup (map fst comments_schema).
Proof.
  apply (NoDup_count_occ' string_dec). intros c Hin. simpl in Hin.
  repeat (destruct Hin as [<-|Hin]; [reflexivity|]). destruct Hin.
Qed.

Lemma projects_shaped_names (r : row) :
  projects_shaped r = true -> map fst r = map fst projects_schema.
Proof. unfold projects_shaped. destruct (list_eq_dec string_dec _ _); [auto | discriminate]. Qed.

Lemma comments_shaped_names (r : row) :
  comments_shaped r = true -> map fst r = map fst comments_schema.
Proof. unfold comments_shaped. destruct (list_eq_dec string_dec _ _); [auto | discriminate]. Qed.

Section WithRuntime.
Context {rt : Runtime}.

Lemma projects_shaped_insert_row (vals : list sqlval) :
  projects_shaped (insert_row projects_schema projects_insert_cols vals) = true.
Proof.
  unfold projects_shaped. rewrite names_insert_row.
  now destruct (list_eq_dec string_dec _ _).
Qed.

Lemma comments_shaped_insert_row (vals : list sqlval) :
  comments_shaped (insert_row comments_schema comments_insert_cols vals) = true.
Proof.
  unfold comments_shaped. rewrite names_insert_row.
  now destruct (list_eq_dec string_dec _ _).
Qed.

Lemma update_project_all (e old : row) :
  projects_shaped old = true -> projects_shaped e = true -> same_id e old = true ->
  update_row projects_update_cols e old = e.
Proof.
  intros Ho He Hid.
  apply (update_row_but_id (map fst projects_schema));
    auto using projects_names_NoDup, projects_shaped_names.
  intros c Hin. simpl in Hin.
  repeat (destruct Hin as [<-|Hin]; [auto|]). destruct Hin.
Qed.

Lemma update_comment_all (e old : row) :
  comments_shaped old = true -> comments_shaped e = true -> same_id e old = true ->
  update_row comments_update_cols e old = e.
Proof.
  intros Ho He Hid.
  apply (update_row_but_id (map fst comments_schema));
    auto using comments_names_NoDup, comments_shaped_names.
  intros c Hin. simpl in Hin.
  repeat (destruct Hin as [<-|Hin]; [auto|]). destruct Hin.
Qed.

Lemma upsert_project_Ok (now : string) (project : json) (d d' : db) :
  upsert_project now project d = (Ok tt, d') ->
  exists params vals,
    project_params project = Ok params
    /\ mapM bind_param params = Ok vals
    /\ exec_upsert_project now vals d = (Ok tt, d').
Proof.
  unfold upsert_project, execute, sbind, lift.
  destruct (project_params project) as [params|e] eqn:Ep; [|discriminate].
  destruct (mapM bind_param params) as [vals|e] eqn:Eb; [|discriminate].
  intros E. exists params, vals. repeat split; auto.
Qed.

Lemma upsert_project_exec (now : string) (project : json) (params : list json)
    (vals : list sqlval) (d : db) :
  project_params project = Ok params ->
  mapM bind_param params = Ok vals ->
  upsert_project now project d = exec_upsert_project now vals d.
Proof.
  intros E1 E2. unfold upsert_project, execute, sbind, lift. now rewrite E1, E2.
Qed.

Ltac peel H :=
  repeat match type of H with
         | bind ?X _ = Ok _ =>
             let E := fresh "E" in
             destruct X eqn:E; [cbn [bind] in H | discriminate H]
         end.

(** The id, key and name columns of the row computed from a project. *)
Lemma project_columns (now : string) (project : json) (params : list json)
    (vals : list sqlval) :
  project_params project = Ok params ->
  mapM bind_param params = Ok vals ->
  List.length vals = 6
  /\ exists p_id p_key p_name v_id v_key v_name,
       getitem project "id" = Ok p_id
       /\ getitem project "key" = Ok p_key
       /\ getitem project "name" = Ok p_name
       /\ bind_param p_id = Ok v_id /\ bind_param p_key = Ok v_key
       /\ bind_param p_name = Ok v_name
       /\ let e := insert_row projects_schema projects_insert_cols
                     (vals ++ [SText now])%list in
          col "id" e = store_as TEXT v_id
          /\ col "key" e = store_as TEXT v_key
          /\ col "name" e = store_as TEXT v_name.
Proof.
  intros Ep Eb. unfold project_params in Ep. peel Ep. injection Ep as <-.
  pose proof (mapM_length _ _ _ Eb) as Hl. split; [exact Hl|].
  apply mapM_cons_Ok in Eb as (v_id & vs1 & -> & B1 & Eb).
  apply mapM_cons_Ok in Eb as (v_key & vs2 & -> & B2 & Eb).
  apply mapM_cons_Ok in Eb as (v_name & vs3 & -> & B3 & Eb).
  do 6 eexists. repeat split; try eassumption;
    rewrite (col_insert_row projects_schema projects_insert_cols _ _ TEXT) by reflexivity;
    reflexivity.
Qed.

Lemma project_row_id (now : string) (project : json) (params : list json)
    (vals : list sqlval) (i : string) :
  project_params project = Ok params ->
  mapM bind_param params = Ok vals ->
  getitem project "id" = Ok (JStr i) ->
  col "id" (insert_row projects_schema projects_insert_cols (vals ++ [SText now])%list)
  = SText i.
Proof.
  intros Ep Eb Ei.
  destruct (project_columns now project params vals Ep Eb)
    as (_ & p_id & p_key & p_name & v_id & v_key & v_name & H1 & _ & _ & B1 & _ & _ & C1 & _).
  rewrite Ei in H1. injection H1 as <-. simpl in B1. injection B1 as <-. exact C1.
Qed.

Lemma project_row_key (now : string) (project : json) (params : list json)
    (vals : list sqlval) (k : string) :
  project_params project = Ok params ->
  mapM bind_param params = Ok vals ->
  getitem project "key" = Ok (JStr k) ->
  col "key" (insert_row projects_schema projects_insert_cols (vals ++ [SText now])%list)
  = SText k.
Proof.
  intros Ep Eb Ei.
  destruct (project_columns now project params vals Ep Eb)
    as (_ & p_id & p_key & p_name & v_id & v_key & v_name & _ & H2 & _ & _ & B2 & _ & _ & C2 & _).
  rewrite Ei in H2. injection H2 as <-. simpl in B2. injection B2 as <-. exact C2.
Qed.

(** What a successful project statement leaves. *)
Lemma exec_upsert_project_Ok (now : string) (vals : list sqlval) (i : string) (d d' : db) :
  projects_ok d = true ->
  let e := insert_row projects_schema projects_insert_cols (vals ++ [SText now])%list in
  col "id" e = SText i ->
  exec_upsert_project now vals d = (Ok tt, d') ->
  projects_with_id i d' = [e]
  /\ projects_ok d' = true
  /\ existsb (same_key e) (projects d') = true
  /\ issues d' = issues d /\ comments d' = comments d
  /\ issue_links d' = issue_links d /\ issue_links_seq d' = issue_links_seq d
  /\ exec_upsert_project now vals d' = (Ok tt, d').
Proof.
  intros Hok e Hid. unfold projects_ok in Hok. apply andb_prop in Hok as (Hsh & Hu).
  unfold exec_upsert_project. fold e.
  destruct (negb (List.length vals =? 6)%nat) eqn:El; [discriminate|].
  destruct (is_null (col "key" e) || is_null (col "name" e)) eqn:En; [discriminate|].
  assert (Hee : same_id e e = true) by (unfold same_id; rewrite Hid; apply text_eq_refl).
  assert (Hshe : projects_shaped e = true) by apply projects_shaped_insert_row.
  assert (Hkk : same_key e e = true).
  { apply orb_false_elim in En as (En & _). unfold same_key.
    unfold e in *.
    rewrite (col_insert_row projects_schema projects_insert_cols _ "key" TEXT eq_refl) in *.
    destruct (store_as_text (col "key" (combine projects_insert_cols (vals ++ [SText now])%list)))
      as [E|(s & E)]; rewrite E in *; [discriminate | apply text_eq_refl]. }
  destruct (find (same_id e) (projects d)) as [old|] eqn:Ef.
  - assert (Hold : In old (projects d) /\ same_id e old = true) by (now apply find_some in Ef).
    destruct Hold as (Hin & Hso).
    assert (Hshold : projects_shaped old = true)
      by (rewrite forallb_forall in Hsh; now apply Hsh).
    rewrite (update_project_all e old Hshold Hshe Hso).
    destruct (existsb (fun r => negb (same_id e r) && same_key e r) (projects d)) eqn:Eo;
      [discriminate|].
    destruct (negb (same_key e old) && has_issues d old) eqn:Er; [discriminate|].
    intros E. inversion E; subst d'; clear E.
    cbn [projects set_projects issues comments issue_links issue_links_seq].
    assert (Hide : col "id" e = col "id" old).
    { unfold same_id in Hso. apply text_eq_true in Hso as (s & E1 & E2). congruence. }
    split; [now apply (filter_id_replace_first i e (projects d) old)|].
    split.
    { unfold projects_ok. cbn [projects set_projects].
      rewrite forallb_replace_first by assumption.
      rewrite (unique_ids_ids _ (projects d)); [now rewrite Hu|].
      now apply (replace_first_ids _ e old). }
    split.
    { apply existsb_replace_first; [exact Hkk|].
      apply existsb_exists. exists old. auto. }
    do 4 (split; [reflexivity|]).
    rewrite (find_replace_first e (projects d) old Ef Hee).
    rewrite (update_project_all e e Hshe Hshe Hee).
    rewrite (existsb_other_replace_first e (projects d) Hee Eo).
    rewrite Hkk. cbn [negb andb].
    unfold set_projects. cbn [projects issues comments issue_links issue_links_seq].
    rewrite (replace_first_found (same_id e) e); [reflexivity|].
    now apply (find_replace_first e (projects d) old).
  - destruct (existsb (same_key e) (projects d)) eqn:Ek; [discriminate|].
    intros E. inversion E; subst d'; clear E.
    cbn [projects set_projects issues comments issue_links issue_links_seq].
    split; [now apply filter_id_app|].
    split.
    { unfold projects_ok. cbn [projects set_projects]. rewrite forallb_app. cbn [forallb].
      rewrite Hsh, Hshe. cbn [andb]. apply unique_ids_app; [assumption|].
      now apply find_none_existsb. }
    split.
    { rewrite existsb_app. cbn [existsb]. rewrite Hkk. now rewrite orb_true_r. }
    do 4 (split; [reflexivity|]).
    rewrite (find_app_new e (projects d) Ef Hee).
    rewrite (update_project_all e e Hshe Hshe Hee).
    assert (Eo : existsb (fun r => negb (same_id e r) && same_key e r)
                   (projects d ++ [e])%list = false).
    { rewrite existsb_app. simpl. rewrite Hee. simpl. rewrite orb_false_r.
      clear -Ek. induction (projects d) as [|r rs IH]; [reflexivity|]. simpl in *.
      apply orb_false_elim in Ek as (K1 & K2). rewrite K1, andb_false_r. auto. }
    rewrite Eo. rewrite Hkk. cbn [negb andb].
    unfold set_projects. cbn [projects issues comments issue_links issue_links_seq].
    rewrite (replace_first_found (same_id e) e); [reflexivity|].
    now apply find_app_new.
Qed.

Lemma col_update_row_same (set_cols : list string) (e e' old : row) (c : string) :
  col c e' = col c e ->
  col c (update_row set_cols e' old) = col c (update_row set_cols e old).
Proof.
  intros E. unfold update_row. unfold col at 1 3.
  induction old as [|[k v] old IH]; [reflexivity|]. simpl.
  destruct (String.eqb_spec c k) as [->|Hne]; [|exact IH].
  destruct (existsb (String.eqb k) set_cols); [now rewrite E | reflexivity].
Qed.

Lemma replace_first_agree (p q : row -> bool) (x : row) (rs : list row) :
  (forall r, p r = q r) -> replace_first p x rs = replace_first q x rs.
Proof.
  intros Hpq. induction rs as [|r rs IH]; simpl; [reflexivity|]. now rewrite Hpq, IH.
Qed.

(** The clock reaches the column [exported_at] and no other. *)
Lemma project_row_clock (now later : string) (vals : list sqlval) :
  List.length vals = 6 ->
  let e := insert_row projects_schema projects_insert_cols (vals ++ [SText now])%list in
  let e' := insert_row projects_schema projects_insert_cols (vals ++ [SText later])%list in
  col "exported_at" e = SText now
  /\ col "exported_at" e' = SText later
  /\ forall c, c <> "exported_at" -> col c e' = col c e.
Proof.
  intros Hl.
  destruct vals as [|v1 [|v2 [|v3 [|v4 [|v5 [|v6 [|v7 vals]]]]]]]; try discriminate Hl.
  cbn. split; [reflexivity|]. split; [reflexivity|]. intros c Hc. unfold col. cbn.
  repeat match goal with
         | |- context [String.eqb c ?k] =>
             destruct (String.eqb_spec c k); [first [reflexivity | contradiction]|]
         end.
  reflexivity.
Qed.

(** A statement that has just run runs again at any later clock reading,
    and replaces the row of the id by the row with the new reading. *)
Lemma exec_upsert_project_later (now later : string) (vals : list sqlval) (i : string)
    (d : db) :
  projects_ok d = true ->
  col "id" (insert_row projects_schema projects_insert_cols (vals ++ [SText now])%list)
  = SText i ->
  exec_upsert_project now vals d = (Ok tt, d) ->
  exec_upsert_project later vals d
  = (Ok tt,
     set_projects d
       (replace_first (row_has_id i)
          (insert_row projects_schema projects_insert_cols (vals ++ [SText later])%list)
          (projects d))).
Proof.
  intros Hok Hid. unfold projects_ok in Hok. apply andb_prop in Hok as (Hsh & _).
  unfold exec_upsert_project.
  set (e := insert_row projects_schema projects_insert_cols (vals ++ [SText now])%list) in *.
  set (e' := insert_row projects_schema projects_insert_cols (vals ++ [SText later])%list).
  destruct (negb (List.length vals =? 6)%nat) eqn:El; [discriminate|].
  assert (Hl : List.length vals = 6)
    by (apply Nat.eqb_eq; now destruct (List.length vals =? 6)%nat).
  destruct (project_row_clock now later vals Hl) as (_ & _ & Hc). fold e e' in Hc.
  assert (Hid' : forall r, same_id e' r = same_id e r)
    by (intros r; unfold same_id; now rewrite (Hc "id") by discriminate).
  assert (Hi : forall r, same_id e' r = row_has_id i r).
  { intros r. rewrite Hid'. unfold same_id, row_has_id. rewrite Hid. apply text_eq_sym. }
  rewrite (Hc "key"), (Hc "name") by discriminate.
  destruct (is_null (col "key" e) || is_null (col "name" e)); [discriminate|].
  rewrite (find_agree (same_id e') (same_id e) (projects d) Hid').
  destruct (find (same_id e) (projects d)) as [old|] eqn:Ef.
  - assert (Hold : In old (projects d) /\ same_id e old = true) by (now apply find_some in Ef).
    destruct Hold as (Hin & Hso).
    assert (Hshold : projects_shaped old = true)
      by (rewrite forallb_forall in Hsh; now apply Hsh).
    rewrite (update_project_all e old Hshold (projects_shaped_insert_row _) Hso).
    rewrite (update_project_all e' old Hshold (projects_shaped_insert_row _))
      by now rewrite Hid'.
    assert (Hk' : forall r, same_key e' r = same_key e r)
      by (intros r; unfold same_key; now rewrite (Hc "key") by discriminate).
    rewrite (existsb_agree (fun r => negb (same_id e' r) && same_key e' r)
               (fun r => negb (same_id e r) && same_key e r) (projects d))
      by (intros r; now rewrite Hid', Hk').
    rewrite Hk'.
    destruct (existsb (fun r => negb (same_id e r) && same_key e r) (projects d));
      [discriminate|].
    destruct (negb (same_key e old) && has_issues d old); [discriminate|].
    intros _. now rewrite (replace_first_agree (same_id e') (row_has_id i) e' _ Hi).
  - destruct (existsb (same_key e) (projects d)); [discriminate|].
    intros E. exfalso. injection E as E.
    apply (f_equal projects) in E. cbn [projects set_projects] in E.
    apply (f_equal (@List.length row)) in E. rewrite length_app in E. simpl in E. lia.
Qed.

End WithRuntime.

(** After a successful [upsert_project] the store holds exactly one
    project row with the payload's id: the row computed from the payload
    and the clock, which goes to [exported_at], whatever row of that id
    was there before.  The other tables are as they were and every issue
    that names the payload's key now has its project.  Upserting the same
    payload again succeeds: at the same clock reading it changes
    nothing, at another it replaces the row by one that differs in
    [exported_at] alone. *)
Theorem upsert_project_stores_the_payload {rt : Runtime} (now : string)
    (project : json) (i : string) (d d' : db) :
  projects_ok d = true ->
  getitem project "id" = Ok (JStr i) ->
  upsert_project now project d = (Ok tt, d') ->
  exists r,
    stored_project now project = Ok r
    /\ projects_with_id i d' = [r]
    /\ col "exported_at" r = SText now
    /\ issues d' = issues d /\ comments d' = comments d
    /\ issue_links d' = issue_links d
    /\ (forall k, getitem project "key" = Ok (JStr k) ->
          existsb (row_has_key k) (projects d') = true)
    /\ upsert_project now project d' = (Ok tt, d')
    /\ (forall later, exists r',
          stored_project later project = Ok r'
          /\ upsert_project later project d'
             = (Ok tt, set_projects d' (replace_first (row_has_id i) r' (projects d')))
          /\ col "exported_at" r' = SText later
          /\ (forall c, c <> "exported_at" -> col c r' = col c r)).
Proof.
  intros Hok Hi U. apply upsert_project_Ok in U as (params & vals & Ep & Eb & X).
  pose proof (project_row_id now project params vals i Ep Eb Hi) as Hid.
  destruct (exec_upsert_project_Ok now vals i d d' Hok Hid X)
    as (F & Hok' & K & I & C & L & _ & Again).
  destruct (project_columns now project params vals Ep Eb) as (Hlen & _).
  eexists. split; [|split; [exact F|]].
  - unfold stored_project. rewrite Ep. cbn [bind]. rewrite Eb. reflexivity.
  - split; [apply (project_row_clock now now vals Hlen)|].
    do 3 (split; [assumption|]). split; [|split].
    + intros k Hk. rewrite <- K. apply existsb_agree. intros r.
      unfold row_has_key, same_key.
      rewrite (project_row_key now project params vals k Ep Eb Hk). apply text_eq_sym.
    + now rewrite (upsert_project_exec now project params vals d' Ep Eb).
    + intros later. eexists. split; [|split; [|split]].
      * unfold stored_project. rewrite Ep. cbn [bind]. rewrite Eb. reflexivity.
      * rewrite (upsert_project_exec later project params vals d' Ep Eb).
        now apply (exec_upsert_project_later now later vals i d' Hok' Hid).
      * apply (project_row_clock now later vals Hlen).
      * apply (project_row_clock now later vals Hlen).
Qed.

Lemma upsert_comment_Ok {rt : Runtime} (k : string) (comment : json) (d d' : db) :
  upsert_comment k comment d = (Ok tt, d') ->
  exists params vals,
    comment_params k comment = Ok params
    /\ mapM bind_param params = Ok vals
    /\ exec_upsert_comment vals d = (Ok tt, d').
Proof.
  unfold upsert_comment, execute, sbind, lift.
  destruct (comment_params k comment) as [params|e] eqn:Ep; [|discriminate].
  destruct (mapM bind_param params) as [vals|e] eqn:Eb; [|discriminate].
  intros E. exists params, vals. repeat split; auto.
Qed.

Lemma upsert_comment_exec {rt : Runtime} (k : string) (comment : json)
    (params : list json) (vals : list sqlval) (d : db) :
  comment_params k comment = Ok params ->
  mapM bind_param params = Ok vals ->
  upsert_comment k comment d = exec_upsert_comment vals d.
Proof.
  intros E1 E2. unfold upsert_comment, execute, sbind, lift. now rewrite E1, E2.
Qed.

Lemma exec_upsert_issue_fails {rt : Runtime} (vals : list sqlval) (d d' : db) (e : exn) :
  exec_upsert_issue vals d = (Raise e, d') -> d' = d.
Proof.
  unfold exec_upsert_issue.
  repeat match goal with
         | |- context [if ?b then _ else _] => destruct b
         | |- context [match find ?p ?l with _ => _ end] => destruct (find p l)
         end; intros E; inversion E; reflexivity.
Qed.

Lemma exec_upsert_project_fails {rt : Runtime} (now : string) (vals : list sqlval)
    (d d' : db) (e : exn) :
  exec_upsert_project now vals d = (Raise e, d') -> d' = d.
Proof.
  unfold exec_upsert_project.
  repeat match goal with
         | |- context [if ?b then _ else _] => destruct b
         | |- context [match find ?p ?l with _ => _ end] => destruct (find p l)
         end; intros E; inversion E; reflexivity.
Qed.

Lemma exec_upsert_comment_fails {rt : Runtime} (vals : list sqlval) (d d' : db) (e : exn) :
  exec_upsert_comment vals d = (Raise e, d') -> d' = d.
Proof.
  unfold exec_upsert_comment.
  repeat match goal with
         | |- context [if ?b then _ else _] => destruct b
         | |- context [match find ?p ?l with _ => _ end] => destruct (find p l)
         end; intros E; inversion E; reflexivity.
Qed.

Lemma execute_fails (stmt : list sqlval -> Store unit) (params : list json)
    (d d' : db) (e : exn) :
  (forall vals e' d'', stmt vals d = (Raise e', d'') -> d'' = d) ->
  execute stmt params d = (Raise e, d') -> d' = d.
Proof.
  intros Hs. unfold execute, sbind, lift.
  destruct (mapM bind_param params) as [vals|]; [apply Hs|].
  intros E. now inversion E.
Qed.

Lemma run_upsert_fails {rt : Runtime} (c : upsert_call) (d d' : db) (e : exn) :
  run_upsert c d = (Raise e, d') -> d' = d.
Proof.
  destruct c as [now project|issue fm|k comment]; cbn [run_upsert].
  - unfold upsert_project, sbind, lift.
    destruct (project_params project); [|intros E; now inversion E].
    apply execute_fails. intros vals e0 d0. apply exec_upsert_project_fails.
  - unfold upsert_issue, sbind, lift.
    destruct (issue_params issue fm); [|intros E; now inversion E].
    apply execute_fails. intros vals e0 d0. apply exec_upsert_issue_fails.
  - unfold upsert_comment, sbind, lift.
    destruct (comment_params k comment); [|intros E; now inversion E].
    apply execute_fails. intros vals e0 d0. apply exec_upsert_comment_fails.
Qed.

(** An upsert that raises has changed nothing: whether the payload could
    not be read, a parameter could not be bound, or the statement broke a
    constraint, the store is as it was before the call. *)
Theorem failed_upsert_changes_nothing {rt : Runtime} (c : upsert_call) (d : db) (e : exn) :
  fst (run_upsert c d) = Raise e -> snd (run_upsert c d) = d.
Proof.
  destruct (run_upsert c d) as [r d'] eqn:E. cbn [fst snd]. intros ->.
  now apply (run_upsert_fails c d d' e).
Qed.

(** A project whose key is already that of another project. *)
Lemma failed_upsert_changes_nothing_witness :
  snd (@run_upsert example_runtime
         (UpsertProject noon (JObj [("id", JStr "10200"); ("key", JStr "XYZ");
                                    ("name", JStr "Twin")])) store_xyz1)
  = store_xyz1.
Proof.
  apply (@failed_upsert_changes_nothing example_runtime
           (UpsertProject noon (JObj [("id", JStr "10200"); ("key", JStr "XYZ");
                                      ("name", JStr "Twin")]))
           store_xyz1 IntegrityError).
  reflexivity.
Defined.

Lemma upsert_project_stores_the_payload_witness :
  exists r r',
    @stored_project example_runtime noon (project_xyz "XYZ") = Ok r
    /\ projects_with_id "10100" store_xyz = [r]
    /\ existsb (row_has_key "XYZ") (projects store_xyz) = true
    /\ @upsert_project example_runtime "2024-01-02 13:00:00" (project_xyz "XYZ") store_xyz
       = (Ok tt, set_projects store_xyz [r'])
    /\ col "exported_at" r = SText noon
    /\ col "exported_at" r' = SText "2024-01-02 13:00:00"
    /\ col "name" r' = col "name" r.
Proof.
  destruct (@upsert_project_stores_the_payload example_runtime noon (project_xyz "XYZ")
              "10100" empty_store store_xyz eq_refl eq_refl eq_refl)
    as (r & H1 & H2 & Hn & _ & _ & _ & H3 & _ & Hlater).
  destruct (Hlater "2024-01-02 13:00:00") as (r' & S' & U' & Hl' & Hsame).
  exists r, r'. split; [exact H1|]. split; [exact H2|].
  split; [exact (H3 "XYZ" eq_refl)|]. split; [|split; [exact Hn|split; [exact Hl'|]]].
  - rewrite U'. vm_compute in S'. injection S' as <-. reflexivity.
  - apply Hsame. discriminate.
Defined.

(** A project cannot change its key while issues are stored under the
    old one: the statement breaks the foreign key of [issues], so
    [upsert_project] raises IntegrityError and the store stays as it
    was. *)
Theorem upsert_project_cannot_rename_a_key_in_use {rt : Runtime} (now : string)
    (project : json) (i k k' : string) (old : row) (params : list json)
    (vals : list sqlval) (d : db) :
  projects_ok d = true ->
  find (row_has_id i) (projects d) = Some old ->
  col "key" old = SText k ->
  has_issues d old = true ->
  getitem project "id" = Ok (JStr i) ->
  getitem project "key" = Ok (JStr k') ->
  k' <> k ->
  project_params project = Ok params ->
  mapM bind_param params = Ok vals ->
  upsert_project now project d = (Raise IntegrityError, d).
Proof.
  intros Hok Hf Hk Hiss Hi Hk' Hne Ep Eb.
  rewrite (upsert_project_exec now project params vals d Ep Eb).
  destruct (project_columns now project params vals Ep Eb) as (Hlen & _).
  pose proof (project_row_id now project params vals i Ep Eb Hi) as Cid.
  pose proof (project_row_key now project params vals k' Ep Eb Hk') as Ckey.
  unfold exec_upsert_project. rewrite Hlen. cbn [Nat.eqb negb].
  set (e := insert_row projects_schema projects_insert_cols (vals ++ [SText now])%list) in *.
  destruct (is_null (col "key" e) || is_null (col "name" e)); [reflexivity|].
  rewrite (find_agree (same_id e) (row_has_id i)).
  2:{ intros r. unfold same_id, row_has_id. rewrite Cid. apply text_eq_sym. }
  rewrite Hf.
  destruct (existsb _ (projects d)); [reflexivity|].
  assert (Hin : In old (projects d)) by (now apply find_some in Hf).
  unfold projects_ok in Hok. apply andb_prop in Hok as (Hsh & _).
  rewrite forallb_forall in Hsh. pose proof (projects_shaped_names old (Hsh old Hin)) as Hn.
  unfold same_key. rewrite col_update_row by (rewrite Hn; simpl; tauto).
  cbn [existsb projects_update_cols String.eqb Ascii.eqb Bool.eqb orb].
  rewrite Ckey, Hk. cbn [text_eq].
  assert (String.eqb k' k = false) as -> by now apply String.eqb_neq.
  now rewrite Hiss.
Qed.

Lemma upsert_project_cannot_rename_a_key_in_use_witness :
  @upsert_project example_runtime noon (project_xyz "XY") store_xyz1
  = (Raise IntegrityError, store_xyz1).
Proof.
  apply (@upsert_project_cannot_rename_a_key_in_use example_runtime noon
           (project_xyz "XY") "10100" "XYZ" "XY"
           [("id", SText "10100"); ("key", SText "XYZ"); ("name", SText "Last letters");
            ("type", SText "software"); ("lead_name", SText "Ann");
            ("description", SNull); ("exported_at", SText noon)]
           [JStr "10100"; JStr "XY"; JStr "Last letters"; JStr "software"; JStr "Ann"; JNull]
           [SText "10100"; SText "XY"; SText "Last letters"; SText "software";
            SText "Ann"; SNull]
           store_xyz1);
    solve [reflexivity | discriminate].
Defined.

(** An issue cannot change its key while comments or links are stored
    under the old one: an issue moved to another project comes back from
    the API with its old id and a new key, and [upsert_issue] then raises
    IntegrityError and leaves the store as it was. *)
Theorem upsert_issue_cannot_change_a_key_in_use {rt : Runtime} (issue : json)
    (field_map : option (list (string * string))) (i k k' : string) (old : row)
    (params : list json) (vals : list sqlval) (d : db) :
  issues_ok d = true ->
  find (row_has_id i) (issues d) = Some old ->
  col "key" old = SText k ->
  referenced d old = true ->
  getitem issue "id" = Ok (JStr i) ->
  getitem issue "key" = Ok (JStr k') ->
  k' <> k ->
  issue_params issue field_map = Ok params ->
  mapM bind_param params = Ok vals ->
  upsert_issue issue field_map d = (Raise IntegrityError, d).
Proof.
  intros Hok Hf Hk Href Hi Hk' Hne Ep Eb.
  rewrite (upsert_issue_exec issue field_map params vals d Ep Eb).
  pose proof (stored_id issue field_map params vals i Ep Eb Hi) as Cid.
  destruct (stored_columns issue field_map params vals Ep Eb)
    as (Hlen & fields & project & fallback & p_id & p_key & p_pk & p_sum
        & v_id & v_key & v_pk & v_sum & _ & _ & H3 & _ & _ & _ & _
        & _ & B2 & _ & _ & _ & C2 & _).
  rewrite Hk' in H3. injection H3 as <-. simpl in B2. injection B2 as <-.
  cbn [store_as] in C2.
  unfold exec_upsert_issue. fold (excluded_of vals). rewrite Hlen.
  cbn [List.length issues_insert_cols Nat.eqb negb].
  set (e := excluded_of vals) in *.
  destruct (negb (not_null_ok e)); [reflexivity|].
  rewrite (find_agree (same_id e) (row_has_id i)).
  2:{ intros r. unfold same_id, row_has_id. rewrite Cid. apply text_eq_sym. }
  rewrite Hf.
  destruct (existsb _ (issues d)); [reflexivity|].
  destruct (negb (project_exists d _)); [reflexivity|].
  assert (Hin : In old (issues d)) by (now apply find_some in Hf).
  unfold issues_ok in Hok. apply andb_prop in Hok as (Hsh & _).
  rewrite forallb_forall in Hsh. pose proof (shaped_names old (Hsh old Hin)) as Hn.
  unfold same_key. rewrite col_update_row by (rewrite Hn; simpl; tauto).
  cbn [existsb issues_update_cols String.eqb Ascii.eqb Bool.eqb orb].
  rewrite C2, Hk. cbn [text_eq].
  assert (String.eqb k' k = false) as -> by now apply String.eqb_neq.
  now rewrite Href.
Qed.

Lemma upsert_issue_cannot_change_a_key_in_use_witness :
  @upsert_issue example_runtime (issue_payload "20001" "XYZ-2" "First of the last" [])
    None store_commented
  = (Raise IntegrityError, store_commented).
Proof.
  destruct (@issue_params example_runtime
              (issue_payload "20001" "XYZ-2" "First of the last" []) None)
    as [params|] eqn:Ep; [|discriminate].
  destruct (mapM bind_param params) as [vals|] eqn:Eb;
    [|vm_compute in Ep; injection Ep as <-; discriminate].
  destruct (find (row_has_id "20001") (issues store_commented)) as [old|] eqn:Ef;
    [|discriminate].
  apply (@upsert_issue_cannot_change_a_key_in_use example_runtime
           (issue_payload "20001" "XYZ-2" "First of the last" []) None
           "20001" "XYZ-1" "XYZ-2" old params vals store_commented);
    try solve [reflexivity | discriminate | assumption];
    vm_compute in Ef; injection Ef as <-; reflexivity.
Defined.

Section Comments.
Context {rt : Runtime}.

Ltac peel H :=
  repeat match type of H with
         | bind ?X _ = Ok _ =>
             let E := fresh "E" in
             destruct X eqn:E; [cbn [bind] in H | discriminate H]
         end.

(** The id, issue key and body columns of the row computed from a
    comment. *)
Lemma comment_columns (k : string) (comment : json) (params : list json)
    (vals : list sqlval) :
  comment_params k comment = Ok params ->
  mapM bind_param params = Ok vals ->
  List.length vals = 8
  /\ exists p_id body_raw body_text v_id v_body,
       getitem comment "id" = Ok p_id
       /\ get comment "body" = Ok body_raw
       /\ (if is_dict body_raw then fmap JStr (Adf.extract_text_from_adf body_raw)
           else Ok body_raw) = Ok body_text
       /\ bind_param p_id = Ok v_id
       /\ bind_param body_text = Ok v_body
       /\ let e := insert_row comments_schema comments_insert_cols vals in
          col "id" e = store_as TEXT v_id
          /\ col "issue_key" e = SText k
          /\ col "body" e = store_as TEXT v_body.
Proof.
  intros Ep Eb. unfold comment_params in Ep. peel Ep. injection Ep as <-.
  pose proof (mapM_length _ _ _ Eb) as Hl. split; [exact Hl|].
  apply mapM_cons_Ok in Eb as (v_id & vs1 & -> & B1 & Eb).
  apply mapM_cons_Ok in Eb as (v_k & vs2 & -> & B2 & Eb).
  apply mapM_cons_Ok in Eb as (v_an & vs3 & -> & B3 & Eb).
  apply mapM_cons_Ok in Eb as (v_ae & vs4 & -> & B4 & Eb).
  apply mapM_cons_Ok in Eb as (v_body & vs5 & -> & B5 & Eb).
  simpl in B2. injection B2 as <-.
  do 5 eexists. repeat split; try eassumption;
    rewrite (col_insert_row comments_schema comments_insert_cols _ _ TEXT) by reflexivity;
    reflexivity.
Qed.

Lemma comment_row_id (k : string) (comment : json) (params : list json)
    (vals : list sqlval) (i : string) :
  comment_params k comment = Ok params ->
  mapM bind_param params = Ok vals ->
  getitem comment "id" = Ok (JStr i) ->
  col "id" (insert_row comments_schema comments_insert_cols vals) = SText i.
Proof.
  intros Ep Eb Ei.
  destruct (comment_columns k comment params vals Ep Eb)
    as (_ & p_id & br & bt & v_id & v_body & H1 & _ & _ & B1 & _ & C1 & _).
  rewrite Ei in H1. injection H1 as <-. simpl in B1. injection B1 as <-. exact C1.
Qed.

(** What a successful comment statement leaves. *)
Lemma exec_upsert_comment_Ok (vals : list sqlval) (i k : string) (d d' : db) :
  comments_ok d = true ->
  let e := insert_row comments_schema comments_insert_cols vals in
  col "id" e = SText i ->
  col "issue_key" e = SText k ->
  exec_upsert_comment vals d = (Ok tt, d') ->
  comments_with_id i d' = [e]
  /\ comments_ok d' = true
  /\ issue_exists k d' = true
  /\ projects d' = projects d /\ issues d' = issues d
  /\ issue_links d' = issue_links d
  /\ exec_upsert_comment vals d' = (Ok tt, d').
Proof.
  intros Hok e Hid Hkey. unfold comments_ok in Hok. apply andb_prop in Hok as (Hsh & Hu).
  unfold exec_upsert_comment. fold e.
  destruct (negb (List.length vals =? 8)%nat) eqn:El; [discriminate|].
  destruct (is_null (col "issue_key" e)) eqn:En; [discriminate|].
  assert (Hee : same_id e e = true) by (unfold same_id; rewrite Hid; apply text_eq_refl).
  assert (Hshe : comments_shaped e = true) by apply comments_shaped_insert_row.
  assert (Hex : forall d0, issues d0 = issues d ->
                  issue_of_comment_exists d0 e = issue_exists k d).
  { intros d0 E0. unfold issue_of_comment_exists, issue_exists. rewrite E0.
    apply existsb_agree. intros r. unfold row_has_key. now rewrite Hkey. }
  destruct (find (same_id e) (comments d)) as [old|] eqn:Ef.
  - assert (Hold : In old (comments d) /\ same_id e old = true) by (now apply find_some in Ef).
    destruct Hold as (Hin & Hso).
    assert (Hshold : comments_shaped old = true)
      by (rewrite forallb_forall in Hsh; now apply Hsh).
    rewrite (update_comment_all e old Hshold Hshe Hso).
    destruct (negb (issue_of_comment_exists d e)) eqn:Ep; [discriminate|].
    intros E. inversion E; subst d'; clear E.
    cbn [projects set_comments issues comments issue_links issue_links_seq].
    assert (Hide : col "id" e = col "id" old).
    { unfold same_id in Hso. apply text_eq_true in Hso as (s & E1 & E2). congruence. }
    split; [now apply (filter_id_replace_first i e (comments d) old)|].
    split.
    { unfold comments_ok. cbn [comments set_comments].
      rewrite forallb_replace_first by assumption.
      rewrite (unique_ids_ids _ (comments d)); [now rewrite Hu|].
      now apply (replace_first_ids _ e old). }
    split.
    { apply negb_false_iff in Ep. rewrite (Hex d eq_refl) in Ep. exact Ep. }
    do 3 (split; [reflexivity|]).
    rewrite (find_replace_first e (comments d) old Ef Hee).
    rewrite (update_comment_all e e Hshe Hshe Hee).
    change (issue_of_comment_exists (set_comments d ?cs) e)
      with (issue_of_comment_exists d e).
    rewrite Ep.
    unfold set_comments. cbn [projects issues comments issue_links issue_links_seq].
    rewrite (replace_first_found (same_id e) e); [reflexivity|].
    now apply (find_replace_first e (comments d) old).
  - destruct (negb (issue_of_comment_exists d e)) eqn:Ep; [discriminate|].
    intros E. inversion E; subst d'; clear E.
    cbn [projects set_comments issues comments issue_links issue_links_seq].
    split; [now apply filter_id_app|].
    split.
    { unfold comments_ok. cbn [comments set_comments]. rewrite forallb_app. cbn [forallb].
      rewrite Hsh, Hshe. cbn [andb]. apply unique_ids_app; [assumption|].
      now apply find_none_existsb. }
    split.
    { apply negb_false_iff in Ep. rewrite (Hex d eq_refl) in Ep. exact Ep. }
    do 3 (split; [reflexivity|]).
    rewrite (find_app_new e (comments d) Ef Hee).
    rewrite (update_comment_all e e Hshe Hshe Hee).
    change (issue_of_comment_exists (set_comments d ?cs) e)
      with (issue_of_comment_exists d e).
    rewrite Ep.
    unfold set_comments. cbn [projects issues comments issue_links issue_links_seq].
    rewrite (replace_first_found (same_id e) e); [reflexivity|].
    now apply find_app_new.
Qed.

Lemma In_insert_by (leb : row -> row -> bool) (r x : row) (rs : list row) :
  In x (insert_by leb r rs) <-> x = r \/ In x rs.
Proof.
  induction rs as [|y rs IH]; simpl; [intuition|].
  destruct (leb r y); simpl; [intuition|]. rewrite IH. intuition.
Qed.

Lemma In_order_by (leb : row -> row -> bool) (x : row) (rs : list row) :
  In x (order_by leb rs) <-> In x rs.
Proof.
  unfold order_by. induction rs as [|r rs IH]; simpl; [tauto|].
  rewrite In_insert_by, IH. intuition.
Qed.

End Comments.

(** A comment can only be stored for an issue the store has: its
    [issue_key] must be the key of a stored issue, or the statement breaks
    the foreign key, [upsert_comment] raises IntegrityError and nothing is
    stored. *)
Theorem upsert_comment_requires_its_issue {rt : Runtime} (issue_key : string)
    (comment : json) (params : list json) (vals : list sqlval) (d : db) :
  issue_exists issue_key d = false ->
  comment_params issue_key comment = Ok params ->
  mapM bind_param params = Ok vals ->
  upsert_comment issue_key comment d = (Raise IntegrityError, d).
Proof.
  intros Hno Ep Eb. rewrite (upsert_comment_exec issue_key comment params vals d Ep Eb).
  destruct (comment_columns issue_key comment params vals Ep Eb)
    as (Hlen & p_id & br & bt & v_id & v_body & _ & _ & _ & _ & _ & _ & Ckey & _).
  unfold exec_upsert_comment. rewrite Hlen. cbn [Nat.eqb negb].
  set (e := insert_row comments_schema comments_insert_cols vals) in *.
  rewrite Ckey. cbn [is_null].
  assert (Hnone : forall c, col "issue_key" c = SText issue_key \/ col "issue_key" c = SNull ->
                    issue_of_comment_exists d c = false).
  { intros c Hc. unfold issue_of_comment_exists.
    destruct Hc as [-> | ->].
    - exact Hno.
    - clear. induction (issues d) as [|r rs IH]; [reflexivity|]. simpl.
      rewrite IH. now destruct (col "key" r). }
  destruct (find (same_id e) (comments d)) as [old|].
  - rewrite Hnone; [reflexivity|].
    destruct (in_dec string_dec "issue_key" (map fst old)) as [Hin|Hout].
    + left. rewrite col_update_row by assumption. exact Ckey.
    + right. now apply col_update_row_absent.
  - rewrite Hnone; [reflexivity | now left].
Qed.

Lemma upsert_comment_requires_its_issue_witness :
  @upsert_comment example_runtime "XYZ-9"
    (comment_payload "c7" "Looks fine" "2024-01-03") store_xyz1
  = (Raise IntegrityError, store_xyz1).
Proof.
  apply (@upsert_comment_requires_its_issue example_runtime "XYZ-9"
           (comment_payload "c7" "Looks fine" "2024-01-03")
           [JStr "c7"; JStr "XYZ-9"; JStr "Ann"; JNull; JStr "Looks fine";
            JStr (simple_dumps (doc [para "Looks fine"])); JStr "2024-01-03"; JNull]
           [SText "c7"; SText "XYZ-9"; SText "Ann"; SNull; SText "Looks fine";
            SText (simple_dumps (doc [para "Looks fine"])); SText "2024-01-03"; SNull]
           store_xyz1); reflexivity.
Defined.

(** A comment that [upsert_comment] stored comes back from
    [get_comments]: the store holds exactly one comment row with the
    payload's id, the row computed from the payload alone, and
    [get_comments(issue_key)] returns it; its [body] is the plain text
    extracted from the payload's body when that is a document. *)
Theorem upsert_comment_then_get_comments {rt : Runtime} (issue_key : string)
    (comment : json) (i : string) (d d' : db) :
  comments_ok d = true ->
  getitem comment "id" = Ok (JStr i) ->
  upsert_comment issue_key comment d = (Ok tt, d') ->
  exists r,
    stored_comment issue_key comment = Ok r
    /\ comments_with_id i d' = [r]
    /\ In r (get_comments (SText issue_key) d')
    /\ col "issue_key" r = SText issue_key
    /\ issue_exists issue_key d' = true
    /\ (forall body text, get comment "body" = Ok body -> is_dict body = true ->
          Adf.extract_text_from_adf body = Ok text -> col "body" r = SText text).
Proof.
  intros Hok Hi U. apply upsert_comment_Ok in U as (params & vals & Ep & Eb & X).
  pose proof (comment_row_id issue_key comment params vals i Ep Eb Hi) as Hid.
  destruct (comment_columns issue_key comment params vals Ep Eb)
    as (_ & p_id & br & bt & v_id & v_body & _ & Hb & Ht & _ & Bb & _ & Ckey & Cbody).
  destruct (exec_upsert_comment_Ok vals i issue_key d d' Hok Hid Ckey X)
    as (F & _ & Hex & _ & _ & _ & _).
  eexists. split; [|split; [exact F|]].
  - unfold stored_comment. rewrite Ep. cbn [bind]. rewrite Eb. reflexivity.
  - assert (Hin : In (insert_row comments_schema comments_insert_cols vals) (comments d')).
    { unfold comments_with_id in F.
      assert (H : In (insert_row comments_schema comments_insert_cols vals)
                     (filter (row_has_id i) (comments d'))) by (rewrite F; now left).
      now apply filter_In in H. }
    split; [|split; [exact Ckey|split; [exact Hex|]]].
    + unfold get_comments. cbn [sql_truthy store_as].
      destruct (negb (String.eqb issue_key "")); apply In_order_by; [|exact Hin].
      apply filter_In. split; [exact Hin|]. rewrite Ckey. apply text_eq_refl.
    + intros body text Hbody Hd Hx. rewrite Hb in Hbody. injection Hbody as ->.
      rewrite Hd in Ht. rewrite Hx in Ht. cbn [fmap bind] in Ht. injection Ht as <-.
      simpl in Bb. injection Bb as <-. exact Cbody.
Qed.

Lemma upsert_comment_then_get_comments_witness :
  exists r,
    comments_with_id "c7" store_commented = [r]
    /\ In r (@get_comments example_runtime (SText "XYZ-1") store_commented)
    /\ col "body" r = SText "Looks fine".
Proof.
  destruct (@upsert_comment_then_get_comments example_runtime "XYZ-1"
              (comment_payload "c7" "Looks fine" "2024-01-03") "c7"
              store_xyz1 store_commented eq_refl eq_refl eq_refl)
    as (r & _ & H2 & H3 & _ & _ & H6).
  exists r. split; [exact H2|]. split; [exact H3|].
  exact (H6 (doc [para "Looks fine"]) "Looks fine" eq_refl eq_refl eq_refl).
Defined.

Section Fields.
Context {rt : Runtime} {nm : Numeric}.
Import FieldsSpec.

Lemma field_payload_params (f : field_def) :
  field_params (field_payload f)
  = Ok [JStr (field_id f); JStr (field_name f); JBool (is_custom f);
        match field_schema_type f with Some t => JStr t | None => JNull end].
Proof.
  destruct f as [i n [b|] [t|]]; reflexivity.
Qed.

Lemma field_payload_row (f : field_def) :
  exists vals,
    (params <- field_params (field_payload f) ;; mapM bind_param params) = Ok vals
    /\ List.length vals = 4
    /\ field_row vals = def_row f.
Proof.
  rewrite field_payload_params. cbn [bind mapM bind_param].
  destruct f as [i n [b|] [t|]]; cbn [bind bind_param field_schema_type];
    eexists; (split; [reflexivity|]); (split; [reflexivity|]);
    unfold field_row, def_row, is_custom; cbn; try destruct b; reflexivity.
Qed.

Lemma find_same_id_new (f : field_def) (fs0 : list field_def) :
  ~ In (field_id f) (map field_id fs0) ->
  find (same_id (def_row f)) (map def_row fs0) = None.
Proof.
  induction fs0 as [|g fs0 IH]; intros Hn; [reflexivity|]. simpl in *.
  unfold same_id at 1. cbn [def_row col lookup String.eqb Ascii.eqb Bool.eqb text_eq].
  destruct (String.eqb_spec (field_id f) (field_id g)) as [E|_]; [symmetry in E; tauto|].
  apply IH. tauto.
Qed.

Lemma upsert_fields_fresh : forall (fs fs0 : list field_def),
  NoDup (map field_id (fs0 ++ fs)) ->
  upsert_field_definitions (map field_payload fs) (map def_row fs0)
  = (Ok tt, map def_row (fs0 ++ fs)).
Proof.
  induction fs as [|f fs IH]; intros fs0 Hnd; [now rewrite app_nil_r|].
  cbn [map upsert_field_definitions].
  destruct (field_payload_row f) as (vals & -> & Hlen & Hrow).
  unfold exec_upsert_field. rewrite Hlen, Hrow. cbn [Nat.eqb negb].
  assert (is_null (col "name" (def_row f)) = false) as -> by reflexivity.
  rewrite map_app in Hnd. cbn [map] in Hnd.
  rewrite find_same_id_new by (now apply NoDup_remove_2 in Hnd; rewrite in_app_iff in Hnd; tauto).
  change (map def_row fs0 ++ [def_row f])%list with (map def_row fs0 ++ map def_row [f])%list.
  rewrite <- map_app, IH.
  - now rewrite <- app_assoc.
  - rewrite <- app_assoc. cbn [app]. now rewrite map_app.
Qed.

Lemma field_map_set_new (f : field_def) (fs0 : list field_def) :
  ~ In (field_id f) (map field_id fs0) ->
  field_map_set (SText (field_id f)) (SText (field_name f)) (map map_entry fs0)
  = (map map_entry fs0 ++ [map_entry f])%list.
Proof.
  induction fs0 as [|g fs0 IH]; intros Hn; [reflexivity|]. simpl in *.
  destruct (String.eqb_spec (field_id f) (field_id g)) as [E|_]; [symmetry in E; tauto|].
  rewrite IH by tauto. reflexivity.
Qed.

Lemma custom_map_of_rows : forall (fs fs0 : list field_def),
  NoDup (map field_id (fs0 ++ fs)) ->
  fold_left (fun m r => field_map_set (col "id" r) (col "name" r) m)
            (filter (fun r => is_one (col "custom" r)) (map def_row fs))
            (map map_entry fs0)
  = map map_entry (fs0 ++ filter is_custom fs).
Proof.
  induction fs as [|f fs IH]; intros fs0 Hnd; [now rewrite app_nil_r|].
  cbn [map filter].
  assert (Hc : is_one (col "custom" (def_row f)) = is_custom f)
    by (unfold def_row; cbn; now destruct (is_custom f)).
  rewrite Hc.
  assert (Hnd' : NoDup (map field_id (fs0 ++ fs))).
  { rewrite map_app in *. cbn [map] in Hnd. now apply NoDup_remove_1 in Hnd. }
  destruct (is_custom f) eqn:Ef.
  - cbn [fold_left]. change (col "id" (def_row f)) with (SText (field_id f)).
    change (col "name" (def_row f)) with (SText (field_name f)).
    rewrite field_map_set_new.
    + change [map_entry f] with (map map_entry [f]). rewrite <- map_app, IH.
      * now rewrite <- app_assoc.
      * rewrite <- app_assoc. exact Hnd.
    + rewrite map_app in Hnd. cbn [map] in Hnd. apply NoDup_remove_2 in Hnd.
      rewrite in_app_iff in Hnd. tauto.
  - apply IH. exact Hnd'.
Qed.

End Fields.

(** The field definitions that went in come out of
    [get_custom_field_map]: after [upsert_field_definitions] has stored
    definitions with distinct ids in an empty table, the map holds, in
    order, the id and name of exactly those whose [custom] is true; a
    definition without [custom] counts as not custom. *)
Theorem custom_field_map_lists_the_custom_fields {rt : Runtime} {nm : Numeric}
    (fs : list field_def) :
  NoDup (map field_id fs) ->
  exists table,
    upsert_field_definitions (map field_payload fs) [] = (Ok tt, table)
    /\ get_custom_field_map table
       = map FieldsSpec.map_entry (filter is_custom fs).
Proof.
  intros Hnd. exists (map FieldsSpec.def_row fs). split.
  - apply (upsert_fields_fresh fs []). exact Hnd.
  - unfold get_custom_field_map. apply (custom_map_of_rows fs []). exact Hnd.
Qed.

Lemma custom_field_map_lists_the_custom_fields_witness :
  exists table,
    @upsert_field_definitions example_runtime FieldsSpec.example_numeric
      (map field_payload
         [FieldsSpec.story_points_field; FieldsSpec.summary_field; FieldsSpec.rank_field])
      [] = (Ok tt, table)
    /\ @get_custom_field_map FieldsSpec.example_numeric table
       = [(SText "customfield_10016", SText "Story Points")].
Proof.
  apply (@custom_field_map_lists_the_custom_fields example_runtime
           FieldsSpec.example_numeric
           [FieldsSpec.story_points_field; FieldsSpec.summary_field;
            FieldsSpec.rank_field]).
  repeat constructor; simpl; intuition discriminate.
Defined.

Lemma In_dict_set {V} (k : string) (x : V) (m : list (string * V)) (n : string) (v : V) :
  In (n, v) (dict_set k x m) -> (n, v) = (k, x) \/ In (n, v) m.
Proof.
  induction m as [|[k' v'] m IH]; simpl; [intuition|].
  destruct (String.eqb k k'); simpl; intuition.
Qed.

Lemma lookup_dict_set {V} (k : string) (x : V) (m : list (string * V)) (n : string) :
  lookup n (dict_set k x m) = if String.eqb n k then Some x else lookup n m.
Proof.
  induction m as [|[k' v'] m IH]; simpl.
  - destruct (String.eqb n k); reflexivity.
  - destruct (String.eqb_spec k k') as [->|Hne]; simpl.
    + destruct (String.eqb n k'); reflexivity.
    + rewrite IH. destruct (String.eqb_spec n k') as [->|_]; [|reflexivity].
      destruct (String.eqb_spec k' k) as [E|_]; [congruence | reflexivity].
Qed.

Lemma collect_step (fkv : list (string * json)) (acc : list (string * json))
    (id name : string) :
  (if prefix "customfield_" id && key_in id (JObj fkv) then
     val <- getitem (JObj fkv) id ;;
     match val with
     | JNull => Ok acc
     | _ => Ok (dict_set name val acc)
     end
   else Ok acc)
  = Ok (match FieldsSpec.picked fkv id with
        | Some v => dict_set name v acc
        | None => acc
        end).
Proof.
  unfold FieldsSpec.picked, key_in, has_key, getitem.
  destruct (prefix "customfield_" id); [|reflexivity]. cbn [andb].
  destruct (lookup id fkv) as [[]|]; reflexivity.
Qed.

Lemma picked_qualifies (all : list (string * string)) (fkv : list (string * json))
    (id name : string) (v : json) :
  In (id, name) all -> FieldsSpec.picked fkv id = Some v ->
  FieldsSpec.qualifies all fkv name v.
Proof.
  unfold FieldsSpec.picked. intros Hin Hp.
  destruct (prefix "customfield_" id) eqn:Epre; [|discriminate].
  destruct (lookup id fkv) as [w|] eqn:El; [|discriminate].
  assert (w = v /\ v <> JNull) as (-> & Hnn).
  { destruct w; try discriminate; injection Hp as <-; split; auto; discriminate. }
  split; [exact Hnn|]. exists id. auto.
Qed.

Lemma qualifies_picked (fkv : list (string * json)) (id : string) (v : json) :
  prefix "customfield_" id = true -> lookup id fkv = Some v -> v <> JNull ->
  FieldsSpec.picked fkv id = Some v.
Proof.
  unfold FieldsSpec.picked. intros -> -> Hnn. destruct v; auto. contradiction.
Qed.

Lemma collect_custom_fields_from (all : list (string * string))
    (fkv : list (string * json)) : forall (rest : list (string * string))
    (acc : list (string * json)),
  incl rest all ->
  (forall name v, In (name, v) acc -> FieldsSpec.qualifies all fkv name v) ->
  exists cf,
    foldM (fun custom_fields entry =>
             let '(field_id, field_name) := entry in
             if prefix "customfield_" field_id && key_in field_id (JObj fkv) then
               val <- getitem (JObj fkv) field_id ;;
               match val with
               | JNull => Ok custom_fields
               | _ => Ok (dict_set field_name val custom_fields)
               end
             else Ok custom_fields) rest acc = Ok cf
    /\ (forall name v, In (name, v) cf -> FieldsSpec.qualifies all fkv name v)
    /\ (forall name, lookup name acc <> None -> lookup name cf <> None)
    /\ (forall id name v, In (id, name) rest -> prefix "customfield_" id = true ->
          lookup id fkv = Some v -> v <> JNull -> lookup name cf <> None).
Proof.
  induction rest as [|[id name] rest IH]; intros acc Hincl Hacc.
  - exists acc. split; [reflexivity|]. split; [exact Hacc|]. split; [auto|].
    intros ? ? ? [].
  - cbn [foldM]. rewrite collect_step. cbn [bind].
    assert (Hrest : incl rest all) by (intros x Hx; apply Hincl; now right).
    assert (Hhere : In (id, name) all) by (apply Hincl; now left).
    destruct (FieldsSpec.picked fkv id) as [val|] eqn:Ep.
    + destruct (IH (dict_set name val acc) Hrest) as (cf & Ecf & H1 & H2 & H3).
      { intros n v Hin. apply In_dict_set in Hin as [E|Hin]; [|now apply Hacc].
        injection E as -> ->. now apply (picked_qualifies all fkv id). }
      exists cf. split; [exact Ecf|]. split; [exact H1|]. split.
      { intros n Hn. apply H2. rewrite lookup_dict_set.
        destruct (String.eqb n name); [discriminate | exact Hn]. }
      intros id' name' v' [E|Hin] Hp Hl Hnn; [|now apply (H3 id' name' v')].
      injection E as <- <-. apply H2.
      rewrite lookup_dict_set, String.eqb_refl. discriminate.
    + destruct (IH acc Hrest Hacc) as (cf & Ecf & H1 & H2 & H3).
      exists cf. split; [exact Ecf|]. split; [exact H1|]. split; [exact H2|].
      intros id' name' v' [E|Hin] Hp Hl Hnn; [|now apply (H3 id' name' v')].
      injection E as <- <-. rewrite (qualifies_picked fkv id v' Hp Hl Hnn) in Ep.
      discriminate.
Qed.

(** The custom fields [upsert_issue] stores for a payload are those the
    field map names, and no others: every entry carries the name of a
    field whose id starts with [customfield_], which the payload has and
    whose value there is not null, and every such field has an entry
    under its name.  The collection never raises. *)
Theorem custom_fields_are_those_the_map_names (field_map : list (string * string))
    (fkv : list (string * json)) :
  exists custom_fields,
    collect_custom_fields field_map (JObj fkv) = Ok custom_fields
    /\ (forall name v, In (name, v) custom_fields ->
          FieldsSpec.qualifies field_map fkv name v)
    /\ (forall id name v, In (id, name) field_map ->
          prefix "customfield_" id = true ->
          lookup id fkv = Some v -> v <> JNull ->
          lookup name custom_fields <> None).
Proof.
  destruct (collect_custom_fields_from field_map fkv field_map [])
    as (cf & E & H1 & _ & H3).
  - apply incl_refl.
  - intros ? ? [].
  - exists cf. auto.
Qed.

(** *** Queries *)

Lemma str_leb_total (a : string) : forall b, str_leb a b = false -> str_leb b a = true.
Proof.
  induction a as [|x a IH]; intros [|y b]; simpl; try discriminate; auto.
  destruct (Nat.ltb_spec (nat_of_ascii x) (nat_of_ascii y)); [discriminate|].
  destruct (Nat.ltb_spec (nat_of_ascii y) (nat_of_ascii x)); [reflexivity|].
  apply IH.
Qed.

Lemma str_leb_trans (a : string) : forall b c,
  str_leb a b = true -> str_leb b c = true -> str_leb a c = true.
Proof.
  induction a as [|x a IH]; intros [|y b] [|z c]; simpl; try discriminate; auto.
  destruct (Nat.ltb_spec (nat_of_ascii x) (nat_of_ascii y));
    destruct (Nat.ltb_spec (nat_of_ascii y) (nat_of_ascii z));
    destruct (Nat.ltb_spec (nat_of_ascii x) (nat_of_ascii z));
    destruct (Nat.ltb_spec (nat_of_ascii y) (nat_of_ascii x));
    destruct (Nat.ltb_spec (nat_of_ascii z) (nat_of_ascii y));
    destruct (Nat.ltb_spec (nat_of_ascii z) (nat_of_ascii x));
    try discriminate; try lia; auto.
  apply IH.
Qed.

Lemma insert_by_perm (leb : row -> row -> bool) (r : row) (rs : list row) :
  Permutation (insert_by leb r rs) (r :: rs).
Proof.
  induction rs as [|x rs IH]; simpl; [auto|].
  destruct (leb r x); [auto|].
  rewrite IH. apply perm_swap.
Qed.

Lemma order_by_perm (leb : row -> row -> bool) (rs : list row) :
  Permutation (order_by leb rs) rs.
Proof.
  unfold order_by. induction rs as [|r rs IH]; simpl; [auto|].
  rewrite insert_by_perm. now constructor.
Qed.

Lemma Forall_perm {A} (P : A -> Prop) (l l' : list A) :
  Permutation l l' -> Forall P l -> Forall P l'.
Proof.
  intros Hp H. rewrite Forall_forall in *. intros x Hx. apply H.
  apply (Permutation_in x (Permutation_sym Hp) Hx).
Qed.

Section Sorting.
Variable leb : row -> row -> bool.
Variable domain : row -> Prop.
Hypothesis leb_total : forall a b, domain a -> domain b -> leb a b = false -> leb b a = true.
Hypothesis leb_trans : forall a b c, domain a -> domain b -> domain c ->
  leb a b = true -> leb b c = true -> leb a c = true.

Lemma insert_by_sorted (r : row) (rs : list row) :
  domain r -> Forall domain rs ->
  StronglySorted (fun a b => leb a b = true) rs ->
  StronglySorted (fun a b => leb a b = true) (insert_by leb r rs).
Proof.
  intros Hr Hd Hs. induction Hs as [|x rs Hs IH Hx]; simpl.
  - repeat constructor.
  - inversion Hd as [|x' rs' Hdx Hdrs]; subst.
    destruct (leb r x) eqn:E.
    + constructor; [now constructor|]. constructor; [exact E|].
      rewrite Forall_forall in *. intros y Hy.
      apply (leb_trans r x y); auto.
    + constructor; [now apply IH|].
      apply (Forall_perm _ (r :: rs)); [symmetry; apply insert_by_perm|].
      constructor; [|exact Hx]. now apply leb_total.
Qed.

Lemma order_by_sorted (rs : list row) :
  Forall domain rs -> StronglySorted (fun a b => leb a b = true) (order_by leb rs).
Proof.
  unfold order_by. induction rs as [|r rs IH]; intros Hd; simpl; [constructor|].
  inversion Hd; subst. apply insert_by_sorted; auto.
  apply (Forall_perm _ rs); [symmetry; apply order_by_perm | assumption].
Qed.

End Sorting.

Lemma order_by_already (leb : row -> row -> bool) (rs : list row) :
  StronglySorted (fun a b => leb a b = true) rs -> order_by leb rs = rs.
Proof.
  unfold order_by. induction 1 as [|r rs Hs IH Hr]; simpl; [reflexivity|].
  rewrite IH. destruct rs as [|x rs]; [reflexivity|]. simpl.
  inversion Hr; subst. now rewrite H1.
Qed.

Lemma text_keys_filter (p : row -> bool) (rs : list row) :
  text_keys rs -> text_keys (filter p rs).
Proof.
  unfold text_keys. rewrite !Forall_forall. intros H r Hr.
  apply filter_In in Hr. now apply H.
Qed.

Lemma issues_sorted (rs : list row) :
  text_keys rs -> StronglySorted QuerySpec.key_leb (order_by (by_col "key") rs).
Proof.
  intros Hk.
  apply (order_by_sorted (by_col "key") (fun r => exists s, col "key" r = SText s));
    [| |exact Hk].
  - intros a b (sa & Ea) (sb & Eb). unfold by_col. rewrite Ea, Eb. simpl.
    apply str_leb_total.
  - intros a b c (sa & Ea) (sb & Eb) (sc & Ec). unfold by_col. rewrite Ea, Eb, Ec. simpl.
    apply str_leb_trans.
Qed.

(** [get_issues] returns each selected issue once, in ascending order of
    key: all issues when called without a project key or with the empty
    one, the issues of the project otherwise.  The order is that of the
    bytes of the keys, so ABC-10 comes before ABC-2. *)
Theorem get_issues_returns_the_selection_in_key_order (project_key : option string)
    (d : db) :
  text_keys (issues d) ->
  Permutation (get_issues project_key d) (QuerySpec.selected project_key d)
  /\ StronglySorted QuerySpec.key_leb (get_issues project_key d)
  /\ get_issues (Some "") d = get_issues None d
  /\ by_col "key" [("key", SText "ABC-10")] [("key", SText "ABC-2")] = true.
Proof.
  intros Hk. split; [|split; [|split; reflexivity]].
  - unfold get_issues, QuerySpec.selected.
    destruct project_key as [k|]; [destruct (String.eqb k "")|]; apply order_by_perm.
  - unfold get_issues.
    destruct project_key as [k|]; [destruct (String.eqb k "")|];
      apply issues_sorted; auto using text_keys_filter.
Qed.

Lemma get_issues_returns_the_selection_in_key_order_witness :
  Permutation (get_issues (Some "ABC") store2) (QuerySpec.selected (Some "ABC") store2)
  /\ map (col "key") (get_issues (Some "ABC") store2) = [SText "ABC-1"; SText "ABC-12"]
  /\ map (col "key") (issues store2) = [SText "ABC-12"; SText "ABC-1"].
Proof.
  destruct (get_issues_returns_the_selection_in_key_order (Some "ABC") store2) as (H & _).
  - repeat constructor; eexists; reflexivity.
  - split; [exact H | split; reflexivity].
Defined.

(** *** The link rows and their ids *)

Section Links.
Context {rt : Runtime}.
Import QuerySpec LinkFacts.

Lemma numbered_app (rows1 rows2 : list row) : forall first,
  numbered first rows1 ->
  numbered (first + Z.of_nat (List.length rows1)) rows2 ->
  numbered first (rows1 ++ rows2).
Proof.
  induction rows1 as [|r rows1 IH]; intros first H1 H2.
  - simpl in *. now rewrite Z.add_0_r in H2.
  - destruct H1 as (Hr & H1). split; [exact Hr|]. apply IH; [exact H1|].
    replace (first + 1 + Z.of_nat (List.length rows1))%Z
      with (first + Z.of_nat (List.length (r :: rows1)))%Z; [exact H2|].
    cbn [List.length]. lia.
Qed.

Lemma added_refl (d : db) : added d d [].
Proof.
  unfold added. rewrite app_nil_r. simpl. repeat split; auto. lia.
Qed.

Lemma added_trans (d d1 d2 : db) (rows1 rows2 : list row) :
  added d d1 rows1 -> added d1 d2 rows2 -> added d d2 (rows1 ++ rows2).
Proof.
  intros (L1 & N1 & S1 & I1) (L2 & N2 & S2 & I2). unfold added.
  split; [rewrite L2, L1; now rewrite app_assoc|].
  split; [apply numbered_app; [exact N1|]; rewrite S1 in N2;
          now replace (issue_links_seq d + 1 + Z.of_nat (List.length rows1))%Z
            with (issue_links_seq d + Z.of_nat (List.length rows1) + 1)%Z by lia|].
  split; [rewrite S2, S1, length_app; lia | congruence].
Qed.

Lemma adds_lift {A} (r : result A) : adds (lift r).
Proof. intros d res d' E. inversion E; subst. exists []. apply added_refl. Qed.

Lemma adds_ret {A} (a : A) : adds (ret a).
Proof. intros d res d' E. inversion E; subst. exists []. apply added_refl. Qed.

Lemma adds_sbind {A B} (m : Store A) (k : A -> Store B) :
  adds m -> (forall a, adds (k a)) -> adds (sbind m k).
Proof.
  intros Hm Hk d res d' E. unfold sbind in E.
  destruct (m d) as [[a|e] d1] eqn:Em.
  - destruct (Hm _ _ _ Em) as (rows1 & H1). destruct (Hk a _ _ _ E) as (rows2 & H2).
    exists (rows1 ++ rows2)%list. now apply (added_trans d d1 d').
  - inversion E; subst. now apply (Hm d (Raise e) d').
Qed.

Lemma adds_exec_insert_link (vals : list sqlval) : adds (exec_insert_link vals).
Proof.
  intros d res d' E. unfold exec_insert_link in E.
  destruct (negb (List.length vals =? 4)%nat);
    [inversion E; subst; exists []; apply added_refl|].
  destruct (is_null _); [inversion E; subst; exists []; apply added_refl|].
  destruct (negb (existsb _ (issues d)));
    [inversion E; subst; exists []; apply added_refl|].
  inversion E; subst. eexists [_]. unfold added.
  cbn [issue_links set_issue_links issue_links_seq issues List.length numbered].
  split; [reflexivity|]. split; [|split; [lia | reflexivity]].
  split; [reflexivity | exact I].
Qed.

Lemma adds_execute_insert_link (params : list json) :
  adds (execute exec_insert_link params).
Proof.
  unfold execute. apply adds_sbind; [apply adds_lift|]. apply adds_exec_insert_link.
Qed.

Lemma adds_insert_link (k : string) (link : json) : adds (insert_link k link).
Proof.
  unfold insert_link.
  apply adds_sbind; [apply adds_lift|]. intros ty.
  apply adds_sbind; [apply adds_lift|]. intros lt.
  apply adds_sbind.
  - destruct (key_in "inwardIssue" link); [|apply adds_ret].
    apply adds_sbind; [apply adds_lift|]. intros i.
    apply adds_sbind; [apply adds_lift|]. intros ki.
    apply adds_execute_insert_link.
  - intros _. destruct (key_in "outwardIssue" link); [|apply adds_ret].
    apply adds_sbind; [apply adds_lift|]. intros o.
    apply adds_sbind; [apply adds_lift|]. intros ko.
    apply adds_execute_insert_link.
Qed.

Lemma adds_for_each (k : string) (links : list json) :
  adds (for_each (insert_link k) links).
Proof.
  induction links as [|link links IH]; cbn [for_each]; [apply adds_ret|].
  apply adds_sbind; [apply adds_insert_link | intros _; exact IH].
Qed.

Lemma numbered_sorted (rows : list row) : forall first,
  numbered first rows ->
  StronglySorted (fun a b => by_col "id" a b = true) rows
  /\ Forall (fun r => exists z, col "id" r = SInt z /\ (first <= z)%Z) rows.
Proof.
  induction rows as [|r rows IH]; intros first H; [split; constructor|].
  destruct H as (Hr & H). destruct (IH _ H) as (Hs & Hf). split.
  - constructor; [exact Hs|]. rewrite Forall_forall in *. intros x Hx.
    destruct (Hf x Hx) as (z & Ez & Hz). unfold by_col. rewrite Hr, Ez. simpl.
    apply Z.leb_le. lia.
  - constructor; [exists first; split; [exact Hr | lia]|].
    rewrite Forall_forall in *. intros x Hx.
    destruct (Hf x Hx) as (z & Ez & Hz). exists z. split; [exact Ez | lia].
Qed.

End Links.

(** After [insert_issue_links] has replaced the links of an issue,
    [get_issue_links(issue_key)] returns exactly the rows derived from
    the list, in the order of the list: the new rows take the next values
    of the table's counter, one after the other, so ordering by id is
    ordering by position in the list, and no id is used twice. *)
Theorem get_issue_links_returns_the_list_in_order {rt : Runtime} (issue_key : string)
    (links : list json) (expected : list (sqlval * sqlval * sqlval)) (d : db) :
  issue_key <> "" ->
  derived_links issue_key links = Ok expected ->
  expected = [] \/ issue_exists issue_key d = true ->
  exists d',
    insert_issue_links issue_key links d = (Ok tt, d')
    /\ map link_view (get_issue_links (Some issue_key) d') = expected
    /\ QuerySpec.numbered (issue_links_seq d + 1) (get_issue_links (Some issue_key) d')
    /\ issue_links_seq d'
       = (issue_links_seq d + Z.of_nat (List.length expected))%Z.
Proof.
  unfold derived_links. intros Hk Hd Hex.
  destruct (mapM (link_params issue_key) links) as [tuples|] eqn:Et; [|discriminate].
  cbn [bind] in Hd.
  destruct (mapM (mapM bind_param) (List.concat tuples)) as [valss|] eqn:Eb;
    [|discriminate].
  cbn [bind] in Hd. injection Hd as <-.
  unfold insert_issue_links, sbind, exec_delete_links.
  match goal with |- context [for_each _ links ?d0] => set (d0' := d0) end.
  destruct (LinkFacts.for_each_links_Ok issue_key links tuples valss d0' Et Eb)
    as (d' & rows & X & I & L & V & K).
  { destruct Hex as [Hnil|Hex]; [|now right]. left. now destruct valss. }
  destruct (adds_for_each issue_key links d0' (Ok tt) d' X) as (rows' & L' & N & S & _).
  assert (rows' = rows) as -> by (rewrite L in L'; now apply app_inv_head in L').
  exists d'. rewrite X. split; [reflexivity|].
  pose proof (proj1 (numbered_sorted rows _ N)) as Hs.
  assert (Hget : get_issue_links (Some issue_key) d' = rows).
  { unfold get_issue_links.
    destruct (String.eqb_spec issue_key "") as [E|_]; [contradiction|].
    rewrite L. subst d0'. cbn [issue_links set_issue_links].
    fold (has_issue_key issue_key).
    rewrite filter_app, (LinkFacts.filter_filter_neg (has_issue_key issue_key)).
    rewrite (LinkFacts.filter_all _ rows K). cbn [app].
    apply order_by_already. exact Hs. }
  rewrite Hget. split; [exact V|]. split; [exact N|].
  rewrite S. subst d0'. cbn [issue_links_seq set_issue_links].
  f_equal. f_equal. rewrite <- (length_map link_view rows), V. now rewrite length_map.
Qed.

Lemma get_issue_links_returns_the_list_in_order_witness :
  exists d',
    @insert_issue_links example_runtime "ABC-1"
      [link_to "outwardIssue" "ABC-12" "Relates"; link_to "inwardIssue" "ABC-12" "Blocks"]
      store_linked = (Ok tt, d')
    /\ map link_view (get_issue_links (Some "ABC-1") d')
       = [(SText "Relates", SText "outward", SText "ABC-12");
          (SText "Blocks", SText "inward", SText "ABC-12")]
    /\ map (col "id") (get_issue_links (Some "ABC-1") d') = [SInt 3; SInt 4].
Proof.
  destruct (@get_issue_links_returns_the_list_in_order example_runtime "ABC-1"
              [link_to "outwardIssue" "ABC-12" "Relates";
               link_to "inwardIssue" "ABC-12" "Blocks"]
              [(SText "Relates", SText "outward", SText "ABC-12");
               (SText "Blocks", SText "inward", SText "ABC-12")] store_linked)
    as (d' & H1 & H2 & _ & _); [discriminate | reflexivity | now right |].
  exists d'. split; [exact H1|]. split; [exact H2|].
  vm_compute in H1. injection H1 as <-. reflexivity.
Defined.

(** [insert_issue_links] does not undo its DELETE when a later step
    raises: in the connection's view the link rows the issue had before
    the call are gone, and the rows it has are only those the call
    inserted before it failed, numbered from the table's counter on. *)
Theorem insert_issue_links_keeps_its_delete_on_failure {rt : Runtime}
    (issue_key : string) (links : list json) (d d' : db) (e : exn) :
  insert_issue_links issue_key links d = (Raise e, d') ->
  exists rows,
    issue_links d'
    = (filter (fun l => negb (has_issue_key issue_key l)) (issue_links d) ++ rows)%list
    /\ QuerySpec.numbered (issue_links_seq d + 1) rows
    /\ issues d' = issues d.
Proof.
  unfold insert_issue_links, sbind, exec_delete_links. intros E.
  destruct (adds_for_each issue_key links _ _ _ E) as (rows & L & N & _ & I).
  exists rows. auto.
Qed.

Lemma insert_issue_links_keeps_its_delete_on_failure_witness :
  links_of "ABC-1" store_linked
  = [(SText "Blocks", SText "inward", SText "ABC-12");
     (SText "Relates", SText "outward", SText "ABC-12")]
  /\ exists d',
       @insert_issue_links example_runtime "ABC-1" [JObj [("type", JNull)]] store_linked
       = (Raise AttributeError, d')
       /\ links_of "ABC-1" d' = []
       /\ exists rows,
            issue_links d'
            = (filter (fun l => negb (has_issue_key "ABC-1" l)) (issue_links store_linked)
               ++ rows)%list.
Proof.
  split; [reflexivity|].
  destruct (@insert_issue_links example_runtime "ABC-1" [JObj [("type", JNull)]]
              store_linked) as [res d'] eqn:E.
  assert (Hres : res = Raise AttributeError) by (vm_compute in E; now injection E as <- _).
  subst res.
  destruct (@insert_issue_links_keeps_its_delete_on_failure example_runtime "ABC-1"
              [JObj [("type", JNull)]] store_linked d' AttributeError E)
    as (rows & L & _ & _).
  exists d'. split; [reflexivity|]. split; [|exists rows; exact L].
  vm_compute in E. injection E as <-. reflexivity.
Defined.
End TableFacts.
(** ** The exported files *)

Module ExportFacts.
Import Db DbSpec Exporter ExporterSpec ExportSpec PyFacts DbFacts UpsertFacts
       ExporterFacts LinkFacts Examples ExportExamples JsonExport JsonExportExamples.

Lemma padded_length (n : nat) : forall cells, List.length (padded n cells) = n.
Proof.
  induction n as [|n IH]; intros cells; [reflexivity|].
  destruct cells; simpl; now rewrite IH.
Qed.

Section WithLibs.
Context {rt : Runtime} {jl : JsonLib}.

Lemma row_of_length (m : maxima) (c : list (sqlval * list row)) (i : row) :
  List.length (row_of m c i) = List.length (headers_of m).
Proof.
  unfold row_of, headers_of, core_cells.
  rewrite !length_app, !padded_length, !repeat_length, !length_map. reflexivity.
Qed.

Lemma export_none_iff (d : db) (project_key : option string) :
  export_jira_csv d project_key = None <-> get_issues project_key d = [].
Proof.
  unfold export_jira_csv. destruct (get_issues project_key d) as [|i l]; [tauto|].
  destruct (fold_left _ _ _). split; discriminate.
Qed.

End WithLibs.

(** The JIRA CSV is rectangular: there is one row per exported issue, in
    the order of [get_issues], and every row has exactly as many cells as
    the header has columns; the header starts with the fifteen mapped
    field names.  No file is written exactly when there is no issue to
    export. *)
Theorem jira_csv_is_rectangular {rt : Runtime} {jl : JsonLib}
    (d : db) (project_key : option string) (f : csv_file) :
  export_jira_csv d project_key = Some f ->
  Forall (fun r => List.length r = List.length (csv_header f)) (csv_rows f)
  /\ List.length (csv_rows f) = List.length (get_issues project_key d)
  /\ firstn core_width (csv_header f) = map snd JIRA_FIELD_MAP
  /\ core_width + 4 <= List.length (csv_header f)
  /\ (forall d0 k, export_jira_csv d0 k = None <-> get_issues k d0 = []).
Proof.
  intros E. split; [|split; [|split; [|split]]]; [| | | |apply export_none_iff];
    unfold export_jira_csv in E;
    destruct (get_issues project_key d) as [|i0 rest] eqn:Ei; try discriminate;
    destruct (fold_left (scan_issue d) (i0 :: rest) (mkMax 0 0 0 0, [])) as [m c];
    injection E as <-; cbn [csv_header csv_rows].
  - apply Forall_forall. intros r [<-|Hr]; [apply row_of_length|].
    apply in_map_iff in Hr as (i & <- & _). apply row_of_length.
  - cbn [List.length]. now rewrite length_map.
  - reflexivity.
  - unfold headers_of, core_width. rewrite !length_app, !repeat_length, !length_map. lia.
Qed.

Lemma jira_csv_is_rectangular_witness :
  exists f,
    @export_jira_csv example_runtime example_json store3 None = Some f
    /\ Forall (fun r => List.length r = 20) (csv_rows f)
    /\ List.length (csv_rows f) = 2.
Proof.
  eexists. split; [reflexivity|].
  destruct (@jira_csv_is_rectangular example_runtime example_json store3 None _ eq_refl)
    as (H1 & H2 & _).
  split; [exact H1 | exact H2].
Defined.


Section Groups.
Context {rt : Runtime} {jl : JsonLib}.

Ltac peel H :=
  repeat match type of H with
         | bind ?X _ = Ok _ =>
             let E := fresh "E" in
             destruct X eqn:E; [cbn [bind] in H | discriminate H]
         end.

Ltac uncons Eb :=
  let v := fresh "v" in
  let vs := fresh "vs" in
  let B := fresh "B" in
  apply mapM_cons_Ok in Eb as (v & vs & -> & B & Eb).

(** The labels and components columns of the row computed from a
    payload. *)
Lemma group_columns (issue : json) (field_map : option (list (string * string)))
    (params : list json) (vals : list sqlval) :
  issue_params issue field_map = Ok params ->
  mapM bind_param params = Ok vals ->
  exists fields labels components v_labels v_components,
    get_d issue "fields" (JObj []) = Ok fields
    /\ get fields "labels" = Ok labels
    /\ names_of fields "components" = Ok components
    /\ bind_param (_safe_json labels) = Ok v_labels
    /\ bind_param (_safe_json components) = Ok v_components
    /\ col "labels" (excluded_of vals) = store_as TEXT v_labels
    /\ col "components" (excluded_of vals) = store_as TEXT v_components.
Proof.
  intros Ep Eb. unfold issue_params in Ep. peel Ep. injection Ep as <-.
  do 18 uncons Eb.
  do 5 eexists. unfold excluded_of.
  rewrite !(col_insert_row issues_schema issues_insert_cols _ _ TEXT) by reflexivity.
  repeat split; eassumption.
Qed.

Lemma parse_dumped (items : list json) :
  json_dumps (JArr items) <> "" ->
  json_loads (json_dumps (JArr items)) = Some (JArr items) ->
  _parse_json_field (store_as TEXT (SText (json_dumps (JArr items)))) = map py_str items.
Proof.
  intros Hne Hl. unfold _parse_json_field. cbn [store_as sql_truthy].
  destruct (String.eqb_spec (json_dumps (JArr items)) "") as [E|_]; [contradiction|].
  cbn [negb]. now rewrite Hl.
Qed.

End Groups.

(** The labels and components of a payload come out of the store as the
    JIRA CSV export reads them, provided [json.loads] gives back the
    arrays [json.dumps] wrote: the labels are the payload's labels, each
    as [str] renders it, and the components are the names of the
    payload's components, a component without name coming out as the text
    [None]. *)
Theorem exported_groups_are_the_payload_values {rt : Runtime} {jl : JsonLib}
    (issue : json) (field_map : option (list (string * string)))
    (fkv : list (string * json)) (labels : list json)
    (components : list (list (string * json))) (i : string) (d d' : db) :
  issues_ok d = true ->
  getitem issue "id" = Ok (JStr i) ->
  get_d issue "fields" (JObj []) = Ok (JObj fkv) ->
  lookup "labels" fkv = Some (JArr labels) ->
  lookup "components" fkv = Some (JArr (map JObj components)) ->
  (forall items, items = labels \/ items = map name_or_null components ->
     json_dumps (JArr items) <> ""
     /\ json_loads (json_dumps (JArr items)) = Some (JArr items)) ->
  upsert_issue issue field_map d = (Ok tt, d') ->
  exists r,
    issues_with_id i d' = [r]
    /\ labels_of r = map py_str labels
    /\ components_of r = map (fun c => py_str (name_or_null c)) components
    /\ py_str JNull = "None".
Proof.
  intros Hok Hi Hf Hl Hc Hjson U.
  apply upsert_issue_Ok in U as (params & vals & Ep & Eb & X).
  pose proof (stored_id issue field_map params vals i Ep Eb Hi) as Hid.
  destruct (exec_upsert_issue_Ok vals i d d' Hok Hid X) as (F & _).
  destruct (group_columns issue field_map params vals Ep Eb)
    as (fields & ls & cs & v_ls & v_cs & H1 & H2 & H3 & B1 & B2 & C1 & C2).
  rewrite Hf in H1. injection H1 as <-.
  unfold get, get_d in H2. rewrite Hl in H2. injection H2 as <-.
  unfold names_of, get_d in H3. rewrite Hc in H3. cbn [bind iter] in H3.
  rewrite mapM_map in H3.
  assert (Hn : mapM (fun x => get (JObj x) "name") components
               = Ok (map name_or_null components)).
  { clear. induction components as [|c cs IH]; [reflexivity|]. cbn [mapM map].
    rewrite IH. reflexivity. }
  rewrite Hn in H3. cbn [bind] in H3. injection H3 as <-.
  cbn [_safe_json bind_param] in B1, B2. injection B1 as <-. injection B2 as <-.
  destruct (Hjson labels (or_introl eq_refl)) as (N1 & L1).
  destruct (Hjson _ (or_intror eq_refl)) as (N2 & L2).
  exists (excluded_of vals). split; [exact F|].
  unfold labels_of, components_of. rewrite C1, C2.
  rewrite (parse_dumped labels N1 L1), (parse_dumped _ N2 L2), map_map.
  repeat split.
Qed.

Lemma exported_groups_are_the_payload_values_witness :
  exists r,
    issues_with_id "10007" store7 = [r]
    /\ @labels_of names_json r = ["ui"; "bug"]
    /\ @components_of names_json r = ["Core"; "None"].
Proof.
  destruct (@exported_groups_are_the_payload_values example_runtime names_json
              abc7 None
              [("summary", JStr "Seventh");
               ("labels", JArr [JStr "ui"; JStr "bug"]);
               ("components", JArr [JObj [("name", JStr "Core")]; JObj [("id", JStr "3")]])]
              [JStr "ui"; JStr "bug"]
              [[("name", JStr "Core")]; [("id", JStr "3")]]
              "10007" store0 store7 eq_refl eq_refl eq_refl eq_refl eq_refl)
    as (r & H1 & H2 & H3 & _).
  - intros items [-> | ->]; split; solve [discriminate | reflexivity].
  - reflexivity.
  - exists r. split; [exact H1|]. split; [exact H2 | exact H3].
Defined.


Section RawJson.
Context {rt : Runtime}.

Ltac peel H :=
  repeat match type of H with
         | bind ?X _ = Ok _ =>
             let E := fresh "E" in
             destruct X eqn:E; [cbn [bind] in H | discriminate H]
         end.

Ltac uncons Eb :=
  let v := fresh "v" in
  let vs := fresh "vs" in
  let B := fresh "B" in
  apply mapM_cons_Ok in Eb as (v & vs & -> & B & Eb).

(** The [raw_json] column of the row computed from a payload. *)
Lemma raw_json_column (issue : json) (field_map : option (list (string * string)))
    (params : list json) (vals : list sqlval) :
  issue_params issue field_map = Ok params ->
  mapM bind_param params = Ok vals ->
  exists v_raw,
    bind_param (_safe_json issue) = Ok v_raw
    /\ col "raw_json" (excluded_of vals) = store_as TEXT v_raw.
Proof.
  intros Ep Eb. unfold issue_params in Ep. peel Ep. injection Ep as <-.
  do 33 uncons Eb.
  eexists. unfold excluded_of.
  rewrite !(col_insert_row issues_schema issues_insert_cols _ _ TEXT) by reflexivity.
  split; [eassumption | reflexivity].
Qed.

End RawJson.

(** The JSON export gives back the payload that went in: after
    [upsert_issue] has stored an issue, [export_json] writes a file, and
    the entry it holds for the row of the issue is the payload itself,
    decoded from [raw_json], provided [json.loads] gives back what
    [json.dumps] wrote.  There is one entry per stored issue. *)
Theorem json_export_returns_the_payload {rt : Runtime} {jl : JsonLib}
    (issue : json) (field_map : option (list (string * string))) (i : string)
    (d d' : db) :
  issues_ok d = true ->
  getitem issue "id" = Ok (JStr i) ->
  json_dumps issue <> "" ->
  json_loads (json_dumps issue) = Some issue ->
  upsert_issue issue field_map d = (Ok tt, d') ->
  exists f r,
    export_json d' None = Some f
    /\ issues_with_id i d' = [r]
    /\ export_entry r = Parsed issue
    /\ In (Parsed issue) (json_entries f)
    /\ List.length (json_entries f) = List.length (issues d').
Proof.
  intros Hok Hi Hne Hl U.
  apply upsert_issue_Ok in U as (params & vals & Ep & Eb & X).
  pose proof (stored_id issue field_map params vals i Ep Eb Hi) as Hid.
  destruct (exec_upsert_issue_Ok vals i d d' Hok Hid X) as (F & _).
  destruct (raw_json_column issue field_map params vals Ep Eb) as (v_raw & B & C).
  assert (Hobj : exists kv, issue = JObj kv).
  { destruct issue; try discriminate. eauto. }
  destruct Hobj as (kv & ->). cbn [_safe_json bind_param] in B. injection B as <-.
  cbn [store_as] in C.
  assert (Hentry : export_entry (excluded_of vals) = Parsed (JObj kv)).
  { unfold export_entry. rewrite C. cbn [sql_truthy].
    destruct (String.eqb_spec (json_dumps (JObj kv)) "") as [E|_]; [contradiction|].
    cbn [negb]. now rewrite Hl. }
  assert (Hin : In (excluded_of vals) (get_issues None d')).
  { unfold get_issues. apply TableFacts.In_order_by.
    assert (H : In (excluded_of vals) (issues_with_id i d')) by (rewrite F; now left).
    unfold issues_with_id in H. now apply filter_In in H. }
  unfold export_json.
  destruct (get_issues None d') as [|r0 rs] eqn:Eg; [destruct Hin|].
  eexists. exists (excluded_of vals). split; [reflexivity|]. split; [exact F|].
  split; [exact Hentry|]. cbn [json_entries]. split.
  - change (export_entry r0 :: map export_entry rs) with (map export_entry (r0 :: rs)).
    rewrite <- Hentry. now apply in_map.
  - change (export_entry r0 :: map export_entry rs) with (map export_entry (r0 :: rs)).
    rewrite length_map, <- Eg. unfold get_issues.
    apply Permutation_length, TableFacts.order_by_perm.
Qed.

Lemma json_export_returns_the_payload_witness :
  exists f,
    @export_json (loads_only (simple_dumps abc12) abc12) store1 None = Some f
    /\ json_entries f = [Parsed abc12].
Proof.
  destruct (@json_export_returns_the_payload example_runtime
              (loads_only (simple_dumps abc12) abc12) abc12 None "10012" store0 store1)
    as (f & r & H1 & _ & _ & _ & _);
    [reflexivity | reflexivity | discriminate | reflexivity | reflexivity |].
  exists f. split; [exact H1|].
  vm_compute in H1. injection H1 as <-. reflexivity.
Defined.

End ExportFacts.
(** ** The client: errors of a request, and the paginated reads *)

Module PagingFacts.
Import Api ApiSpec Paging PagingSpec ApiFacts Examples.

(** [_request] retries on 429 only.  After any number of 429s short of
    five, an exception of the transport leaves the call at once, and so
    does a 429 whose Retry-After header [int] cannot read (a date, say):
    the call raises ValueError without sleeping and without another
    request.  JiraClient and ConfluenceClient behave alike. *)
Theorem request_gives_up_on_other_errors `{HttpLib} (req : request)
    (pre : list response) (waits : list Z) (rest : list (result response)) :
  Forall (fun r => status_code r = 429%Z) pre ->
  waits_from 0 pre waits ->
  List.length pre < 5 ->
  (forall e,
     JiraClient_request req (map Ok pre ++ Raise e :: rest)%list
     = mkRun (Raised (PyError e)) waits (repeat req (S (List.length pre))) rest
     /\ ConfluenceClient_request req (map Ok pre ++ Raise e :: rest)%list
        = mkRun (Raised (PyError e)) waits (repeat req (S (List.length pre))) rest)
  /\ (forall r v, status_code r = 429%Z -> retry_after r = Some v -> py_int v = None ->
     JiraClient_request req (map Ok pre ++ Ok r :: rest)%list
     = mkRun (Raised (PyError ValueError)) waits (repeat req (S (List.length pre))) rest
     /\ ConfluenceClient_request req (map Ok pre ++ Ok r :: rest)%list
        = mkRun (Raised (PyError ValueError)) waits (repeat req (S (List.length pre))) rest).
Proof.
  intros H429 Hw Hlen.
  assert (Hrep : (repeat req (List.length pre) ++ [req])%list
                 = repeat req (S (List.length pre)))
    by (rewrite <- repeat_cons; reflexivity).
  split.
  - intros e. unfold JiraClient_request, ConfluenceClient_request.
    rewrite !(request_loop_429s _ req pre _ _ _ _ waits) by (auto; unfold _max_retries; lia).
    unfold _max_retries.
    destruct (5 - List.length pre) as [|left] eqn:E; [lia|].
    cbn [request_loop app]. unfold append. rewrite Hrep. split; reflexivity.
  - intros r v Hr Hv Hint. unfold JiraClient_request, ConfluenceClient_request.
    rewrite !(request_loop_429s _ req pre _ _ _ _ waits) by (auto; unfold _max_retries; lia).
    unfold _max_retries.
    destruct (5 - List.length pre) as [|left] eqn:E; [lia|].
    cbn [request_loop app]. rewrite Hr. cbn [Z.eqb Pos.eqb].
    unfold retry_wait. rewrite Hv, Hint. unfold append. rewrite Hrep. split; reflexivity.
Qed.

Lemma request_gives_up_on_other_errors_witness :
  @JiraClient_request example_http ping
    [Ok backoff; Ok (mkResponse 429 (Some "Wed, 21 Oct 2015 07:28:00 GMT") (Ok JNull));
     Ok success]
  = mkRun (Raised (PyError ValueError)) [1]%Z [ping; ping] [Ok success]
  /\ @ConfluenceClient_request example_http ping [Ok backoff; Raise TransportError; Ok success]
     = mkRun (Raised (PyError TransportError)) [1]%Z [ping; ping] [Ok success].
Proof.
  destruct (@request_gives_up_on_other_errors example_http ping [backoff] [1]%Z [Ok success])
    as (He & Hv).
  - repeat constructor.
  - simpl. unfold wait_given. simpl. auto.
  - simpl. lia.
  - split.
    + apply (Hv (mkResponse 429 (Some "Wed, 21 Oct 2015 07:28:00 GMT") (Ok JNull))
               "Wed, 21 Oct 2015 07:28:00 GMT"); reflexivity.
    + apply (He TransportError).
Defined.

Lemma listed_iter (k : string) (kv : list (string * json)) (l : list json) :
  listed k kv = Some l ->
  (v <- get_d (JObj kv) k (JArr []) ;; iter v) = Ok l.
Proof.
  unfold listed, get_d. destruct (lookup k kv) as [[]|]; try discriminate;
    intros E; injection E as <-; reflexivity.
Qed.

Lemma projects_loop_pages : forall (resps : list response) (pages : list (list json))
    (last : response) (last_values : list json) (rest : list reply)
    (start_at : Z) (projects : list json) (log : list request),
  Forall2 (project_page true) resps pages ->
  project_page false last last_values ->
  projects_loop (map inl resps ++ inl last :: rest)%list start_at projects log
  = (Returned (projects ++ List.concat pages ++ last_values)%list,
     (log ++ map projects_request (offsets start_at (S (List.length resps))))%list).
Proof.
  induction resps as [|resp resps IH];
    intros pages last last_values rest start_at projects log Hp Hl.
  - inversion Hp; subst. destruct Hl as (kv & Eb & Ev & El).
    cbn [map app projects_loop]. rewrite Eb. cbn [bind].
    apply listed_iter in Ev. unfold get_d in *.
    destruct (lookup "values" kv) as [v|]; cbn [bind] in *; rewrite Ev; cbn [bind];
      rewrite El; reflexivity.
  - inversion Hp as [|? vs ? pages' Hpage Hrest]; subst.
    destruct Hpage as (kv & Eb & Ev & El).
    cbn [map app projects_loop]. rewrite Eb. cbn [bind].
    apply listed_iter in Ev. unfold get_d in *.
    assert (Hstep : forall X, 
      match (values <- Ok match lookup "values" kv with Some v => v | None => JArr [] end ;;
             items <- iter values ;;
             is_last <- Ok match lookup "isLast" kv with Some v => v | None => JBool true end ;;
             Ok (items, is_last)) with
      | Ok (items, is_last) =>
          if truthy is_last then (Returned (extend projects items), X)
          else projects_loop (map inl resps ++ inl last :: rest)%list (start_at + PAGE_SIZE)
                 (extend projects items) X
      | Raise e => (Raised (PyError e), X)
      end
      = projects_loop (map inl resps ++ inl last :: rest)%list (start_at + PAGE_SIZE)
          (extend projects vs) X).
    { intros X. cbn [bind] in *. rewrite Ev. cbn [bind]. rewrite El. reflexivity. }
    rewrite Hstep. rewrite (IH pages' last last_values rest _ _ _ Hrest Hl).
    unfold extend, append. cbn [List.concat List.length offsets map].
    rewrite <- !app_assoc. reflexivity.
Qed.

(** [get_projects] asks for page after page, at offsets 0, 100, 200, ...,
    until a page says it is the last or does not say; it returns the
    values of all the pages it read, in order, and reads no further. *)
Theorem get_projects_reads_up_to_the_last_page (resps : list response)
    (pages : list (list json)) (last : response) (last_values : list json)
    (rest : list reply) :
  Forall2 (project_page true) resps pages ->
  project_page false last last_values ->
  get_projects (map inl resps ++ inl last :: rest)%list
  = (Returned (List.concat pages ++ last_values)%list,
     map projects_request (offsets 0 (S (List.length resps)))).
Proof.
  intros Hp Hl. unfold get_projects.
  now rewrite (projects_loop_pages resps pages last last_values rest 0 [] [] Hp Hl).
Qed.


Lemma get_projects_reads_up_to_the_last_page_witness :
  get_projects
    [body [("values", JArr [issue_stub "ABC"]); ("isLast", JBool false)];
     body [("values", JArr [issue_stub "XYZ"])];
     body [("values", JArr [issue_stub "NEVER"])]]
  = (Returned [issue_stub "ABC"; issue_stub "XYZ"],
     [projects_request 0; projects_request 100]).
Proof.
  apply (get_projects_reads_up_to_the_last_page
           [mkResponse 200 None
              (Ok (JObj [("values", JArr [issue_stub "ABC"]); ("isLast", JBool false)]))]
           [[issue_stub "ABC"]]
           (mkResponse 200 None (Ok (JObj [("values", JArr [issue_stub "XYZ"])])))
           [issue_stub "XYZ"]
           [body [("values", JArr [issue_stub "NEVER"])]]).
  - repeat constructor. eexists. repeat split.
  - eexists. repeat split.
Defined.

Lemma comments_loop_pages (issue_key : string) (total : Z) :
  forall (resps : list response) (pages : list (list json))
    (last : response) (last_comments : list json) (rest : list reply)
    (start_at : Z) (comments : list json) (log : list request),
  Forall2 (comment_page total) resps pages ->
  comment_page total last last_comments ->
  (resps = [] \/ start_at + PAGE_SIZE * Z.of_nat (List.length resps) < total)%Z ->
  (total <= start_at + PAGE_SIZE * (Z.of_nat (List.length resps) + 1))%Z ->
  comments_loop issue_key (map inl resps ++ inl last :: rest)%list start_at comments log
  = (Returned (comments ++ List.concat pages ++ last_comments)%list,
     (log ++ map (comments_request issue_key)
               (offsets start_at (S (List.length resps))))%list).
Proof.
  induction resps as [|resp resps IH];
    intros pages last last_comments rest start_at comments log Hp Hl Hlo Hhi.
  - inversion Hp; subst. destruct Hl as (kv & Eb & Ev & Et).
    cbn [map app comments_loop]. rewrite Eb. cbn [bind].
    apply listed_iter in Ev. unfold get_d in *. cbn [bind] in *. rewrite Ev. cbn [bind].
    rewrite Et. cbn [int_ge bind].
    assert ((total <=? start_at + PAGE_SIZE)%Z = true) as ->
      by (apply Z.leb_le; cbn [List.length Z.of_nat] in Hhi; lia).
    reflexivity.
  - inversion Hp as [|? cs ? pages' Hpage Hrest]; subst.
    destruct Hpage as (kv & Eb & Ev & Et).
    cbn [map app comments_loop]. rewrite Eb. cbn [bind].
    apply listed_iter in Ev. unfold get_d in *. cbn [bind] in *. rewrite Ev. cbn [bind].
    rewrite Et. cbn [int_ge bind].
    assert (Hlen : (Z.of_nat (List.length (resp :: resps))
                    = Z.of_nat (List.length resps) + 1)%Z)
      by (cbn [List.length]; lia).
    rewrite Hlen in *.
    assert ((total <=? start_at + PAGE_SIZE)%Z = false) as ->.
    { apply Z.leb_gt. destruct Hlo as [E|Hlo]; [discriminate|].
      unfold PAGE_SIZE in *. lia. }
    rewrite (IH pages' last last_comments rest _ _ _ Hrest Hl).
    + unfold extend, append. cbn [List.concat List.length offsets map].
      rewrite <- !app_assoc. reflexivity.
    + destruct Hlo as [E|Hlo]; [discriminate|].
      destruct resps; [now left | right]. unfold PAGE_SIZE in *. lia.
    + unfold PAGE_SIZE in *. lia.
Qed.

(** [get_issue_comments] asks for pages at offsets 0, 100, 200, ... and
    stops after the first page whose offset plus 100 reaches the total
    the page reports; it moves on by 100 whatever number of comments a
    page held, and returns the comments of the pages it read, in order.
    For an issue of [total] comments it makes one request when the total
    is at most 100, and one per started hundred otherwise. *)
Theorem get_issue_comments_reads_a_page_per_hundred (issue_key : string) (total : Z)
    (resps : list response) (pages : list (list json)) (last : response)
    (last_comments : list json) (rest : list reply) :
  Forall2 (comment_page total) resps pages ->
  comment_page total last last_comments ->
  (resps = [] \/ PAGE_SIZE * Z.of_nat (List.length resps) < total)%Z ->
  (total <= PAGE_SIZE * (Z.of_nat (List.length resps) + 1))%Z ->
  get_issue_comments issue_key (map inl resps ++ inl last :: rest)%list
  = (Returned (List.concat pages ++ last_comments)%list,
     map (comments_request issue_key) (offsets 0 (S (List.length resps)))).
Proof.
  intros Hp Hl Hlo Hhi. unfold get_issue_comments.
  now rewrite (comments_loop_pages issue_key total resps pages last last_comments rest
                 0 [] [] Hp Hl).
Qed.

Lemma get_issue_comments_reads_a_page_per_hundred_witness :
  get_issue_comments "ABC-1"
    [body [("comments", JArr [issue_stub "c1"]); ("total", JInt 150)];
     body [("comments", JArr [issue_stub "c101"]); ("total", JInt 150)];
     body [("comments", JArr [issue_stub "never"]); ("total", JInt 150)]]
  = (Returned [issue_stub "c1"; issue_stub "c101"],
     [comments_request "ABC-1" 0; comments_request "ABC-1" 100]).
Proof.
  apply (get_issue_comments_reads_a_page_per_hundred "ABC-1" 150
           [mkResponse 200 None
              (Ok (JObj [("comments", JArr [issue_stub "c1"]); ("total", JInt 150)]))]
           [[issue_stub "c1"]]
           (mkResponse 200 None
              (Ok (JObj [("comments", JArr [issue_stub "c101"]); ("total", JInt 150)])))
           [issue_stub "c101"]
           [body [("comments", JArr [issue_stub "never"]); ("total", JInt 150)]]).
  - repeat constructor. eexists. repeat split.
  - eexists. repeat split.
  - right. reflexivity.
  - discriminate.
Defined.


(** *** search_issues *)

Lemma settle_total_again (so_far total : json) :
  settle_total (settle_total so_far total) total = settle_total so_far total.
Proof.
  unfold settle_total. destruct (is_zero so_far) eqn:E; [|now rewrite E].
  now destruct (is_zero total).
Qed.

Lemma read_jql_page (total t : json) (resp : response) (page : list json * json) :
  jql_page t resp page ->
  (p <- read_page resp total ;;
   let '(data, total', issues) := p in
   items <- iter issues ;;
   token <- get data "nextPageToken" ;;
   Ok (total', items, token))
  = Ok (settle_total total t, fst page, snd page).
Proof.
  intros (kv & Eb & Ei & Et & Etok). unfold read_page. rewrite Eb. cbn [bind].
  unfold settle_total, page_total, listed, get, get_d in *.
  destruct (is_zero total); cbn [bind];
    destruct (lookup "issues" kv) as [[]|]; try discriminate;
    injection Ei as <-; cbn [bind iter]; rewrite ?Et, Etok; reflexivity.
Qed.

Lemma jql_loop_pages (jql fields expand : string) (t : json) :
  forall (resps : list response) (pages : list (list json * json))
    (script : list reply) (token total : json) (all_issues : list json)
    (log : list request),
  Forall2 (jql_page t) resps pages ->
  Forall (fun p => truthy (snd p) = true) pages ->
  jql_loop jql fields expand (map inl resps ++ script)%list token total all_issues log
  = jql_loop jql fields expand script
      (next_token token pages) (total_after total t pages)
      (all_issues ++ List.concat (map fst pages))%list
      (log ++ map (jql_request jql fields) (sent_tokens token pages))%list.
Proof.
  induction resps as [|resp resps IH];
    intros pages script token total all_issues log Hp Ht.
  - inversion Hp; subst. cbn. now rewrite !app_nil_r.
  - inversion Hp as [|? page ? pages' Hpage Hrest]; subst.
    inversion Ht as [|? ? Htok Ht']; subst.
    cbn [map app jql_loop]. rewrite (read_jql_page total t resp page Hpage). rewrite Htok.
    rewrite (IH pages' script _ _ _ _ Hrest Ht').
    unfold extend, append. cbn [map List.concat fst snd next_token sent_tokens].
    rewrite <- !app_assoc. f_equal.
    unfold total_after. destruct pages' as [|p ps]; [reflexivity|].
    apply settle_total_again.
Qed.

Lemma sent_then_next (token : json) (pages : list (list json * json)) :
  (sent_tokens token pages ++ [next_token token pages])%list = token :: map snd pages.
Proof.
  revert token. induction pages as [|p pages IH]; intros token; [reflexivity|].
  cbn [sent_tokens next_token map app]. now rewrite IH.
Qed.

Lemma jql_loop_reported (jql fields expand : string) :
  forall (resps : list response) (pages : list (list json * json * json))
    (script : list reply) (token total : json) (all_issues : list json)
    (log : list request),
  Forall2 reported_page resps pages ->
  Forall (fun p => truthy (snd (fst p)) = true) pages ->
  jql_loop jql fields expand (map inl resps ++ script)%list token total all_issues log
  = jql_loop jql fields expand script
      (next_token token (map fst pages)) (held_total total (map snd pages))
      (all_issues ++ List.concat (map (fun p => fst (fst p)) pages))%list
      (log ++ map (jql_request jql fields) (sent_tokens token (map fst pages)))%list.
Proof.
  induction resps as [|resp resps IH];
    intros pages script token total all_issues log Hp Ht.
  - inversion Hp; subst. cbn. now rewrite !app_nil_r.
  - inversion Hp as [|? page ? pages' Hpage Hrest]; subst.
    inversion Ht as [|? ? Htok Ht']; subst.
    cbn [map app jql_loop].
    rewrite (read_jql_page total (snd page) resp (fst page) Hpage). rewrite Htok.
    rewrite (IH pages' script _ _ _ _ Hrest Ht').
    unfold extend, append. cbn [map List.concat fst snd next_token sent_tokens held_total].
    now rewrite <- !app_assoc.
Qed.

Lemma last_default (totals : list json) (a b : json) :
  totals <> [] -> last totals a = last totals b.
Proof.
  induction totals as [|t totals IH]; [contradiction|]. intros _.
  destruct totals as [|t' totals]; [reflexivity|].
  cbn [last]. apply IH. discriminate.
Qed.

(** The total held is the first one reported that is not zero. *)
Lemma held_total_first (totals : list json) : forall so_far,
  held_total so_far totals
  = if is_zero so_far
    then match find (fun t => negb (is_zero t)) totals with
         | Some t => t
         | None => last totals so_far
         end
    else so_far.
Proof.
  induction totals as [|t totals IH]; intros so_far; cbn [held_total find].
  - now destruct (is_zero so_far).
  - rewrite IH. unfold settle_total.
    destruct (is_zero so_far) eqn:Es; [|now rewrite Es].
    destruct (is_zero t) eqn:Et; cbn [negb]; [|reflexivity].
    destruct (find (fun t0 => negb (is_zero t0)) totals); [reflexivity|].
    destruct totals as [|t' totals]; [reflexivity|].
    change (last (t :: t' :: totals) so_far) with (last (t' :: totals) so_far).
    apply last_default. discriminate.
Qed.

Lemma held_total_app (totals : list json) (t so_far : json) :
  held_total so_far (totals ++ [t]) = settle_total (held_total so_far totals) t.
Proof.
  revert so_far. induction totals as [|x totals IH]; intros so_far; [reflexivity|].
  cbn [app held_total]. apply IH.
Qed.

(** On the newer endpoint [search_issues] follows the page tokens: the
    first request carries none, every further request carries the token
    of the page before, and the page without token ends the call.  The
    result is the issues of the pages in order, with the first total a
    page reported that is not zero (a page without total reports zero);
    when every page reported zero, it is the total of the last page. *)
Theorem search_issues_follows_the_page_tokens (project_key fields expand : string)
    (resps : list response) (pages : list (list json * json * json))
    (last_resp : response) (last_issues : list json) (last_token last_total : json)
    (rest : list reply) :
  Forall2 reported_page resps pages ->
  Forall (fun p => truthy (snd (fst p)) = true) pages ->
  reported_page last_resp (last_issues, last_token, last_total) ->
  truthy last_token = false ->
  search_issues project_key fields expand (map inl resps ++ inl last_resp :: rest)%list
  = (Returned (first_total (map snd pages ++ [last_total]),
               (List.concat (map (fun p => fst (fst p)) pages) ++ last_issues)%list),
     map (jql_request (jql_of project_key) fields)
         (JNull :: map (fun p => snd (fst p)) pages)).
Proof.
  intros Hp Ht Hl Hno. unfold search_issues.
  rewrite (jql_loop_reported _ fields expand resps pages _ _ _ _ _ Hp Ht).
  cbn [jql_loop app].
  rewrite (read_jql_page _ last_total last_resp (last_issues, last_token) Hl).
  cbn [fst snd]. rewrite Hno. unfold extend, append. cbn [app].
  change [jql_request (jql_of project_key) fields (next_token JNull (map fst pages))]
    with (map (jql_request (jql_of project_key) fields) [next_token JNull (map fst pages)]).
  rewrite <- map_app, sent_then_next, map_map. f_equal. f_equal. f_equal.
  rewrite <- held_total_app. now rewrite held_total_first.
Qed.

Lemma search_issues_follows_the_page_tokens_witness :
  search_issues "ABC" "*all" "names"
    [body [("issues", JArr [issue_stub "ABC-1"]); ("nextPageToken", JStr "t1")];
     body [("issues", JArr [issue_stub "ABC-2"]); ("total", JInt 7);
           ("nextPageToken", JStr "t2")];
     body [("issues", JArr [issue_stub "ABC-3"]); ("total", JInt 9)];
     body [("issues", JArr [issue_stub "ABC-4"])]]
  = (Returned (JInt 7, [issue_stub "ABC-1"; issue_stub "ABC-2"; issue_stub "ABC-3"]),
     [jql_request (jql_of "ABC") "*all" JNull;
      jql_request (jql_of "ABC") "*all" (JStr "t1");
      jql_request (jql_of "ABC") "*all" (JStr "t2")]).
Proof.
  apply (search_issues_follows_the_page_tokens "ABC" "*all" "names"
           [mkResponse 200 None
              (Ok (JObj [("issues", JArr [issue_stub "ABC-1"]);
                         ("nextPageToken", JStr "t1")]));
            mkResponse 200 None
              (Ok (JObj [("issues", JArr [issue_stub "ABC-2"]); ("total", JInt 7);
                         ("nextPageToken", JStr "t2")]))]
           [([issue_stub "ABC-1"], JStr "t1", JInt 0);
            ([issue_stub "ABC-2"], JStr "t2", JInt 7)]
           (mkResponse 200 None
              (Ok (JObj [("issues", JArr [issue_stub "ABC-3"]); ("total", JInt 9)])))
           [issue_stub "ABC-3"] JNull (JInt 9)
           [body [("issues", JArr [issue_stub "ABC-4"])]]).
  - repeat constructor; eexists; repeat split.
  - repeat constructor.
  - eexists. repeat split.
  - reflexivity.
Defined.

(** When the newer endpoint answers 404 after some pages, the issues of
    those pages are kept and the classic endpoint is read from offset 0:
    if its first page holds issues enough to reach the total, the call
    returns the issues gathered before the 404 followed by the issues of
    that page, so an issue both endpoints returned comes out twice. *)
Theorem search_fallback_starts_again_from_zero (project_key fields expand : string)
    (t reported : json) (resps : list response) (pages : list (list json * json))
    (msg : status_message) (refusal classic : response) (issues : list json)
    (rest : list reply) :
  Forall2 (jql_page t) resps pages ->
  Forall (fun p => truthy (snd p) = true) pages ->
  status_code refusal = 404%Z ->
  classic_page reported classic issues ->
  issues <> [] ->
  int_ge (Z.of_nat (List.length issues))
         (settle_total (total_after (JInt 0) t pages) reported) = Ok true ->
  search_issues project_key fields expand
    (map inl resps ++ not_found msg refusal :: inl classic :: rest)%list
  = (Returned (settle_total (total_after (JInt 0) t pages) reported,
               (List.concat (map fst pages) ++ issues)%list),
     (map (jql_request (jql_of project_key) fields) (JNull :: map snd pages)
      ++ [search_request (jql_of project_key) fields expand 0])%list).
Proof.
  intros Hp Ht H404 (kv & Eb & Ei & Et) Hne Hstop. unfold search_issues.
  rewrite (jql_loop_pages _ fields expand t resps pages _ _ _ _ _ Hp Ht).
  unfold not_found. cbn [jql_loop app]. apply Z.eqb_eq in H404. rewrite H404.
  cbn [classic_loop]. unfold read_page. rewrite Eb. cbn [bind].
  unfold get_d. rewrite Ei. fold (page_total kv). rewrite Et.
  fold (settle_total (total_after (JInt 0) t pages) reported).
  assert (Hbind : forall so_far,
            (total' <- (if is_zero so_far then Ok reported else Ok so_far) ;;
             issues0 <- Ok (JArr issues) ;; Ok (JObj kv, total', issues0))
            = Ok (JObj kv, settle_total so_far reported, JArr issues)).
  { intros so_far. unfold settle_total. now destruct (is_zero so_far). }
  rewrite Hbind.
  assert (truthy (JArr issues) = true) as -> by (destruct issues; [contradiction | reflexivity]).
  cbn [negb iter py_len bind Z.add]. rewrite Hstop. cbn [bind].
  unfold extend, append. cbn [app].
  change [jql_request (jql_of project_key) fields (next_token JNull pages)]
    with (map (jql_request (jql_of project_key) fields) [next_token JNull pages]).
  rewrite <- map_app, sent_then_next. reflexivity.
Qed.

Lemma search_fallback_starts_again_from_zero_witness :
  search_issues "ABC" "*all" "names"
    [body [("issues", JArr [issue_stub "ABC-1"]); ("nextPageToken", JStr "t1")];
     failed 404;
     body [("issues", JArr [issue_stub "ABC-1"; issue_stub "ABC-2"]); ("total", JInt 2)]]
  = (Returned (JInt 2, [issue_stub "ABC-1"; issue_stub "ABC-1"; issue_stub "ABC-2"]),
     [jql_request (jql_of "ABC") "*all" JNull;
      jql_request (jql_of "ABC") "*all" (JStr "t1");
      search_request (jql_of "ABC") "*all" "names" 0]).
Proof.
  apply (search_fallback_starts_again_from_zero "ABC" "*all" "names" (JInt 0) (JInt 2)
           [mkResponse 200 None
              (Ok (JObj [("issues", JArr [issue_stub "ABC-1"]);
                         ("nextPageToken", JStr "t1")]))]
           [([issue_stub "ABC-1"], JStr "t1")]
           FromRaiseForStatus (mkResponse 404 None (Ok JNull))
           (mkResponse 200 None
              (Ok (JObj [("issues", JArr [issue_stub "ABC-1"; issue_stub "ABC-2"]);
                         ("total", JInt 2)])))
           [issue_stub "ABC-1"; issue_stub "ABC-2"] []).
  - repeat constructor. eexists. repeat split.
  - repeat constructor.
  - reflexivity.
  - eexists. repeat split.
  - discriminate.
  - reflexivity.
Defined.

End PagingFacts.
(** ** The login form *)

Module LoginFacts.
Import Login LoginSpec StrFacts.

Lemma rstrip_char_none (c : ascii) (s : string) :
  contains_char c s = false -> rstrip_char c s = s.
Proof.
  induction s as [|x s IH]; [reflexivity|]. simpl. intros H.
  apply orb_false_elim in H as (Hx & Hs). rewrite (IH Hs).
  rewrite Ascii.eqb_sym in Hx. rewrite Hx. now destruct s.
Qed.

Lemma prefix_first (old s : string) (c : ascii) (old' : string) :
  old = String c old' -> contains_char c s = false -> prefix old s = false.
Proof.
  intros -> Hc. destruct s as [|x s]; [reflexivity|]. simpl in *.
  apply orb_false_elim in Hc as (Hx & _).
  destruct (ascii_dec c x) as [->|Hne]; [now rewrite Ascii.eqb_refl in Hx | reflexivity].
Qed.

(** No occurrence starts inside a text that lacks the first character of
    the pattern. *)
Lemma remove_all_app (old : string) (c : ascii) (old' : string) (a b : string) :
  old = String c old' -> contains_char c a = false ->
  remove_from old 0 (a ++ b) = a ++ remove_from old 0 b.
Proof.
  intros Eo. induction a as [|x a IH]; intros Hc; [reflexivity|].
  simpl in Hc. apply orb_false_elim in Hc as (Hx & Ha).
  cbn [String.append remove_from].
  assert (prefix old (String x (a ++ b)) = false) as ->.
  { subst old. simpl. destruct (ascii_dec c x) as [->|Hne]; [|reflexivity].
    now rewrite Ascii.eqb_refl in Hx. }
  now rewrite (IH Ha).
Qed.

Lemma remove_from_skip (old : string) (x rest : string) :
  remove_from old (String.length x) (x ++ rest) = remove_from old 0 rest.
Proof.
  induction x as [|c x IH]; [reflexivity|]. simpl. exact IH.
Qed.

Lemma prefix_app (old rest : string) : prefix old (old ++ rest) = true.
Proof.
  induction old as [|c old IH]; [destruct rest; reflexivity|]. simpl.
  destruct (ascii_dec c c); [exact IH | contradiction].
Qed.

Lemma rstrip_char_app (c : ascii) (a s : string) :
  contains_char c s = false -> s <> "" -> rstrip_char c (a ++ s) = a ++ s.
Proof.
  intros Hs Hne. induction a as [|x a IH]; [now apply rstrip_char_none|].
  cbn [String.append rstrip_char]. rewrite IH.
  destruct (a ++ s) eqn:E; [|reflexivity].
  destruct a; [simpl in E; contradiction | discriminate].
Qed.

(** An occurrence at the front goes, and the search resumes behind it. *)
Lemma remove_all_front (c : ascii) (old' rest : string) :
  remove_from (String c old') 0 (String c old' ++ rest)
  = remove_from (String c old') 0 rest.
Proof.
  cbn [String.append remove_from String.length Nat.sub].
  pose proof (prefix_app (String c old') rest) as Hp. cbn [String.append] in Hp.
  rewrite Hp. rewrite Nat.sub_0_r. apply remove_from_skip.
Qed.

Lemma prefix_char (old s : string) (c : ascii) :
  contains_char c old = true -> contains_char c s = false -> prefix old s = false.
Proof.
  revert s. induction old as [|x old IH]; intros s Ho Hs; [discriminate|].
  destruct s as [|y s]; [reflexivity|]. simpl in *.
  apply orb_false_elim in Hs as (Hy & Hs).
  destruct (ascii_dec x y) as [->|Hne]; [|reflexivity].
  rewrite Hy in Ho. simpl in Ho. now apply IH.
Qed.

(** A text that lacks a character of the pattern has no occurrence. *)
Lemma remove_all_none (old s : string) (c : ascii) :
  contains_char c old = true -> contains_char c s = false ->
  remove_from old 0 s = s.
Proof.
  intros Ho. induction s as [|x s IH]; intros Hs; [reflexivity|].
  cbn [remove_from]. rewrite (prefix_char old (String x s) c Ho Hs).
  simpl in Hs. apply orb_false_elim in Hs as (_ & Hs). now rewrite IH.
Qed.

Lemma lstrip_char_none (c : ascii) (s : string) :
  contains_char c s = false -> lstrip_char c s = s.
Proof.
  destruct s as [|x s]; [reflexivity|]. simpl. intros H.
  apply orb_false_elim in H as (Hx & _). rewrite Ascii.eqb_sym in Hx. now rewrite Hx.
Qed.

Lemma rstrip_char_snoc (c : ascii) (s : string) :
  contains_char c s = false -> rstrip_char c (s ++ String c "") = s.
Proof.
  induction s as [|x s IH]; simpl; [now rewrite Ascii.eqb_refl|]. intros H.
  apply orb_false_elim in H as (Hx & Hs). rewrite (IH Hs).
  rewrite Ascii.eqb_sym in Hx. rewrite Hx. now destruct s.
Qed.

Lemma strip_char_none (c : ascii) (s : string) :
  contains_char c s = false -> strip_char c s = s.
Proof.
  intros H. unfold strip_char. rewrite (lstrip_char_none c s H).
  now apply rstrip_char_none.
Qed.

Lemma strip_char_snoc (c : ascii) (s : string) :
  contains_char c s = false -> strip_char c (s ++ String c "") = s.
Proof.
  intros H. unfold strip_char. destruct s as [|x s].
  - simpl. now rewrite Ascii.eqb_refl.
  - cbn [String.append lstrip_char]. simpl in H.
    apply orb_false_elim in H as (Hx & Hs). rewrite Ascii.eqb_sym in Hx. rewrite Hx.
    change (String x (s ++ String c "")) with (String x s ++ String c "").
    apply rstrip_char_snoc. simpl. rewrite Ascii.eqb_sym in Hx. now rewrite Hx, Hs.
Qed.

Lemma site_of_host (name tail : string) :
  site_name name -> tail = "" \/ tail = "/" ->
  remove_all ".atlassian.net" (name ++ ".atlassian.net" ++ tail) = name ++ tail
  /\ remove_all ".atlassian.net" ("https://" ++ name ++ ".atlassian.net" ++ tail)
     = "https://" ++ name ++ tail.
Proof.
  intros (Hdot & _ & _) Ht. unfold remove_all.
  assert (Htail : remove_from ".atlassian.net" 0 tail = tail)
    by (destruct Ht as [-> | ->]; reflexivity).
  split.
  - rewrite (remove_all_app ".atlassian.net" "." "atlassian.net" name _ eq_refl Hdot).
    rewrite (remove_all_front "." "atlassian.net" tail). now rewrite Htail.
  - rewrite <- append_assoc.
    rewrite (remove_all_app ".atlassian.net" "." "atlassian.net" ("https://" ++ name) _ eq_refl)
      by (rewrite contains_append, Hdot; reflexivity).
    rewrite (remove_all_front "." "atlassian.net" tail). now rewrite Htail, append_assoc.
Qed.

Lemma site_of_plain (name tail : string) :
  site_name name -> tail = "" \/ tail = "/" ->
  remove_all ".atlassian.net" (name ++ tail) = name ++ tail
  /\ remove_all "https://" (name ++ tail) = name ++ tail
  /\ remove_all "https://" ("https://" ++ name ++ tail) = name ++ tail
  /\ strip_char "/" (name ++ tail) = name.
Proof.
  intros (Hdot & Hslash & Hcolon) Ht. unfold remove_all.
  assert (Hd : contains_char "." (name ++ tail) = false)
    by (rewrite contains_append, Hdot; destruct Ht as [-> | ->]; reflexivity).
  assert (Hc : contains_char ":" (name ++ tail) = false)
    by (rewrite contains_append, Hcolon; destruct Ht as [-> | ->]; reflexivity).
  split; [apply (remove_all_none _ _ "."); [reflexivity | exact Hd]|].
  split; [apply (remove_all_none _ _ ":"); [reflexivity | exact Hc]|].
  split.
  - rewrite (remove_all_front "h" "ttps://" (name ++ tail)).
    apply (remove_all_none _ _ ":"); [reflexivity | exact Hc].
  - destruct Ht as [-> | ->].
    + rewrite append_nil_r. now apply strip_char_none.
    + now apply strip_char_snoc.
Qed.

Lemma keeps_http (name : string) :
  contains_char ":" name = false ->
  remove_from "https://" 0 ("http://" ++ name) = "http://" ++ name.
Proof.
  intros Hc. cbn [String.append remove_from prefix].
  repeat match goal with
         | |- context [ascii_dec ?a ?b] =>
             destruct (ascii_dec a b); try discriminate; try congruence
         end.
  do 7 f_equal. apply (remove_all_none _ _ ":"); [reflexivity | exact Hc].
Qed.

(** However the site is written in the login form, as its bare name, as
    its host [name.atlassian.net] or as its URL, with or without a slash
    at the end, the client is built for the bare name; an [http://] URL
    is not understood, its scheme stays in the name. *)
Theorem login_form_accepts_every_spelling_of_a_site (name : string) :
  site_name name ->
  Forall (fun written =>
            site_of written = name
            /\ base_url (site_of written)
               = "https://" ++ name ++ ".atlassian.net/rest/api/3")
         (spellings name)
  /\ (name <> "" -> site_of ("http://" ++ name ++ ".atlassian.net") = "http://" ++ name).
Proof.
  intros Hn. pose proof Hn as (Hdot & Hslash & Hcolon).
  assert (Hurl : forall site, site = name ->
            site = name
            /\ base_url site = "https://" ++ name ++ ".atlassian.net/rest/api/3").
  { intros site ->. split; reflexivity. }
  destruct (site_of_host name "" Hn (or_introl eq_refl)) as (H1 & H2).
  destruct (site_of_host name "/" Hn (or_intror eq_refl)) as (H3 & H4).
  destruct (site_of_plain name "" Hn (or_introl eq_refl)) as (P1 & P2 & P3 & P4).
  destruct (site_of_plain name "/" Hn (or_intror eq_refl)) as (Q1 & Q2 & Q3 & Q4).
  rewrite !append_nil_r in *.
  split.
  - apply (Forall_impl _ (fun written => Hurl (site_of written))).
    unfold spellings. repeat constructor; unfold site_of.
    + now rewrite P1, P2.
    + now rewrite H1, P2.
    + change (name ++ ".atlassian.net/") with (name ++ ".atlassian.net" ++ "/").
      now rewrite H3, Q2.
    + unfold remove_all in *.
      rewrite (remove_all_none ".atlassian.net" ("https://" ++ name) ".")
        by (try reflexivity; rewrite contains_append, Hdot; reflexivity).
      now rewrite P3.
    + unfold remove_all in *.
      rewrite (remove_all_none ".atlassian.net" ("https://" ++ name ++ "/") ".")
        by (try reflexivity; rewrite !contains_append, Hdot; reflexivity).
      now rewrite Q3.
    + now rewrite H2, P3.
    + change ("https://" ++ name ++ ".atlassian.net/")
        with ("https://" ++ name ++ ".atlassian.net" ++ "/").
      now rewrite H4, Q3.
  - intros Hne. unfold site_of, remove_all.
    replace ("http://" ++ name ++ ".atlassian.net")
      with (("http://" ++ name) ++ ".atlassian.net" ++ "") by now rewrite append_assoc.
    rewrite (remove_all_app ".atlassian.net" "." "atlassian.net" ("http://" ++ name) _ eq_refl)
      by (rewrite contains_append, Hdot; reflexivity).
    rewrite (remove_all_front "." "atlassian.net" ""). cbn [remove_from].
    rewrite append_nil_r, (keeps_http name Hcolon).
    unfold strip_char.
    assert (lstrip_char "/" ("http://" ++ name) = "http://" ++ name) as -> by reflexivity.
    now apply rstrip_char_app.
Qed.

Lemma login_form_accepts_every_spelling_of_a_site_witness :
  site_of "https://mycompany.atlassian.net/" = "mycompany"
  /\ site_of "mycompany.atlassian.net" = "mycompany"
  /\ site_of "http://mycompany.atlassian.net" = "http://mycompany".
Proof.
  destruct (login_form_accepts_every_spelling_of_a_site "mycompany") as (Hall & Hhttp);
    [repeat split|].
  rewrite Forall_forall in Hall.
  split; [apply (proj1 (Hall "https://mycompany.atlassian.net/" ltac:(simpl; tauto)))|].
  split; [apply (proj1 (Hall "mycompany.atlassian.net" ltac:(simpl; tauto)))|].
  apply Hhttp. discriminate.
Defined.

End LoginFacts.
(** ** The export: storing an issue *)

Module ExportRunFacts.
Import Db DbSpec Tables TablesSpec ExportRun ExportRunSpec PyFacts UpsertFacts.
Import Examples TableExamples ExportRunExamples.

Section Keeps.
Context {A : Type} (part : db -> A).

Lemma keeps_ret {B} (b : B) : keeps part (ret b).
Proof. intros d. reflexivity. Qed.

Lemma keeps_raise {B} (e : exn) : keeps part (@raise B e).
Proof. intros d. reflexivity. Qed.

Lemma keeps_lift {B} (r : result B) : keeps part (lift r).
Proof. intros d. reflexivity. Qed.

Lemma keeps_sbind {B C} (m : Store B) (k : B -> Store C) :
  keeps part m -> (forall b, keeps part (k b)) -> keeps part (sbind m k).
Proof.
  intros Hm Hk d. unfold sbind. specialize (Hm d).
  destruct (m d) as [[b|e] d1]; cbn [snd] in *; [|exact Hm].
  now rewrite (Hk b d1).
Qed.

Lemma keeps_for_each {B} (body : B -> Store unit) (xs : list B) :
  (forall x, keeps part (body x)) -> keeps part (for_each body xs).
Proof.
  intros Hb. induction xs as [|x xs IH]; cbn [for_each]; [apply keeps_ret|].
  apply keeps_sbind; [apply Hb | intros _; exact IH].
Qed.

Lemma keeps_execute (stmt : list sqlval -> Store unit) (params : list json) :
  (forall vals, keeps part (stmt vals)) -> keeps part (execute stmt params).
Proof.
  intros Hs. unfold execute. apply keeps_sbind; [apply keeps_lift | exact Hs].
Qed.

Lemma keeps_logged (body : Store unit) : keeps part body -> keeps part (logged body).
Proof.
  intros Hb d. unfold logged. specialize (Hb d).
  now destruct (body d) as [[[]|e] d1].
Qed.

End Keeps.

Lemma sbind_lift_Ok {B C} (b : B) (k : B -> Store C) : sbind (lift (Ok b)) k = k b.
Proof. reflexivity. Qed.

Ltac branches :=
  repeat match goal with
         | |- context [if ?b then _ else _] => destruct b
         | |- context [match find ?p ?l with _ => _ end] => destruct (find p l)
         end; reflexivity.

Lemma upsert_issue_keeps_links {rt : Runtime} (issue : json)
    (field_map : option (list (string * string))) :
  keeps link_table (upsert_issue issue field_map).
Proof.
  unfold upsert_issue. apply keeps_sbind; [apply keeps_lift|]. intros params.
  apply keeps_execute. intros vals d. unfold exec_upsert_issue. branches.
Qed.

Lemma upsert_comment_keeps_links {rt : Runtime} (k : string) (comment : json) :
  keeps link_table (upsert_comment k comment).
Proof.
  unfold upsert_comment. apply keeps_sbind; [apply keeps_lift|]. intros params.
  apply keeps_execute. intros vals d. unfold exec_upsert_comment. branches.
Qed.

Lemma upsert_comment_keeps_issues {rt : Runtime} (k : string) (comment : json) :
  keeps issue_tables (upsert_comment k comment).
Proof.
  unfold upsert_comment. apply keeps_sbind; [apply keeps_lift|]. intros params.
  apply keeps_execute. intros vals d. unfold exec_upsert_comment. branches.
Qed.

Lemma insert_link_keeps_issues {rt : Runtime} (k : string) (link : json) :
  keeps issue_tables (insert_link k link).
Proof.
  assert (Hx : forall params, keeps issue_tables (execute exec_insert_link params)).
  { intros params. apply keeps_execute. intros vals d. unfold exec_insert_link. branches. }
  unfold insert_link.
  apply keeps_sbind; [apply keeps_lift|]. intros ty.
  apply keeps_sbind; [apply keeps_lift|]. intros link_type.
  apply keeps_sbind.
  - destruct (key_in "inwardIssue" link); [|apply keeps_ret].
    apply keeps_sbind; [apply keeps_lift|]. intros i.
    apply keeps_sbind; [apply keeps_lift|]. intros key. apply Hx.
  - intros _. destruct (key_in "outwardIssue" link); [|apply keeps_ret].
    apply keeps_sbind; [apply keeps_lift|]. intros o.
    apply keeps_sbind; [apply keeps_lift|]. intros key. apply Hx.
Qed.

Lemma insert_links_keeps_issues {rt : Runtime} (k : string) (links : json) :
  keeps issue_tables (insert_links k links).
Proof.
  assert (Hd : keeps issue_tables (exec_delete_links k)) by (intros d; reflexivity).
  unfold insert_links. destruct (iter links) as [items|e].
  - unfold insert_issue_links. apply keeps_sbind; [exact Hd|]. intros _.
    apply keeps_for_each. apply insert_link_keeps_issues.
  - apply keeps_sbind; [exact Hd|]. intros _. apply keeps_raise.
Qed.

(** What [store_issue] does once [upsert_issue] has returned. *)
Lemma store_issue_after_upsert {rt : Runtime} (fetch : string -> option (list json))
    (field_map : option (list (string * string))) (k : string) (issue : json)
    (d d1 : db) :
  upsert_issue issue field_map d = (Ok tt, d1) ->
  issue_tables (snd (store_issue fetch field_map k issue d)) = issue_tables d1.
Proof.
  intros U. unfold store_issue. unfold sbind at 1. rewrite U.
  match goal with |- issue_tables (snd (?m d1)) = _ => enough (keeps issue_tables m) by auto end.
  apply keeps_sbind; [apply keeps_lift|]. intros links.
  apply keeps_sbind.
  { destruct (truthy links); [apply insert_links_keeps_issues | apply keeps_ret]. }
  intros _. apply keeps_sbind; [apply keeps_lift|]. intros comments.
  apply keeps_sbind; [apply keeps_lift|]. intros items.
  apply keeps_for_each. apply upsert_comment_keeps_issues.
Qed.

(** [upsert_issue] returns only for a payload whose key is a str. *)
Lemma upsert_issue_reads_a_str_key {rt : Runtime} (issue : json)
    (field_map : option (list (string * string))) (d d1 : db) :
  upsert_issue issue field_map d = (Ok tt, d1) ->
  exists k, get_d issue "key" (JStr "?") = Ok (JStr k).
Proof.
  intros U. apply upsert_issue_Ok in U as (params & vals & Ep & _ & _).
  apply issue_params_head in Ep
    as (fields & project & fallback & p_id & p_key & p_pk & p_s & rest
        & _ & _ & _ & _ & Hk & _ & Hp & _).
  destruct p_key; try discriminate. exists s.
  unfold getitem in Hk. unfold get_d. destruct issue; try discriminate.
  destruct (lookup "key" kv); [now injection Hk as -> | discriminate].
Qed.

(** An issue that arrives without links keeps the links the store has
    for it: when the payload holds nothing under [issuelinks] (no entry,
    an empty list, null), a round of the export leaves the link table as
    it was, whatever else the round does.  Links removed in JIRA since
    the last export are therefore still there afterwards. *)
Theorem export_keeps_links_the_payload_no_longer_has {rt : Runtime}
    (fetch : string -> option (list json)) (field_map : option (list (string * string)))
    (issue links : json) (d : db) :
  payload_links issue = Ok links ->
  truthy links = false ->
  issue_links (snd (process_issue fetch field_map issue d)) = issue_links d
  /\ issue_links_seq (snd (process_issue fetch field_map issue d)) = issue_links_seq d.
Proof.
  intros Hl Hf.
  enough (H : link_table (snd (process_issue fetch field_map issue d)) = link_table d).
  { unfold link_table in H. now injection H. }
  unfold process_issue.
  destruct (get_d issue "key" (JStr "?")) as [key|e]; [|reflexivity].
  assert (Hu : keeps link_table (logged (upsert_issue issue field_map)))
    by apply keeps_logged, upsert_issue_keeps_links.
  destruct key; try apply Hu.
  apply keeps_logged. unfold store_issue. rewrite Hl.
  apply keeps_sbind; [apply upsert_issue_keeps_links|]. intros _.
  rewrite sbind_lift_Ok, Hf.
  apply keeps_sbind; [apply keeps_ret|]. intros _.
  apply keeps_sbind; [apply keeps_lift|]. intros comments.
  apply keeps_sbind; [apply keeps_lift|]. intros items.
  apply keeps_for_each. apply upsert_comment_keeps_links.
Qed.

Lemma export_keeps_links_the_payload_no_longer_has_witness :
  issue_links
    (snd (@process_issue example_runtime no_comments None
            (issue_payload "10001" "ABC-1" "First, without links"
               [("issuelinks", JArr [])]) store_linked))
  = issue_links store_linked
  /\ List.length (links_of "ABC-1" store_linked) = 2.
Proof.
  split; [|reflexivity].
  apply (@export_keeps_links_the_payload_no_longer_has example_runtime no_comments None
           _ (JArr []) store_linked); reflexivity.
Defined.

(** A round of the export does not raise for an issue that is a dict: an
    exception of the round is logged.  When it is [upsert_issue] that
    raised, the store is as before the round; once [upsert_issue] has
    returned, the issue stays stored as it left it, whatever happens to
    the links and the comments of the issue afterwards. *)
Theorem a_failing_issue_is_logged_and_stays_stored {rt : Runtime}
    (fetch : string -> option (list json)) (field_map : option (list (string * string)))
    (ikv : list (string * json)) (d : db) :
  exists warning d',
    process_issue fetch field_map (JObj ikv) d = (Ok warning, d')
    /\ (forall e, fst (upsert_issue (JObj ikv) field_map d) = Raise e ->
          warning = Some e /\ d' = d)
    /\ (forall d1, upsert_issue (JObj ikv) field_map d = (Ok tt, d1) ->
          issues d' = issues d1 /\ projects d' = projects d1).
Proof.
  unfold process_issue. cbn [get_d].
  set (key := match lookup "key" ikv with Some v => v | None => JStr "?" end).
  assert (Hfail : forall e d0, upsert_issue (JObj ikv) field_map d = (Raise e, d0) -> d0 = d).
  { intros e d0 E.
    apply (TableFacts.run_upsert_fails (UpsertIssue (JObj ikv) field_map) d d0 e E). }
  assert (Hplain : exists warning d',
            logged (upsert_issue (JObj ikv) field_map) d = (Ok warning, d')
            /\ (forall e, fst (upsert_issue (JObj ikv) field_map d) = Raise e ->
                   warning = Some e /\ d' = d)
            /\ (forall d1, upsert_issue (JObj ikv) field_map d = (Ok tt, d1) -> d' = d1)).
  { unfold logged. destruct (upsert_issue (JObj ikv) field_map d) as [[[]|e] d0] eqn:U.
    - exists None, d0. split; [reflexivity|]. split; [discriminate|].
      intros d1 E. now injection E.
    - exists (Some e), d0. split; [reflexivity|]. split; [|discriminate].
      cbn [fst]. intros e' E. injection E as <-. split; [reflexivity|].
      now apply (Hfail e). }
  assert (Hother : (forall k, key <> JStr k) ->
            exists warning d',
              logged (upsert_issue (JObj ikv) field_map) d = (Ok warning, d')
              /\ (forall e, fst (upsert_issue (JObj ikv) field_map d) = Raise e ->
                     warning = Some e /\ d' = d)
              /\ (forall d1, upsert_issue (JObj ikv) field_map d = (Ok tt, d1) ->
                     issues d' = issues d1 /\ projects d' = projects d1)).
  { intros _. destruct Hplain as (w & d' & H1 & H2 & H3). exists w, d'.
    split; [exact H1|]. split; [exact H2|]. intros d1 U. now rewrite (H3 d1 U). }
  destruct key as [| | | |k| |] eqn:Ek; try (apply Hother; intros k; discriminate).
  clear Hother Hplain. unfold logged.
  pose proof (store_issue_after_upsert fetch field_map k (JObj ikv) d) as Hafter.
  destruct (store_issue fetch field_map k (JObj ikv) d) as [[[]|e] d0] eqn:S.
  - exists None, d0. split; [reflexivity|]. split.
    + intros e U. exfalso. unfold store_issue, sbind in S.
      destruct (upsert_issue (JObj ikv) field_map d) as [[[]|e0] d1]; discriminate.
    + intros d1 U. specialize (Hafter d1 U). cbn [snd] in Hafter.
      unfold issue_tables in Hafter. injection Hafter as Hp Hi. now split.
  - exists (Some e), d0. split; [reflexivity|]. split.
    + intros e' U. unfold store_issue in S. unfold sbind at 1 in S.
      destruct (upsert_issue (JObj ikv) field_map d) as [[[]|e0] d1] eqn:U'; [discriminate|].
      cbn [fst] in U. injection U as <-. injection S as <- <-.
      split; [reflexivity|]. now apply (Hfail e0).
    + intros d1 U. specialize (Hafter d1 U). cbn [snd] in Hafter.
      unfold issue_tables in Hafter. injection Hafter as Hp Hi. now split.
Qed.

Lemma a_failing_issue_is_logged_and_stays_stored_witness :
  exists d',
    @process_issue example_runtime offline None xyz2 store_xyz = (Ok (Some KeyError), d')
    /\ issues d' = issues (after (@upsert_issue example_runtime xyz2 None) store_xyz)
    /\ List.length (issues d') = 1.
Proof.
  destruct (@a_failing_issue_is_logged_and_stays_stored example_runtime offline None
              [("id", JStr "20002"); ("key", JStr "XYZ-2");
               ("fields", JObj [("summary", JStr "Second of the last");
                                ("comment", JObj [("comments",
                                   JArr [JObj [("body", JStr "No id")]])])])]
              store_xyz) as (w & d' & H1 & _ & H3).
  assert (U : @upsert_issue example_runtime xyz2 None store_xyz
             = (Ok tt, after (@upsert_issue example_runtime xyz2 None) store_xyz))
    by (vm_compute; reflexivity).
  assert (Hw : fst (@process_issue example_runtime offline None xyz2 store_xyz)
               = Ok (Some KeyError)) by (vm_compute; reflexivity).
  pose proof (f_equal fst H1) as Hf. cbn [fst] in Hf.
  change (fst (@process_issue example_runtime offline None xyz2 store_xyz) = Ok w) in Hf.
  rewrite Hw in Hf. injection Hf as <-.
  destruct (H3 _ U) as (Hi & _).
  exists d'. split; [exact H1|]. split; [exact Hi|].
  rewrite Hi. vm_compute. reflexivity.
Defined.

End ExportRunFacts.
(** ** The standard CSV export *)

Module CsvExportFacts.
Import Db DbSpec Exporter CsvExport CsvExportSpec PyFacts.
Import Examples ExportExamples JsonExportExamples.

Lemma In_set_add (names : list string) (n x : string) :
  In x (set_add names n) <-> In x names \/ x = n.
Proof.
  unfold set_add. destruct (existsb (String.eqb n) names) eqn:E.
  - split; [tauto|]. intros [H| ->]; [exact H|].
    apply existsb_exists in E as (y & Hy & Ey). apply String.eqb_eq in Ey. now subst.
  - rewrite in_app_iff. simpl. intuition.
Qed.

Lemma NoDup_set_add (names : list string) (n : string) :
  NoDup names -> NoDup (set_add names n).
Proof.
  intros Hn. unfold set_add. destruct (existsb (String.eqb n) names) eqn:E; [exact Hn|].
  apply NoDup_app; [exact Hn | repeat constructor; auto | ].
  intros x Hx [E'|[]]. subst x.
  assert (existsb (String.eqb n) names = true)
    by (apply existsb_exists; exists n; split; [exact Hx | apply String.eqb_refl]).
  congruence.
Qed.

Lemma fold_set_add (keys : list string) : forall names,
  NoDup names ->
  NoDup (fold_left set_add keys names)
  /\ forall x, In x (fold_left set_add keys names) <-> In x names \/ In x keys.
Proof.
  induction keys as [|k keys IH]; intros names Hn; cbn [fold_left].
  - split; [exact Hn|]. simpl. tauto.
  - destruct (IH (set_add names k) (NoDup_set_add names k Hn)) as (H1 & H2).
    split; [exact H1|]. intros x. rewrite H2, In_set_add. simpl. intuition.
Qed.

Section WithLibs.
Context {rt : Runtime} {jl : JsonLib}.

Lemma collect_names_cases (names : list string) (issue : row) :
  collect_names names issue
  = match custom_json issue with
    | Some (JObj cf) => Ok (fold_left set_add (map fst cf) names)
    | Some _ => Raise AttributeError
    | None => Ok names
    end.
Proof.
  unfold collect_names, custom_json.
  destruct (col "custom_fields" issue) as [|z|f|s]; cbn [sql_truthy].
  - reflexivity.
  - now destruct (negb (z =? 0)%Z).
  - now destruct (negb (float_is_zero f)).
  - destruct (String.eqb s ""); reflexivity.
Qed.

Lemma custom_cells_cases (names : list string) (issue : row) :
  custom_cells names issue
  = match custom_json issue with
    | Some (JObj cf) => Ok (map (custom_cell cf) names)
    | Some _ => match names with [] => Ok [] | _ => Raise AttributeError end
    | None => Ok (map (fun _ => "") names)
    end.
Proof.
  unfold custom_cells, custom_json.
  destruct (col "custom_fields" issue) as [|z|f|s]; cbn [sql_truthy].
  - reflexivity.
  - now destruct (negb (z =? 0)%Z).
  - now destruct (negb (float_is_zero f)).
  - destruct (String.eqb s ""); reflexivity.
Qed.

(** The first loop raises exactly on an issue whose custom fields are
    not an object; otherwise it gathers the keys of the objects. *)
Lemma collect_all (issues : list row) : forall names,
  NoDup names ->
  match foldM collect_names issues names with
  | Raise e => e = AttributeError /\ existsb not_an_object issues = true
  | Ok out =>
      existsb not_an_object issues = false
      /\ NoDup out
      /\ forall x, In x out <->
           In x names
           \/ exists issue cf, In issue issues /\ custom_object issue = Some cf
                               /\ In x (map fst cf)
  end.
Proof.
  induction issues as [|issue issues IH]; intros names Hn; cbn [foldM existsb].
  - split; [reflexivity|]. split; [exact Hn|]. intros x. split; [tauto|].
    intros [H|(i & cf & [] & _)]. exact H.
  - rewrite collect_names_cases. unfold not_an_object, custom_object.
    destruct (custom_json issue) as [v|] eqn:Ej.
    + destruct v; cbn [bind orb]; try (split; reflexivity).
      destruct (fold_set_add (map fst kv) names Hn) as (Hn' & Hin).
      specialize (IH _ Hn').
      destruct (foldM collect_names issues (fold_left set_add (map fst kv) names))
        as [out|e]; [|exact IH].
      destruct IH as (Hb & Ho & Hx). split; [exact Hb|]. split; [exact Ho|].
      intros x. rewrite Hx, Hin. split.
      * intros [[H|H]|(i & cf & Hi & Hc & Hk)].
        -- now left.
        -- right. exists issue, kv. rewrite Ej. split; [now left | now split].
        -- right. exists i, cf. split; [now right | now split].
      * intros [H|(i & cf & [<-|Hi] & Hc & Hk)].
        -- left. now left.
        -- rewrite Ej in Hc. injection Hc as <-. left. now right.
        -- right. exists i, cf. auto.
    + cbn [bind orb]. specialize (IH names Hn).
      destruct (foldM collect_names issues names) as [out|e]; [|exact IH].
      destruct IH as (Hb & Ho & Hx). split; [exact Hb|]. split; [exact Ho|].
      intros x. rewrite Hx. split.
      * intros [H|(i & cf & Hi & Hc & Hk)]; [now left|].
        right. exists i, cf. split; [now right | now split].
      * intros [H|(i & cf & [<-|Hi] & Hc & Hk)].
        -- now left.
        -- rewrite Ej in Hc. discriminate.
        -- right. exists i, cf. auto.
Qed.

(** The second loop returns when the first has. *)
Lemma rows_of_issues (names : list string) (issues : list row) :
  existsb not_an_object issues = false ->
  exists rows,
    mapM (issue_cells names) issues = Ok rows
    /\ List.length rows = List.length issues
    /\ Forall (fun r => List.length r = List.length CORE_FIELDS + List.length names) rows.
Proof.
  induction issues as [|issue issues IH]; cbn [existsb mapM]; intros Hb.
  - exists []. repeat split. constructor.
  - apply orb_false_elim in Hb as (Hi & Hb). destruct (IH Hb) as (rows & Er & El & Ef).
    unfold issue_cells at 1. rewrite custom_cells_cases. unfold not_an_object in Hi.
    rewrite Er.
    destruct (custom_json issue) as [v|]; [destruct v; try discriminate|]; cbn [bind];
      eexists; (split; [reflexivity|]); cbn [List.length]; (split; [now rewrite El|]);
      constructor; auto; now rewrite length_app, !length_map.
Qed.

End WithLibs.

Lemma insert_name_perm (n : string) (names : list string) :
  Permutation (insert_name n names) (n :: names).
Proof.
  induction names as [|m names IH]; simpl; [auto|].
  destruct (str_leb n m); [auto|]. rewrite IH. apply perm_swap.
Qed.

Lemma sorted_perm (names : list string) : Permutation (sorted names) names.
Proof.
  induction names as [|n names IH]; simpl; [auto|].
  rewrite insert_name_perm. now constructor.
Qed.

Lemma insert_name_sorted (n : string) (names : list string) :
  StronglySorted (fun a b => str_leb a b = true) names ->
  StronglySorted (fun a b => str_leb a b = true) (insert_name n names).
Proof.
  induction 1 as [|m names Hs IH Hm]; simpl; [repeat constructor|].
  destruct (str_leb n m) eqn:E.
  - constructor; [now constructor|]. constructor; [exact E|].
    rewrite Forall_forall in *. intros x Hx.
    apply (TableFacts.str_leb_trans n m x E (Hm x Hx)).
  - constructor; [exact IH|].
    apply (TableFacts.Forall_perm _ (n :: names));
      [symmetry; apply insert_name_perm|].
    constructor; [now apply TableFacts.str_leb_total | exact Hm].
Qed.

Lemma sorted_ascending (names : list string) :
  NoDup names -> StronglySorted ascending (sorted names).
Proof.
  intros Hn.
  assert (Hs : StronglySorted (fun a b => str_leb a b = true) (sorted names)).
  { clear Hn. induction names as [|n names IH]; simpl; [constructor|].
    now apply insert_name_sorted. }
  assert (Hd : NoDup (sorted names))
    by (apply (Permutation_NoDup (Permutation_sym (sorted_perm names)) Hn)).
  induction Hs as [|x l Hs IH Hx]; [constructor|].
  inversion Hd as [|? ? Hnx Hdl]; subst. constructor; [now apply IH|].
  rewrite Forall_forall in *. intros y Hy. split; [now apply Hx|].
  intros ->. contradiction.
Qed.

(** The issues file of the standard CSV export has, behind the 26 core
    columns, one column [custom:<name>] per custom field name that occurs
    in an exported issue, each name once, in ascending order; there is
    one row per exported issue and every row has as many cells as the
    header.  The export raises, with AttributeError, exactly when the
    custom fields of some exported issue decode to JSON that is not an
    object; without issues it writes no file. *)
Theorem csv_export_has_a_column_per_custom_field {rt : Runtime} {jl : JsonLib}
    (d : db) (project_key : option string) :
  (get_issues project_key d = [] -> export_csv d project_key = Ok [])
  /\ (forall e, export_csv d project_key = Raise e <->
        e = AttributeError
        /\ existsb not_an_object (get_issues project_key d) = true)
  /\ (forall files,
        export_csv d project_key = Ok files -> get_issues project_key d <> [] ->
        exists f rest names,
          files = f :: rest
          /\ csv_header f = (CORE_FIELDS ++ map (String.append "custom:") names)%list
          /\ StronglySorted ascending names
          /\ (forall n, In n names <->
                exists issue cf, In issue (get_issues project_key d)
                                 /\ custom_object issue = Some cf
                                 /\ In n (map fst cf))
          /\ List.length (csv_rows f) = List.length (get_issues project_key d)
          /\ Forall (fun r => List.length r = List.length (csv_header f)) (csv_rows f)).
Proof.
  unfold export_csv.
  destruct (get_issues project_key d) as [|i0 rest0] eqn:Ei.
  { split; [reflexivity|]. split; [|intros files _ Hne; now contradiction Hne].
    intros e. split; [discriminate | intros (_ & H); discriminate]. }
  pose proof (collect_all (i0 :: rest0) [] (NoDup_nil _)) as Hc.
  destruct (foldM collect_names (i0 :: rest0) []) as [out|e0].
  - destruct Hc as (Hb & Hn & Hin). cbn [bind].
    destruct (rows_of_issues (sorted out) (i0 :: rest0) Hb) as (rows & Er & El & Ef).
    rewrite Er. cbn [bind].
    set (comments := if match project_key with
                        | Some k => negb (String.eqb k "")
                        | None => false
                        end
                     then filter (of_exported_issue (i0 :: rest0)) (get_comments SNull d)
                     else get_comments SNull d).
    split; [discriminate|]. split.
    { intros e. rewrite Hb. split; [|intros (_ & H); discriminate].
      destruct comments; discriminate. }
    intros files E _.
    assert (Hfiles : exists f rest, files = f :: rest
              /\ csv_header f = (CORE_FIELDS ++ map (String.append "custom:") (sorted out))%list
              /\ csv_rows f = rows).
    { destruct comments; injection E as <-; eexists; eexists;
        (split; [reflexivity|]); split; reflexivity. }
    destruct Hfiles as (f & rest & -> & Hh & Hr).
    exists f, rest, (sorted out). split; [reflexivity|]. split; [exact Hh|].
    split; [now apply sorted_ascending|]. split; [|split].
    + intros n. split.
      * intros H. apply (Permutation_in _ (sorted_perm out)) in H.
        apply Hin in H as [[]|H]. exact H.
      * intros H. apply (Permutation_in _ (Permutation_sym (sorted_perm out))).
        apply Hin. now right.
    + now rewrite Hr.
    + rewrite Hr, Hh, length_app, length_map. exact Ef.
  - destruct Hc as (-> & Hb). cbn [bind]. split; [discriminate|]. split.
    + intros e. split; [intros E; injection E as <-; now split | intros (-> & _); reflexivity].
    + intros files E. discriminate.
Qed.

Lemma csv_export_has_a_column_per_custom_field_witness :
  exists f,
    @export_csv example_runtime CsvExportExamples.loads_points
      CsvExportExamples.store21 None = Ok [f]
    /\ csv_header f = (CORE_FIELDS ++ ["custom:Story Points"])%list
    /\ map (fun r => nth 26 r "-") (csv_rows f) = ["5"].
Proof.
  destruct (@csv_export_has_a_column_per_custom_field example_runtime
              CsvExportExamples.loads_points CsvExportExamples.store21 None)
    as (_ & _ & H).
  assert (E : exists f, @export_csv example_runtime CsvExportExamples.loads_points
                          CsvExportExamples.store21 None = Ok [f])
    by (eexists; vm_compute; reflexivity).
  destruct E as (f & E). exists f. split; [exact E|].
  destruct (H [f] E) as (f' & rest & names & Hf & Hh & _); [discriminate|].
  injection Hf as <- <-.
  vm_compute in E. injection E as <-. split; reflexivity.
Defined.

Section Comments.
Context {rt : Runtime} {jl : JsonLib}.

Lemma get_all_comments (d : db) :
  get_comments SNull d = order_by (by_cols "issue_key" "created") (comments d).
Proof. reflexivity. Qed.

Lemma of_exported_issue_project (d : db) (k : string) (c : row) :
  k <> "" ->
  of_exported_issue (get_issues (Some k) d) c = true <-> of_project d k c.
Proof.
  intros Hk. unfold of_exported_issue, of_project, get_issues.
  destruct (String.eqb_spec k "") as [E|_]; [contradiction|].
  rewrite existsb_exists. split.
  - intros (i & Hi & He). apply TableFacts.In_order_by in Hi.
    apply filter_In in Hi as (Hi & Hp). exists i. auto.
  - intros (i & Hi & Hp & He). exists i. split; [|exact He].
    apply TableFacts.In_order_by. apply filter_In. auto.
Qed.

End Comments.

(** The comments file of the export of a project holds the comments of
    the issues of that project and no others: they are the comments
    [get_comments()] returns, in its order, narrowed to those whose issue
    key is the key of an issue of the project; when there is none, no
    comments file is written.  The export of the whole store holds all
    the comments. *)
Theorem comments_csv_holds_the_comments_of_the_project {rt : Runtime} {jl : JsonLib}
    (d : db) (k : string) (files : list csv_file) :
  k <> "" ->
  export_csv d (Some k) = Ok files ->
  get_issues (Some k) d <> [] ->
  exists f cs keep,
    files = f :: comments_file ("_" ++ k) cs
    /\ cs = filter keep (get_comments SNull d)
    /\ (forall c, In c cs <-> In c (comments d) /\ of_project d k c)
    /\ (forall files', export_csv d None = Ok files' ->
          exists f', files' = f' :: comments_file "" (get_comments SNull d)).
Proof.
  intros Hk E Hne.
  assert (Hall : get_issues None d <> []).
  { intros H0. apply Hne. unfold get_issues in *.
    destruct (String.eqb k ""); [exact H0|].
    destruct (issues d) as [|i l] eqn:Ei; [reflexivity|].
    exfalso. assert (Hi : In i (order_by (by_col "key") (i :: l)))
      by (apply TableFacts.In_order_by; now left).
    rewrite H0 in Hi. destruct Hi. }
  unfold export_csv in E.
  destruct (get_issues (Some k) d) as [|i0 rest0] eqn:Ei; [now contradiction Hne|].
  destruct (foldM collect_names (i0 :: rest0) []) as [out|e0]; [|discriminate].
  cbn [bind] in E.
  destruct (mapM (issue_cells (sorted out)) (i0 :: rest0)) as [rows|e1]; [|discriminate].
  cbn [bind] in E.
  destruct (String.eqb_spec k "") as [E0|_]; [contradiction|]. cbn [negb] in E.
  set (cs := filter (of_exported_issue (i0 :: rest0)) (get_comments SNull d)) in *.
  eexists. exists cs, (of_exported_issue (i0 :: rest0)).
  split; [|split; [reflexivity|split]].
  - unfold comments_file. destruct cs; injection E as <-; reflexivity.
  - intros c. unfold cs. rewrite filter_In, get_all_comments, TableFacts.In_order_by.
    rewrite <- Ei. now rewrite (of_exported_issue_project d k c Hk).
  - intros files' E'. unfold export_csv in E'.
    destruct (get_issues None d) as [|j0 rest1]; [now contradiction Hall|].
    destruct (foldM collect_names (j0 :: rest1) []) as [out'|e']; [|discriminate].
    cbn [bind] in E'.
    destruct (mapM (issue_cells (sorted out')) (j0 :: rest1)) as [rows'|e1']; [|discriminate].
    cbn [bind] in E'. unfold comments_file.
    destruct (get_comments SNull d); injection E' as <-; eexists; reflexivity.
Qed.

Lemma comments_csv_holds_the_comments_of_the_project_witness :
  exists f,
    @export_csv example_runtime example_json store3 (Some "ABC")
    = Ok [f; mkCsv "comments_ABC.csv" comment_headers
               [["ABC-1"; "Ann"; ""; "Looks fine"; "2024-01-02"; ""]]].
Proof.
  assert (E : exists f c, @export_csv example_runtime example_json store3 (Some "ABC")
                          = Ok [f; c])
    by (eexists; eexists; vm_compute; reflexivity).
  destruct E as (f & c & E). exists f.
  destruct (@comments_csv_holds_the_comments_of_the_project example_runtime example_json
              store3 "ABC" [f; c]) as (f' & cs & keep & Hf & _ & Hin & _);
    [discriminate | exact E | discriminate |].
  rewrite E. vm_compute in E. injection E as <- <-. reflexivity.
Defined.

End CsvExportFacts.
